(* ===== verification/_CoqProject ===== *)
-Q . S2P
Prelude.v
Programs.v
Layout.v
Ecall.v
Memory.v
Machine.v
Heap.v
LinkerScript.v
Blk.v
Ext2.v
Ext2File.v
Ext2Dir.v
SelfTest.v
Vring.v
QueueState.v
BlkVring.v
Chain.v
VirtioDriver.v
Pci.v
Io.v
Timer.v
Syscall.v
FsTest.v
Trap.v
Ramdisk.v
RefDevice.v
BlkTheorems.v
Ext2Theorems.v
Ext2DirTheorems.v
VringTheorems.v
HeapTheorems.v
LegacyBus.v
BringUp.v
BlkBoot.v
Invariants.v
SelfTestTheorems.v
IoTheorems.v
FileSpec.v
Board.v
ChainTheorems.v
Randomness.v
MachineWorks.v
DeviceBoot.v
BusScan.v
MachineBoot.v
RefChain.v
BootDevice.v
TimerTheorems.v
SystemInvariant.v
SyscallTheorems.v
FsTestTheorems.v
SyscallMachine.v
MachineInvariant.v
TrapTheorems.v
Boot.v
BootTheorems.v
StartCode.v
Runtime.v
Stdio.v
BufferedStdio.v
RuntimeTheorems.v
