(* ===== verification/Prelude.v ===== *)
(** * DemandOS: a verification development

    DemandOS is a RISC-V unikernel in C.  A program linked with it makes
    system calls: the [scall] instruction traps, the trap code saves the
    registers and calls the dispatcher, and the handler of the call works on
    files, the console, the clock or the timers.  The calls on files go
    through a table of descriptors to an ext2 volume, the volume is on a
    virtio block device, and requests reach the device over a virtqueue in
    shared memory; the console and the source of randomness have queues of
    their own.  This development models that stack from the trap down to the
    bytes in the rings, together with the boot code, the allocators, the PCI
    scan, the initialisation of the devices and the programs that come with
    the kernel.  It proves what each layer promises the one above it, and puts
    the layers together: from the state the firmware leaves, through the boot,
    to what the program prints on the console.

    ** How programs are modelled

    A C function is a function in the monad [prog S] of this file: it takes
    the state [S] and returns an outcome and the next state.  An outcome is
    [Done v], or [Stop] with the reason: [Undefined] (C gives the operation
    no meaning: a null pointer is called, an index is outside of its array, a
    division by zero), [PowerOff] (epoweroff), [AssertFailed], or [Hang] (a
    loop did not end within its fuel).  Integers are [Z] with [u8] .. [u64],
    [i32] and [i64] written where C converts; a structure is the bytes it is
    made of, and a field is a range of them (Layout.v).  Output parameters
    are arguments and results; where two objects alias (the block buffer and
    its own front in [inode_from_dir], the caller's path in [strtok]) one
    list holds both.  Trace output is compiled out, as in the default build.
    Assembly (Trap.v, Boot.v) is a list of instructions executed on the
    registers.

    States are layered: the machine (Machine.v) or any other [BlkDev] at the
    bottom, the descriptor layer [io_state] on top of it, the [system] with
    the timers, the program's memory and the table of handlers on top of
    that, and the [core] with the registers outermost; [on] and [lift] run a
    function of a lower layer in a higher one.  The objects of the program
    are in a memory of their own ([user]): a system call is given their
    addresses, and the frame of a trap and the kernel's objects are others.

    Fuel.  Every loop of the code whose end is not structural has fuel, and a
    theorem says that the fuel given is enough: [sector_turns] (a request
    touches at most size/512 + 2 sectors), [block_turns] (size/1024 + 2
    blocks), the length of the path (a path has no more components than
    bytes), [scan_turns] = 1024 (entries of a block of 1024 bytes, each at
    least one byte long; an entry of length 0 really loops for ever,
    [directory_zero_rec_len]), [user_string] (the number of bytes the memory
    holds, [user_string_found]), [patience] (how many steps the device at
    hand may need; a device that stays silent hangs the driver for every
    value, [silent_device_hangs]), and the fuel of [sleep_loop] and
    [demand_loop] (the argument [turns] of the handlers; the theorems give a
    bound computed from the clock).  The runtime's [main] never ends: its fuel
    is the number of turns of its loop that are looked at.

    What is not in the repository is a class, with what the code relies on as
    its laws: the firmware console ([Console], [QuietConsole]), the devices
    ([Platform], [VirtioBlk], [VirtioChain], [LegacyBus], [RtcLaw],
    [QuietRegs]), the linker's symbols ([Linker]; ld/standard.lds defines
    them, LinkerScript.v) and those of the program ([BootSymbols],
    [RuntimeSymbols], [FsTestSymbols]), the contents of uninitialised objects
    ([Uninit], [StaleVring]), the calling convention of the compiler
    ([CallConvention], [CalleeSaved]; one law of the former goes beyond the
    calling convention and says so), the C library ([Stdio] with the laws
    [Stream] and [StreamRuns], and [Posix]), the number of its system calls and the build option ([Build]); the clock and
    the deferred functions are section variables.  [Board] and [Services] are
    what the descriptor layer and the handlers use of the drivers below them,
    and [QuietBoard] and [QuietServices] what the invariant of the system
    needs of these; the machine implements all four.  Every law is shown to
    hold of a concrete instance (Ramdisk.v, RefDevice.v, RefChain.v,
    BootDevice.v, BufferedStdio.v and the ends of the theorem files), on which the witnesses of
    the theorems run.

    ** The files

    - Prelude: integers, byte lists ([slice], [splice]), little-endian
      fields, the monad, its tactics ([run], [run_with]).  Programs: [upholds]
      (an invariant kept on every outcome), its rules and the tactic of the
      same name.  Layout: packed structures.  Ecall: src/e.c, the printing
      routines.
    - Memory, Machine: physical memory; the record of everything the drivers
      read and write; the structures of include/virtio.h.
    - Heap: src/memory.c.  LinkerScript: the managed memory of
      ld/standard.lds.
    - Blk: the byte-level half of src/blk.c ([virtio_blk_read_sync],
      [virtio_blk_write_sync]) against the interface [BlkDev], and the
      contract of that interface, [BlkSpec].
    - Ext2, Ext2File, Ext2Dir: src/ext2.c and include/ext2.h: operations in
      the code's order, then the reference views they are compared with (the
      place of an inode, the bytes of a file, the entries of a directory).
      SelfTest: [debug_dirent] and the self test of src/ext2.c.
    - Vring: src/virtio.c.  QueueState: runs of it on a symbolic machine.
      BlkVring: the sector half of src/blk.c; it makes the machine an
      instance of [BlkDev] and [BlkSpec] for every device with the law
      [VirtioBlk].  Chain: requests of one descriptor, for any device with
      the law [VirtioChain].
    - VirtioDriver: src/virtio_driver.c, the rest of src/virtio.c and
      [configure_dl_random] of src/os.c.  Pci: src/pci.c and include/pci.h.
    - Io: src/io.c, [system_time] of src/system.c and the system calls of
      src/strap_handler.c on descriptors.  Board: the same on the machine.
    - Timer: src/os.c, the timer of src/system.c, and the timer interrupt,
      nanosleep, demand, set_brk and set_child_tid of src/strap_handler.c.
    - Syscall: the rest of src/strap_handler.c -- the other handlers, the
      table, the dispatcher -- and src/util.c.
    - Trap: src/strap.S and the stubs of src/demandos.c.
    - Boot: src/boot.S and src/argcv.c.
    - Runtime: src/runtime.c and include/event.h.  FsTest: the two programs
      of driver/.
    - StartCode, Stdio: what is assumed of the C library's start code and of
      its standard output.  BufferedStdio: an implementation of the latter.
    - LegacyBus: the devices on the bus as the initialisers see them.
      Ramdisk, RefDevice, RefChain, BootDevice: concrete devices.
    - Properties, from the bytes up: BlkTheorems; Ext2Theorems,
      Ext2DirTheorems, SelfTestTheorems; Invariants (what all functions of
      blk.c, ext2.c and io.c keep on any volume); IoTheorems, FileSpec (the
      contract of an open file); HeapTheorems; TimerTheorems.
    - The devices: VringTheorems (the disk), ChainTheorems (console and
      entropy), Randomness (requests of any length); BringUp, BlkBoot,
      DeviceBoot (the initialisers), BusScan (the scan of the bus).
    - The whole: MachineWorks (the invariant of the machine), MachineBoot
      (the scan establishes it), SystemInvariant (the invariant of the system
      on any board), MachineInvariant (the two together); SyscallTheorems,
      SyscallMachine (the calls, on any board and on the machine);
      TrapTheorems; BootTheorems; RuntimeTheorems, FsTestTheorems.

    ** What is shown

    - The boot: from what the firmware leaves, on any board of legacy devices
      with a disk, a console and a source of randomness, [_boot] brings up
      every device and ends with [_start] about to run in user mode, with the
      initial process stack in place ([boot_starts_program],
      [configure_pci_brings_up]).
    - The system: the boot establishes an invariant -- all queues in order and
      apart from each other, the heap and the stack, the descriptor table, the
      timers and the table of handlers valid -- and the program that it starts
      never leaves it, whatever it computes and whatever calls it makes, on
      any volume however damaged ([booted_system_always_ok]; on any board,
      [system_always_ok], from [upholds] lemmas about every function).  The
      result of a call of that invariant has the type of the call
      ([syscall_results]); a call writes the program's memory only inside the
      object it was given, but for readlinkat, which stores 24 bytes whatever
      the size of its buffer ([syscall_writes_only_its_object]); unknown
      numbers power off.
    - From reset to output: after the boot and the start code of the C library
      the default program comes to its loop, and after any number of turns it
      has printed the line of the start and one line per timeout, all of which
      the console has read but for what the C library still has in its buffer
      ([demandos_reports_timeouts]).
    - Files: an open file refines an array of bytes with an offset that only
      lseek moves ([file_calls_refine_file]); a program that writes a range of
      a file and reads it back through the dispatcher gets what it wrote
      ([file_calls_write_read]); the file-system test does its work
      ([fs_test_reads_back]).
    - Through the devices: what a program writes to its standard output
      reaches the console device ([stdout_reaches_console]); getrandom of any
      length serves one chain for every 8 bytes, and the program gets what
      the entropy device stored as long as the driver's slot of the ring is
      the device's ([getrandom_call]); beyond the end of the ring the device
      is led to an old buffer ([randomness_misdelivered]).
    - Traps: the program goes on behind its call with the result and its
      registers, a timer interrupt leaves no trace; every other cause has the handler
      that its number without the interrupt bit selects, so a load access
      fault runs the timer's and most others call a null pointer
      ([traps_routed]); [wait_for_event] from the program's side.
    - The disk's queue: a sector request moves exactly one sector and gives
      the queue back as it was; any sequence of requests over the virtqueue
      returns what a plain disk returns ([driver_refines_disk], a forward
      simulation whose relation is [blk_ready]); [init_blk_virtio] establishes
      that relation for a queue of 256 entries ([blk_boot_ready]) and fails to
      for small ones ([blk_boot_small_queue]); the console's needs two queues
      of one size ([console_boot_unequal]).
    - Bytes: the read and write loops of blk.c deliver and change exactly the
      requested bytes of the disk, stay inside the caller's buffer on any
      device, and end.
    - The volume: inode and file accesses reach exactly the bytes of the
      inode and of the file; time stamps change four bytes; what was written
      is read back; directory search and path resolution are compared with
      the list of directory entries; the limits of the code (prefix names,
      13 blocks, 32-bit positions) are theorems.
    - Descriptors: the table's invariant holds after every sequence of calls
      whatever the device does; open, read, write, seek and mount.
    - Allocators: blocks apart from those in use, large enough and inside the
      storage.
    - Timers: nanosleep and demand end, and not early.

    ** What is not modelled

    The unit test program (test/unit_test.c): calls of the C library's printf
    and string functions around system calls whose handlers are modelled.
    The C library: between [_start] and [main] it may do what [start_step]
    of StartCode.v allows, its [printf] is constrained by [Stream] of Stdio.v,
    its wrappers are class fields.  The deferred functions ([call_deferred]): the repository
    has none.  Trace output, which the default build leaves out.  Interrupts
    are taken at [yield] only: the kernel runs with them disabled up to the
    first [yield], and [timer_interrupt_transparent] covers one that hits
    the program. *)

From Stdlib Require Export ZArith Lia List.
From stdpp Require Export base list gmap numbers strings.
From coqutil Require Export Byte Word.LittleEndianList.

#[global] Open Scope Z_scope.

(** ** Fixed-width integers

    A C integer is a [Z]; the unsigned types wrap at their width, and the
    conversion of a value to a signed type keeps it modulo [2^w] in
    [-2^(w-1), 2^(w-1)) (the conversion gcc documents). *)

Definition wrap (w z : Z) : Z := z mod 2 ^ w.
Notation u8 := (wrap 8).
Notation u16 := (wrap 16).
Notation u32 := (wrap 32).
Notation u64 := (wrap 64).

Definition swrap (w z : Z) : Z := (z + 2 ^ (w - 1)) mod 2 ^ w - 2 ^ (w - 1).
Notation i32 := (swrap 32).
Notation i64 := (swrap 64).

(** [MIN] of util.h. *)
Definition MIN (x y : Z) : Z := if x <? y then x else y.

Ltac zlia := Z.div_mod_to_equations; lia.

Lemma wrap_small w z : 0 <= z < 2 ^ w → wrap w z = z.
Proof. apply Z.mod_small. Qed.

Lemma wrap_range w z : 0 <= w → 0 <= wrap w z < 2 ^ w.
Proof. intros. apply Z.mod_pos_bound. lia. Qed.

Lemma wrap_wrap w z : 0 <= w → wrap w (wrap w z) = wrap w z.
Proof. intros. apply Z.mod_mod. lia. Qed.

Lemma swrap_small w z : - 2 ^ (w - 1) <= z < 2 ^ (w - 1) → 0 < w → swrap w z = z.
Proof.
  intros H Hw. unfold swrap. rewrite Z.mod_small; [lia|].
  replace w with (Z.succ (w - 1)) at 3 by lia. rewrite Z.pow_succ_r; lia.
Qed.

Lemma MIN_min x y : MIN x y = Z.min x y.
Proof. unfold MIN. destruct (Z.ltb_spec x y); lia. Qed.

(** [wrap_norm] removes the wrap-arounds whose argument is in range. *)
Ltac wrap_norm :=
  repeat match goal with
    | |- context [wrap ?w ?z] => rewrite (wrap_small w z) by lia
    | |- context [swrap ?w ?z] => rewrite (swrap_small w z) by lia
    end.

(** [zero_norm] removes the neutral terms from the goal and the context. *)
Ltac zero_norm :=
  repeat match goal with
    | H : context [?x + 0] |- _ => rewrite (Z.add_0_r x) in H
    | H : context [0 + ?x] |- _ => rewrite (Z.add_0_l x) in H
    | H : context [?x - 0] |- _ => rewrite (Z.sub_0_r x) in H
    | |- context [?x + 0] => rewrite (Z.add_0_r x)
    | |- context [0 + ?x] => rewrite (Z.add_0_l x)
    | |- context [?x - 0] => rewrite (Z.sub_0_r x)
    end.

(** ** Buffers

    A C array of bytes is a [list byte]; offsets and lengths are [Z].
    [slice] reads [n] bytes at offset [o]; [splice] overwrites the bytes at
    offset [o] with [new] (what [memcpy (l + o, new, length new)] leaves). *)

Notation byte := Corelib.Init.Byte.byte.

#[export] Instance byte_eq_dec : EqDecision byte := Byte.byte_eq_dec.
#[export] Instance byte_inhabited : Inhabited byte := populate Byte.x00.

Definition zlen {A} (l : list A) : Z := Z.of_nat (length l).

Definition slice {A} (l : list A) (o n : Z) : list A :=
  take (Z.to_nat n) (drop (Z.to_nat o) l).

Definition splice {A} (l : list A) (o : Z) (new : list A) : list A :=
  take (Z.to_nat o) l ++ new ++ drop (Z.to_nat o + length new) l.

Definition zeros (n : Z) : list byte := replicate (Z.to_nat n) Byte.x00.

Section buffers.
Context {A : Type}.
Implicit Types l new : list A.

Lemma lookup_slice l o n i :
  slice l o n !! i = if decide ((i < Z.to_nat n)%nat) then l !! (Z.to_nat o + i)%nat else None.
Proof.
  unfold slice. case_decide.
  - rewrite lookup_take_lt by lia. apply lookup_drop.
  - apply lookup_take_ge. lia.
Qed.

Lemma lookup_splice l o new i :
  0 <= o → o <= zlen l →
  splice l o new !! i =
    if decide ((i < Z.to_nat o)%nat) then l !! i
    else if decide ((i < Z.to_nat o + length new)%nat) then new !! (i - Z.to_nat o)%nat
    else l !! i.
Proof.
  unfold splice, zlen. intros Ho Hl.
  assert (length (take (Z.to_nat o) l) = Z.to_nat o) as Hlen
    by (rewrite length_take; lia).
  case_decide; [rewrite lookup_app_l, lookup_take_lt by lia; done|].
  rewrite lookup_app_r by lia. rewrite Hlen.
  case_decide; [by rewrite lookup_app_l by lia|].
  rewrite lookup_app_r, lookup_drop by lia. f_equal. lia.
Qed.

Lemma length_slice l o n :
  length (slice l o n) = Nat.min (Z.to_nat n) (length l - Z.to_nat o).
Proof. unfold slice. rewrite length_take, length_drop. lia. Qed.

Lemma zlen_slice l o n : 0 <= o → 0 <= n → o + n <= zlen l → zlen (slice l o n) = n.
Proof. unfold zlen. rewrite length_slice. lia. Qed.

Lemma zlen_slice_le l o n : zlen (slice l o n) <= zlen l.
Proof. unfold slice, zlen. rewrite length_take, length_drop. lia. Qed.

Lemma zlen_slice_min l o n :
  0 <= o → 0 <= n → zlen (slice l o n) = Z.min n (Z.max 0 (zlen l - o)).
Proof. unfold zlen. rewrite length_slice. lia. Qed.

Lemma length_splice l o new :
  0 <= o → o + zlen new <= zlen l → length (splice l o new) = length l.
Proof.
  unfold splice, zlen. rewrite !length_app, length_take, length_drop. lia.
Qed.

Lemma zlen_splice l o new :
  0 <= o → o + zlen new <= zlen l → zlen (splice l o new) = zlen l.
Proof. intros. unfold zlen. by rewrite length_splice. Qed.

Lemma zlen_nonneg l : 0 <= zlen l.
Proof. unfold zlen. lia. Qed.

Lemma zlen_app l new : zlen (l ++ new) = zlen l + zlen new.
Proof. unfold zlen. rewrite length_app. lia. Qed.

Lemma zlen_nil : zlen (@nil A) = 0.
Proof. done. Qed.
End buffers.

Lemma zlen_zeros n : 0 <= n → zlen (zeros n) = n.
Proof. unfold zlen, zeros. rewrite length_replicate. lia. Qed.

Create HintDb buffers.
#[export] Hint Rewrite @length_slice @zlen_app @zlen_nil length_le_split : buffers.

(** [buf_ext] proves an equality of buffers byte by byte. *)
Ltac buf_case :=
  repeat first
    [ rewrite lookup_slice
    | rewrite lookup_splice
        by (unfold zlen in *; rewrite ?length_slice, ?length_splice in *; unfold zlen in *; lia)
    | case_decide ].
Ltac buf_ext :=
  apply list_eq; intros ?i; unfold zlen in *;
  buf_case; rewrite ?length_slice in *; try lia;
  try (f_equal; lia);
  try (symmetry; apply lookup_ge_None; unfold zlen in *; lia);
  try (apply lookup_ge_None; unfold zlen in *; lia).

Section buffer_laws.
Context {A : Type}.
Implicit Types l new : list A.

Lemma slice_slice l o n o' n' :
  0 <= o → 0 <= o' → 0 <= n' → o' + n' <= n →
  slice (slice l o n) o' n' = slice l (o + o') n'.
Proof. intros. buf_ext. Qed.

Lemma slice_all l n : zlen l <= n → slice l 0 n = l.
Proof. intros. unfold zlen, slice in *. rewrite drop_0. apply take_ge. lia. Qed.

Lemma slice_nil l o : slice l o 0 = [].
Proof. done. Qed.

Lemma slice_past l o n : 0 <= o → zlen l <= o → slice l o n = [].
Proof. intros. unfold slice, zlen in *. rewrite drop_ge by lia. by destruct (Z.to_nat n). Qed.

Lemma slice_splice_same l o new :
  0 <= o → o + zlen new <= zlen l → slice (splice l o new) o (zlen new) = new.
Proof. intros. pose proof (zlen_nonneg new). buf_ext. Qed.

Lemma slice_splice_inside l o new o' n :
  0 <= o → o + zlen new <= zlen l → o <= o' → 0 <= n → o' + n <= o + zlen new →
  slice (splice l o new) o' n = slice new (o' - o) n.
Proof. intros. buf_ext. Qed.

Lemma slice_splice_other l o new o' n :
  0 <= o → 0 <= o' → 0 <= n → o + zlen new <= zlen l → o' + n <= o ∨ o + zlen new <= o' →
  slice (splice l o new) o' n = slice l o' n.
Proof. intros. pose proof (zlen_nonneg new). unfold zlen in *. buf_ext. Qed.

Lemma splice_id l o n :
  0 <= o → 0 <= n → o + n <= zlen l → splice l o (slice l o n) = l.
Proof. intros. buf_ext. Qed.

Lemma splice_all l new : zlen new = zlen l → splice l 0 new = new.
Proof.
  intros. unfold splice, zlen in *. cbn. rewrite drop_ge, app_nil_r by lia. done.
Qed.

Lemma splice_nil l o : splice l o [] = l.
Proof. unfold splice. cbn. by rewrite Nat.add_0_r, take_drop. Qed.

Lemma splice_app l o new1 new2 :
  0 <= o → o + zlen new1 + zlen new2 <= zlen l →
  splice l o (new1 ++ new2) = splice (splice l o new1) (o + zlen new1) new2.
Proof.
  intros. pose proof (zlen_nonneg new1). pose proof (zlen_nonneg new2).
  assert (zlen (new1 ++ new2) = zlen new1 + zlen new2) by apply zlen_app.
  assert (zlen (splice l o new1) = zlen l) by (apply zlen_splice; lia).
  apply list_eq. intros i.
  rewrite lookup_splice, length_app by lia.
  rewrite lookup_splice by lia. rewrite lookup_splice by lia. unfold zlen in *.
  repeat case_decide; try lia; try done.
  - by rewrite lookup_app_l by lia.
  - rewrite lookup_app_r by lia. f_equal. lia.
Qed.

Lemma slice_app_split l o n1 n2 :
  0 <= o → 0 <= n1 → 0 <= n2 →
  slice l o (n1 + n2) = slice l o n1 ++ slice l (o + n1) n2.
Proof.
  intros. unfold slice. rewrite !Z2Nat.inj_add, <-drop_drop, <-take_take_drop by lia. done.
Qed.

Lemma drop_slice l o n :
  0 <= o → 0 <= n → drop (Z.to_nat o) l = slice l o n ++ drop (Z.to_nat (o + n)) l.
Proof. intros. unfold slice. by rewrite Z2Nat.inj_add, <-drop_drop, take_drop by lia. Qed.

(** Overlaying part of a block and putting the block back overlays the
    part in the whole. *)
Lemma splice_block l o k so new :
  0 <= o → 0 <= so → so + zlen new <= k → o + k <= zlen l →
  splice l o (splice (slice l o k) so new) = splice l (o + so) new.
Proof.
  intros. pose proof (zlen_nonneg new).
  assert (zlen (slice l o k) = k) as Hk by (apply zlen_slice; lia).
  assert (length (splice (slice l o k) so new) = Z.to_nat k) as Hk'
    by (rewrite length_splice; unfold zlen in *; lia).
  apply list_eq. intros i.
  rewrite (lookup_splice l o), (lookup_splice l (o + so)), Hk' by lia.
  rewrite lookup_splice, lookup_slice by lia. unfold zlen in *.
  repeat case_decide; try lia; f_equal; lia.
Qed.
End buffer_laws.

(** ** Little-endian fields of packed structures

    The structures the disk and the devices share are packed and
    little-endian.  [get_le l o n] reads the [n]-byte integer at offset [o];
    [put_le] assigns it. *)

Definition get_le (l : list byte) (o : Z) (n : nat) : Z :=
  le_combine (slice l o (Z.of_nat n)).
Definition put_le (l : list byte) (o : Z) (n : nat) (v : Z) : list byte :=
  splice l o (le_split n v).

Lemma zlen_le_split n v : zlen (le_split n v) = Z.of_nat n.
Proof. unfold zlen. by rewrite length_le_split. Qed.

Lemma get_le_range l o n : 0 <= get_le l o n < 2 ^ (8 * Z.of_nat n).
Proof.
  unfold get_le. pose proof (le_combine_bound (slice l o (Z.of_nat n))) as [Hlo Hhi].
  split; [done|]. eapply Z.lt_le_trans; [done|].
  apply Z.pow_le_mono_r; [done|]. rewrite length_slice. lia.
Qed.

Lemma get_put_same l o n v :
  0 <= o → o + Z.of_nat n <= zlen l →
  get_le (put_le l o n v) o n = v mod 2 ^ (8 * Z.of_nat n).
Proof.
  intros. unfold get_le, put_le.
  rewrite <-(zlen_le_split n v) at 1.
  rewrite slice_splice_same by (rewrite ?zlen_le_split; lia).
  rewrite le_combine_split. f_equal. f_equal. lia.
Qed.

Lemma get_put_other l o n v o' n' :
  0 <= o → 0 <= o' → o + Z.of_nat n <= zlen l →
  o' + Z.of_nat n' <= o ∨ o + Z.of_nat n <= o' →
  get_le (put_le l o n v) o' n' = get_le l o' n'.
Proof.
  intros. unfold get_le, put_le. f_equal.
  apply slice_splice_other; rewrite ?zlen_le_split; lia.
Qed.

Lemma put_get_id l o n :
  0 <= o → o + Z.of_nat n <= zlen l → put_le l o n (get_le l o n) = l.
Proof.
  intros. unfold put_le, get_le.
  rewrite split_le_combine' by (rewrite length_slice; unfold zlen in *; lia).
  apply splice_id; lia.
Qed.

Lemma zlen_put_le l o n v :
  0 <= o → o + Z.of_nat n <= zlen l → zlen (put_le l o n v) = zlen l.
Proof. intros. unfold put_le. apply zlen_splice; rewrite ?zlen_le_split; lia. Qed.

(** ** Programs

    A C function that reads or changes state is a [prog S A]: it runs in a
    state [S] and either returns ([Done]) or stops the machine.  [PowerOff]
    is the SBI call of [sys_poweroff]; [Undefined] is a C operation with no
    defined behaviour (an access outside an object, a null call, a division
    by zero); [Hang] is a loop that has used up the iterations the model
    gives it; [AssertFailed] is a failed [assert]. *)

Inductive fault := PowerOff | Undefined | Hang | AssertFailed.

Inductive outcome (A : Type) :=
  | Done (a : A)
  | Stop (f : fault).
Arguments Done {A} a.
Arguments Stop {A} f.

Definition prog (S A : Type) : Type := S → outcome A * S.

#[export] Instance prog_ret S : MRet (prog S) := λ A a s, (Done a, s).
#[export] Instance prog_bind S : MBind (prog S) := λ A B f m s,
  match m s with
  | (Done a, s') => f a s'
  | (Stop e, s') => (Stop e, s')
  end.

Definition stop {S A} (f : fault) : prog S A := λ s, (Stop f, s).
Definition state {S} : prog S S := λ s, (Done s, s).
Definition gets {S A} (f : S → A) : prog S A := λ s, (Done (f s), s).
Definition modify {S} (f : S → S) : prog S unit := λ s, (Done tt, f s).
(** Evaluation goes on only if [b]; otherwise C defines no behaviour. *)
Definition defined {S} (b : bool) : prog S unit :=
  if b then mret tt else stop Undefined.

#[export] Instance fault_eq_dec : EqDecision fault.
Proof. solve_decision. Defined.

Section programs.
Context {S : Type}.

Lemma bind_done {A B} (m : prog S A) (f : A → prog S B) s a s' :
  m s = (Done a, s') → (m ≫= f) s = f a s'.
Proof. intros H. unfold mbind, prog_bind. by rewrite H. Qed.

Lemma bind_stop {A B} (m : prog S A) (f : A → prog S B) s e s' :
  m s = (Stop e, s') → (m ≫= f) s = (Stop e, s').
Proof. intros H. unfold mbind, prog_bind. by rewrite H. Qed.

Lemma bind_ret {A B} (a : A) (f : A → prog S B) s : (mret a ≫= f) s = f a s.
Proof. done. Qed.

Lemma bind_assoc {A B C} (m : prog S A) (f : A → prog S B) (g : B → prog S C) s :
  ((m ≫= f) ≫= g) s = (m ≫= λ a, f a ≫= g) s.
Proof. unfold mbind, prog_bind. by destruct (m s) as [[] ]. Qed.

Lemma bind_ext {A B} (m : prog S A) (f g : A → prog S B) s :
  (∀ a s', f a s' = g a s') → (m ≫= f) s = (m ≫= g) s.
Proof. intros Hfg. unfold mbind, prog_bind. destruct (m s) as [[a|e] s']; [apply Hfg|done]. Qed.

Lemma bind_gets {A B} (f : S → A) (g : A → prog S B) s : (gets f ≫= g) s = g (f s) s.
Proof. done. Qed.

Lemma bind_modify {B} (f : S → S) (g : unit → prog S B) s :
  (modify f ≫= g) s = g tt (f s).
Proof. done. Qed.

Lemma bind_defined {B} (b : bool) (g : unit → prog S B) s :
  b = true → (defined b ≫= g) s = g tt s.
Proof. by intros ->. Qed.

Lemma bind_inv {A B} (m : prog S A) (f : A → prog S B) s b s'' :
  (m ≫= f) s = (Done b, s'') →
  ∃ a s', m s = (Done a, s') ∧ f a s' = (Done b, s'').
Proof.
  unfold mbind, prog_bind. destruct (m s) as [[a|e] s'] eqn:Hm; [eauto|done].
Qed.
End programs.

(** [run] takes the administrative steps at the head of a program;
    [run_with H] takes the step an equation [m s = (Done a, s')] describes. *)
Ltac run :=
  repeat first
    [ rewrite bind_assoc | rewrite bind_ret | rewrite bind_gets | rewrite bind_modify ].
Tactic Notation "run_with" uconstr(H) := rewrite (bind_done _ _ _ _ _ H).
Tactic Notation "run_apply" uconstr(H) := erewrite bind_done; [|apply H; lia].

(** ** memcpy between two buffers, inside both of them *)

Definition memcpy {S} (dst : list byte) (at_ : Z) (src : list byte) (off n : Z)
    : prog S (list byte) :=
  defined ((0 <=? at_) && (0 <=? off) && (0 <=? n) &&
           (at_ + n <=? zlen dst) && (off + n <=? zlen src));;
  mret (splice dst at_ (slice src off n)).

Lemma memcpy_done {S} dst at_ src off n (s : S) :
  0 <= at_ → 0 <= off → 0 <= n → at_ + n <= zlen dst → off + n <= zlen src →
  memcpy dst at_ src off n s = (Done (splice dst at_ (slice src off n)), s).
Proof. intros. unfold memcpy. rewrite bind_defined; [done|]. lia. Qed.
