(* ===== verification/Programs.v ===== *)
(** * Invariants of programs

    [upholds P m Q]: a run of [m] that starts in a state with [P] ends in a
    state with [P], whether it returns or stops, and what it returns has
    [Q].  The rules go through a program; the tactic [uphold] applies them,
    taking what is known about the calls from the hint database of the same
    name. *)

From S2P Require Import Prelude.

(** Of a stopped run nothing is asked. *)
Definition returns_in {A} (Q : A → Prop) (r : outcome A) : Prop :=
  match r with Done a => Q a | Stop _ => True end.

Definition upholds {S A} (P : S → Prop) (m : prog S A) (Q : A → Prop) : Prop :=
  ∀ s, P s → P (m s).2 ∧ returns_in Q (m s).1.

(** Nothing is said of the result. *)
Definition any {A} : A → Prop := λ _, True.

Section rules.
Context {S : Type} (P : S → Prop).

Lemma upholds_ret {A} (a : A) (Q : A → Prop) : Q a → upholds P (mret a) Q.
Proof. by intros Ha s Hs. Qed.

Lemma upholds_stop {A} f (Q : A → Prop) : upholds P (stop f) Q.
Proof. by intros s Hs. Qed.

Lemma upholds_bind {A B} (m : prog S A) (f : A → prog S B) R Q :
  upholds P m R → (∀ a, R a → upholds P (f a) Q) → upholds P (m ≫= f) Q.
Proof.
  intros Hm Hf s Hs. destruct (Hm s Hs) as [Hs' HR]. unfold mbind, prog_bind.
  destruct (m s) as [[a|e] s']; [by apply Hf|done].
Qed.

Lemma upholds_weaken {A} (m : prog S A) (R Q : A → Prop) :
  upholds P m R → (∀ a, R a → Q a) → upholds P m Q.
Proof. intros Hm HRQ s Hs. destruct (Hm s Hs). split; [done|]. destruct (m s).1; cbn in *; auto. Qed.

Lemma upholds_any {A} (m : prog S A) Q : upholds P m Q → upholds P m any.
Proof. intros Hm. by eapply upholds_weaken. Qed.

Lemma upholds_gets {A} (f : S → A) (Q : A → Prop) : (∀ s, P s → Q (f s)) → upholds P (gets f) Q.
Proof. intros Hf s Hs. cbn. auto. Qed.

Lemma upholds_modify (f : S → S) (Q : unit → Prop) : (∀ s, P s → P (f s)) → Q tt → upholds P (modify f) Q.
Proof. intros Hf Hq s Hs. cbn. auto. Qed.

Lemma upholds_defined b : upholds P (defined b) (λ _, b = true).
Proof. destruct b; [by apply upholds_ret|apply upholds_stop]. Qed.

Lemma upholds_memcpy dst at_ src off n :
  upholds P (memcpy dst at_ src off n) (λ l, zlen l = zlen dst).
Proof.
  eapply upholds_bind; [apply upholds_defined|intros [] Hin]. apply upholds_ret.
  apply zlen_splice; [lia|]. pose proof (zlen_slice src off n). lia.
Qed.
End rules.

(** Two invariants of the same program. *)
Lemma upholds_and {S A} (P1 P2 : S → Prop) (m : prog S A) Q1 Q2 :
  upholds P1 m Q1 → upholds P2 m Q2 → upholds (λ s, P1 s ∧ P2 s) m (λ a, Q1 a ∧ Q2 a).
Proof.
  intros H1 H2 s [Hs1 Hs2]. destruct (H1 s Hs1), (H2 s Hs2). destruct (m s) as [[] ?]; done.
Qed.

(** A program that works on a part of the state: [part] reads it, [put]
    writes it back. *)
Definition on {S T} (part : S → T) (put : T → S → S) {A} (m : prog T A) : prog S A := λ s,
  let '(r, t) := m (part s) in (r, put t s).

Lemma upholds_on {S T A} (part : S → T) (put : T → S → S) (P : S → Prop) (P' : T → Prop) (m : prog T A) Q :
  upholds P' m Q → (∀ s, P s → P' (part s)) → (∀ s t, P s → P' t → P (put t s)) →
  upholds P (on part put m) Q.
Proof.
  intros Hm Hdown Hup s Hs. unfold on. destruct (Hm (part s) (Hdown s Hs)) as [Ht Hq].
  destruct (m (part s)) as [r t]. cbn in *. auto.
Qed.

Create HintDb uphold.
#[export] Hint Resolve upholds_ret upholds_stop upholds_defined upholds_memcpy : uphold.
#[export] Hint Extern 0 (any _) => exact I : uphold.

(** The rule for a bind takes the postcondition of the first part from the
    hint that solves it, and nothing when there is none. *)
Ltac uphold_step :=
  match goal with
  | |- ∀ _, _ => intros ?
  | |- upholds _ (mret _) _ => apply upholds_ret
  | |- upholds _ (stop _) _ => apply upholds_stop
  | |- upholds _ (gets _) _ => apply upholds_gets
  | |- upholds _ (modify _) _ => apply upholds_modify
  | |- upholds _ (if ?b then _ else _) _ => destruct b eqn:?
  | |- upholds _ (match ?x with _ => _ end) _ => destruct x eqn:?
  | |- upholds _ (_ ≫= _) _ => eapply upholds_bind; [solve [eauto with uphold]|]
  | |- upholds _ (_ ≫= _) _ => apply (upholds_bind _ _ _ any)
  | |- upholds _ _ _ => solve [eauto with uphold]
  | |- upholds _ _ _ => eapply upholds_weaken; [solve [eauto with uphold]|]
  | |- any _ => exact I
  end.
Ltac uphold := repeat uphold_step.
