(* ===== verification/Layout.v ===== *)
(** * Packed structures

    The on-disk and device-shared structures are declared in C as lists of
    fields, packed or naturally aligned, so the offset of a field is the sum
    of the sizes before it.  A structure type is the list of its fields in
    the order of the declaration; a structure value is its bytes. *)

From S2P Require Import Prelude.

Inductive ctype := U8 | U16 | U32 | U64 | Pad (n : Z) | ArrU32 (n : Z).

Definition ctype_size (t : ctype) : Z :=
  match t with U8 => 1 | U16 => 2 | U32 => 4 | U64 => 8 | Pad n => n | ArrU32 n => 4 * n end.

Abbreviation struct := (list (string * ctype)).

Fixpoint sizeof (st : struct) : Z :=
  match st with [] => 0 | (_, t) :: st => ctype_size t + sizeof st end.

(** Offset and size of a field; a name that is not declared gets the offset
    past the end (no structure below is asked for one). *)
Fixpoint offsetof (st : struct) (f : string) : Z :=
  match st with
  | [] => 0
  | (g, t) :: st => if String.eqb f g then 0 else ctype_size t + offsetof st f
  end.

Fixpoint fieldsize (st : struct) (f : string) : Z :=
  match st with
  | [] => 0
  | (g, t) :: st => if String.eqb f g then ctype_size t else fieldsize st f
  end.

(** [v.f] and [v.f = x] *)
Definition get_field (st : struct) (f : string) (v : list byte) : Z :=
  get_le v (offsetof st f) (Z.to_nat (fieldsize st f)).
Definition set_field (st : struct) (f : string) (v : list byte) (x : Z) : list byte :=
  put_le v (offsetof st f) (Z.to_nat (fieldsize st f)) x.

(** [v.f[i]] for an array of [uint32_t]; an index outside the array has no
    defined value. *)
Definition array_length (st : struct) (f : string) : Z := fieldsize st f / 4.
Definition get_elem {S} (st : struct) (f : string) (v : list byte) (i : Z) : prog S Z :=
  defined ((0 <=? i) && (i <? array_length st f));;
  mret (get_le v (offsetof st f + 4 * i) 4).

(** [layout] computes the offsets and sizes of a goal. *)
Ltac layout :=
  repeat match goal with
    | |- context [offsetof ?st ?f] =>
        let v := eval vm_compute in (offsetof st f) in change (offsetof st f) with v
    | |- context [fieldsize ?st ?f] =>
        let v := eval vm_compute in (fieldsize st f) in change (fieldsize st f) with v
    | |- context [array_length ?st ?f] =>
        let v := eval vm_compute in (array_length st f) in change (array_length st f) with v
    | |- context [sizeof ?st] =>
        let v := eval vm_compute in (sizeof st) in change (sizeof st) with v
    end.

Section layout.
Context {S : Type}.

Lemma get_elem_inside st f v i (s : S) :
  0 <= i < array_length st f →
  get_elem st f v i s = (Done (get_le v (offsetof st f + 4 * i) 4), s).
Proof. intros. unfold get_elem. rewrite bind_defined; [done|lia]. Qed.

Lemma get_elem_outside st f v i (s : S) :
  i < 0 ∨ array_length st f <= i → get_elem st f v i s = (Stop Undefined, s).
Proof.
  intros. unfold get_elem. replace (_ && _) with false by lia. done.
Qed.
End layout.
