(* ===== verification/Ecall.v ===== *)
(** * Output through the firmware (src/e.c)

    [eprint] is the SBI console call (a register pair and [scall]): the
    firmware behind it is not part of the repository and is the class
    [Console].  The printing routines are written against it. *)

From S2P Require Import Prelude.
From Stdlib Require Ascii.

Class Console (St : Type) := { eprint : Z → prog St unit }.

(** The documented effect of the call: one more character on the line. *)
Class ConsoleSpec (St : Type) `{!Console St} := {
  serial : St → list Z;
  eprint_spec p s : ∃ s', eprint p s = (Done tt, s') ∧ serial s' = serial s ++ [p];
}.

Definition nl : string := String (Ascii.ascii_of_nat 10) EmptyString.

(** The characters of a C string literal, without the terminating NUL. *)
Definition chars (msg : string) : list Z :=
  (λ c, Z.of_N (Ascii.N_of_ascii c)) <$> String.list_ascii_of_string msg.

Section operations.
Context {St : Type} `{!Console St}.

Definition eprint_num (num : Z) : prog St unit :=
  let orig := num in
  let num := num mod 1000 in
  (if negb (orig =? num) then eprint 126 (* '~' *) else mret tt);;
  let v := num / 100 in
  eprint (48 + v);;
  let num := u64 (num - v * 100) in
  let v := num / 10 in
  eprint (48 + v);;
  let num := u64 (num - v * 10) in
  eprint (48 + num).

(** [for (i = 0; str[i] != 0; i++) eprint (str[i])]: running off the end of
    the array that holds [str] without meeting a NUL is undefined. *)
Fixpoint eprint_str (str : list Z) : prog St unit :=
  match str with
  | [] => stop Undefined
  | c :: str => if c =? 0 then mret tt else eprint c;; eprint_str str
  end.

Definition eprint_msg (msg : string) : prog St unit := eprint_str (chars msg ++ [0]).

(** The test reads [str[i]] before it compares [i] with [n]. *)
Fixpoint eprint_strn (str : list Z) (n : nat) : prog St unit :=
  match str with
  | [] => stop Undefined
  | c :: str =>
      if c =? 0 then mret tt
      else match n with
           | O => mret tt
           | S n => eprint c;; eprint_strn str n
           end
  end.

Fixpoint eprint_bytes (buffer : list byte) : prog St unit :=
  match buffer with
  | [] => mret tt
  | b :: buffer => eprint_num (byte.unsigned b);; eprint 45 (* '-' *);; eprint_bytes buffer
  end.

Definition eprint_buffer (msg : list Z) (buffer : list byte) (size : Z) : prog St unit :=
  eprint_str msg;;
  eprint 58 (* ':' *);;
  eprint 10;;
  defined ((0 <=? size) && (size <=? zlen buffer));;
  eprint_bytes (slice buffer 0 size);;
  eprint 10.
End operations.

Section correctness.
Context {St : Type} `{ConsoleSpec St}.
Implicit Types s : St.

(** [prints m out s]: [m] returns, having written exactly [out]. *)
Definition prints (m : prog St unit) (out : list Z) (s : St) : Prop :=
  ∃ s', m s = (Done tt, s') ∧ serial s' = serial s ++ out.

Lemma prints_ret s : prints (mret tt) [] s.
Proof. exists s. by rewrite app_nil_r. Qed.

Lemma prints_eprint p s : prints (eprint p) [p] s.
Proof. apply eprint_spec. Qed.

Lemma prints_seq m1 m2 out1 out2 s :
  prints m1 out1 s → (∀ s', prints m2 out2 s') → prints (m1;; m2) (out1 ++ out2) s.
Proof.
  intros (s1 & H1 & Hs1) H2. destruct (H2 s1) as (s2 & Hm2 & Hs2).
  exists s2. run_with H1. by rewrite Hm2, Hs2, Hs1, app_assoc.
Qed.

Lemma prints_str str rest s :
  Forall (λ c, c ≠ 0) str → prints (eprint_str (str ++ 0 :: rest)) str s.
Proof.
  intros Hnz. revert s. induction Hnz as [|c str Hc Hnz IH]; intros s.
  - apply prints_ret.
  - cbn. apply Z.eqb_neq in Hc as ->.
    apply (prints_seq _ _ [c]); [apply prints_eprint|apply IH].
Qed.

(** [eprint_num] writes the last three decimal digits of its argument,
    behind a tilde when digits were dropped. *)
Definition decimal3 (num : Z) : list Z :=
  (if num <? 1000 then [] else [126]) ++
  [48 + num mod 1000 / 100; 48 + num mod 100 / 10; 48 + num mod 10].

Lemma prints_num num s : 0 <= num → prints (eprint_num num) (decimal3 num) s.
Proof.
  intros Hn. unfold eprint_num, decimal3.
  apply prints_seq.
  - destruct (Z.ltb_spec num 1000).
    + rewrite Z.mod_small, Z.eqb_refl by lia. apply prints_ret.
    + replace (num =? num mod 1000) with false by zlia. apply prints_eprint.
  - intros s1.
    rewrite (wrap_small 64 (num mod 1000 - _)) by zlia.
    rewrite (wrap_small 64) by zlia.
    apply (prints_seq _ _ [_]); [apply prints_eprint|intros s2].
    replace ((num mod 1000 - num mod 1000 / 100 * 100) / 10) with (num mod 100 / 10) by zlia.
    apply (prints_seq _ _ [_]); [apply prints_eprint|intros s3].
    replace (num mod 1000 - num mod 1000 / 100 * 100 - num mod 100 / 10 * 10)
      with (num mod 10) by zlia.
    apply prints_eprint.
Qed.
End correctness.
