(* ===== verification/Memory.v ===== *)
(** * Physical memory

    The memory the processor and the devices share: a finite map from
    addresses to bytes (an address the map does not hold reads as zero).
    [load] and [store] move blocks of bytes; [load_le] and [store_le]
    integers.  The lemmas say that a load sees the last store to its range
    and no store outside it; [mem_simpl] applies them. *)

From S2P Require Import Prelude.

Abbreviation memory := (gmap Z byte).

Definition load (m : memory) (a n : Z) : list byte :=
  (λ i, default Byte.x00 (m !! (a + i))) <$> seqZ 0 n.

Fixpoint store (m : memory) (a : Z) (bs : list byte) : memory :=
  match bs with
  | [] => m
  | b :: bs => store (<[a := b]> m) (a + 1) bs
  end.

Definition load_le (m : memory) (a : Z) (n : nat) : Z := le_combine (load m a (Z.of_nat n)).
Definition store_le (m : memory) (a : Z) (n : nat) (v : Z) : memory := store m a (le_split n v).

Lemma zlen_load m a n : 0 <= n → zlen (load m a n) = n.
Proof. intros. unfold zlen, load. rewrite length_fmap, length_seqZ. lia. Qed.

Lemma lookup_store_other m a bs a' :
  a' < a ∨ a + zlen bs <= a' → store m a bs !! a' = m !! a'.
Proof.
  revert m a. induction bs as [|b bs IH]; intros m a Ha; cbn [store]; [done|].
  assert (zlen (b :: bs) = 1 + zlen bs) by (unfold zlen; cbn [length]; lia).
  pose proof (zlen_nonneg bs).
  rewrite IH by lia. apply lookup_insert_ne. lia.
Qed.

Lemma lookup_store m a bs i :
  0 <= i < zlen bs → store m a bs !! (a + i) = bs !! Z.to_nat i.
Proof.
  revert m a i. induction bs as [|b bs IH]; intros m a i Hi; cbn [store].
  { unfold zlen in Hi. cbn in Hi. lia. }
  assert (zlen (b :: bs) = 1 + zlen bs) by (unfold zlen; cbn [length]; lia).
  destruct (decide (i = 0)) as [->|].
  - rewrite Z.add_0_r, lookup_store_other by lia. by rewrite lookup_insert_eq.
  - replace (a + i) with (a + 1 + (i - 1)) by lia. rewrite IH by lia.
    by replace (Z.to_nat i) with (S (Z.to_nat (i - 1))) by lia.
Qed.

Lemma load_ext m m' a n :
  (∀ i, 0 <= i < n → m !! (a + i) = m' !! (a + i)) → load m a n = load m' a n.
Proof.
  intros Hm. unfold load. apply list_fmap_ext. intros k x Hx.
  apply lookup_seqZ in Hx as [-> Hk]. rewrite Hm; [done|lia].
Qed.

Lemma load_store_other m a bs a' n :
  a' + n <= a ∨ a + zlen bs <= a' → load (store m a bs) a' n = load m a' n.
Proof. intros. apply load_ext. intros i Hi. apply lookup_store_other. lia. Qed.

Lemma load_store_same m a bs : load (store m a bs) a (zlen bs) = bs.
Proof.
  apply list_eq. intros k. unfold load. rewrite list_lookup_fmap.
  destruct (decide (Z.of_nat k < zlen bs)).
  - rewrite lookup_seqZ_lt by lia. cbn. rewrite lookup_store by lia.
    replace (Z.to_nat (0 + Z.of_nat k)) with k by lia.
    destruct (lookup_lt_is_Some_2 bs k) as [b Hb]; [unfold zlen in *; lia|]. by rewrite Hb.
  - rewrite lookup_seqZ_ge by lia. cbn. symmetry. apply lookup_ge_None. unfold zlen in *. lia.
Qed.

Lemma load_app m a n1 n2 :
  0 <= n1 → 0 <= n2 → load m a (n1 + n2) = load m a n1 ++ load m (a + n1) n2.
Proof.
  intros. unfold load. rewrite seqZ_app, fmap_app by lia. f_equal.
  rewrite Z.add_0_l, <-(Z.add_0_r n1) at 1. rewrite <-fmap_add_seqZ, <-list_fmap_compose.
  apply list_fmap_ext. intros k x _. cbn. by rewrite Z.add_assoc.
Qed.

Lemma slice_load_front m a n k : 0 <= n <= k → slice (load m a k) 0 n = load m a n.
Proof.
  intros Hn. replace k with (n + (k - n)) by lia. rewrite load_app by lia.
  unfold slice. rewrite drop_0. apply take_app_length'. pose proof (zlen_load m a n). unfold zlen in *. lia.
Qed.

(** A store to the front of a range, as the range is read afterwards. *)
Lemma load_store_front m a bs n :
  zlen bs <= n → load (store m a bs) a n = splice (load m a n) 0 bs.
Proof.
  intros Hn. pose proof (zlen_nonneg bs). replace n with (zlen bs + (n - zlen bs)) by lia.
  rewrite !load_app by lia. rewrite load_store_same, load_store_other by lia.
  unfold splice. rewrite Z2Nat.inj_0. cbn [take app Nat.add].
  pose proof (zlen_load m a (zlen bs) ltac:(lia)). rewrite drop_app_length'; [done|]. unfold zlen in *. lia.
Qed.

Lemma load_le_store_other m a bs a' n :
  a' + Z.of_nat n <= a ∨ a + zlen bs <= a' → load_le (store m a bs) a' n = load_le m a' n.
Proof. intros. unfold load_le. by rewrite load_store_other. Qed.

Lemma load_le_store_le_other m a k v a' n :
  a' + Z.of_nat n <= a ∨ a + Z.of_nat k <= a' → load_le (store_le m a k v) a' n = load_le m a' n.
Proof. intros. apply load_le_store_other. rewrite zlen_le_split. lia. Qed.

Lemma load_store_le_other m a k v a' n :
  a' + n <= a ∨ a + Z.of_nat k <= a' → load (store_le m a k v) a' n = load m a' n.
Proof. intros. apply load_store_other. rewrite zlen_le_split. lia. Qed.

Lemma load_le_store_le_same m a n v :
  load_le (store_le m a n v) a n = v mod 2 ^ (8 * Z.of_nat n).
Proof.
  unfold load_le, store_le. rewrite <-(zlen_le_split n v) at 1.
  rewrite load_store_same, le_combine_split. f_equal. f_equal. lia.
Qed.

Lemma load_le_range m a n : 0 <= load_le m a n < 2 ^ (8 * Z.of_nat n).
Proof.
  unfold load_le. pose proof (le_combine_bound (load m a (Z.of_nat n))) as [Hlo Hhi].
  split; [done|]. eapply Z.lt_le_trans; [done|].
  apply Z.pow_le_mono_r; [done|]. unfold load. rewrite length_fmap, length_seqZ. lia.
Qed.

(** [mem_simpl] resolves every load against the stores below it, the
    distances being decided by [lia]. *)
Ltac mem_step :=
  match goal with
  | |- context [load_le (store_le _ ?a ?n _) ?a ?n] => rewrite load_le_store_le_same
  | |- context [load_le (store_le ?m ?a ?k ?v) ?a' ?n] =>
      first [ rewrite (load_le_store_le_other m a k v a' n) by lia
            | replace a with a' by lia; rewrite (load_le_store_le_same m a' n v) ]
  | |- context [load_le (store ?m ?a ?bs) ?a' ?n] =>
      rewrite (load_le_store_other m a bs a' n) by lia
  | |- context [load (store_le ?m ?a ?k ?v) ?a' ?n] =>
      rewrite (load_store_le_other m a k v a' n) by lia
  | |- context [load (store ?m ?a ?bs) ?a' ?n] =>
      rewrite (load_store_other m a bs a' n) by lia
  end.
Ltac mem_simpl := repeat mem_step.
