(* ===== verification/Machine.v ===== *)
(** * The machine the drivers run on

    One record holds what the driver code reads and writes: physical memory,
    the devices behind the bus, the driver table of virtio_driver.c, the
    stack pointer (locals whose address is given to a device live on the
    stack), the allocation frontiers of memory.c and pci.c, and what has been
    written to the firmware console.

    The devices are not part of the repository.  [Platform] is what the code
    does with them: it loads and stores their registers, and they read and
    write memory on their own ([dma_step], one step between two polls of the
    driver). *)

From S2P Require Import Prelude Layout Ecall Memory.

(** ** Data (include/virtio.h) *)

Record vring_bookeeping := {
  used_last : Z;
  avail_next : Z;
  avail_avail : Z;
  used_avail : Z;
  descr_head : Z;
  descr_next : Z;
}.

(** [desc], [avail] and [used] are addresses. *)
Record vring := {
  num : Z;
  size : Z;
  bouncebufs : Z;
  bookeeping : vring_bookeeping;
  desc : Z;
  avail : Z;
  used : Z;
}.

Inductive driver_init_f := init_entropy_virtio_f | init_console_virtio_f | init_blk_virtio_f.

(** [vrings] is the array [vring] points to, [[]] for a null pointer. *)
Record virtio_driver := {
  device_id : Z;
  initialized : bool;
  init_f : option driver_init_f;
  host : Z;
  pci : Z;
  conf : Z;
  vrings : list vring;
}.

Definition vring_desc_item : struct :=
  [("addr", U64); ("len", U32); ("flags", U16); ("next", U16)]%string.
Definition vring_used_item : struct := [("id", U32); ("len", U32)]%string.
(** The headers of [struct vring_avail] and [struct vring_used], without
    their flexible array [ring]. *)
Definition vring_avail : struct := [("flags", U16); ("idx", U16)]%string.
Definition vring_used : struct := [("flags", U16); ("idx", U16)]%string.
Definition sizeof_vring_avail_item : Z := 2.
Definition sizeof_struct_vring : Z := 64.

(** ** Devices *)

Class Platform (D : Type) := {
  mmio_store : Z → nat → Z → D → D;
  mmio_load : Z → nat → D → Z * D;
  dma_step : D → memory → D * memory;
  (** How often the model lets a polling loop look. *)
  patience : nat;
}.

(** ** State *)

Record heap := {
  heap_start : Z; heap_end : Z;
  arena_start_32 : Z; arena_end_32 : Z;
  arena_start_64 : Z; arena_end_64 : Z;
  arena_start_128 : Z; arena_end_128 : Z;
  arena_start_256 : Z; arena_end_256 : Z;
  arena_start_512 : Z; arena_end_512 : Z;
}.

Record machine (D : Type) := Machine {
  mem : memory;
  dev : D;
  virtio_drivers : list virtio_driver;
  sp : Z;
  the_heap : heap;
  forever_storage_frontier : Z;
  pci_base : Z;
  console_out : list Z;
}.
Arguments Machine {D}.
Arguments mem {D}.
Arguments dev {D}.
Arguments virtio_drivers {D}.
Arguments sp {D}.
Arguments the_heap {D}.
Arguments forever_storage_frontier {D}.
Arguments pci_base {D}.
Arguments console_out {D}.

Section machine.
Context {D : Type} `{!Platform D}.

Definition set_mem m (s : machine D) : machine D :=
  Machine m s.(dev) s.(virtio_drivers) s.(sp) s.(the_heap) s.(forever_storage_frontier)
    s.(pci_base) s.(console_out).
Definition set_dev d (s : machine D) : machine D :=
  Machine s.(mem) d s.(virtio_drivers) s.(sp) s.(the_heap) s.(forever_storage_frontier)
    s.(pci_base) s.(console_out).
Definition set_drivers ds (s : machine D) : machine D :=
  Machine s.(mem) s.(dev) ds s.(sp) s.(the_heap) s.(forever_storage_frontier)
    s.(pci_base) s.(console_out).
Definition set_sp a (s : machine D) : machine D :=
  Machine s.(mem) s.(dev) s.(virtio_drivers) a s.(the_heap) s.(forever_storage_frontier)
    s.(pci_base) s.(console_out).
Definition set_heap h (s : machine D) : machine D :=
  Machine s.(mem) s.(dev) s.(virtio_drivers) s.(sp) h s.(forever_storage_frontier)
    s.(pci_base) s.(console_out).
Definition set_frontier a (s : machine D) : machine D :=
  Machine s.(mem) s.(dev) s.(virtio_drivers) s.(sp) s.(the_heap) a
    s.(pci_base) s.(console_out).
Definition set_pci_base a (s : machine D) : machine D :=
  Machine s.(mem) s.(dev) s.(virtio_drivers) s.(sp) s.(the_heap)
    s.(forever_storage_frontier) a s.(console_out).
Definition set_out o (s : machine D) : machine D :=
  Machine s.(mem) s.(dev) s.(virtio_drivers) s.(sp) s.(the_heap)
    s.(forever_storage_frontier) s.(pci_base) o.

#[export] Instance machine_console : Console (machine D) :=
  {| eprint p := modify (λ s : machine D, set_out (s.(console_out) ++ [p]) s) |}.

#[export, refine] Instance machine_console_spec : ConsoleSpec (machine D) :=
  {| serial := console_out |}.
Proof. intros p s. by eexists. Defined.

(** [epoweroff ()]: the SBI call does not return. *)
Definition epoweroff {A} : prog (machine D) A := stop PowerOff.

(** Memory accesses of the code. *)
Definition store_mem (a : Z) (n : nat) (v : Z) : prog (machine D) unit :=
  modify (λ s, set_mem (store_le s.(mem) a n v) s).
Definition load_mem (a : Z) (n : nat) : prog (machine D) Z :=
  gets (λ s, load_le s.(mem) a n).

(** Device registers. *)
Definition store_reg (a : Z) (n : nat) (v : Z) : prog (machine D) unit :=
  modify (λ s, set_dev (mmio_store a n v s.(dev)) s).
Definition load_reg (a : Z) (n : nat) : prog (machine D) Z :=
  λ s, let '(v, d) := mmio_load a n s.(dev) in (Done v, set_dev d s).

(** The devices run. *)
Definition run_devices : prog (machine D) unit :=
  modify (λ s, let '(d, m) := dma_step s.(dev) s.(mem) in set_dev d (set_mem m s)).

(** A block of [n] bytes of stack for the locals of [body]. *)
Definition with_frame {A} (n : Z) (body : Z → prog (machine D) A) : prog (machine D) A :=
  frame ← gets sp;
  modify (set_sp (frame - n));;
  r ← body (frame - n);
  modify (set_sp frame);;
  mret r.

(** A driver is denoted by its index in [virtio_drivers], a vring by its
    driver and its index in the driver's array. *)
Definition vring_ref : Type := nat * nat.

Definition get_driver (i : nat) : prog (machine D) virtio_driver :=
  ds ← gets virtio_drivers;
  match ds !! i with Some d => mret d | None => stop Undefined end.
Definition put_driver (i : nat) (d : virtio_driver) : prog (machine D) unit :=
  ds ← gets virtio_drivers;
  match ds !! i with
  | Some _ => modify (set_drivers (<[i := d]> ds))
  | None => stop Undefined
  end.
Definition set_vrings vs d :=
  {| device_id := d.(device_id); initialized := d.(initialized); init_f := d.(init_f);
     host := d.(host); pci := d.(pci); conf := d.(conf); vrings := vs |}.

Definition get_vring (r : vring_ref) : prog (machine D) vring :=
  d ← get_driver r.1;
  match d.(vrings) !! r.2 with Some v => mret v | None => stop Undefined end.
Definition put_vring (r : vring_ref) (v : vring) : prog (machine D) unit :=
  d ← get_driver r.1;
  match d.(vrings) !! r.2 with
  | Some _ => put_driver r.1 (set_vrings (<[r.2 := v]> d.(vrings)) d)
  | None => stop Undefined
  end.

Definition set_bookeeping b v :=
  {| num := v.(num); size := v.(size); bouncebufs := v.(bouncebufs); bookeeping := b;
     desc := v.(desc); avail := v.(avail); used := v.(used) |}.
Definition set_used_last x b :=
  {| used_last := x; avail_next := b.(avail_next); avail_avail := b.(avail_avail);
     used_avail := b.(used_avail); descr_head := b.(descr_head); descr_next := b.(descr_next) |}.
Definition set_avail_next x b :=
  {| used_last := b.(used_last); avail_next := x; avail_avail := b.(avail_avail);
     used_avail := b.(used_avail); descr_head := b.(descr_head); descr_next := b.(descr_next) |}.
Definition set_descr_next x b :=
  {| used_last := b.(used_last); avail_next := b.(avail_next); avail_avail := b.(avail_avail);
     used_avail := b.(used_avail); descr_head := b.(descr_head); descr_next := x |}.

(** Printing a message only appends to what was printed. *)
Lemma eprint_str_machine str (s : machine D) :
  Forall (λ c, c ≠ 0) str →
  eprint_str (str ++ [0]) s = (Done tt, set_out (console_out s ++ str) s).
Proof.
  intros Hstr. revert s. induction Hstr as [|c str Hc _ IH]; intros s; cbn [app eprint_str].
  - cbn. rewrite app_nil_r. by destruct s.
  - apply Z.eqb_neq in Hc as ->. unfold eprint, machine_console. run. rewrite IH.
    unfold set_out. cbn. by rewrite <-app_assoc.
Qed.

Lemma eprint_msg_machine msg (s : machine D) :
  Forall (λ c, c ≠ 0) (chars msg) →
  eprint_msg msg s = (Done tt, set_out (console_out s ++ chars msg) s).
Proof. apply eprint_str_machine. Qed.
End machine.
