(* ===== verification/Heap.v ===== *)
(** * The two allocators (src/memory.c)

    [malloc] hands out the elements of five arenas of ten elements each; an
    element is a [used] byte followed by its buffer.  [forever_alloc_aligned]
    moves a frontier through a storage area and never gives anything back.
    The linker's symbols are the class [Linker]. *)

From S2P Require Import Prelude Layout Ecall Memory Machine.

Class Linker := {
  _esp : Z;
  _sp : Z;
  _heap_start : Z;
  _heap_end : Z;
  _forever_storage_start : Z;
  _forever_storage_stop : Z;
  _brk_start : Z;
}.

(** [ALIGN_UP] of memory.h, on an unsigned type of [w] bits. *)
Definition ALIGN_UP (w start align : Z) : Z :=
  Z.land (wrap w (wrap w (start + align) - 1)) (Z.lxor (2 ^ w - 1) (wrap w (align - 1))).

Definition ARENA_ELEMENT_COUNT : Z := 10.

(** [sizeof (struct arena_element_x)] *)
Definition arena_element (x : Z) : Z := 1 + x.

Section operations.
Context {D : Type} `{!Platform D} `{!Linker}.

(** The loop of [TRY_ALLOC_FROM (x)] from index [i] on, [todo] elements. *)
Fixpoint try_arena (todo : nat) (x start i : Z) : prog (machine D) (option Z) :=
  match todo with
  | O => mret None
  | S todo =>
      let element := start + arena_element x * i in
      used ← load_mem element 1;
      if used =? 0 then store_mem element 1 1;; mret (Some (element + 1))
      else try_arena todo x start (i + 1)
  end.

Definition TRY_ALLOC_FROM (x start size : Z) (rest : prog (machine D) Z) : prog (machine D) Z :=
  if size <? x then
    r ← try_arena (Z.to_nat ARENA_ELEMENT_COUNT) x start 0;
    match r with Some p => mret p | None => rest end
  else rest.

Definition malloc (size : Z) : prog (machine D) Z :=
  h ← gets the_heap;
  TRY_ALLOC_FROM 32 (arena_start_32 h) size (
  TRY_ALLOC_FROM 64 (arena_start_64 h) size (
  TRY_ALLOC_FROM 128 (arena_start_128 h) size (
  TRY_ALLOC_FROM 256 (arena_start_256 h) size (
  TRY_ALLOC_FROM 512 (arena_start_512 h) size (
    eprint_msg ("Found nothing to allocate -- return NULL" +:+ nl);;
    epoweroff))))).

(** Each arena starts where the one before it ends, so the four consistency
    checks compare a value with itself. *)
Definition check_arenas (end_ start : Z) (names : string) : prog (machine D) unit :=
  if negb (end_ =? start)
  then eprint_msg ("Error occurred initializing the " +:+ names +:+ " arena." +:+ nl);; epoweroff
  else mret tt.

Definition initialize_heap : prog (machine D) unit :=
  let start_32 := _heap_start in
  let end_32 := start_32 + ARENA_ELEMENT_COUNT * arena_element 32 in
  let start_64 := end_32 in
  let end_64 := start_64 + ARENA_ELEMENT_COUNT * arena_element 64 in
  check_arenas end_32 start_64 "32/64";;
  let start_128 := end_64 in
  let end_128 := start_128 + ARENA_ELEMENT_COUNT * arena_element 128 in
  check_arenas end_64 start_128 "64/128";;
  let start_256 := end_128 in
  let end_256 := start_256 + ARENA_ELEMENT_COUNT * arena_element 256 in
  check_arenas end_128 start_256 "128/256";;
  let start_512 := end_256 in
  let end_512 := start_512 + ARENA_ELEMENT_COUNT * arena_element 512 in
  check_arenas end_256 start_512 "256/512";;
  modify (set_heap
    {| heap_start := _heap_start; heap_end := _heap_end;
       arena_start_32 := start_32; arena_end_32 := end_32;
       arena_start_64 := start_64; arena_end_64 := end_64;
       arena_start_128 := start_128; arena_end_128 := end_128;
       arena_start_256 := start_256; arena_end_256 := end_256;
       arena_start_512 := start_512; arena_end_512 := end_512 |});;
  if _heap_end <? end_512
  then eprint_msg ("Not enough room in the heap to allocate all arenas." +:+ nl);; epoweroff
  else mret tt.

(** Returns 0 for a null pointer. *)
Definition forever_alloc_aligned (size align : Z) : prog (machine D) Z :=
  frontier ← gets forever_storage_frontier;
  let aligned_start := ALIGN_UP 64 frontier align in
  if _forever_storage_stop <? u64 (aligned_start + size) then
    eprint_msg ("There is no more forever space left!" +:+ nl);; mret 0
  else
    modify (set_frontier (u64 (aligned_start + size)));;
    mret aligned_start.
End operations.

(** ** Alignment *)

Lemma ones_pred w : 0 <= w → 2 ^ w - 1 = Z.ones w.
Proof. intros. rewrite Z.ones_equiv. lia. Qed.

Lemma land_not_low w k x :
  0 <= k <= w → 0 <= x < 2 ^ w →
  Z.land x (Z.lxor (2 ^ w - 1) (2 ^ k - 1)) = x - x mod 2 ^ k.
Proof.
  intros Hk Hx. rewrite !ones_pred by lia.
  replace (x - x mod 2 ^ k) with (Z.shiftl (Z.shiftr x k) k)
    by (rewrite Z.shiftl_mul_pow2, Z.shiftr_div_pow2 by lia; pose proof (Z.div_mod x (2 ^ k)); lia).
  apply Z.bits_inj'. intros n Hn.
  rewrite Z.land_spec, Z.lxor_spec, Z.shiftl_spec by lia.
  destruct (Z.ltb_spec n k).
  - rewrite !Z.ones_spec_low by lia. rewrite (Z.testbit_neg_r _ (n - k)) by lia. by rewrite andb_false_r.
  - rewrite Z.shiftr_spec, (Z.ones_spec_high k) by lia.
    replace (n - k + k) with n by lia. destruct (Z.ltb_spec n w).
    + rewrite Z.ones_spec_low by lia. by rewrite andb_true_r.
    + rewrite Z.ones_spec_high by lia. cbn. rewrite andb_false_r.
      destruct (decide (x = 0)) as [->|]; [by rewrite Z.bits_0|].
      rewrite Z.bits_above_log2; [done|lia|].
      apply Z.lt_le_trans with w; [apply Z.log2_lt_pow2; lia|lia].
Qed.

(** [ALIGN_UP] rounds up to the next multiple of a power of two. *)
Lemma ALIGN_UP_spec w k start :
  0 <= k < w → 0 <= start → start + 2 ^ k - 1 < 2 ^ w →
  ALIGN_UP w start (2 ^ k) = (start + 2 ^ k - 1) / 2 ^ k * 2 ^ k.
Proof.
  intros Hk Hs Hfit. unfold ALIGN_UP.
  assert (2 ^ k < 2 ^ w) by (apply Z.pow_lt_mono_r; lia). assert (0 < 2 ^ k) by lia.
  replace (wrap w (wrap w (start + 2 ^ k) - 1)) with (start + 2 ^ k - 1).
  - rewrite (wrap_small w (2 ^ k - 1)) by lia. rewrite land_not_low by lia.
    pose proof (Z.div_mod (start + 2 ^ k - 1) (2 ^ k)). lia.
  - unfold wrap. rewrite Zminus_mod_idemp_l, Z.mod_small by lia. done.
Qed.
