(* ===== verification/LinkerScript.v ===== *)
(** * The memory layout (ld/standard.lds)

    The sections that the linker script places into [demandos_managed], one
    after the other: stack, metadata of the kernel, forever storage, heap.
    The location counter of the script is an argument that is passed on. *)

From S2P Require Import Prelude Layout Ecall Memory Machine Heap.

Definition DEMANDOS_STACK_SIZE : Z := 8192 + 8192.
Definition DEMANDOS_HEAP_SIZE : Z := 1024 * 1024 * 24.

(** [ORIGIN] of the region [demandos_managed] *)
Definition demandos_managed : Z := 2150629376. (* 0x80300000 *)

(** [ALIGN] of the linker, at the location counter [dot]. *)
Definition lds_align (dot n : Z) : Z := (dot + n - 1) / n * n.

Definition stack_start : Z := lds_align demandos_managed 8.
Definition stack_end : Z := stack_start + DEMANDOS_STACK_SIZE.
Definition kernel_end : Z := lds_align (stack_end + 8192) 4096.
Definition forever_stop : Z := lds_align kernel_end 4096 + 8192 * 10.
Definition heap_begin : Z := lds_align forever_stop 4096.
Definition heap_stop : Z := lds_align (heap_begin + DEMANDOS_HEAP_SIZE) 4096.

Definition standard_lds : Linker :=
  {| _esp := stack_start; _sp := stack_end - 16;
     _heap_start := heap_begin; _heap_end := heap_stop;
     _forever_storage_start := kernel_end; _forever_storage_stop := forever_stop;
     _brk_start := lds_align heap_stop 4096 |}.
#[export] Existing Instance standard_lds.

(** ** What the kernel relies on *)

(** The areas follow each other, the stack first; the frontier of the forever
    storage is page-aligned from the start; the arenas fit into the heap. *)
Lemma standard_areas :
  _esp < _sp ∧ _sp + 16 <= _forever_storage_start ∧ _forever_storage_start mod 4096 = 0 ∧
  _forever_storage_start + 81920 = _forever_storage_stop ∧ _forever_storage_stop <= _heap_start ∧
  _heap_start + 9970 <= _heap_end ∧ _heap_end <= _brk_start ∧ _brk_start < 2 ^ 43.
Proof. vm_compute. intuition congruence. Qed.
