(* ===== verification/Blk.v ===== *)
(** * Byte-granular access to the block device (src/blk.c)

    [BlkDev] is the interface blk.c offers for whole sectors; [BlkSpec] is
    what a sector operation promises its callers.  The byte-level routines
    [virtio_blk_read_sync] and [virtio_blk_write_sync] are written, and
    verified, against the two classes; BlkVring.v discharges them for the
    virtqueue driver. *)

From S2P Require Import Prelude.

Definition VIRTIO_BLK_SIZE : Z := 512.

Definition virtio_blk_sector_from_pos (pos : Z) : Z := pos / VIRTIO_BLK_SIZE.
Definition virtio_blk_sector_offset_from_pos (pos : Z) : Z := pos mod VIRTIO_BLK_SIZE.

(** One-sector operations.  [read_sector sector blk] is
    [virtio_blk_read_sector_sync (driver, sector, blk)]: the status byte it
    returns and the 512 bytes at [blk] afterwards. *)
Class BlkDev (St : Type) := {
  read_sector : Z → list byte → prog St (Z * list byte);
  write_sector : Z → list byte → prog St Z;
}.

(** ** The byte-level loops *)

Section operations.
Context {St : Type} `{!BlkDev St}.

(** The number of turns the loops below are given: a request of [size]
    bytes touches at most [size / 512 + 2] sectors. *)
Definition sector_turns (size : Z) : nat := Z.to_nat (size / VIRTIO_BLK_SIZE + 2).

(** The [for] loop of [virtio_blk_read_sync] from [read_amt] on.  The
    destination is the buffer [output] at its offset [at_]. *)
Fixpoint blk_read_loop (fuel : nat) (output : list byte) (at_ offset size read_amt : Z)
    : prog St (Z * list byte) :=
  if read_amt <? size then
    match fuel with
    | O => stop Hang
    | S fuel =>
        let sector := virtio_blk_sector_from_pos (u64 (offset + read_amt)) in
        let sector_offset := virtio_blk_sector_offset_from_pos (u64 (offset + read_amt)) in
        let size_of_content_in_sector := VIRTIO_BLK_SIZE - sector_offset in
        let last_read_amt := MIN (size - read_amt) size_of_content_in_sector in
        '(read_result, blk) ← read_sector sector (zeros VIRTIO_BLK_SIZE);
        if negb (read_result =? 0) then mret (read_amt, output)
        else
          output ← memcpy output (at_ + read_amt) blk sector_offset last_read_amt;
          blk_read_loop fuel output at_ offset size (u64 (read_amt + last_read_amt))
    end
  else mret (read_amt, output).

Definition virtio_blk_read_sync (output : list byte) (at_ offset size : Z)
    : prog St (Z * list byte) :=
  blk_read_loop (sector_turns size) output at_ offset size 0.

(** The [for] loop of [virtio_blk_write_sync]: read the sector, overlay the
    caller's bytes, write the sector back. *)
Fixpoint blk_write_loop (fuel : nat) (input : list byte) (at_ offset size write_amt : Z)
    : prog St Z :=
  if write_amt <? size then
    match fuel with
    | O => stop Hang
    | S fuel =>
        let sector := virtio_blk_sector_from_pos (u64 (offset + write_amt)) in
        let sector_offset := virtio_blk_sector_offset_from_pos (u64 (offset + write_amt)) in
        '(read_result, blk) ← read_sector sector (zeros VIRTIO_BLK_SIZE);
        if negb (read_result =? 0) then mret write_amt
        else
          let size_of_content_in_sector := VIRTIO_BLK_SIZE - sector_offset in
          let last_write_amt := MIN (size - write_amt) size_of_content_in_sector in
          blk ← memcpy blk sector_offset input (at_ + write_amt) last_write_amt;
          write_result ← write_sector sector blk;
          if negb (write_result =? 0) then mret write_amt
          else blk_write_loop fuel input at_ offset size (u64 (write_amt + last_write_amt))
    end
  else mret write_amt.

Definition virtio_blk_write_sync (input : list byte) (at_ offset size : Z) : prog St Z :=
  blk_write_loop (sector_turns size) input at_ offset size 0.
End operations.

(** ** What a sector operation promises

    [image s] is the content of the disk.  The laws say that a read of a
    sector inside the disk returns status 0 and the sector, that a write
    replaces exactly the sector, and that a sector past the end is refused
    with a non-zero status and no effect on the disk. *)
Class BlkSpec (St : Type) `{!BlkDev St} := {
  ready : St → Prop;
  image : St → list byte;
  image_sectors s : ready s → zlen (image s) mod 512 = 0;
  image_bound s : ready s → zlen (image s) <= 2 ^ 64;
  read_sector_inside s sector blk :
    ready s → zlen blk = 512 → 0 <= sector → 512 * sector + 512 <= zlen (image s) →
    ∃ s', read_sector sector blk s = (Done (0, slice (image s) (512 * sector) 512), s') ∧
          ready s' ∧ image s' = image s;
  read_sector_outside s sector blk :
    ready s → zlen blk = 512 → 0 <= sector < 2 ^ 55 → zlen (image s) <= 512 * sector →
    ∃ st blk' s', read_sector sector blk s = (Done (st, blk'), s') ∧
          st ≠ 0 ∧ ready s' ∧ image s' = image s;
  write_sector_inside s sector blk :
    ready s → zlen blk = 512 → 0 <= sector → 512 * sector + 512 <= zlen (image s) →
    ∃ s', write_sector sector blk s = (Done 0, s') ∧
          ready s' ∧ image s' = splice (image s) (512 * sector) blk;
}.
(** (A write is always preceded by a successful read of the same sector, so
    callers never need a law for a write past the end.) *)

(** The number of bytes of a request of [size] bytes at [offset] that lie on
    a disk of [len] bytes. *)
Definition available (len offset size : Z) : Z := Z.min size (Z.max 0 (len - offset)).

(** The turns a loop at position [pos] still needs for [left] bytes. *)
Definition turns_needed (pos left : Z) : Z := (pos mod 512 + left + 511) / 512.

Lemma turns_enough pos size : 0 <= size → turns_needed pos size <= Z.of_nat (sector_turns size).
Proof. intros. unfold turns_needed, sector_turns, VIRTIO_BLK_SIZE. zlia. Qed.

Lemma turns_positive pos left : 0 < left → 1 <= turns_needed pos left.
Proof. intros. unfold turns_needed. zlia. Qed.

(** Where a disk position falls: either its whole sector is on the disk or
    the sector starts at or past the end. *)
Lemma sector_position len pos :
  0 <= pos → len mod 512 = 0 →
  if pos <? len then 512 * (pos / 512) + 512 <= len else len <= 512 * (pos / 512).
Proof. intros. destruct (Z.ltb_spec pos len); zlia. Qed.

(** The arithmetic of one turn: the sector and the offset in it that the code
    computes for the bytes from [amt] on, and the turn's share [n]. *)
Record turn (offset size amt sector so n : Z) : Prop := {
  turn_sector : virtio_blk_sector_from_pos (u64 (offset + amt)) = sector;
  turn_offset : virtio_blk_sector_offset_from_pos (u64 (offset + amt)) = so;
  turn_share : MIN (size - amt) (VIRTIO_BLK_SIZE - so) = n;
  turn_next : u64 (amt + n) = amt + n;
  turn_pos : offset + size <= 2 ^ 64 → offset + amt = 512 * sector + so;
  turn_sector_range : 0 <= sector < 2 ^ 55;
  turn_so_range : 0 <= so;
  turn_n_range : 0 < n;
  turn_fits : amt + n <= size ∧ so + n <= 512;
  turn_fuel fuel :
    turns_needed (offset + amt) (size - amt) <= Z.of_nat (S fuel) →
    amt + n < size → turns_needed (offset + (amt + n)) (size - (amt + n)) <= Z.of_nat fuel;
}.

Lemma loop_turn offset size amt :
  0 <= offset → 0 <= amt < size → size < 2 ^ 64 →
  ∃ sector so n, turn offset size amt sector so n.
Proof.
  intros. exists (u64 (offset + amt) / 512), ((offset + amt) mod 512),
    (Z.min (size - amt) (512 - (offset + amt) mod 512)).
  pose proof (wrap_range 64 (offset + amt) ltac:(lia)).
  assert (u64 (offset + amt) mod 512 = (offset + amt) mod 512) as Hmod.
  { unfold wrap. change (2 ^ 64) with (512 * 2 ^ 55).
    rewrite Z.rem_mul_r by lia.
    rewrite Z.mul_comm, Z.mod_add, Z.mod_mod by lia. done. }
  split; rewrite ?MIN_min; unfold virtio_blk_sector_offset_from_pos, VIRTIO_BLK_SIZE in *;
    try done; try zlia.
  - apply wrap_small. zlia.
  - intros. rewrite wrap_small by lia. zlia.
  - intros fuel Hf Hlt. unfold turns_needed in *. zlia.
Qed.

Section correctness.
Context {St : Type} `{BlkSpec St}.
Implicit Types s : St.

Lemma slice_turn {A} (l : list A) offset size amt n :
  0 <= offset → 0 <= amt → 0 <= n → amt + n <= size →
  slice l (offset + amt) (size - amt) =
  slice l (offset + amt) n ++ slice l (offset + (amt + n)) (size - (amt + n)).
Proof.
  intros. replace (size - amt) with (n + (size - (amt + n))) by lia.
  rewrite slice_app_split by lia. do 2 f_equal. lia.
Qed.

(** A read loop started at [amt] delivers the bytes of the request that
    lie on the disk, and stops there. *)
Lemma blk_read_loop_spec fuel output at_ offset size amt s :
  ready s → 0 <= at_ → 0 <= offset → 0 <= amt <= size → size < 2 ^ 64 →
  offset + size <= 2 ^ 64 → at_ + size <= zlen output →
  (amt < size → turns_needed (offset + amt) (size - amt) <= Z.of_nat fuel) →
  let data := slice (image s) (offset + amt) (size - amt) in
  ∃ s', blk_read_loop fuel output at_ offset size amt s
        = (Done (amt + zlen data, splice output (at_ + amt) data), s')
      ∧ ready s' ∧ image s' = image s.
Proof.
  revert output amt s. induction fuel as [|fuel IH];
    intros output amt s Hs Hat Hoff Hamt Hsize Hsum Hout Hfuel data; cbn [blk_read_loop].
  all: destruct (Z.ltb_spec amt size) as [Hlt|Hge].
  1: { pose proof (turns_positive (offset + amt) (size - amt)). lia. }
  1, 3: exists s; replace data with (@nil byte) by (unfold data; by replace (size - amt) with 0 by lia);
        rewrite splice_nil, zlen_nil, Z.add_0_r; done.
  destruct (loop_turn offset size amt) as (sector & so & n & [-> -> -> -> Hpos ? ? ? ? Hnext]); [lia..|].
  specialize (Hpos Hsum).
  pose proof (sector_position (zlen (image s)) (offset + amt) ltac:(lia) (image_sectors s Hs)) as Hin.
  replace ((offset + amt) / 512) with sector in Hin by zlia.
  destruct (Z.ltb_spec (offset + amt) (zlen (image s))).
  - destruct (read_sector_inside s sector (zeros VIRTIO_BLK_SIZE))
      as (s1 & Hrd & Hr1 & Him1); [done|by apply zlen_zeros|lia..|].
    run_with Hrd. cbn [negb Z.eqb].
    assert (zlen (slice (image s) (512 * sector) 512) = 512) by (apply zlen_slice; lia).
    run_apply memcpy_done.
    rewrite slice_slice, <-Hpos by lia.
    set (d1 := slice (image s) (offset + amt) n).
    assert (zlen d1 = n) as Hd1 by (apply zlen_slice; lia).
    edestruct (IH (splice output (at_ + amt) d1) (amt + n) s1) as (s2 & Hrun & Hr2 & Him2);
      [done|lia..|rewrite zlen_splice; lia|auto|].
    exists s2. rewrite Hrun, Him2, Him1. split; [|done].
    unfold data. rewrite (slice_turn _ offset size amt n) by lia. fold d1.
    rewrite zlen_app, splice_app, Hd1.
    { do 3 f_equal; [lia|f_equal; lia]. }
    { lia. }
    { rewrite Hd1, zlen_slice_min; lia. }
  - destruct (read_sector_outside s sector (zeros VIRTIO_BLK_SIZE))
      as (st & blk & s1 & Hrd & Hst & Hr1 & Him1); [done|by apply zlen_zeros|lia..|].
    run_with Hrd. apply Z.eqb_neq in Hst as ->. cbn [negb].
    exists s1. replace data with (@nil byte) by (symmetry; apply slice_past; lia).
    rewrite splice_nil, zlen_nil, Z.add_0_r. done.
Qed.

(** A write loop started at [amt] puts the caller's bytes on the disk, as
    far as the disk goes, and changes nothing else. *)
Lemma blk_write_loop_spec fuel input at_ offset size amt s :
  ready s → 0 <= at_ → 0 <= offset → 0 <= amt <= size → size < 2 ^ 64 →
  offset + size <= 2 ^ 64 → at_ + size <= zlen input →
  (amt < size → turns_needed (offset + amt) (size - amt) <= Z.of_nat fuel) →
  let cnt := available (zlen (image s)) (offset + amt) (size - amt) in
  ∃ s', blk_write_loop fuel input at_ offset size amt s = (Done (amt + cnt), s')
      ∧ ready s' ∧ image s' = splice (image s) (offset + amt) (slice input (at_ + amt) cnt).
Proof.
  revert amt s. induction fuel as [|fuel IH];
    intros amt s Hs Hat Hoff Hamt Hsize Hsum Hin Hfuel cnt; cbn [blk_write_loop].
  all: destruct (Z.ltb_spec amt size) as [Hlt|Hge].
  1: { pose proof (turns_positive (offset + amt) (size - amt)). lia. }
  1, 3: exists s; replace cnt with 0 by (unfold cnt, available; lia);
        rewrite slice_nil, splice_nil, Z.add_0_r; done.
  destruct (loop_turn offset size amt) as (sector & so & n & [-> -> -> -> Hpos ? ? ? ? Hnext]); [lia..|].
  specialize (Hpos Hsum).
  pose proof (sector_position (zlen (image s)) (offset + amt) ltac:(lia) (image_sectors s Hs)) as Hsec.
  replace ((offset + amt) / 512) with sector in Hsec by zlia.
  destruct (Z.ltb_spec (offset + amt) (zlen (image s))).
  - destruct (read_sector_inside s sector (zeros VIRTIO_BLK_SIZE))
      as (s1 & Hrd & Hr1 & Him1); [done|by apply zlen_zeros|lia..|].
    run_with Hrd. cbn [negb Z.eqb].
    assert (zlen (slice (image s) (512 * sector) 512) = 512) by (apply zlen_slice; lia).
    run_apply memcpy_done.
    set (d1 := slice input (at_ + amt) n).
    assert (zlen d1 = n) as Hd1 by (apply zlen_slice; lia).
    assert (zlen (splice (slice (image s) (512 * sector) 512) so d1) = 512)
      by (rewrite zlen_splice; lia).
    edestruct (write_sector_inside s1 sector) as (s2 & Hwr & Hr2 & Him2);
      [done|done|lia|rewrite Him1; lia|].
    run_with Hwr. cbn [negb Z.eqb].
    rewrite Him1, splice_block, <-Hpos in Him2 by lia.
    destruct (IH (amt + n) s2) as (s3 & Hrun & Hr3 & Him3); [done|lia..|auto|].
    rewrite Him2, zlen_splice in Hrun, Him3 by lia.
    assert (cnt = n + available (zlen (image s)) (offset + (amt + n)) (size - (amt + n))) as Hcnt
      by (unfold cnt, available; lia).
    exists s3. rewrite Hrun, Him3, Hcnt, slice_app_split, splice_app; fold d1;
      rewrite ?Hd1; try (unfold available; lia).
    { split; [do 2 f_equal; lia|]. split; [done|]. f_equal; [lia|f_equal; lia]. }
    { rewrite zlen_slice_min; unfold available; lia. }
  - destruct (read_sector_outside s sector (zeros VIRTIO_BLK_SIZE))
      as (st & blk & s1 & Hrd & Hst & Hr1 & Him1); [done|by apply zlen_zeros|lia..|].
    run_with Hrd. apply Z.eqb_neq in Hst as ->. cbn [negb].
    exists s1. replace cnt with 0 by (unfold cnt, available; lia).
    rewrite slice_nil, splice_nil, Z.add_0_r. done.
Qed.

Lemma virtio_blk_read_sync_spec output at_ offset size s :
  ready s → 0 <= at_ → 0 <= offset → 0 <= size < 2 ^ 64 →
  offset + size <= 2 ^ 64 → at_ + size <= zlen output →
  let data := slice (image s) offset size in
  ∃ s', virtio_blk_read_sync output at_ offset size s
        = (Done (zlen data, splice output at_ data), s')
      ∧ ready s' ∧ image s' = image s.
Proof.
  intros. destruct (blk_read_loop_spec (sector_turns size) output at_ offset size 0 s)
    as (s' & Hrun & Hr & Him); rewrite ?Z.add_0_r, ?Z.sub_0_r; try lia; try done.
  { intros. apply turns_enough. lia. }
  zero_norm. eauto.
Qed.

Lemma virtio_blk_write_sync_spec input at_ offset size s :
  ready s → 0 <= at_ → 0 <= offset → 0 <= size < 2 ^ 64 →
  offset + size <= 2 ^ 64 → at_ + size <= zlen input →
  let cnt := available (zlen (image s)) offset size in
  ∃ s', virtio_blk_write_sync input at_ offset size s = (Done cnt, s')
      ∧ ready s' ∧ image s' = splice (image s) offset (slice input at_ cnt).
Proof.
  intros. destruct (blk_write_loop_spec (sector_turns size) input at_ offset size 0 s)
    as (s' & Hrun & Hr & Him); rewrite ?Z.add_0_r, ?Z.sub_0_r; try lia; try done.
  { intros. apply turns_enough. lia. }
  zero_norm. eauto.
Qed.
End correctness.

(** ** Any device, failing or not

    The loops are total and stay inside the caller's buffer whatever statuses
    the device returns, and even when [offset + size] wraps around. *)

Definition sectors_return (St : Type) `{!BlkDev St} : Prop :=
  (∀ sector blk (s : St), zlen blk = 512 →
     ∃ st blk' s', read_sector sector blk s = (Done (st, blk'), s') ∧ zlen blk' = 512) ∧
  (∀ sector blk (s : St), zlen blk = 512 →
     ∃ st s', write_sector sector blk s = (Done st, s')).

Section totality.
Context {St : Type} `{!BlkDev St}.
Hypothesis returns : sectors_return St.
Implicit Types s : St.

(** The loop returns some [r <= size] and has written exactly [r] bytes. *)
Lemma blk_read_loop_total fuel output at_ offset size amt s :
  0 <= at_ → 0 <= offset → 0 <= amt <= size → size < 2 ^ 64 → at_ + size <= zlen output →
  (amt < size → turns_needed (offset + amt) (size - amt) <= Z.of_nat fuel) →
  ∃ data s', blk_read_loop fuel output at_ offset size amt s
        = (Done (amt + zlen data, splice output (at_ + amt) data), s') ∧
      amt + zlen data <= size.
Proof.
  revert output amt s. induction fuel as [|fuel IH];
    intros output amt s Hat Hoff Hamt Hsize Hout Hfuel; cbn [blk_read_loop].
  all: destruct (Z.ltb_spec amt size) as [Hlt|Hge].
  1: { pose proof (turns_positive (offset + amt) (size - amt)). lia. }
  1, 3: exists [], s; rewrite splice_nil, zlen_nil, Z.add_0_r; split; [done|lia].
  destruct (loop_turn offset size amt) as (sector & so & n & [-> -> -> -> _ ? ? ? ? Hnext]); [lia..|].
  destruct (proj1 returns sector (zeros VIRTIO_BLK_SIZE) s) as (st & blk & s1 & Hrd & Hblk);
    [by apply zlen_zeros|].
  run_with Hrd. destruct (st =? 0); cbn [negb].
  - run_apply memcpy_done.
    assert (zlen (slice blk so n) = n) by (apply zlen_slice; lia).
    destruct (IH (splice output (at_ + amt) (slice blk so n)) (amt + n) s1)
      as (data & s2 & Hrun & Hdata); [lia..|rewrite zlen_splice; lia|auto|].
    pose proof (zlen_nonneg data).
    exists (slice blk so n ++ data), s2.
    rewrite Hrun, zlen_app, splice_app by lia. split; [|lia].
    do 3 f_equal; [lia|f_equal; lia].
  - exists [], s1. rewrite splice_nil, zlen_nil, Z.add_0_r. split; [done|lia].
Qed.

Lemma blk_write_loop_total fuel input at_ offset size amt s :
  0 <= at_ → 0 <= offset → 0 <= amt <= size → size < 2 ^ 64 → at_ + size <= zlen input →
  (amt < size → turns_needed (offset + amt) (size - amt) <= Z.of_nat fuel) →
  ∃ r s', blk_write_loop fuel input at_ offset size amt s = (Done r, s') ∧ amt <= r <= size.
Proof.
  revert amt s. induction fuel as [|fuel IH];
    intros amt s Hat Hoff Hamt Hsize Hout Hfuel; cbn [blk_write_loop].
  all: destruct (Z.ltb_spec amt size) as [Hlt|Hge].
  1: { pose proof (turns_positive (offset + amt) (size - amt)). lia. }
  1, 3: exists amt, s; split; [done|lia].
  destruct (loop_turn offset size amt) as (sector & so & n & [-> -> -> -> _ ? ? ? ? Hnext]); [lia..|].
  destruct (proj1 returns sector (zeros VIRTIO_BLK_SIZE) s) as (st & blk & s1 & Hrd & Hblk);
    [by apply zlen_zeros|].
  run_with Hrd. destruct (st =? 0); cbn [negb]; [|by exists amt, s1; split; [|lia]].
  run_apply memcpy_done.
  assert (zlen (slice input (at_ + amt) n) = n) by (apply zlen_slice; lia).
  destruct (proj2 returns sector (splice blk so (slice input (at_ + amt) n)) s1)
    as (st' & s2 & Hwr); [rewrite zlen_splice; lia|].
  run_with Hwr. destruct (st' =? 0); cbn [negb]; [|by exists amt, s2; split; [|lia]].
  destruct (IH (amt + n) s2) as (r & s3 & Hrun & Hr); [lia..|auto|].
  exists r, s3. split; [done|lia].
Qed.
End totality.
