(* ===== verification/Ext2.v ===== *)
(** * The ext2 volume: superblock, block groups, inodes and file contents
    (src/ext2.c, include/ext2.h)

    The functions take a [struct virtio_driver *driver] that they only pass
    on; here the driver is part of the state [St] the block device works on.
    The directory functions are in Ext2Dir.v. *)

From S2P Require Import Prelude Layout Ecall Blk.

(** The content an uninitialised local object of [n] bytes happens to have.
    Nothing is assumed about it but its size. *)
Class Uninit := {
  uninit : Z → list byte;
  zlen_uninit n : 0 <= n → zlen (uninit n) = n;
}.

(** ** Data *)

Definition EXT2_MAX_DIRECT_BLOCKS_PER_INODE : Z := 13.
Definition EXT2_SUPPORTED_BLOCK_SIZE : Z := 1024.

Definition ext2_superblock : struct :=
  [("s_inodes_count", U32); ("s_blocks_count", U32); ("s_r_blocks_count", U32);
   ("s_free_blocks_count", U32); ("s_free_inodes_count", U32);
   ("s_first_data_block", U32); ("s_log_block_size", U32); ("s_log_frag_size", U32);
   ("s_blocks_per_group", U32); ("s_frags_per_group", U32);
   ("s_inodes_per_group", U32); ("s_padding1", Pad 32); ("s_rev_level", U32);
   ("s_padding2", Pad 4); ("s_first_inode", U32); ("s_inode_size", U32);
   ("s_padding3", Pad (1024 - 92))]%string.

Definition EXT2_FIRST_OFFSET_AFTER_SUPERBLOCK : Z := 1024 + sizeof ext2_superblock.

Definition ext2_blockgroup : struct :=
  [("bg_block_bitmap", U32); ("bg_inode_bitmap", U32); ("bg_inode_table", U32);
   ("bg_free_blocks_count", U16); ("bg_free_inodes_count", U16);
   ("bg_used_dirs_count", U16); ("bg_pad", U16); ("bg_reserved", Pad 12)]%string.

Definition ext2_inode : struct :=
  [("i_mode", U16); ("i_uid", U16); ("i_size", U32); ("i_atime", U32);
   ("i_ctime", U32); ("i_mtime", U32); ("i_dtime", U32); ("i_gid", U16);
   ("i_links_count", U16); ("i_blocks", U32); ("i_flags", U32); ("i_osd1", U32);
   ("i_block", ArrU32 15); ("padding1", Pad 28); ("padding2", Pad 128)]%string.

Notation "v .[ st , f ]" := (get_field st f v) (at level 1, left associativity, format "v .[ st ,  f ]").
Notation "v .[ st , f := x ]" := (set_field st f v x) (at level 1, left associativity).

(** [a << n] on [int] *)
Definition shl_int {S} (a n : Z) : prog S Z :=
  defined ((n <? 32) && (Z.shiftl a n <? 2 ^ 31));;
  mret (Z.shiftl a n).

(** ** Operations *)

Section operations.
Context {St : Type} `{!BlkDev St} `{!Console St} `{!Uninit}.

(** The result of the read is not looked at. *)
Definition bg_from_bgno (rbg : list byte) (bgno : Z) : prog St (bool * list byte) :=
  let bg_sector := u64 (EXT2_FIRST_OFFSET_AFTER_SUPERBLOCK + bgno * sizeof ext2_blockgroup) in
  '(_, rbg) ← virtio_blk_read_sync rbg 0 bg_sector (sizeof ext2_blockgroup);
  mret (true, rbg).

Definition INODE_TABLE_LOC (ino inode_per_group : Z) : prog St Z :=
  defined (negb (inode_per_group =? 0));; mret (u32 (ino - 1) / inode_per_group).
Definition INODE_LOC_IN_TABLE (ino inode_per_group : Z) : prog St Z :=
  defined (negb (inode_per_group =? 0));; mret (u32 (ino - 1) mod inode_per_group).

(** [bg.bg_inode_table * 1024] is a 32-bit product. *)
Definition ino_disk_offset (superblock : list byte) (ino : Z) : prog St Z :=
  inode_table_block_group ←
    INODE_TABLE_LOC ino superblock.[ext2_superblock, "s_inodes_per_group"%string];
  inode_table_index ←
    INODE_LOC_IN_TABLE ino superblock.[ext2_superblock, "s_inodes_per_group"%string];
  '(_, bg) ← bg_from_bgno (uninit (sizeof ext2_blockgroup)) inode_table_block_group;
  mret (u64 (u32 (bg.[ext2_blockgroup, "bg_inode_table"%string] * EXT2_SUPPORTED_BLOCK_SIZE)
             + inode_table_index * sizeof ext2_inode)).

Definition inode_to_ino (superblock rinode : list byte) (ino : Z) : prog St bool :=
  ino_position ← ino_disk_offset superblock ino;
  result ← virtio_blk_write_sync rinode 0 ino_position (sizeof ext2_inode);
  mret (result =? sizeof ext2_inode).

Definition inode_from_ino (superblock rinode : list byte) (ino : Z)
    : prog St (bool * list byte) :=
  inode_position ← ino_disk_offset superblock ino;
  '(result, rinode) ← virtio_blk_read_sync rinode 0 inode_position (sizeof ext2_inode);
  mret (result =? sizeof ext2_inode, rinode).

Definition ext2_read_block (block_no : Z) (buffer : list byte) : prog St (bool * list byte) :=
  '(result, buffer) ← virtio_blk_read_sync buffer 0
      (u32 (block_no * EXT2_SUPPORTED_BLOCK_SIZE)) EXT2_SUPPORTED_BLOCK_SIZE;
  mret (result =? EXT2_SUPPORTED_BLOCK_SIZE, buffer).

Definition ext2_write_block (block_no block_offset : Z) (buffer : list byte) : prog St bool :=
  result ← virtio_blk_write_sync buffer 0
      (u32 (u32 (block_no * EXT2_SUPPORTED_BLOCK_SIZE) + block_offset)) EXT2_SUPPORTED_BLOCK_SIZE;
  mret (result =? EXT2_SUPPORTED_BLOCK_SIZE).

Definition read_superblock (superblock : list byte) : prog St (bool * list byte) :=
  '(result, superblock) ← virtio_blk_read_sync superblock 0 1024 (sizeof ext2_superblock);
  if negb (result =? sizeof ext2_superblock) then mret (false, superblock)
  else
    actual_block_size ← shl_int 1024 superblock.[ext2_superblock, "s_log_block_size"%string];
    if negb (actual_block_size =? 1024) then
      eprint_msg ("Error: Unsupported block size for filesystem!" +:+ nl);;
      mret (false, superblock)
    else if negb (superblock.[ext2_superblock, "s_inode_size"%string] =? 256) then
      eprint_msg ("Error: Unsupported inode size for filesystem!" +:+ nl);;
      mret (false, superblock)
    else
      (if negb (superblock.[ext2_superblock, "s_rev_level"%string] =? 1) then
         eprint_msg ("Error: Unsupported revision level for filesystem!" +:+ nl)
       else mret tt);;
      mret (true, superblock).

(** *** File contents *)

(** The loop of [read_from_ino]; each turn handles what is left of one
    file-system block. *)
Definition block_turns (len : Z) : nat := Z.to_nat (len / EXT2_SUPPORTED_BLOCK_SIZE + 2).

Fixpoint read_ino_loop (fuel : nat) (inode buffer : list byte) (offset len redden : Z)
    : prog St (Z * list byte) :=
  if redden <? len then
    match fuel with
    | O => stop Hang
    | S fuel =>
        let next_read_pos := u64 (offset + redden) in
        let next_read_block_idx := next_read_pos / EXT2_SUPPORTED_BLOCK_SIZE in
        let next_read_block_offset := next_read_pos mod EXT2_SUPPORTED_BLOCK_SIZE in
        next_read_block_no ← get_elem ext2_inode "i_block"%string inode next_read_block_idx;
        let next_read_len :=
          MIN (EXT2_SUPPORTED_BLOCK_SIZE - next_read_block_offset) (len - redden) in
        '(red, buffer) ← virtio_blk_read_sync buffer redden
            (u64 (u32 (next_read_block_no * EXT2_SUPPORTED_BLOCK_SIZE) + next_read_block_offset))
            next_read_len;
        if negb (red =? next_read_len) then mret (redden, buffer)
        else read_ino_loop fuel inode buffer offset len (u64 (redden + red))
    end
  else mret (len, buffer).

Definition read_from_ino (superblock : list byte) (ino : Z) (buffer : list byte)
    (offset len : Z) : prog St (Z * list byte) :=
  '(found_inode, inode) ← inode_from_ino superblock (uninit (sizeof ext2_inode)) ino;
  if negb found_inode then mret (u64 (-1), buffer)
  else read_ino_loop (block_turns len) inode buffer offset len 0.

Fixpoint write_ino_loop (fuel : nat) (inode buffer : list byte) (offset len written : Z)
    : prog St Z :=
  if written <? len then
    match fuel with
    | O => stop Hang
    | S fuel =>
        let next_write_pos := u64 (offset + written) in
        let next_write_block_idx := next_write_pos / EXT2_SUPPORTED_BLOCK_SIZE in
        let next_write_block_offset := next_write_pos mod EXT2_SUPPORTED_BLOCK_SIZE in
        next_write_block_no ← get_elem ext2_inode "i_block"%string inode next_write_block_idx;
        let next_write_len :=
          MIN (EXT2_SUPPORTED_BLOCK_SIZE - next_write_block_offset) (len - written) in
        wrote ← virtio_blk_write_sync buffer written
            (u64 (u32 (next_write_block_no * EXT2_SUPPORTED_BLOCK_SIZE) + next_write_block_offset))
            next_write_len;
        if negb (wrote =? next_write_len) then mret written
        else write_ino_loop fuel inode buffer offset len (u64 (written + wrote))
    end
  else mret len.

Definition write_to_ino (superblock : list byte) (ino : Z) (buffer : list byte)
    (offset len : Z) : prog St Z :=
  '(found_inode, inode) ← inode_from_ino superblock (uninit (sizeof ext2_inode)) ino;
  if negb found_inode then mret (u64 (-1))
  else write_ino_loop (block_turns len) inode buffer offset len 0.

(** *** Time stamps *)

Definition set_time_for_ino (f : string) (superblock : list byte) (ino time : Z) : prog St bool :=
  '(ok, inode) ← inode_from_ino superblock (uninit (sizeof ext2_inode)) ino;
  if negb ok then mret false
  else inode_to_ino superblock inode.[ext2_inode, f := time] ino.

Definition set_atime_for_ino := set_time_for_ino "i_atime".
Definition set_mtime_for_ino := set_time_for_ino "i_mtime".
Definition set_ctime_for_ino := set_time_for_ino "i_ctime".
End operations.

(** ** Specification of the inode operations *)

(** [inode_located img sb ino loc]: on the disk [img], the descriptor of the
    group of inode [ino] lies inside the disk and puts the inode at [loc];
    the position of the inode table fits the 32-bit product of the code (a
    table below 4 GiB).  [inode_placed]: the inode is inside the disk too. *)
Record inode_located (img sb : list byte) (ino loc : Z) : Prop := {
  located_ino : 1 <= ino < 2 ^ 32;
  located_group :
    let ipg := sb.[ext2_superblock, "s_inodes_per_group"%string] in
    ipg ≠ 0 ∧
    let bg_pos := 2048 + 32 * ((ino - 1) / ipg) in
    bg_pos + 32 <= zlen img ∧
    let table := (slice img bg_pos 32).[ext2_blockgroup, "bg_inode_table"%string] * 1024 in
    table < 2 ^ 32 ∧ loc = table + (ino - 1) mod ipg * 256;
}.

Record inode_placed (img sb : list byte) (ino loc : Z) : Prop := {
  placed_located : inode_located img sb ino loc;
  placed_inside : loc + 256 <= zlen img;
}.

(** The position of the group descriptor that locates inode [ino]. *)
Definition bg_position (sb : list byte) (ino : Z) : Z :=
  2048 + 32 * ((ino - 1) / sb.[ext2_superblock, "s_inodes_per_group"%string]).

Lemma get_field_nonneg st f v : 0 <= get_field st f v.
Proof. apply get_le_range. Qed.
#[export] Hint Resolve get_field_nonneg zlen_nonneg : core.

Lemma located_nonneg img sb ino loc :
  inode_located img sb ino loc → 0 <= loc < 2 ^ 32 + 2 ^ 32 * 256.
Proof.
  intros [? (Hipg & _ & Htab & ->)].
  set (ipg := get_field _ _ _) in *.
  pose proof (get_field_nonneg ext2_blockgroup "bg_inode_table" (slice img (2048 + 32 * ((ino - 1) / ipg)) 32)).
  assert (0 <= ipg) by apply get_field_nonneg.
  pose proof (Z.mod_pos_bound (ino - 1) ipg). pose proof (Z.mod_le (ino - 1) ipg). lia.
Qed.

Lemma placed_nonneg img sb ino loc : inode_placed img sb ino loc → 0 <= loc.
Proof. intros [Hl _]. pose proof (located_nonneg _ _ _ _ Hl). lia. Qed.

Lemma bg_position_nonneg img sb ino loc : inode_placed img sb ino loc → 0 <= bg_position sb ino.
Proof.
  intros [[? (? & _)] _]. unfold bg_position.
  pose proof (get_field_nonneg ext2_superblock "s_inodes_per_group" sb).
  pose proof (Z.div_pos (ino - 1) sb.[ext2_superblock, "s_inodes_per_group"%string]). lia.
Qed.

Section inodes.
Context {St : Type} `{BlkSpec St} `{!Uninit}.
Implicit Types s : St.

Lemma ino_disk_offset_spec sb ino loc s :
  ready s → inode_located (image s) sb ino loc →
  ∃ s', ino_disk_offset sb ino s = (Done loc, s') ∧ ready s' ∧ image s' = image s.
Proof.
  intros Hs Hp. pose proof (located_nonneg _ _ _ _ Hp).
  destruct Hp as [Hino (Hipg & Hbg & Htab & Hloc)].
  unfold ino_disk_offset, INODE_TABLE_LOC, INODE_LOC_IN_TABLE, bg_from_bgno,
    EXT2_FIRST_OFFSET_AFTER_SUPERBLOCK, EXT2_SUPPORTED_BLOCK_SIZE.
  set (ipg := get_field _ _ sb) in *. layout.
  assert (0 <= ipg) by apply get_field_nonneg.
  assert (0 <= (ino - 1) / ipg <= ino - 1) by (split; [apply Z.div_pos|apply Z.div_le_upper_bound]; nia).
  pose proof (Z.mod_pos_bound (ino - 1) ipg ltac:(lia)).
  run. rewrite bind_defined by lia. run. rewrite bind_defined by lia. run.
  rewrite (wrap_small 32 (ino - 1)), (wrap_small 64) by lia.
  destruct (virtio_blk_read_sync_spec (uninit 32) 0 (1024 + 1024 + (ino - 1) / ipg * 32) 32 s)
    as (s1 & Hrd & Hr1 & Him1); rewrite ?zlen_uninit; try lia; [done|].
  run_with Hrd. run.
  replace (1024 + 1024 + (ino - 1) / ipg * 32) with (2048 + 32 * ((ino - 1) / ipg)) by lia.
  rewrite splice_all by (rewrite zlen_slice, zlen_uninit; lia).
  pose proof (get_field_nonneg ext2_blockgroup "bg_inode_table"
    (slice (image s) (2048 + 32 * ((ino - 1) / ipg)) 32)).
  pose proof (image_bound s Hs).
  rewrite (wrap_small 32), (wrap_small 64) by lia.
  exists s1. by rewrite Hloc.
Qed.

Lemma inode_from_ino_spec sb rinode ino loc s :
  ready s → inode_placed (image s) sb ino loc → zlen rinode = 256 →
  ∃ s', inode_from_ino sb rinode ino s = (Done (true, slice (image s) loc 256), s')
      ∧ ready s' ∧ image s' = image s.
Proof.
  intros Hs Hp Hlen. pose proof (placed_nonneg _ _ _ _ Hp). pose proof (placed_inside _ _ _ _ Hp).
  destruct (ino_disk_offset_spec sb ino loc s Hs (placed_located _ _ _ _ Hp)) as (s1 & Hoff & Hr1 & Him1).
  unfold inode_from_ino. run_with Hoff. layout.
  pose proof (image_bound s Hs).
  destruct (virtio_blk_read_sync_spec rinode 0 loc 256 s1)
    as (s2 & Hrd & Hr2 & Him2); [done|rewrite ?Him1; lia..|].
  assert (zlen (slice (image s1) loc 256) = 256) as Hz by (apply zlen_slice; rewrite ?Him1; lia).
  run_with Hrd. rewrite Hz, splice_all by lia.
  exists s2. rewrite Him2, Him1. done.
Qed.

Lemma inode_to_ino_spec sb rinode ino loc s :
  ready s → inode_placed (image s) sb ino loc → zlen rinode = 256 →
  ∃ s', inode_to_ino sb rinode ino s = (Done true, s')
      ∧ ready s' ∧ image s' = splice (image s) loc rinode.
Proof.
  intros Hs Hp Hlen. pose proof (placed_nonneg _ _ _ _ Hp). pose proof (placed_inside _ _ _ _ Hp).
  destruct (ino_disk_offset_spec sb ino loc s Hs (placed_located _ _ _ _ Hp)) as (s1 & Hoff & Hr1 & Him1).
  unfold inode_to_ino. run_with Hoff. layout.
  pose proof (image_bound s Hs).
  destruct (virtio_blk_write_sync_spec rinode 0 loc 256 s1)
    as (s2 & Hwr & Hr2 & Him2); [done|rewrite ?Him1; lia..|].
  assert (available (zlen (image s1)) loc 256 = 256) as Hav
    by (unfold available; rewrite Him1; lia).
  run_with Hwr. rewrite Hav in *.
  exists s2. rewrite Him2, Him1, slice_all by lia. done.
Qed.

(** An inode past the end of the disk: the transfer is short. *)
Lemma inode_from_ino_short sb rinode ino loc s :
  ready s → inode_located (image s) sb ino loc → zlen (image s) < loc + 256 → zlen rinode = 256 →
  ∃ rinode' s', inode_from_ino sb rinode ino s = (Done (false, rinode'), s')
      ∧ ready s' ∧ image s' = image s.
Proof.
  intros Hs Hp Hend Hlen. pose proof (located_nonneg _ _ _ _ Hp).
  destruct (ino_disk_offset_spec sb ino loc s Hs Hp) as (s1 & Hoff & Hr1 & Him1).
  unfold inode_from_ino. run_with Hoff. layout.
  destruct (virtio_blk_read_sync_spec rinode 0 loc 256 s1)
    as (s2 & Hrd & Hr2 & Him2); [done|lia..|].
  run_with Hrd. rewrite Him1, zlen_slice_min by lia.
  replace (_ =? 256) with false by lia. rewrite Him1 in Him2. eexists _, s2. done.
Qed.

(** A time-stamp update changes the four bytes of the field on the disk
    and nothing else. *)
Lemma set_time_for_ino_spec f sb ino loc time s :
  fieldsize ext2_inode f = 4 → offsetof ext2_inode f <= 252 → 0 <= offsetof ext2_inode f →
  ready s → inode_placed (image s) sb ino loc →
  ∃ s', set_time_for_ino f sb ino time s = (Done true, s')
      ∧ ready s' ∧ image s' = put_le (image s) (loc + offsetof ext2_inode f) 4 time.
Proof.
  intros Hsz Hoff Hoff' Hs Hp.
  pose proof (placed_nonneg _ _ _ _ Hp). pose proof (placed_inside _ _ _ _ Hp).
  destruct (inode_from_ino_spec sb (uninit (sizeof ext2_inode)) ino loc s)
    as (s1 & Hrd & Hr1 & Him1); [done..|by rewrite zlen_uninit|].
  unfold set_time_for_ino. run_with Hrd. cbn [negb].
  assert (zlen (slice (image s) loc 256) = 256) by (apply zlen_slice; lia).
  destruct (inode_to_ino_spec sb (set_field ext2_inode f (slice (image s) loc 256) time) ino loc s1)
    as (s2 & Hwr & Hr2 & Him2); [done|by rewrite Him1| |].
  { unfold set_field. rewrite Hsz, zlen_put_le; lia. }
  rewrite Hwr. exists s2. split_and!; [done..|].
  rewrite Him2, Him1. unfold set_field, put_le. rewrite Hsz.
  apply splice_block; rewrite ?zlen_le_split; lia.
Qed.
End inodes.
