(* ===== verification/Ext2File.v ===== *)
(** * Reading and writing file contents by inode (src/ext2.c)

    The reference view of a file: byte [p] of a file lives at the disk
    position [file_pos inode p].  [read_from_ino] is shown to return exactly
    these bytes and [write_to_ino] to store the caller's bytes at exactly
    these positions. *)

From S2P Require Import Prelude Layout Ecall Blk Ext2.

(** ** The reference view *)

Definition i_block (inode : list byte) (i : Z) : Z :=
  get_le inode (offsetof ext2_inode "i_block" + 4 * i) 4.

Definition file_pos (inode : list byte) (p : Z) : Z :=
  i_block inode (p / 1024) * 1024 + p mod 1024.

Definition file_bytes (img inode : list byte) (p n : Z) : list byte :=
  (λ k, img !!! Z.to_nat (file_pos inode (p + k))) <$> seqZ 0 n.

(** Storing [data] one byte after the other. *)
Fixpoint write_file (img inode : list byte) (p : Z) (data : list byte) : list byte :=
  match data with
  | [] => img
  | b :: data => write_file (<[Z.to_nat (file_pos inode p) := b]> img) inode (p + 1) data
  end.

(** Block [i] of the file is one of the 15 entries of the inode, and the
    block it names lies on the disk, below 4 GiB. *)
Definition block_ok (len : Z) (inode : list byte) (i : Z) : Prop :=
  0 <= i < 15 ∧ i_block inode i * 1024 + 1024 <= len ∧ i_block inode i * 1024 < 2 ^ 32.

(** Every block that the bytes [p .. p + n) of the file touch is usable. *)
Definition range_ok (len : Z) (inode : list byte) (p n : Z) : Prop :=
  ∀ k, 0 <= k < n → block_ok len inode ((p + k) / 1024).

Lemma i_block_nonneg inode i : 0 <= i_block inode i.
Proof. apply get_le_range. Qed.

Lemma file_pos_nonneg inode p : 0 <= file_pos inode p.
Proof. unfold file_pos. pose proof (i_block_nonneg inode (p / 1024)). zlia. Qed.

Lemma file_pos_inside len inode p : block_ok len inode (p / 1024) → 0 <= file_pos inode p < len.
Proof.
  intros (_ & Hin & _). split; [apply file_pos_nonneg|].
  unfold file_pos. zlia.
Qed.

(** Inside one block, file positions are consecutive. *)
Lemma file_pos_add inode p k :
  0 <= k → p mod 1024 + k < 1024 → file_pos inode (p + k) = file_pos inode p + k.
Proof.
  intros. unfold file_pos. assert ((p + k) / 1024 = p / 1024) as -> by zlia. zlia.
Qed.

Lemma zlen_file_bytes img inode p n : 0 <= n → zlen (file_bytes img inode p n) = n.
Proof. intros. unfold zlen, file_bytes. rewrite length_fmap, length_seqZ. lia. Qed.

Lemma lookup_file_bytes img inode p n k :
  0 <= k < n →
  file_bytes img inode p n !! Z.to_nat k = Some (img !!! Z.to_nat (file_pos inode (p + k))).
Proof.
  intros. unfold file_bytes. rewrite list_lookup_fmap, lookup_seqZ_lt by lia. cbn.
  do 4 f_equal. lia.
Qed.

Lemma file_bytes_nil img inode p : file_bytes img inode p 0 = [].
Proof. done. Qed.

Lemma file_bytes_chunk img inode p n :
  0 <= p → 0 <= n → p mod 1024 + n <= 1024 → block_ok (zlen img) inode (p / 1024) →
  slice img (file_pos inode p) n = file_bytes img inode p n.
Proof.
  intros Hp Hn Hfit Hok. pose proof (file_pos_nonneg inode p).
  apply list_eq. intros i. rewrite lookup_slice.
  case_decide as Hi.
  - replace i with (Z.to_nat (Z.of_nat i)) at 2 by lia.
    rewrite lookup_file_bytes, file_pos_add by lia.
    destruct Hok as (_ & Hin & _). unfold file_pos, zlen in *.
    replace (Z.to_nat _ + i)%nat with (Z.to_nat (i_block inode (p / 1024) * 1024 + p mod 1024 + Z.of_nat i)) by lia.
    apply list_lookup_lookup_total_lt. zlia.
  - symmetry. apply lookup_ge_None.
    pose proof (zlen_file_bytes img inode p n Hn). unfold zlen in *. lia.
Qed.

Lemma file_bytes_split img inode p n1 n2 :
  0 <= n1 → 0 <= n2 →
  file_bytes img inode p (n1 + n2) = file_bytes img inode p n1 ++ file_bytes img inode (p + n1) n2.
Proof.
  intros. unfold file_bytes. rewrite seqZ_app, fmap_app by lia. f_equal.
  rewrite Z.add_0_l, <-(Z.add_0_r n1) at 1. rewrite <-fmap_add_seqZ, <-list_fmap_compose.
  apply list_fmap_ext. intros k x _. cbn. do 3 f_equal. lia.
Qed.

Lemma write_file_app img inode p d1 d2 :
  write_file img inode p (d1 ++ d2) = write_file (write_file img inode p d1) inode (p + zlen d1) d2.
Proof.
  revert img p. induction d1 as [|b d1 IH]; intros img p; cbn.
  - by rewrite zlen_nil, Z.add_0_r.
  - rewrite IH. f_equal. unfold zlen. cbn. lia.
Qed.

Lemma zlen_write_file img inode p d : zlen (write_file img inode p d) = zlen img.
Proof.
  revert img p. induction d as [|b d IH]; intros img p; cbn; [done|].
  rewrite IH. unfold zlen. by rewrite length_insert.
Qed.

Lemma splice_cons {A} (l : list A) o b new :
  0 <= o → o + 1 + zlen new <= zlen l →
  splice l o (b :: new) = splice (<[Z.to_nat o := b]> l) (o + 1) new.
Proof.
  intros. pose proof (zlen_nonneg new).
  assert (length (<[Z.to_nat o := b]> l) = length l) as Hl by apply length_insert.
  apply list_eq. intros i.
  rewrite !lookup_splice by (unfold zlen in *; cbn in *; lia).
  rewrite lookup_cons. unfold zlen in *. cbn [length].
  repeat case_decide; try lia.
  all: try (rewrite list_lookup_insert_ne by lia; done).
  - assert (i = Z.to_nat o) as -> by lia. rewrite Nat.sub_diag, list_lookup_insert_eq by lia. done.
  - destruct (i - Z.to_nat o)%nat eqn:Hi; [lia|]. f_equal. lia.
Qed.

Lemma write_file_chunk img inode p d :
  0 <= p → p mod 1024 + zlen d <= 1024 → block_ok (zlen img) inode (p / 1024) →
  write_file img inode p d = splice img (file_pos inode p) d.
Proof.
  revert img p. induction d as [|b d IH]; intros img p Hp Hfit Hok; cbn.
  - by rewrite splice_nil.
  - assert (zlen (b :: d) = 1 + zlen d) as Hz by (unfold zlen; cbn; lia).
    pose proof (zlen_nonneg d). pose proof (file_pos_nonneg inode p).
    destruct Hok as (Hi & Hin & Hlt).
    rewrite splice_cons by (try (unfold file_pos; zlia); lia).
    destruct d as [|b' d]; [by rewrite splice_nil|].
    assert (zlen (b' :: d) = 1 + zlen d) by (unfold zlen; cbn; lia). pose proof (zlen_nonneg d).
    assert ((p + 1) / 1024 = p / 1024) as Hsame by zlia.
    assert ((p + 1) mod 1024 = p mod 1024 + 1) as Hmod by zlia.
    rewrite IH; [by rewrite file_pos_add by lia|lia..|].
    rewrite Hsame. unfold zlen. rewrite length_insert. done.
Qed.

(** ** The loops *)

(** The arithmetic of one turn of either loop. *)
Record block_turn (offset len amt idx off n : Z) : Prop := {
  bt_idx : u64 (offset + amt) / EXT2_SUPPORTED_BLOCK_SIZE = idx;
  bt_off : u64 (offset + amt) mod EXT2_SUPPORTED_BLOCK_SIZE = off;
  bt_share : MIN (EXT2_SUPPORTED_BLOCK_SIZE - off) (len - amt) = n;
  bt_next : u64 (amt + n) = amt + n;
  bt_idx_def : idx = (offset + amt) / 1024;
  bt_off_def : off = (offset + amt) mod 1024;
  bt_off_range : 0 <= off;
  bt_n_range : 0 < n;
  bt_fits : amt + n <= len ∧ off + n <= 1024;
  bt_fuel fuel :
    (off + (len - amt) + 1023) / 1024 <= Z.of_nat (S fuel) → amt + n < len →
    ((offset + (amt + n)) mod 1024 + (len - (amt + n)) + 1023) / 1024 <= Z.of_nat fuel;
}.

Lemma block_loop_turn offset len amt :
  0 <= offset → 0 <= amt < len → len < 2 ^ 64 → offset + len <= 2 ^ 64 →
  ∃ idx off n, block_turn offset len amt idx off n.
Proof.
  intros. exists ((offset + amt) / 1024), ((offset + amt) mod 1024),
    (Z.min (1024 - (offset + amt) mod 1024) (len - amt)).
  unfold EXT2_SUPPORTED_BLOCK_SIZE.
  split; rewrite ?MIN_min, ?(wrap_small 64 (offset + amt)) by lia; unfold EXT2_SUPPORTED_BLOCK_SIZE;
    try done; try zlia.
  apply wrap_small. zlia.
Qed.

Definition blocks_needed (pos left : Z) : Z := (pos mod 1024 + left + 1023) / 1024.

Lemma blocks_enough pos len : 0 <= len → blocks_needed pos len <= Z.of_nat (block_turns len).
Proof. intros. unfold blocks_needed, block_turns, EXT2_SUPPORTED_BLOCK_SIZE. zlia. Qed.

Lemma blocks_positive pos left : 0 < left → 1 <= blocks_needed pos left.
Proof. intros. unfold blocks_needed. zlia. Qed.

Section loops.
Context {St : Type} `{BlkSpec St} `{!Uninit}.
Implicit Types s : St.

Lemma get_i_block inode i s :
  0 <= i < 15 → get_elem ext2_inode "i_block"%string inode i s = (Done (i_block inode i), s).
Proof. intros. rewrite get_elem_inside; [done|layout; lia]. Qed.

Lemma read_ino_loop_spec fuel inode buffer offset len amt s :
  ready s → 0 <= offset → 0 <= amt <= len → len < 2 ^ 64 → offset + len <= 2 ^ 64 →
  len <= zlen buffer →
  range_ok (zlen (image s)) inode (offset + amt) (len - amt) →
  (amt < len → blocks_needed (offset + amt) (len - amt) <= Z.of_nat fuel) →
  ∃ s', read_ino_loop fuel inode buffer offset len amt s
      = (Done (len, splice buffer amt (file_bytes (image s) inode (offset + amt) (len - amt))), s')
    ∧ ready s' ∧ image s' = image s.
Proof.
  revert buffer amt s. induction fuel as [|fuel IH];
    intros buffer amt s Hs Hoff Hamt Hlen Hsum Hbuf Hok Hfuel; cbn [read_ino_loop].
  all: destruct (Z.ltb_spec amt len) as [Hlt|Hge].
  1: { pose proof (blocks_positive (offset + amt) (len - amt)). lia. }
  1, 3: exists s; replace (len - amt) with 0 by lia; by rewrite file_bytes_nil, splice_nil.
  destruct (block_loop_turn offset len amt)
    as (idx & off & n & [-> -> -> Hnext Hidx Hofs ? ? ? Hmore]); [lia..|].
  assert (block_ok (zlen (image s)) inode idx) as Hblk
    by (rewrite Hidx, <-(Z.add_0_r (offset + amt)); apply Hok; lia).
  pose proof Hblk as (Hi & Hblk_in & Hblk_lt). pose proof (i_block_nonneg inode idx).
  pose proof (image_bound s Hs).
  run_with (get_i_block inode idx s Hi). cbn zeta.
  unfold EXT2_SUPPORTED_BLOCK_SIZE. rewrite (wrap_small 32), (wrap_small 64) by lia.
  replace (i_block inode idx * 1024 + off) with (file_pos inode (offset + amt))
    by (unfold file_pos; congruence).
  destruct (virtio_blk_read_sync_spec buffer amt (file_pos inode (offset + amt)) n s)
    as (s1 & Hrd & Hr1 & Him1); [done|unfold file_pos; rewrite <-?Hidx, <-?Hofs; lia..|].
  rewrite file_bytes_chunk in Hrd by (rewrite <-?Hidx; lia || done).
  set (d1 := file_bytes (image s) inode (offset + amt) n) in *.
  assert (zlen d1 = n) as Hd1 by (apply zlen_file_bytes; lia).
  run_with Hrd. rewrite Hd1, Z.eqb_refl. cbn [negb]. rewrite Hnext.
  destruct (IH (splice buffer amt d1) (amt + n) s1) as (s2 & Hrun & Hr2 & Him2);
    [done|lia..|rewrite zlen_splice; lia| |unfold blocks_needed in *; rewrite Hofs in *; auto|].
  { rewrite Him1. intros k Hk. specialize (Hok (n + k)).
    replace (offset + (amt + n) + k) with (offset + amt + (n + k)) by lia. apply Hok. lia. }
  exists s2. rewrite Hrun, Him2, Him1. split; [|done].
  replace (len - amt) with (n + (len - (amt + n))) by lia.
  rewrite file_bytes_split, splice_app; fold d1; rewrite ?Hd1, ?zlen_file_bytes; try lia.
  by replace (offset + amt + n) with (offset + (amt + n)) by lia.
Qed.

Lemma write_ino_loop_spec fuel inode buffer offset len amt s :
  ready s → 0 <= offset → 0 <= amt <= len → len < 2 ^ 64 → offset + len <= 2 ^ 64 →
  len <= zlen buffer →
  range_ok (zlen (image s)) inode (offset + amt) (len - amt) →
  (amt < len → blocks_needed (offset + amt) (len - amt) <= Z.of_nat fuel) →
  ∃ s', write_ino_loop fuel inode buffer offset len amt s = (Done len, s')
    ∧ ready s'
    ∧ image s' = write_file (image s) inode (offset + amt) (slice buffer amt (len - amt)).
Proof.
  revert amt s. induction fuel as [|fuel IH];
    intros amt s Hs Hoff Hamt Hlen Hsum Hbuf Hok Hfuel; cbn [write_ino_loop].
  all: destruct (Z.ltb_spec amt len) as [Hlt|Hge].
  1: { pose proof (blocks_positive (offset + amt) (len - amt)). lia. }
  1, 3: exists s; replace (len - amt) with 0 by lia; by rewrite slice_nil.
  destruct (block_loop_turn offset len amt)
    as (idx & off & n & [-> -> -> Hnext Hidx Hofs ? ? ? Hmore]); [lia..|].
  assert (block_ok (zlen (image s)) inode idx) as Hblk
    by (rewrite Hidx, <-(Z.add_0_r (offset + amt)); apply Hok; lia).
  pose proof Hblk as (Hi & Hblk_in & Hblk_lt). pose proof (i_block_nonneg inode idx).
  pose proof (image_bound s Hs).
  run_with (get_i_block inode idx s Hi). cbn zeta.
  unfold EXT2_SUPPORTED_BLOCK_SIZE. rewrite (wrap_small 32), (wrap_small 64) by lia.
  replace (i_block inode idx * 1024 + off) with (file_pos inode (offset + amt))
    by (unfold file_pos; congruence).
  assert (file_pos inode (offset + amt) = i_block inode idx * 1024 + off) as Hpos
    by (unfold file_pos; congruence).
  destruct (virtio_blk_write_sync_spec buffer amt (file_pos inode (offset + amt)) n s)
    as (s1 & Hwr & Hr1 & Him1); [done|lia..|].
  replace (available _ _ _) with n in Hwr, Him1 by (unfold available; lia).
  set (d1 := slice buffer amt n) in *.
  assert (zlen d1 = n) as Hd1 by (apply zlen_slice; lia).
  run_with Hwr. rewrite Z.eqb_refl. cbn [negb]. rewrite Hnext.
  rewrite <-write_file_chunk in Him1 by (rewrite <-?Hidx; lia || done).
  assert (zlen (image s1) = zlen (image s)) as Hz by (rewrite Him1; apply zlen_write_file).
  destruct (IH (amt + n) s1) as (s2 & Hrun & Hr2 & Him2);
    [done|lia..| |unfold blocks_needed in *; rewrite Hofs in *; auto|].
  { rewrite Hz. intros k Hk. specialize (Hok (n + k)).
    replace (offset + (amt + n) + k) with (offset + amt + (n + k)) by lia. apply Hok. lia. }
  exists s2. rewrite Hrun, Him2, Him1. split_and!; [done..|].
  replace (len - amt) with (n + (len - (amt + n))) by lia.
  rewrite slice_app_split, write_file_app by lia. fold d1. rewrite Hd1.
  by replace (offset + amt + n) with (offset + (amt + n)) by lia.
Qed.
End loops.

(** ** What a write leaves on the disk *)

(** No two of the blocks that the bytes [p .. p + n) touch are the same disk
    block. *)
Definition blocks_distinct (inode : list byte) (p n : Z) : Prop :=
  ∀ k k', 0 <= k < n → 0 <= k' < n →
    i_block inode ((p + k) / 1024) = i_block inode ((p + k') / 1024) →
    (p + k) / 1024 = (p + k') / 1024.

(** The disk region [o .. o + m) holds none of those bytes. *)
Definition region_apart (inode : list byte) (p n o m : Z) : Prop :=
  ∀ k, 0 <= k < n → file_pos inode (p + k) < o ∨ o + m <= file_pos inode (p + k).

Lemma file_pos_inj inode p n k k' :
  0 <= p → blocks_distinct inode p n → 0 <= k < n → 0 <= k' < n →
  file_pos inode (p + k) = file_pos inode (p + k') → k = k'.
Proof.
  intros Hp Hd Hk Hk' Heq. unfold file_pos in Heq.
  pose proof (Z.mod_pos_bound (p + k) 1024 ltac:(lia)).
  pose proof (Z.mod_pos_bound (p + k') 1024 ltac:(lia)).
  assert (i_block inode ((p + k) / 1024) = i_block inode ((p + k') / 1024)) as Hb by lia.
  specialize (Hd k k' Hk Hk' Hb).
  pose proof (Z.div_mod (p + k) 1024). pose proof (Z.div_mod (p + k') 1024). lia.
Qed.

Lemma write_file_lookup_other img inode p d q :
  (∀ k, 0 <= k < zlen d → file_pos inode (p + k) ≠ q) → 0 <= q →
  write_file img inode p d !! Z.to_nat q = img !! Z.to_nat q.
Proof.
  revert img p. induction d as [|b d IH]; intros img p Hne Hq; cbn; [done|].
  assert (zlen (b :: d) = 1 + zlen d) as Hz by (unfold zlen; cbn; lia).
  pose proof (zlen_nonneg d). pose proof (file_pos_nonneg inode p).
  rewrite IH by (try done; intros k Hk; specialize (Hne (1 + k)); rewrite <-Z.add_assoc; apply Hne; lia).
  apply list_lookup_insert_ne. specialize (Hne 0). rewrite Z.add_0_r in Hne. lia.
Qed.

Lemma write_file_lookup img inode p d k :
  0 <= p → blocks_distinct inode p (zlen d) →
  range_ok (zlen img) inode p (zlen d) → 0 <= k < zlen d →
  write_file img inode p d !! Z.to_nat (file_pos inode (p + k)) = d !! Z.to_nat k.
Proof.
  revert img p k. induction d as [|b d IH]; intros img p k Hp Hdist Hok Hk;
    [unfold zlen in Hk; cbn in Hk; lia|].
  assert (zlen (b :: d) = 1 + zlen d) as Hz by (unfold zlen; cbn; lia).
  pose proof (zlen_nonneg d). rewrite Hz in *. cbn [write_file].
  destruct (decide (k = 0)) as [->|Hk0].
  - rewrite Z.add_0_r, write_file_lookup_other; [|intros k' Hk' Heq|apply file_pos_nonneg].
    + pose proof (file_pos_inside (zlen img) inode p) as Hin.
      specialize (Hok 0 ltac:(lia)). rewrite Z.add_0_r in Hok. specialize (Hin Hok).
      rewrite list_lookup_insert_eq by (unfold zlen in *; lia). done.
    + assert (1 + k' = 0); [|lia].
      apply (file_pos_inj inode p (1 + zlen d)); try lia; [done|].
      rewrite Z.add_0_r, Z.add_assoc. done.
  - replace (p + k) with (p + 1 + (k - 1)) by lia.
    rewrite IH; [| |intros k1 k2 H1 H2|intros k1 H1|]; try lia.
    + replace (Z.to_nat k) with (S (Z.to_nat (k - 1))) by lia. done.
    + specialize (Hdist (1 + k1) (1 + k2)). rewrite !Z.add_assoc in Hdist. apply Hdist; lia.
    + specialize (Hok (1 + k1)). unfold zlen. rewrite length_insert, <-Z.add_assoc. apply Hok. lia.
Qed.

Lemma file_bytes_write_file img inode p d :
  0 <= p → blocks_distinct inode p (zlen d) → range_ok (zlen img) inode p (zlen d) →
  file_bytes (write_file img inode p d) inode p (zlen d) = d.
Proof.
  intros Hp Hdist Hok. apply list_eq. intros i.
  destruct (decide (Z.of_nat i < zlen d)) as [Hi|Hi].
  - replace i with (Z.to_nat (Z.of_nat i)) by lia.
    rewrite lookup_file_bytes by lia.
    rewrite <-write_file_lookup with (img := img) (inode := inode) (p := p) by (done || lia).
    symmetry. apply list_lookup_lookup_total_lt.
    pose proof (zlen_write_file img inode p d) as Hlen.
    pose proof (file_pos_inside _ _ _ (Hok (Z.of_nat i) ltac:(lia))). unfold zlen in *. lia.
  - rewrite !lookup_ge_None_2; [done|unfold zlen in *; lia|].
    pose proof (zlen_file_bytes (write_file img inode p d) inode p (zlen d) (zlen_nonneg d)).
    unfold zlen in *. lia.
Qed.

Lemma slice_write_file img inode p d o m :
  0 <= o → 0 <= m → region_apart inode p (zlen d) o m →
  slice (write_file img inode p d) o m = slice img o m.
Proof.
  intros Ho Hm Hap. apply list_eq. intros i. rewrite !lookup_slice.
  case_decide; [|done].
  replace (Z.to_nat o + i)%nat with (Z.to_nat (o + Z.of_nat i)) by lia.
  apply write_file_lookup_other; [|lia]. intros k Hk. specialize (Hap k Hk). lia.
Qed.

(** The inode stays where it was if its group descriptor keeps its bytes. *)
Lemma inode_placed_ext img img' sb ino loc :
  zlen img' = zlen img →
  slice img' (bg_position sb ino) 32 = slice img (bg_position sb ino) 32 →
  inode_placed img sb ino loc → inode_placed img' sb ino loc.
Proof.
  unfold bg_position. intros Hz Hbg [[Hino (Hipg & Hin & Htab & Hloc)] Hend].
  split; [|by rewrite Hz]. split; [done|]. cbn zeta. by rewrite Hz, Hbg.
Qed.

Section contents.
Context {St : Type} `{BlkSpec St} `{!Uninit}.
Implicit Types s : St.

Lemma read_from_ino_spec sb ino loc buffer offset len s :
  ready s → inode_placed (image s) sb ino loc →
  0 <= offset → 0 <= len < 2 ^ 64 → offset + len <= 2 ^ 64 → len <= zlen buffer →
  let inode := slice (image s) loc 256 in
  range_ok (zlen (image s)) inode offset len →
  ∃ s', read_from_ino sb ino buffer offset len s
      = (Done (len, splice buffer 0 (file_bytes (image s) inode offset len)), s')
    ∧ ready s' ∧ image s' = image s.
Proof.
  intros Hs Hp Hoff Hlen Hsum Hbuf inode Hok. unfold read_from_ino.
  destruct (inode_from_ino_spec sb (uninit (sizeof ext2_inode)) ino loc s)
    as (s1 & Hrd & Hr1 & Him1); [done..|by rewrite zlen_uninit|].
  run_with Hrd. cbn [negb]. fold inode.
  destruct (read_ino_loop_spec (block_turns len) inode buffer offset len 0 s1)
    as (s2 & Hrun & Hr2 & Him2); rewrite ?Him1; zero_norm; try done; try lia.
  { intros. apply blocks_enough. lia. }
  exists s2. rewrite Hrun, Him2, Him1. done.
Qed.

Lemma write_to_ino_spec sb ino loc buffer offset len s :
  ready s → inode_placed (image s) sb ino loc →
  0 <= offset → 0 <= len < 2 ^ 64 → offset + len <= 2 ^ 64 → len <= zlen buffer →
  let inode := slice (image s) loc 256 in
  range_ok (zlen (image s)) inode offset len →
  ∃ s', write_to_ino sb ino buffer offset len s = (Done len, s')
    ∧ ready s' ∧ image s' = write_file (image s) inode offset (slice buffer 0 len).
Proof.
  intros Hs Hp Hoff Hlen Hsum Hbuf inode Hok. unfold write_to_ino.
  destruct (inode_from_ino_spec sb (uninit (sizeof ext2_inode)) ino loc s)
    as (s1 & Hrd & Hr1 & Him1); [done..|by rewrite zlen_uninit|].
  run_with Hrd. cbn [negb]. fold inode.
  destruct (write_ino_loop_spec (block_turns len) inode buffer offset len 0 s1)
    as (s2 & Hrun & Hr2 & Him2); rewrite ?Him1; zero_norm; try done; try lia.
  { intros. apply blocks_enough. lia. }
  exists s2. rewrite Hrun, Him2, Him1. done.
Qed.
End contents.
