(* ===== verification/Ext2Dir.v ===== *)
(** * Directories and paths (src/ext2.c)

    [inode_from_dir] searches a directory by copying every entry to the front
    of the block buffer it reads from; [ino_from_path] and [inode_from_path]
    walk a path with [strtok].  The C library functions they use, [strncmp]
    and [strtok], are modelled on the bytes they read and write. *)

From S2P Require Import Prelude Layout Ecall Blk Ext2 Ext2File.

Definition ext2_dirent : struct :=
  [("inode", U32); ("rec_len", U16); ("name_len", U8); ("file_type", U8)]%string.

(** ** The C library functions *)

(** [strncmp (a, b, n) == 0]; reading past the end of an array is undefined. *)
Fixpoint strncmp_eq {S} (a b : list byte) (n : nat) {struct n} : prog S bool :=
  match n with
  | O => mret true
  | S n =>
      match a, b with
      | x :: a, y :: b =>
          if decide (x ≠ y) then mret false
          else if decide (x = Byte.x00) then mret true
          else strncmp_eq a b n
      | _, _ => stop Undefined
      end
  end.

Definition slash : byte := Byte.x2f.

(** [strtok (_, "/")] on the string in [buf], continued at [pos] (the static
    pointer the function keeps between calls; [0] for the first call).  It
    skips delimiters, and returns the start of the token after writing a NUL
    over the delimiter that ends it. *)
Fixpoint skip_delims (l : list byte) : option nat :=
  match l with
  | [] => None
  | b :: l => if decide (b = slash) then S <$> skip_delims l else Some 0%nat
  end.

Fixpoint token_length (l : list byte) : option nat :=
  match l with
  | [] => None
  | b :: l => if decide (b = slash ∨ b = Byte.x00) then Some 0%nat else S <$> token_length l
  end.

Definition strtok {S} (buf : list byte) (pos : nat) : prog S (option nat * list byte * nat) :=
  match skip_delims (drop pos buf) with
  | None => stop Undefined
  | Some k =>
      let start := (pos + k)%nat in
      match token_length (drop start buf) with
      | None => stop Undefined
      | Some O => mret (None, buf, start)
      | Some n =>
          let e := (start + n)%nat in
          if decide (buf !! e = Some Byte.x00) then mret (Some start, buf, e)
          else mret (Some start, <[e := Byte.x00]> buf, (e + 1)%nat)
      end
  end.

(** ** Operations *)

Section operations.
Context {St : Type} `{!BlkDev St} `{!Uninit}.

(** What one pass over a directory block found. *)
Inductive scan_result := Found (ino : Z) | NotHere.

(** The [while (dirent_idx < 1024)] loop.  [de] is the buffer itself: both
    [memcpy]s move bytes of the buffer to its front.  (A [memcpy] between
    overlapping objects is undefined in C; the model gives it the result of
    a forward copy.) *)
Fixpoint scan_block (fuel : nat) (buffer path : list byte) (dirent_idx : Z)
    : prog St scan_result :=
  if dirent_idx <? 1024 then
    match fuel with
    | O => stop Hang
    | S fuel =>
        buffer ← memcpy buffer 0 buffer dirent_idx (sizeof ext2_dirent);
        buffer ← memcpy buffer 0 buffer dirent_idx buffer.[ext2_dirent, "rec_len"%string];
        same ← strncmp_eq (drop (Z.to_nat (sizeof ext2_dirent)) buffer) path
                 (Z.to_nat buffer.[ext2_dirent, "name_len"%string]);
        if (same : bool) then mret (Found buffer.[ext2_dirent, "inode"%string])
        else scan_block fuel buffer path (dirent_idx + buffer.[ext2_dirent, "rec_len"%string])
    end
  else mret NotHere.

(** Turns enough for a block whose entries are at least one byte long. *)
Definition scan_turns : nat := 1024.

(** The [for] loop over the blocks of the directory, [todo] of them. *)
Fixpoint scan_dir (todo : nat) (superblock path dir inode : list byte) (ino : option Z) (o : Z)
    : prog St (bool * list byte * option Z) :=
  match todo with
  | O => mret (false, inode, ino)
  | S todo =>
      block ← get_elem ext2_inode "i_block"%string dir o;
      if block =? 0 then mret (false, inode, ino)
      else
        let inode_fs_block_offset := u32 (block * 1024) in
        '(_, buffer) ← virtio_blk_read_sync (uninit 1024) 0 inode_fs_block_offset 1024;
        r ← scan_block scan_turns buffer path 0;
        match r with
        | Found de_inode =>
            let ino := (λ _, de_inode) <$> ino in
            '(ok, inode) ← inode_from_ino superblock inode de_inode;
            mret (ok, inode, ino)
        | NotHere => scan_dir todo superblock path dir inode ino (o + 1)
        end
  end.

(** [ino] is the object the last parameter points to, [None] for a null
    pointer; the result pairs the return value with the two out objects. *)
Definition inode_from_dir (superblock path dir inode : list byte) (ino : option Z)
    : prog St (bool * list byte * option Z) :=
  scan_dir (Z.to_nat EXT2_MAX_DIRECT_BLOCKS_PER_INODE) superblock path dir inode ino 0.

(** The loop both path functions share: one component per turn.  Returns
    the return value, the path buffer, the last inode and [*ino]. *)
Fixpoint path_loop (fuel : nat) (superblock path : list byte) (pos : nat) (inode : list byte)
    (ino : option Z) : prog St (bool * list byte * list byte * option Z) :=
  match fuel with
  | O => stop Hang
  | S fuel =>
      '(next, path, pos) ← strtok path pos;
      match next with
      | None => mret (true, path, inode, ino)
      | Some start =>
          '(ok, inode, ino) ← inode_from_dir superblock (drop start path) inode inode ino;
          if negb ok then mret (false, path, inode, ino)
          else path_loop fuel superblock path pos inode ino
      end
  end.

Definition ino_from_path (superblock path : list byte) (ino : Z)
    : prog St (bool * list byte * Z) :=
  '(ok, traverse_inode) ← inode_from_ino superblock (uninit (sizeof ext2_inode)) 2;
  if negb ok then mret (false, path, ino)
  else
    '(ok, path, _, ino') ← path_loop (length path) superblock path 0 traverse_inode (Some ino);
    mret (ok, path, default ino ino').

Definition inode_from_path (superblock path inode : list byte)
    : prog St (bool * list byte * list byte) :=
  '(ok, inode) ← inode_from_ino superblock inode 2;
  if negb ok then mret (false, path, inode)
  else
    '(ok, path, inode, _) ← path_loop (length path) superblock path 0 inode None;
    mret (ok, path, inode).
End operations.

(** ** Reference definitions

    A directory block is a chain of entries; [entry_at blk idx] is the entry
    at offset [idx], read without touching the block. *)

Record dirent := { de_ino : Z; de_rec_len : Z; de_name : list byte }.

Definition entry_at (blk : list byte) (idx : Z) : dirent :=
  {| de_ino := get_le blk idx 4;
     de_rec_len := get_le blk (idx + 4) 2;
     de_name := slice blk (idx + 8) (get_le blk (idx + 6) 1) |}.

(** The entries of the block from [idx] on form a chain up to offset 1024:
    each holds at least its header and its name and stays inside the block. *)
Inductive chain (blk : list byte) : Z → list dirent → Prop :=
  | chain_end : chain blk 1024 []
  | chain_entry idx es :
      let e := entry_at blk idx in
      idx < 1024 → 8 + get_le blk (idx + 6) 1 <= de_rec_len e →
      chain blk (idx + de_rec_len e) es →
      chain blk idx (e :: es).

(** The test of the code: the bytes of the name, up to a NUL, against the
    NUL-terminated component. *)
Fixpoint name_matches (name component : list byte) {struct name} : bool :=
  match name, component with
  | [], _ => true
  | x :: name, [] => bool_decide (x = Byte.x00)
  | x :: name, y :: component =>
      if decide (x ≠ y) then false else if decide (x = Byte.x00) then true
      else name_matches name component
  end.

(** The first entry the test accepts. *)
Definition find_entry (es : list dirent) (component : list byte) : option Z :=
  de_ino <$> head (filter (λ e, name_matches (de_name e) component) es).

(** ** A pass over a block *)

(** [c_string l c]: the C string that starts at the front of [l] is [c]. *)
Definition c_string (l c : list byte) : Prop :=
  Forall (λ b, b ≠ Byte.x00) c ∧ ∃ rest, l = c ++ Byte.x00 :: rest.

Lemma strncmp_eq_spec {S} name rest path c (s : S) :
  c_string path c →
  strncmp_eq (name ++ rest) path (length name) s = (Done (name_matches name c), s).
Proof.
  intros (Hnz & tail & ->). revert c Hnz.
  induction name as [|x name IH]; intros c Hnz; [done|].
  destruct c as [|y c]; cbn.
  - destruct (decide (x ≠ Byte.x00)) as [Hx|Hx].
    + by rewrite bool_decide_eq_false_2.
    + apply dec_stable in Hx as ->. done.
  - destruct (decide (x ≠ y)) as [|Hxy]; [done|]. apply dec_stable in Hxy as ->.
    inversion Hnz; subst. rewrite !decide_False by done. by apply IH.
Qed.

Lemma chain_bound blk idx es : chain blk idx es → idx + 8 * zlen es <= 1024.
Proof.
  induction 1 as [|idx es e Hlt Hrec _ IH]; [done|].
  pose proof (get_le_range blk (idx + 6) 1).
  unfold zlen in *. cbn [length]. subst e. cbn in *. lia.
Qed.

(** The two copies of one turn put the entry at [idx] at the front of the
    buffer and keep everything behind it. *)
Lemma entry_copied (buffer blk : list byte) idx rl :
  zlen blk = 1024 → zlen buffer = 1024 → idx = 0 ∨ 8 <= idx → 8 <= rl → idx + rl <= 1024 →
  (∀ o n, idx <= o → 0 <= n → slice buffer o n = slice blk o n) →
  let b1 := splice buffer 0 (slice buffer idx 8) in
  let b2 := splice b1 0 (slice b1 idx rl) in
  zlen b1 = 1024 ∧ zlen b2 = 1024 ∧
  (∀ o n, 0 <= o → 0 <= n → o + n <= 8 → slice b1 o n = slice blk (idx + o) n) ∧
  (∀ o n, 0 <= o → 0 <= n → o + n <= rl → slice b2 o n = slice blk (idx + o) n) ∧
  (∀ o n, idx + rl <= o → 0 <= n → slice b2 o n = slice blk o n).
Proof.
  intros Hblk Hbuf Hidx Hrl Hin Hsame b1 b2.
  assert (zlen (slice buffer idx 8) = 8) as H8 by (apply zlen_slice; lia).
  assert (zlen b1 = 1024) as Hb1 by (unfold b1; rewrite zlen_splice; lia).
  assert (zlen (slice b1 idx rl) = rl) as Hr by (apply zlen_slice; lia).
  assert (zlen b2 = 1024) as Hb2 by (unfold b2; rewrite zlen_splice; lia).
  assert (slice b1 idx rl = slice blk idx rl) as Hcopy.
  { rewrite <-Hsame by lia. unfold b1. destruct Hidx as [->|Hidx].
    - by rewrite splice_id by lia.
    - apply slice_splice_other; lia. }
  split_and!; [done..| | |].
  - intros o n Ho Hn Hon. unfold b1. rewrite slice_splice_inside by lia.
    rewrite Z.sub_0_r, slice_slice by lia. apply Hsame; lia.
  - intros o n Ho Hn Hon. unfold b2. rewrite slice_splice_inside by lia.
    by rewrite Z.sub_0_r, Hcopy, slice_slice by lia.
  - intros o n Ho Hn. rewrite <-Hsame by lia.
    unfold b2. rewrite slice_splice_other by lia.
    unfold b1. by rewrite slice_splice_other by lia.
Qed.

Lemma entry_fields b blk idx :
  (∀ o n, 0 <= o → 0 <= n → o + n <= 8 → slice b o n = slice blk (idx + o) n) →
  b.[ext2_dirent, "inode"%string] = de_ino (entry_at blk idx) ∧
  b.[ext2_dirent, "rec_len"%string] = de_rec_len (entry_at blk idx) ∧
  b.[ext2_dirent, "name_len"%string] = get_le blk (idx + 6) 1.
Proof.
  intros Hf. unfold get_field. layout. unfold get_le. rewrite !Hf by lia.
  by rewrite Z.add_0_r.
Qed.

Lemma scan_block_spec {S} `{!BlkDev S} fuel buffer blk path c idx es (s : S) :
  c_string path c → chain blk idx es → zlen blk = 1024 → zlen buffer = 1024 →
  idx = 0 ∨ 8 <= idx →
  (∀ o n, idx <= o → 0 <= n → slice buffer o n = slice blk o n) →
  (length es <= fuel)%nat →
  scan_block fuel buffer path idx s
  = (Done (from_option Found NotHere (find_entry es c)), s).
Proof.
  intros Hpath Hchain Hblk. revert fuel buffer.
  induction Hchain as [|idx es e Hlt Hrec Hchain IH]; intros fuel buffer Hbuf Hidx Hsame Hfuel.
  { by destruct fuel. }
  destruct fuel as [|fuel]; cbn [length] in Hfuel; [lia|]. cbn [scan_block].
  rewrite (proj2 (Z.ltb_lt _ _) Hlt).
  pose proof (get_le_range blk (idx + 6) 1) as Hnl. pose proof (chain_bound _ _ _ Hchain) as Hb.
  pose proof (zlen_nonneg es).
  destruct (entry_copied buffer blk idx (de_rec_len e)) as (Hb1 & Hb2 & Hf1 & Hf2 & Hrest);
    [done|done|done|lia|lia|done|].
  change (sizeof ext2_dirent) with 8.
  run_apply memcpy_done.
  destruct (entry_fields _ _ _ Hf1) as (_ & -> & _). fold e.
  run_apply memcpy_done.
  set (b2 := splice _ 0 (slice _ idx (de_rec_len e))) in *.
  destruct (entry_fields b2 blk idx) as (-> & -> & ->); [intros; apply Hf2; lia|]. fold e.
  set (n := get_le blk (idx + 6) 1) in *.
  assert (zlen (de_name e) = n) as Hname by (apply zlen_slice; unfold zlen in *; lia).
  rewrite (drop_slice b2 8 n), (Hf2 8 n) by lia. change (slice blk (idx + 8) n) with (de_name e).
  replace (Z.to_nat n) with (length (de_name e)) by (unfold zlen in Hname; lia).
  erewrite bind_done by (by apply strncmp_eq_spec).
  unfold find_entry. rewrite filter_cons. destruct (name_matches (de_name e) c) eqn:Hm.
  - by rewrite decide_True.
  - rewrite decide_False by (by rewrite ?Hm; intros []). apply IH; [done|lia|done|lia].
Qed.

(** An entry of length 0 that does not match is looked at for ever. *)
Lemma scan_block_stuck {S} `{!BlkDev S} fuel blk path c (s : S) :
  c_string path c → zlen blk = 1024 →
  de_rec_len (entry_at blk 0) = 0 → name_matches (de_name (entry_at blk 0)) c = false →
  scan_block fuel blk path 0 s = (Stop Hang, s).
Proof.
  intros Hpath Hblk Hrec Hm. induction fuel as [|fuel IH]; [done|]. cbn [scan_block].
  change (sizeof ext2_dirent) with 8. rewrite (proj2 (Z.ltb_lt 0 1024)) by lia.
  run_apply memcpy_done. rewrite splice_id by lia.
  destruct (entry_fields blk blk 0) as (Hi & Hr & Hn); [done|].
  rewrite Hr, Hrec. erewrite bind_done by (apply memcpy_done; lia).
  rewrite slice_nil, splice_nil, Hn, Hr, Hrec.
  set (n := get_le blk (0 + 6) 1) in *.
  pose proof (get_le_range blk (0 + 6) 1) as Hrange. change (get_le blk (0 + 6) 1) with n in Hrange.
  assert (zlen (de_name (entry_at blk 0)) = n) as Hname.
  { apply zlen_slice; try lia. }
  rewrite (drop_slice blk 8 n) by lia. change (slice blk 8 n) with (de_name (entry_at blk 0)).
  replace (Z.to_nat n) with (length (de_name (entry_at blk 0))) by (unfold zlen in Hname; lia).
  erewrite bind_done by (by apply strncmp_eq_spec). rewrite Hm. exact IH.
Qed.

(** ** Looking up a name in a directory *)

(** [dir_listing img dir o es]: the blocks of directory inode [dir] from
    index [o] on, as the code walks them, hold the entries [es]. *)
Inductive dir_listing (img dir : list byte) : Z → list dirent → Prop :=
  | listing_full o : o = EXT2_MAX_DIRECT_BLOCKS_PER_INODE → dir_listing img dir o []
  | listing_end o : 0 <= o < EXT2_MAX_DIRECT_BLOCKS_PER_INODE → i_block dir o = 0 →
      dir_listing img dir o []
  | listing_block o es es' :
      0 <= o < EXT2_MAX_DIRECT_BLOCKS_PER_INODE → i_block dir o ≠ 0 →
      block_ok (zlen img) dir o →
      chain (slice img (i_block dir o * 1024) 1024) 0 es →
      dir_listing img dir (o + 1) es' →
      dir_listing img dir o (es ++ es').

Lemma find_entry_app es es' c :
  find_entry (es ++ es') c =
  match find_entry es c with Some i => Some i | None => find_entry es' c end.
Proof.
  unfold find_entry. rewrite filter_app.
  by destruct (filter (λ e, name_matches (de_name e) c) es).
Qed.

Section lookup.
Context {St : Type} `{BlkSpec St} `{!Uninit}.
Implicit Types s : St.

Lemma scan_dir_spec todo sb path c dir inode ino o es s :
  ready s → c_string path c → zlen inode = 256 →
  dir_listing (image s) dir o es → Z.of_nat todo = EXT2_MAX_DIRECT_BLOCKS_PER_INODE - o →
  match find_entry es c with
  | Some i => ∀ loc, inode_placed (image s) sb i loc →
      ∃ s', scan_dir todo sb path dir inode ino o s
            = (Done (true, slice (image s) loc 256, (λ _, i) <$> ino), s')
          ∧ ready s' ∧ image s' = image s
  | None =>
      ∃ s', scan_dir todo sb path dir inode ino o s = (Done (false, inode, ino), s')
          ∧ ready s' ∧ image s' = image s
  end.
Proof.
  unfold EXT2_MAX_DIRECT_BLOCKS_PER_INODE. intros Hs Hpath Hlen Hlist Htodo.
  remember (image s) as img eqn:Himg. revert todo s Hs Himg Htodo.
  induction Hlist as [o ->|o Ho Hz|o es es' Ho Hnz Hok Hchain _ IH];
    unfold EXT2_MAX_DIRECT_BLOCKS_PER_INODE in *; intros todo s Hs Himg Htodo.
  - destruct todo; [|lia]. by exists s.
  - destruct todo; [lia|]. cbn [scan_dir find_entry]. exists s.
    run_with (get_i_block dir o s ltac:(lia)). rewrite Hz. done.
  - destruct todo as [|todo]; [lia|]. cbn [scan_dir]. rewrite find_entry_app.
    destruct Hok as (_ & Hin & H32). pose proof (i_block_nonneg dir o).
    rewrite (bind_done _ _ _ _ _ (get_i_block dir o s ltac:(lia))).
    apply Z.eqb_neq in Hnz as ->. rewrite (wrap_small 32) by lia. cbn zeta.
    pose proof (image_bound s Hs). subst img.
    assert (zlen (uninit 1024) = 1024) by by apply zlen_uninit.
    destruct (virtio_blk_read_sync_spec (uninit 1024) 0 (i_block dir o * 1024) 1024 s)
      as (s1 & Hrd & Hr1 & Him1); [done|lia..|].
    assert (zlen (slice (image s) (i_block dir o * 1024) 1024) = 1024) by (apply zlen_slice; lia).
    rewrite splice_all in Hrd by lia.
    set (blk := slice (image s) (i_block dir o * 1024) 1024) in *.
    pose proof (scan_block_spec scan_turns blk blk path c 0 es s1 Hpath Hchain) as Hscan.
    rewrite (bind_done _ _ _ _ _ Hrd).
    erewrite bind_done by (apply Hscan; try done; try lia;
      pose proof (chain_bound _ _ _ Hchain); unfold zlen, scan_turns in *; lia).
    destruct (find_entry es c) as [i|] eqn:Hf; cbn [from_option].
    + intros loc Hp. rewrite <-Him1 in Hp |- *.
      destruct (inode_from_ino_spec sb inode i loc s1) as (s2 & Hino & Hr2 & Him2); [done..|].
      run_with Hino. exists s2. by rewrite Him2.
    + apply IH; [done|done|lia].
Qed.
End lookup.

(** ** Paths *)

(** The components of a path: its maximal runs of characters other than the
    slash. *)
Fixpoint split_path (cur path : list byte) : list (list byte) :=
  match path with
  | [] => match cur with [] => [] | _ => [cur] end
  | b :: path =>
      if decide (b = slash)
      then match cur with [] => split_path [] path | _ => cur :: split_path [] path end
      else split_path (cur ++ [b]) path
  end.

Definition components (path : list byte) : list (list byte) := split_path [] path.

Definition no_nul (c : list byte) : Prop := Forall (λ b, b ≠ Byte.x00) c.
Definition no_slash (c : list byte) : Prop := Forall (λ b, b ≠ slash) c.

Lemma skip_delims_spec slashes l :
  Forall (λ b, b = slash) slashes → (∀ l', l ≠ slash :: l') → l ≠ [] →
  skip_delims (slashes ++ l) = Some (length slashes).
Proof.
  intros Hs Hl Hne. induction Hs as [|b slashes -> _ IH]; cbn.
  - destruct l as [|b l]; [done|]. cbn. rewrite decide_False; [done|]. intros ->. by eapply Hl.
  - by rewrite decide_True, IH.
Qed.

Lemma token_length_spec tok b l :
  no_slash tok → no_nul tok → b = slash ∨ b = Byte.x00 →
  token_length (tok ++ b :: l) = Some (length tok).
Proof.
  intros Hs Hn Hb. revert Hn. induction Hs as [|x tok Hx _ IH]; intros Hn; cbn.
  - by rewrite decide_True.
  - inversion Hn; subst. rewrite decide_False by (by intros []). by rewrite IH.
Qed.

Lemma split_path_slashes slashes path :
  Forall (λ b, b = slash) slashes → components (slashes ++ path) = components path.
Proof.
  intros Hs. induction Hs as [|b slashes -> _ IH]; [done|].
  cbn. by rewrite decide_True by done.
Qed.

Lemma split_path_token cur tok path :
  no_slash tok → split_path cur (tok ++ path) = split_path (cur ++ tok) path.
Proof.
  intros Hs. revert cur. induction Hs as [|b tok Hb _ IH]; intros cur; cbn.
  - by rewrite app_nil_r.
  - rewrite decide_False, IH, <-app_assoc by done. done.
Qed.

(** Every path is leading slashes, then nothing or a token followed by the
    end or by a slash. *)
Lemma path_cases path :
  ∃ slashes, Forall (λ b, b = slash) slashes ∧
    (path = slashes ∨
     ∃ tok, tok ≠ [] ∧ no_slash tok ∧
       (path = slashes ++ tok ∨ ∃ path', path = slashes ++ tok ++ slash :: path')).
Proof.
  assert (∀ l, ∃ tok, no_slash tok ∧ (l = tok ∨ ∃ l', l = tok ++ slash :: l')) as Htok.
  { induction l as [|b l (tok & Htok & Hl)]; [by exists []; split; [constructor|left]|].
    destruct (decide (b = slash)) as [->|Hb].
    - exists []. split; [constructor|]. right. by exists l.
    - exists (b :: tok). split; [by constructor|].
      destruct Hl as [->|[l' ->]]; [by left|right; by exists l']. }
  induction path as [|b path (slashes & Hs & Hp)].
  - exists []. split; [constructor|by left].
  - destruct (decide (b = slash)) as [->|Hb].
    + exists (slash :: slashes). split; [by constructor|].
      destruct Hp as [->|(tok & ? & ? & [->|[path' ->]])]; [by left|right..]; exists tok; split_and!; eauto.
    + exists []. split; [constructor|right].
      destruct (Htok path) as (tok & Ht & Hl). exists (b :: tok). split_and!; [done|by constructor|].
      destruct Hl as [->|[l' ->]]; [by left|right; by exists l'].
Qed.

Lemma strtok_end {S} pre slashes rest (s : S) :
  Forall (λ b, b = slash) slashes →
  let buf := pre ++ slashes ++ Byte.x00 :: rest in
  strtok buf (length pre) s = (Done (None, buf, length (pre ++ slashes)), s).
Proof.
  intros Hs buf. unfold strtok, buf.
  rewrite drop_app_length, skip_delims_spec by (try done; by intros ? [=]).
  rewrite (app_assoc pre), <-(length_app pre), drop_app_length. done.
Qed.

Lemma strtok_token {S} pre slashes tok d rest (s : S) :
  Forall (λ b, b = slash) slashes → tok ≠ [] → no_slash tok → no_nul tok →
  d = slash ∨ d = Byte.x00 →
  strtok (pre ++ slashes ++ tok ++ d :: rest) (length pre) s
  = (Done (Some (length (pre ++ slashes)), (pre ++ slashes) ++ tok ++ Byte.x00 :: rest,
           (length ((pre ++ slashes) ++ tok) + if decide (d = Byte.x00) then 0 else 1)%nat), s).
Proof.
  intros Hs Hne Hns Hnn Hd. unfold strtok. rewrite drop_app_length.
  destruct tok as [|t tok]; [done|].
  rewrite skip_delims_spec; [|done|intros l' [= -> _]; by inversion Hns|done].
  rewrite (app_assoc pre), <-(length_app pre), drop_app_length, token_length_spec by done.
  set (p := pre ++ slashes). cbn [length]. rewrite (app_assoc p).
  change (Datatypes.S (length tok)) with (length (t :: tok)). rewrite <-(length_app p).
  rewrite list_lookup_middle by done.
  destruct (decide (d = Byte.x00)) as [->|Hd0].
  - rewrite decide_True by done. by rewrite Nat.add_0_r, <-app_assoc.
  - rewrite decide_False by naive_solver.
    rewrite <-(Nat.add_0_r (length (p ++ t :: tok))) at 1.
    by rewrite insert_app_r, <-app_assoc.
Qed.

(** One call of [strtok] on the string [path] at [length pre] of the buffer:
    it returns the next component as a C string and leaves the rest of the
    path to the next call. *)
Lemma strtok_spec {S} pre path tail (s : S) :
  no_nul path →
  let buf := pre ++ path ++ Byte.x00 :: tail in
  match components path with
  | [] => ∃ pos, strtok buf (length pre) s = (Done (None, buf, pos), s)
  | tok :: toks =>
      ∃ start pre' path',
        let buf' := pre' ++ path' ++ Byte.x00 :: tail in
        strtok buf (length pre) s = (Done (Some start, buf', length pre'), s) ∧
        c_string (drop start buf') tok ∧ components path' = toks ∧ no_nul path' ∧
        length buf' = length buf ∧ (length path' < length path)%nat
  end.
Proof.
  intros Hnn buf. destruct (path_cases path) as (slashes & Hs & Hp).
  destruct Hp as [->|(tok & Hne & Hns & Hp)].
  { pose proof (split_path_slashes slashes [] Hs) as Hc. rewrite app_nil_r in Hc. rewrite Hc.
    eexists. by apply strtok_end. }
  assert (no_nul tok) as Hnt.
  { destruct Hp as [->|[path' ->]]; apply Forall_app in Hnn as [_ Hnn]; [done|].
    by apply Forall_app in Hnn as [? _]. }
  assert (∀ l, split_path [] (tok ++ l) = split_path tok l) as Htok
    by (intros; by rewrite split_path_token).
  destruct tok as [|t tok]; [done|].
  destruct Hp as [->|[path' ->]].
  - specialize (Htok []). rewrite app_nil_r in Htok. rewrite split_path_slashes by done.
    unfold components. rewrite Htok. cbn [split_path].
    unfold buf. rewrite <-app_assoc, strtok_token by auto.
    exists (length (pre ++ slashes)), ((pre ++ slashes) ++ t :: tok), [].
    rewrite decide_True, Nat.add_0_r by done. rewrite <-(app_assoc _ (t :: tok)).
    split_and!; [done|rewrite drop_app_length; split; [done|by exists tail]|done|constructor| |];
      rewrite !length_app; cbn; lia.
  - rewrite split_path_slashes by done. unfold components.
    rewrite Htok. cbn [split_path]. rewrite decide_True by done.
    unfold buf. rewrite <-!app_assoc. cbn [app].
    rewrite (strtok_token pre slashes (t :: tok) slash (path' ++ Byte.x00 :: tail)) by auto.
    exists (length (pre ++ slashes)), ((pre ++ slashes) ++ (t :: tok) ++ [Byte.x00]), path'.
    rewrite decide_False by done.
    replace (((pre ++ slashes) ++ (t :: tok) ++ [Byte.x00]) ++ path' ++ Byte.x00 :: tail)
      with ((pre ++ slashes) ++ (t :: tok) ++ Byte.x00 :: path' ++ Byte.x00 :: tail)
      by (rewrite <-!app_assoc; done).
    split_and!.
    + do 3 f_equal. rewrite !length_app. cbn. lia.
    + rewrite drop_app_length. split; [done|by eexists].
    + done.
    + apply Forall_app in Hnn as [_ Hnn]. apply Forall_app in Hnn as [_ Hnn]. by inversion Hnn.
    + repeat (rewrite length_app || cbn [length]). lia.
    + repeat (rewrite length_app || cbn [length]). lia.
Qed.

Lemma components_length path : (length (components path) <= length path)%nat.
Proof.
  unfold components.
  assert (∀ cur, (length (split_path cur path) <= length path + (if cur then 0 else 1))%nat) as H.
  { induction path as [|b path IH]; intros cur; cbn [split_path]; [by destruct cur|].
    destruct (decide (b = slash)).
    - specialize (IH []). destruct cur; cbn in *; lia.
    - specialize (IH (cur ++ [b])). destruct cur; cbn in *; lia. }
  specialize (H []). cbn in H. lia.
Qed.

(** [resolves img sb inode ino cs ok inode' ino']: walking the components
    [cs] from the directory [inode] ends with return value [ok], the inode
    [inode'] and [ino'] in the out parameter. *)
Inductive resolves (img sb : list byte)
    : list byte → option Z → list (list byte) → bool → list byte → option Z → Prop :=
  | resolves_done inode ino : resolves img sb inode ino [] true inode ino
  | resolves_step inode ino c cs es i loc ok inode' ino' :
      dir_listing img inode 0 es → find_entry es c = Some i → inode_placed img sb i loc →
      resolves img sb (slice img loc 256) ((λ _, i) <$> ino) cs ok inode' ino' →
      resolves img sb inode ino (c :: cs) ok inode' ino'
  | resolves_missing inode ino c cs es :
      dir_listing img inode 0 es → find_entry es c = None →
      resolves img sb inode ino (c :: cs) false inode ino.

Section paths.
Context {St : Type} `{BlkSpec St} `{!Uninit}.
Implicit Types s : St.

Lemma path_loop_spec fuel sb pre path tail inode ino ok inode' ino' s :
  ready s → no_nul path → zlen inode = 256 →
  resolves (image s) sb inode ino (components path) ok inode' ino' →
  (length (components path) < fuel)%nat →
  ∃ path' s', path_loop fuel sb (pre ++ path ++ Byte.x00 :: tail) (length pre) inode ino s
      = (Done (ok, path', inode', ino'), s')
    ∧ ready s' ∧ image s' = image s ∧ length path' = length (pre ++ path ++ Byte.x00 :: tail).
Proof.
  remember (components path) as cs eqn:Hcs. intros Hs Hnn Hlen Hres Hfuel.
  remember (image s) as img eqn:Himg.
  revert fuel pre path Hnn Hcs Hfuel s Hs Himg.
  induction Hres as [inode ino|inode ino c cs es i loc ok inode' ino' Hlist Hfind Hp _ IH
                    |inode ino c cs es Hlist Hfind];
    intros fuel pre path Hnn Hcs Hfuel s Hs Himg; (destruct fuel as [|fuel]; [lia|]);
    cbn [path_loop]; pose proof (strtok_spec pre path tail s Hnn) as Htok;
    rewrite <-Hcs in Htok; cbn zeta in Htok.
  - destruct Htok as [pos Htok]. run_with Htok. by eexists _, s.
  - destruct Htok as (start & pre' & path' & Htok & Hc & Hcomp & Hnn' & Hl & _).
    run_with Htok. subst img.
    pose proof (scan_dir_spec (Z.to_nat EXT2_MAX_DIRECT_BLOCKS_PER_INODE) sb _ c inode inode ino 0 es s
      Hs Hc Hlen Hlist eq_refl) as Hdir.
    rewrite Hfind in Hdir. destruct (Hdir loc Hp) as (s1 & Hrun & Hr1 & Him1).
    unfold inode_from_dir. run_with Hrun. cbn [negb].
    destruct (IH ltac:(pose proof (placed_nonneg _ _ _ _ Hp); pose proof (placed_inside _ _ _ _ Hp);
        apply zlen_slice; lia) fuel pre' path' Hnn' (eq_sym Hcomp) ltac:(cbn in Hfuel; lia) s1 Hr1 (eq_sym Him1))
      as (path'' & s2 & Hloop & Hr2 & Him2 & Hl2).
    exists path'', s2. rewrite Hloop, Him2, Hl2. done.
  - destruct Htok as (start & pre' & path' & Htok & Hc & _ & _ & Hl & _).
    run_with Htok. subst img.
    pose proof (scan_dir_spec (Z.to_nat EXT2_MAX_DIRECT_BLOCKS_PER_INODE) sb _ c inode inode ino 0 es s
      Hs Hc Hlen Hlist eq_refl) as Hdir.
    rewrite Hfind in Hdir. destruct Hdir as (s1 & Hrun & Hr1 & Him1).
    unfold inode_from_dir. run_with Hrun. cbn [negb]. by eexists _, s1.
Qed.

(** The root directory is inode 2. *)
Lemma ino_from_path_spec sb path tail ino loc ok inode' ino' s :
  ready s → no_nul path → inode_placed (image s) sb 2 loc →
  resolves (image s) sb (slice (image s) loc 256) (Some ino) (components path) ok inode' (Some ino') →
  ∃ path' s', ino_from_path sb (path ++ Byte.x00 :: tail) ino s = (Done (ok, path', ino'), s')
    ∧ ready s' ∧ image s' = image s ∧ length path' = length (path ++ Byte.x00 :: tail).
Proof.
  intros Hs Hnn Hp Hres. unfold ino_from_path.
  destruct (inode_from_ino_spec sb (uninit (sizeof ext2_inode)) 2 loc s)
    as (s1 & Hrd & Hr1 & Him1); [done..|by rewrite zlen_uninit|].
  run_with Hrd. cbn [negb].
  pose proof (placed_nonneg _ _ _ _ Hp). pose proof (placed_inside _ _ _ _ Hp).
  destruct (path_loop_spec (length (path ++ Byte.x00 :: tail)) sb [] path tail
    (slice (image s) loc 256) (Some ino) ok inode' (Some ino') s1)
    as (path' & s2 & Hloop & Hr2 & Him2 & Hl); rewrite ?Him1; try done.
  { apply zlen_slice; lia. }
  { rewrite length_app. cbn. pose proof (components_length path). lia. }
  cbn [app length] in Hloop. run_with Hloop.
  exists path', s2. rewrite Him2, Him1. done.
Qed.
End paths.
