(* ===== verification/SelfTest.v ===== *)
(** * The self test of the file system (src/ext2.c)

    [test_ext2_implementation] runs on the volume of the repository's tests
    when the build enables tests; [debug_dirent] walks a directory for the
    trace output.  The device they are given is the disk of the state. *)

From S2P Require Import Prelude Layout Ecall Blk Ext2 Ext2File Ext2Dir.

Section operations.
Context {St : Type} `{!BlkDev St} `{!Console St} `{!Uninit}.

(** The [while (dirent_idx < 1024)] loop.  The name is copied to a buffer of
    255 bytes and, without trace output, not looked at. *)
Fixpoint debug_block (fuel : nat) (buffer : list byte) (dirent_idx : Z) : prog St unit :=
  if dirent_idx <? 1024 then
    match fuel with
    | O => stop Hang
    | S fuel =>
        buffer ← memcpy buffer 0 buffer dirent_idx (sizeof ext2_dirent);
        buffer ← memcpy buffer 0 buffer dirent_idx buffer.[ext2_dirent, "rec_len"%string];
        _ ← memcpy (zeros 255) 0 buffer (sizeof ext2_dirent) buffer.[ext2_dirent, "name_len"%string];
        debug_block fuel buffer (dirent_idx + buffer.[ext2_dirent, "rec_len"%string])
    end
  else mret tt.

(** The [for] loop over the blocks from [o] on, [todo] of them. *)
Fixpoint debug_blocks (todo : nat) (inode : list byte) (o : Z) : prog St unit :=
  match todo with
  | O => mret tt
  | S todo =>
      block ← get_elem ext2_inode "i_block"%string inode o;
      if block =? 0 then mret tt
      else
        '(_, buffer) ← virtio_blk_read_sync (uninit 1024) 0 (u32 (block * 1024)) 1024;
        debug_block scan_turns buffer 0;;
        debug_blocks todo inode (o + 1)
  end.

Definition debug_dirent (inode : list byte) : prog St unit :=
  debug_blocks (Z.to_nat EXT2_MAX_DIRECT_BLOCKS_PER_INODE) inode 0.

(** A path given as a string literal.  [strtok] cuts it up where it stands,
    which C does not define for a literal; here every call starts with the
    text as written. *)
Definition literal (path : string) : list byte := String.list_byte_of_string path ++ [Byte.x00].

(** A line of the report, without its line break. *)
Definition report (line : string) : prog St unit := eprint_msg (line +:+ nl).

(** A check of the test: one line when it holds, another when it does not. *)
Definition expect (b : bool) (yes no : string) : prog St unit :=
  if b then report yes else report no.

(** One look at the start of a file: the first block of the inode the path
    names, one sector of it; the results of the path walk and of the read
    are not looked at.  [inode] and [buffer] are the locals of the test. *)
Definition check_file (superblock : list byte) (actual_block_size : Z) (path msg content failure : string)
    (ino buffer : list byte) : prog St (list byte * list byte) :=
  '(_, _, ino) ← inode_from_path superblock (literal path) ino;
  block ← get_elem ext2_inode "i_block"%string ino 0;
  '(_, sector) ← read_sector (virtio_blk_sector_from_pos (u64 (block * actual_block_size))) (slice buffer 0 512);
  let buffer := splice buffer 0 sector in
  eprint_buffer (chars msg ++ [0]) buffer 512;;
  same ← strncmp_eq (literal content) buffer (String.length content);
  (if (same : bool) then report "Success!" else eprint_msg failure;; stop PowerOff);;
  mret (ino, buffer).

(** The result of the read of the group descriptor is cut to a byte: a whole
    block of 1024 bytes reads as 0. *)
Definition test_ext2_implementation : prog St bool :=
  '(_, superblock) ← read_superblock (uninit (sizeof ext2_superblock));
  expect (superblock.[ext2_superblock, "s_blocks_count"%string] =? 10000)
    "Read the proper number of blocks!" "Error: Did not read the proper number of blocks!";;
  expect (superblock.[ext2_superblock, "s_inodes_count"%string] =? 2496)
    "Read the proper number of inodes!" "Error: Did not read the proper number of inodes!";;
  (if superblock.[ext2_superblock, "s_first_inode"%string] =? 11
   then report "Read the proper first inode!" else mret tt);;
  actual_block_size ← shl_int 1024 superblock.[ext2_superblock, "s_log_block_size"%string];
  defined (negb (superblock.[ext2_superblock, "s_blocks_per_group"%string] =? 0));;
  '(result, buffer) ← virtio_blk_read_sync (zeros 1024) 0 EXT2_FIRST_OFFSET_AFTER_SUPERBLOCK actual_block_size;
  if negb (u8 result =? 0) then mret true
  else
    expect (buffer.[ext2_blockgroup, "bg_block_bitmap"%string] =? 6)
      "Read the proper block bitmap id!" "Failure to read the proper block bitmap id.";;
    expect (buffer.[ext2_blockgroup, "bg_inode_bitmap"%string] =? 7)
      "Read the proper inode bitmap id!" "Failure to read the proper inode bitmap id.";;
    expect (buffer.[ext2_blockgroup, "bg_inode_table"%string] =? 8)
      "Read the proper inode table id!" "Failure to read the proper inode table id.";;
    eprint_msg "Free blocks? ";;
    eprint_num buffer.[ext2_blockgroup, "bg_free_blocks_count"%string];;
    eprint 10;;
    eprint_msg "Free inodes? ";;
    eprint_num buffer.[ext2_blockgroup, "bg_free_inodes_count"%string];;
    eprint 10;;
    '(_, ino) ← inode_from_ino superblock (uninit (sizeof ext2_inode)) 2;
    debug_dirent ino;;
    '(ino, buffer) ← check_file superblock actual_block_size "/blank" "Contents of block 0 of blank file"
      "testing" "Failure to read proper contents of /blank (as 'testing')" ino buffer;
    _ ← check_file superblock actual_block_size "/eve" "Contents of block 0 of eve file"
      "adam" "Failure to read proper contents of /eve (as 'adam')" ino buffer;
    '(found, _, _) ← inode_from_path superblock (literal "/this/is/a/test") (uninit (sizeof ext2_inode));
    (if negb found then
       report "Could not get the inode for the /this/is/a/test path.";; stop PowerOff
     else report "Successfully got the inode for the /this/is/a/test path.");;
    mret true.
End operations.
