(* ===== verification/Vring.v ===== *)
(** * The virtqueue (src/virtio.c)

    The three areas of a queue -- descriptor table, available ring, used
    ring -- are in the memory shared with the device; the driver's own record
    is the [vring]. *)

From S2P Require Import Prelude Layout Ecall Memory Machine Heap.

Definition VRING_DESC_NEXT : Z := 1.
Definition VRING_DESC_NO_NEXT : Z := 2 ^ 32 - 1 - VRING_DESC_NEXT.
Definition VRING_DESCR_WRITABLE : Z := 2.
Definition VIRTIO_Q_SELECT_HOST_CFG_OFFSET : Z := 14.
Definition VIRTIO_Q_SIZE_HOST_CFG_OFFSET : Z := 12.
Definition VIRTIO_Q_ADDR_HOST_CFG_OFFSET : Z := 8.
Definition VIRTIO_Q_ADDR_PAGE_SHIFT : Z := 12.
Definition VIRTIO_DEVICE_STATUS_HOST_CFG_OFFSET : Z := 18.

Definition virtq_descr_size (qsz : Z) : Z := u32 (sizeof vring_desc_item * qsz).
Definition virtq_avail_size (qsz : Z) : Z := u32 (2 * 3 + sizeof_vring_avail_item * qsz).
Definition virtq_used_size (qsz : Z) : Z := u32 (2 * 3 + sizeof vring_used_item * qsz).
Definition virtq_size (qsz : Z) : Z :=
  u32 (ALIGN_UP 32 (u32 (virtq_descr_size qsz + virtq_avail_size qsz)) 4096 +
       ALIGN_UP 32 (virtq_used_size qsz) 4096).

Section operations.
Context {D : Type} `{!Platform D}.

Definition vring_use_descr (r : vring_ref) : prog (machine D) Z :=
  v ← get_vring r; mret v.(bookeeping).(descr_next).

Definition vring_unuse_descr (r : vring_ref) (goback : Z) : prog (machine D) Z :=
  v ← get_vring r;
  put_vring r (set_bookeeping (set_descr_next goback v.(bookeeping)) v);;
  mret goback.

Definition vring_add_to_descr (r : vring_ref) (buf size flags where_ : Z) (ends_chain : bool)
    : prog (machine D) Z :=
  v ← get_vring r;
  if v.(num) <=? where_ then
    eprint_msg ("Error: Attempting to use a descriptor entry beyond the available quantity." +:+ nl);;
    epoweroff
  else
    defined (negb (v.(num) =? 1));;
    let next := (v.(bookeeping).(descr_next) + 1) mod u32 (v.(num) - 1) in
    let item := v.(desc) + sizeof vring_desc_item * where_ in
    store_mem (item + offsetof vring_desc_item "addr") 8 buf;;
    store_mem (item + offsetof vring_desc_item "len") 4 size;;
    store_mem (item + offsetof vring_desc_item "next") 2 (if ends_chain then 0 else next);;
    store_mem (item + offsetof vring_desc_item "flags") 2 flags;;
    flags ← load_mem (item + offsetof vring_desc_item "flags") 2;
    store_mem (item + offsetof vring_desc_item "flags") 2
      (if ends_chain then Z.land flags VRING_DESC_NO_NEXT else Z.lor flags VRING_DESC_NEXT);;
    (if v.(num) <=? next then
       eprint_msg ("Warning: Providing a next index for a descriptor that is beyond the available quantity." +:+ nl)
     else mret tt);;
    put_vring r (set_bookeeping (set_descr_next (u16 next) v.(bookeeping)) v);;
    mret (u16 next).

Definition vring_post_descr (r : vring_ref) (used_descr_idx : Z) : prog (machine D) unit :=
  v ← get_vring r;
  defined (negb (v.(num) =? 1));;
  store_mem (v.(avail) + sizeof vring_avail +
             sizeof_vring_avail_item * (v.(bookeeping).(avail_next) mod u32 (v.(num) - 1)))
    2 used_descr_idx;;
  let avail_next := u16 (v.(bookeeping).(avail_next) + 1) in
  put_vring r (set_bookeeping (set_avail_next avail_next v.(bookeeping)) v);;
  store_mem (v.(avail) + offsetof vring_avail "idx") 2 avail_next.

(** The devices make a step before every look at the used index. *)
Definition read_used_idx (v : vring) : prog (machine D) Z :=
  run_devices;; load_mem (v.(used) + offsetof vring_used "idx") 2.

Fixpoint poll_used (fuel : nat) (v : vring) (id : Z) : prog (machine D) Z :=
  if id =? v.(bookeeping).(used_last) then
    match fuel with
    | O => stop Hang
    | S fuel => id ← read_used_idx v; poll_used fuel v id
    end
  else mret id.

Definition vring_wait_completion (r : vring_ref) : prog (machine D) unit :=
  v ← get_vring r;
  id ← read_used_idx v;
  id ← poll_used patience v id;
  put_vring r (set_bookeeping (set_used_last id v.(bookeeping)) v).

Definition signal_virtio_device (driver : nat) (signal : Z) : prog (machine D) unit :=
  d ← get_driver driver;
  store_reg (d.(host) + 16) 2 signal.

(** *** Device configuration registers *)

Definition virtio_device_queue_select (virtio_host_cfg q : Z) : prog (machine D) unit :=
  store_reg (virtio_host_cfg + VIRTIO_Q_SELECT_HOST_CFG_OFFSET) 2 q.

Definition virtio_device_queue_size_read (virtio_host_cfg : Z) : prog (machine D) Z :=
  load_reg (virtio_host_cfg + VIRTIO_Q_SIZE_HOST_CFG_OFFSET) 2.

(** (The C function is declared to return a value and returns none; no
    caller looks at it.) *)
Definition virtio_device_queue_desc_write (virtio_host_cfg descr : Z) : prog (machine D) unit :=
  store_reg (virtio_host_cfg + VIRTIO_Q_ADDR_HOST_CFG_OFFSET) 4
    (u32 (Z.shiftr descr VIRTIO_Q_ADDR_PAGE_SHIFT)).

Definition virtio_device_set_status (virtio_host_cfg status : Z) : prog (machine D) unit :=
  store_reg (virtio_host_cfg + VIRTIO_DEVICE_STATUS_HOST_CFG_OFFSET) 1 status.
End operations.
