(* ===== verification/QueueState.v ===== *)
(** * Runs of the virtqueue code, symbolically (src/virtio.c)

    While a request on one queue is under way only the memory, the device,
    the driver's record of the queue and the stack pointer change.  [st] is a
    machine described by these four; the lemmas say what each function of
    virtio.c does to it, for queue [qn] of the driver at index [dn]. *)

From S2P Require Import Prelude Layout Ecall Memory Machine Heap Vring.

Section states.
Context {D : Type} `{!Platform D}.
Context (dn qn : nat) (s0 : machine D) (drv : virtio_driver) (vr0 : vring).
Hypothesis Hdrv : virtio_drivers s0 !! dn = Some drv.
Hypothesis Hvr : vrings drv !! qn = Some vr0.

Definition drv_with (v : vring) : virtio_driver := set_vrings (<[qn := v]> (vrings drv)) drv.
Definition st (m : memory) (d : D) (v : vring) (p : Z) : machine D :=
  Machine m d (<[dn := drv_with v]> (virtio_drivers s0)) p (the_heap s0)
    (forever_storage_frontier s0) (pci_base s0) (console_out s0).

Lemma st_init : s0 = st (mem s0) (dev s0) vr0 (sp s0).
Proof.
  unfold st, drv_with. rewrite (list_insert_id (vrings drv)) by done.
  rewrite list_insert_id; [by destruct s0|]. rewrite Hdrv. by destruct drv.
Qed.

Lemma get_driver_st m d v p : get_driver dn (st m d v p) = (Done (drv_with v), st m d v p).
Proof.
  unfold get_driver. run. cbn [virtio_drivers st].
  rewrite list_lookup_insert_eq; [done|]. by apply lookup_lt_Some in Hdrv.
Qed.

Lemma lookup_drv_with v : vrings (drv_with v) !! qn = Some v.
Proof. cbn. apply list_lookup_insert_eq. by apply lookup_lt_Some in Hvr. Qed.

Lemma get_vring_st m d v p :
  get_vring (dn, qn) (st m d v p) = (Done v, st m d v p).
Proof. unfold get_vring. cbn [fst snd]. run_with (get_driver_st m d v p). by rewrite lookup_drv_with. Qed.

Lemma put_vring_st m d v v' p :
  put_vring (dn, qn) v' (st m d v p) = (Done tt, st m d v' p).
Proof.
  unfold put_vring. cbn [fst snd]. run_with (get_driver_st m d v p). rewrite lookup_drv_with.
  unfold put_driver. run. cbn [virtio_drivers st].
  rewrite list_lookup_insert_eq by (by apply lookup_lt_Some in Hdrv).
  unfold modify, set_drivers, st. cbn.
  rewrite list_insert_insert_eq. unfold drv_with, set_vrings. cbn.
  by rewrite list_insert_insert_eq.
Qed.

Lemma store_mem_st a n x m d v p :
  store_mem a n x (st m d v p) = (Done tt, st (store_le m a n x) d v p).
Proof. done. Qed.

Lemma load_mem_st a n m d v p :
  load_mem a n (st m d v p) = (Done (load_le m a n), st m d v p).
Proof. done. Qed.

Lemma run_devices_st m d v p :
  run_devices (st m d v p) =
  (Done tt, st (dma_step d m).2 (dma_step d m).1 v p).
Proof. unfold run_devices, modify. cbn. by destruct (dma_step d m). Qed.

(** The memory after one descriptor has been filled in. *)
Definition write_desc (m : memory) (item buf size next flags flags' : Z) : memory :=
  store_le (store_le (store_le (store_le (store_le m item 8 buf)
    (item + 8) 4 size) (item + 14) 2 next) (item + 12) 2 flags) (item + 12) 2 flags'.

Definition next_after (v : vring) : Z := (descr_next (bookeeping v) + 1) mod (num v - 1).
Definition with_next (n : Z) (v : vring) : vring :=
  set_bookeeping (set_descr_next n (bookeeping v)) v.

Lemma add_to_descr_st m d v p buf size flags w (ends : bool) :
  0 <= w < num v → 2 <= num v <= 2 ^ 15 → 0 <= flags < 2 ^ 16 →
  vring_add_to_descr (dn, qn) buf size flags w ends (st m d v p)
  = (Done (next_after v),
     st (write_desc m (desc v + 16 * w) buf size (if ends then 0 else next_after v) flags
           (if ends then Z.land flags VRING_DESC_NO_NEXT else Z.lor flags VRING_DESC_NEXT))
        d (with_next (next_after v) v) p).
Proof.
  intros Hw Hn Hf. unfold vring_add_to_descr. run_with (get_vring_st m d v p).
  replace (num v <=? w) with false by lia.
  rewrite bind_defined by lia. rewrite (wrap_small 32) by lia. fold (next_after v).
  assert (0 <= next_after v < num v - 1) by (apply Z.mod_pos_bound; lia).
  layout. change (sizeof vring_desc_item) with 16. rewrite Z.add_0_r.
  do 4 (run_with (store_mem_st _ _ _ _ _ _ _)).
  run_with (load_mem_st _ _ _ _ _ _). run_with (store_mem_st _ _ _ _ _ _ _).
  replace (num v <=? next_after v) with false by lia. run.
  rewrite (wrap_small 16) by lia.
  run_with (put_vring_st _ _ _ _ _).
  rewrite load_le_store_le_same, Z.mod_small by lia. done.
Qed.

Definition with_avail (n : Z) (v : vring) : vring :=
  set_bookeeping (set_avail_next n (bookeeping v)) v.

Lemma post_descr_st m d v p used :
  2 <= num v <= 2 ^ 15 →
  let i := avail_next (bookeeping v) mod (num v - 1) in
  let n := u16 (avail_next (bookeeping v) + 1) in
  vring_post_descr (dn, qn) used (st m d v p)
  = (Done tt, st (store_le (store_le m (avail v + 4 + 2 * i) 2 used) (avail v + 2) 2 n)
                 d (with_avail n v) p).
Proof.
  intros Hn i n. unfold vring_post_descr. run_with (get_vring_st m d v p).
  rewrite bind_defined by lia. rewrite (wrap_small 32) by lia. layout.
  run_with (store_mem_st _ _ _ _ _ _ _). run_with (put_vring_st _ _ _ _ _). done.
Qed.

Lemma signal_st m d v p n :
  signal_virtio_device dn n (st m d v p)
  = (Done tt, st m (mmio_store (host drv + 16) 2 n d) v p).
Proof. unfold signal_virtio_device. run_with (get_driver_st m d v p). done. Qed.

(** The polling loop, when the devices take [k] steps without and one step
    with a change of the used index. *)
Definition after (j : nat) (d : D) (m : memory) : D * memory :=
  Nat.iter j (λ '(d, m), dma_step d m) (d, m).

Lemma after_S j d m : dma_step (after j d m).1 (after j d m).2 = after (S j) d m.
Proof. unfold after. rewrite Nat.iter_succ. by destruct (Nat.iter j _ _). Qed.

Lemma read_used_st j d m v p :
  read_used_idx v (st (after j d m).2 (after j d m).1 v p)
  = (Done (load_le (after (S j) d m).2 (used v + 2) 2),
     st (after (S j) d m).2 (after (S j) d m).1 v p).
Proof.
  unfold read_used_idx. run_with (run_devices_st _ _ _ _). rewrite load_mem_st, after_S. done.
Qed.

Lemma poll_used_st fuel k j d m v p :
  (∀ i, (1 <= i <= k)%nat →
     load_le (after i d m).2 (used v + 2) 2 = used_last (bookeeping v)) →
  load_le (after (S k) d m).2 (used v + 2) 2 ≠ used_last (bookeeping v) →
  (1 <= j <= S k)%nat → (S k <= fuel + j)%nat →
  poll_used fuel v (load_le (after j d m).2 (used v + 2) 2) (st (after j d m).2 (after j d m).1 v p)
  = (Done (load_le (after (S k) d m).2 (used v + 2) 2),
     st (after (S k) d m).2 (after (S k) d m).1 v p).
Proof.
  intros Hsame Hnew. revert j. induction fuel as [|fuel IH]; intros j Hj Hfuel.
  - replace j with (S k) by lia. cbn [poll_used]. apply Z.eqb_neq in Hnew. by rewrite Hnew.
  - cbn [poll_used]. destruct (decide (j = S k)) as [->|Hne].
    { apply Z.eqb_neq in Hnew. by rewrite Hnew. }
    rewrite Hsame, Z.eqb_refl by lia.
    run_with (read_used_st _ _ _ _ _). apply IH; lia.
Qed.

Definition with_used_last (n : Z) (v : vring) : vring :=
  set_bookeeping (set_used_last n (bookeeping v)) v.

Lemma wait_completion_st k d m v p :
  (k <= patience)%nat →
  (∀ i, (1 <= i <= k)%nat →
     load_le (after i d m).2 (used v + 2) 2 = used_last (bookeeping v)) →
  let id := load_le (after (S k) d m).2 (used v + 2) 2 in
  id ≠ used_last (bookeeping v) →
  vring_wait_completion (dn, qn) (st m d v p)
  = (Done tt, st (after (S k) d m).2 (after (S k) d m).1 (with_used_last id v) p).
Proof.
  intros Hk Hsame id Hnew. unfold vring_wait_completion. run_with (get_vring_st m d v p).
  run_with (read_used_st 0 d m v p).
  run_with (poll_used_st patience k 1 d m v p Hsame Hnew ltac:(lia) ltac:(lia)).
  apply put_vring_st.
Qed.

Lemma with_frame_st {A} n (body : Z → prog (machine D) A) m d v p r m' d' v' :
  body (p - n) (st m d v (p - n)) = (Done r, st m' d' v' (p - n)) →
  with_frame n body (st m d v p) = (Done r, st m' d' v' p).
Proof.
  intros Hbody. unfold with_frame. run. change (set_sp (p - n) (st m d v p)) with (st m d v (p - n)).
  cbn [sp st]. run_with Hbody. done.
Qed.
End states.
