(* ===== verification/BlkVring.v ===== *)
(** * Sector requests over the virtqueue (src/blk.c)

    [virtio_blk_read_sector_sync] and [virtio_blk_write_sector_sync] build a
    chain of three descriptors, post it, ring the device and wait.  They are
    proved to move exactly one sector for every device that behaves as the
    VIRTIO specification says ([VirtioBlk]); this makes the machine an
    instance of the block-device interface of Blk.v. *)

From S2P Require Import Prelude Layout Ecall Memory Machine Vring QueueState Blk.

Definition VIRTIO_BLK_READ_OP : Z := 0.
Definition VIRTIO_BLK_WRITE_OP : Z := 1.

Definition virtio_blk_req_hdr : struct := [("type", U32); ("ioprio", U32); ("sector", U64)]%string.

(** ** Operations *)

Section operations.
Context {D : Type} `{!Platform D}.

(** The locals the device sees: the request header and the status byte.
    They are placed in a frame of 32 bytes, the header first. *)
Definition sector_frame : Z := 32.
Definition status_slot : Z := 16.

(** The two functions differ in the request type and in whether the data
    descriptor is writable for the device; [addr] is the sector buffer. *)
Definition sector_request (op data_flags : Z) (driver : nat) (sector addr : Z)
    : prog (machine D) Z :=
  with_frame sector_frame (λ blk_hdr,
    let blk_io_status := blk_hdr + status_slot in
    store_mem blk_io_status 1 255;;
    store_mem (blk_hdr + offsetof virtio_blk_req_hdr "type") 4 op;;
    store_mem (blk_hdr + offsetof virtio_blk_req_hdr "sector") 8 sector;;
    let vring := (driver, 0%nat) in
    next ← vring_use_descr vring;
    let used := next in
    next ← vring_add_to_descr vring blk_hdr (sizeof virtio_blk_req_hdr) 0 next false;
    next ← vring_add_to_descr vring addr VIRTIO_BLK_SIZE data_flags next false;
    _ ← vring_add_to_descr vring blk_io_status 1 VRING_DESCR_WRITABLE next true;
    vring_post_descr vring used;;
    signal_virtio_device driver 0;;
    vring_wait_completion vring;;
    _ ← vring_unuse_descr vring used;
    load_mem blk_io_status 1).

Definition virtio_blk_write_sector_sync := sector_request VIRTIO_BLK_WRITE_OP 0.
Definition virtio_blk_read_sector_sync := sector_request VIRTIO_BLK_READ_OP VRING_DESCR_WRITABLE.

(** The callers' [char blk[VIRTIO_BLK_SIZE]] lives in their own frame.  The
    block driver is entry 1 of the driver table. *)
Definition BLK_DRIVER : nat := 1.

#[export] Instance machine_blk : BlkDev (machine D) := {|
  read_sector sector blk :=
    with_frame VIRTIO_BLK_SIZE (λ addr,
      modify (λ s, set_mem (store s.(mem) addr blk) s);;
      status ← virtio_blk_read_sector_sync BLK_DRIVER sector addr;
      blk ← gets (λ s, load s.(mem) addr VIRTIO_BLK_SIZE);
      mret (status, blk));
  write_sector sector blk :=
    with_frame VIRTIO_BLK_SIZE (λ addr,
      modify (λ s, set_mem (store s.(mem) addr blk) s);;
      virtio_blk_write_sector_sync BLK_DRIVER sector addr)
|}.
End operations.

(** ** The device

    What a (legacy) virtio block device does, as the VIRTIO specification
    states it.  [blk_view d] is the part of the device the driver relies on:
    the disk image, the queue it was given and its position in the available
    ring. *)

Record blk_view := {
  bv_image : list byte;
  bv_host : Z;         (* base of its host configuration registers *)
  bv_num : Z;          (* queue size *)
  bv_queue : Z;        (* address of the queue *)
  bv_last_avail : Z;   (* how many chains it has taken, modulo 2^16 *)
}.

(** The legacy layout of a queue of [n] entries at [q] (VIRTIO 1.1, 2.6.2). *)
Definition queue_avail (q n : Z) : Z := q + 16 * n.
Definition queue_used (q n : Z) : Z := (queue_avail q n + 6 + 2 * n + 4095) / 4096 * 4096.
Definition queue_end (q n : Z) : Z := queue_used q n + 6 + 8 * n.

(** [desc_is m q i addr len flags next]: entry [i] of the descriptor table. *)
Definition desc_is (m : memory) (q i addr len flags next : Z) : Prop :=
  load_le m (q + 16 * i) 8 = addr ∧ load_le m (q + 16 * i + 8) 4 = len ∧
  load_le m (q + 16 * i + 12) 2 = flags ∧ load_le m (q + 16 * i + 14) 2 = next.

(** A request as the device finds it: one new chain in the available ring,
    made of a header, a data buffer of one sector and a status byte. *)
Record request_posted (v : blk_view) (m : memory) (op sector hdr data status head : Z) : Prop := {
  posted_idx : load_le m (queue_avail (bv_queue v) (bv_num v) + 2) 2 = u16 (bv_last_avail v + 1);
  posted_head : load_le m (queue_avail (bv_queue v) (bv_num v) + 4
                           + 2 * (bv_last_avail v mod bv_num v)) 2 = head;
  posted_chain : ∃ n1 n2 n3,
    desc_is m (bv_queue v) head hdr 16 1 n1 ∧
    desc_is m (bv_queue v) n1 data 512 (if op =? 0 then 3 else 1) n2 ∧
    desc_is m (bv_queue v) n2 status 1 2 n3;
  posted_op : load_le m hdr 4 = op ∧ (op = 0 ∨ op = 1);
  posted_sector : load_le m (hdr + 8) 8 = sector;
}.

(** The completion of a chain: a used element, then the used index. *)
Definition complete (v : blk_view) (m : memory) (head len : Z) : memory :=
  let used := queue_used (bv_queue v) (bv_num v) in
  let idx := load_le m (used + 2) 2 in
  let elem := used + 4 + 8 * (idx mod bv_num v) in
  store_le (store_le (store_le m elem 4 head) (elem + 4) 4 len) (used + 2) 2 (u16 (idx + 1)).

(** [served v m op sector data status head img m']: what one request leaves
    on the disk and in memory. *)
Definition served (v : blk_view) (m : memory) (op sector data status head : Z)
    (img : list byte) (m' : memory) : Prop :=
  if decide (512 * sector + 512 <= zlen (bv_image v)) then
    if op =? 0 then
      img = bv_image v ∧
      ∃ len, m' = complete v (store_le (store m data (slice (bv_image v) (512 * sector) 512)) status 1 0)
                   head len
    else
      img = splice (bv_image v) (512 * sector) (load m data 512) ∧
      ∃ len, m' = complete v (store_le m status 1 0) head len
  else
    img = bv_image v ∧
    ∃ junk st len, zlen junk = 512 ∧ st mod 256 ≠ 0 ∧
      m' = complete v (store_le (if op =? 0 then store m data junk else m) status 1 st) head len.

Class VirtioBlk (D : Type) `{!Platform D} := {
  view : D → blk_view;
  (** Ringing the queue-notify register changes nothing by itself. *)
  notify_view d : view (mmio_store (bv_host (view d) + 16) 2 0 d) = view d;
  (** A notified device serves the request it finds within [patience + 1]
      steps, and until then leaves the used index alone. *)
  serves d m op sector hdr data status head :
    let v := view d in
    let d0 := mmio_store (bv_host v + 16) 2 0 d in
    request_posted v m op sector hdr data status head →
    ∃ k d' m' img,
      (k <= patience)%nat ∧
      (∀ j, (1 <= j <= k)%nat →
         load_le (Nat.iter j (λ '(d, m), dma_step d m) (d0, m)).2
           (queue_used (bv_queue v) (bv_num v) + 2) 2
         = load_le m (queue_used (bv_queue v) (bv_num v) + 2) 2) ∧
      Nat.iter (S k) (λ '(d, m), dma_step d m) (d0, m) = (d', m') ∧
      served v m op sector data status head img m' ∧
      view d' = {| bv_image := img; bv_host := bv_host v; bv_num := bv_num v;
                   bv_queue := bv_queue v; bv_last_avail := u16 (bv_last_avail v + 1) |};
}.

(** [d'] is where the device gets to, some steps after it was notified of a
    request. *)
Definition after_request {D} `{!Platform D} `{!VirtioBlk D} (d d' : D) : Prop :=
  ∃ m op sector hdr data status head k, request_posted (view d) m op sector hdr data status head ∧
    d' = (Nat.iter k (λ '(d, m), dma_step d m) (mmio_store (bv_host (view d) + 16) 2 0 d, m)).1.

(** ** The driver's side of the contract *)

Definition queue_apart (q n a len : Z) : Prop := a + len <= q ∨ queue_end q n <= a.

(** Between two requests the driver's queue is the one the device was given,
    the two agree on the position in the rings, the next free descriptor is
    0, and so is every entry of the available ring. *)
Record queue_idle (w : blk_view) (m : memory) (v : vring) : Prop := {
  idle_num : num v = bv_num w ∧ 4 <= num v <= 2 ^ 15;
  idle_desc : desc v = bv_queue w ∧ 0 <= desc v;
  idle_avail : avail v = queue_avail (desc v) (num v);
  idle_used : used v = queue_used (desc v) (num v);
  idle_next : descr_next (bookeeping v) = 0;
  idle_pos : avail_next (bookeeping v) = bv_last_avail w ∧ 0 <= avail_next (bookeeping v) < 2 ^ 16;
  idle_last : used_last (bookeeping v) = load_le m (used v + 2) 2;
  idle_ring : ∀ i, 0 <= i < num v → load_le m (avail v + 4 + 2 * i) 2 = 0;
}.

(** *** One request *)

(** The memory the driver hands to the device. *)
Definition request_memory (m : memory) (v : vring) (op flags sector hdr addr : Z) : memory :=
  let m := store_le (store_le (store_le m (hdr + 16) 1 255) hdr 4 op) (hdr + 8) 8 sector in
  let m := write_desc m (desc v) hdr 16 1 0 1 in
  let m := write_desc m (desc v + 16) addr 512 2 flags (flags + 1) in
  let m := write_desc m (desc v + 32) (hdr + 16) 1 0 2 2 in
  store_le (store_le m (avail v + 4 + 2 * (avail_next (bookeeping v) mod (num v - 1))) 2 0)
    (avail v + 2) 2 (u16 (avail_next (bookeeping v) + 1)).

(** Two buffers and the queue, pairwise apart and below 2^64. *)
Record buffers_apart (v : vring) (hdr addr : Z) : Prop := {
  apart_hdr : 0 <= hdr ∧ hdr + 32 <= 2 ^ 64 ∧ queue_apart (desc v) (num v) hdr 32;
  apart_addr : 0 <= addr ∧ addr + 512 <= 2 ^ 64 ∧ queue_apart (desc v) (num v) addr 512;
  apart_each : addr + 512 <= hdr ∨ hdr + 32 <= addr;
}.

(** The places of the rings, as linear facts. *)
Lemma queue_places q n :
  0 <= n → let a := queue_avail q n in let u := queue_used q n in
  a = q + 16 * n ∧ a + 6 + 2 * n <= u ∧ queue_end q n = u + 6 + 8 * n.
Proof. intros. unfold queue_end, queue_used, queue_avail in *. cbn. zlia. Qed.

Lemma request_memory_ring w m v op flags sector hdr addr i :
  queue_idle w m v → buffers_apart v hdr addr → 0 <= i < num v →
  load_le (request_memory m v op flags sector hdr addr) (avail v + 4 + 2 * i) 2 = 0.
Proof.
  intros [[_ Hn] [_ Hq] Ha Hu _ [_ Hpos] _ Hring] [[? [? Hh]] [? [? Hd]] Hap] Hi.
  destruct (queue_places (desc v) (num v)) as (Hav & Hus & Hend); [lia|].
  unfold queue_apart in *. rewrite Hend in *. rewrite Ha in *. set (A := queue_avail _ _) in *.
  unfold request_memory, write_desc. rewrite Ha. fold A.
  set (j := _ mod _). assert (0 <= j < num v - 1) by (apply Z.mod_pos_bound; lia).
  destruct (decide (i = j)) as [->|Hij]; mem_simpl; [done|]. apply Hring. lia.
Qed.

Lemma request_memory_used w m v op flags sector hdr addr :
  queue_idle w m v → buffers_apart v hdr addr →
  load_le (request_memory m v op flags sector hdr addr) (used v + 2) 2 = load_le m (used v + 2) 2.
Proof.
  intros [[_ Hn] [_ Hq] Ha Hu _ [_ Hpos] _ Hring] [[? [? Hh]] [? [? Hd]] Hap].
  destruct (queue_places (desc v) (num v)) as (Hav & Hus & Hend); [lia|].
  unfold queue_apart in *. rewrite Hend in *. rewrite Hu.
  unfold request_memory, write_desc. rewrite Ha.
  set (A := queue_avail _ _) in *. set (U := queue_used _ _) in *.
  set (j := _ mod (num v - 1)). assert (0 <= j < num v - 1) by (apply Z.mod_pos_bound; lia).
  mem_simpl. done.
Qed.

Lemma request_memory_posted w m v op flags sector hdr addr :
  queue_idle w m v → buffers_apart v hdr addr → 0 <= sector < 2 ^ 64 →
  (op = 0 ∧ flags = 2) ∨ (op = 1 ∧ flags = 0) →
  request_posted w (request_memory m v op flags sector hdr addr) op sector hdr addr (hdr + 16) 0.
Proof.
  intros Hidle Hapart Hsec Hop.
  assert (load_le (request_memory m v op flags sector hdr addr)
    (queue_avail (bv_queue w) (bv_num w) + 4 + 2 * (bv_last_avail w mod bv_num w)) 2 = 0) as Hhead.
  { pose proof Hidle as [[Hn ?] [Hq _] Ha _ _ _ _ _]. rewrite <-Hq, <-Hn, <-Ha.
    eapply request_memory_ring; [done..|]. apply Z.mod_pos_bound. lia. }
  destruct Hidle as [[Hnw Hn] [Hqw Hq] Ha Hu _ [Hlast Hpos] _ Hring].
  destruct Hapart as [(Hh0 & Hh1 & Hh) (Hd0 & Hd1 & Hd) Hap].
  destruct (queue_places (desc v) (num v)) as (Hav & Hus & Hend); [lia|].
  unfold queue_apart in *. rewrite Hend in *.
  split; [|done| | |]; rewrite <-?Hqw, <-?Hnw, <-?Hlast.
  all: unfold desc_is, request_memory, write_desc; rewrite Ha;
    set (A := queue_avail _ _) in *; set (U := queue_used _ _) in *;
    set (j := _ mod (num v - 1)); assert (0 <= j < num v - 1) by (apply Z.mod_pos_bound; lia).
  - mem_simpl. rewrite (Z.mod_small (u16 _)); [done|]. apply (wrap_range 16); lia.
  - exists 1, 2, 0. rewrite !Z.mul_0_r, !Z.add_0_r, !Z.mul_1_r. change (16 * 2) with 32.
    split_and!; mem_simpl; rewrite ?Z.mod_small by lia; try done; destruct Hop as [[-> ->]|[-> ->]]; done.
  - mem_simpl. rewrite Z.mod_small by lia. split; [done|lia].
  - mem_simpl. rewrite Z.mod_small by lia. done.
Qed.

(** The completion only writes between the used index and the end of the
    used ring. *)
Lemma complete_other w m v head len a n :
  queue_idle w m v → ∀ m', a + Z.of_nat n <= used v + 2 ∨ queue_end (desc v) (num v) <= a →
  load_le (complete w m' head len) a n = load_le m' a n.
Proof.
  intros [[Hnw Hn] [Hqw Hq] _ Hu _ _ _ _] m' Ha.
  destruct (queue_places (desc v) (num v)) as (_ & _ & Hend); [lia|]. rewrite Hend in *.
  unfold complete. rewrite <-Hnw, <-Hqw. rewrite Hu in *. set (U := queue_used _ _) in *.
  pose proof (Z.mod_pos_bound (load_le m' (U + 2) 2) (num v) ltac:(lia)).
  mem_simpl. done.
Qed.

Lemma complete_block w m v head len a n :
  queue_idle w m v → ∀ m', a + n <= used v + 2 ∨ queue_end (desc v) (num v) <= a →
  load (complete w m' head len) a n = load m' a n.
Proof.
  intros [[Hnw Hn] [Hqw Hq] _ Hu _ _ _ _] m' Ha.
  destruct (queue_places (desc v) (num v)) as (_ & _ & Hend); [lia|]. rewrite Hend in *.
  unfold complete. rewrite <-Hnw, <-Hqw. rewrite Hu in *. set (U := queue_used _ _) in *.
  pose proof (Z.mod_pos_bound (load_le m' (U + 2) 2) (num v) ltac:(lia)).
  mem_simpl. done.
Qed.

Lemma complete_idx w m v head len m' :
  queue_idle w m v →
  load_le (complete w m' head len) (used v + 2) 2 = u16 (load_le m' (used v + 2) 2 + 1).
Proof.
  intros [[Hnw Hn] [Hqw Hq] _ Hu _ _ _ _].
  unfold complete. rewrite <-Hnw, <-Hqw, <-Hu.
  rewrite load_le_store_le_same. apply Z.mod_small, (wrap_range 16). lia.
Qed.

(** What the device stores before it completes the chain: something in the
    data buffer, and the status byte. *)
Definition device_writes (m : memory) (addr status : Z) (data : list byte) (st : Z) : memory :=
  store_le (store m addr data) status 1 st.

Lemma store_nil m a : store m a [] = m.
Proof. done. Qed.

(** Every outcome the device may have has this form. *)
Lemma served_form w m op sector addr status head img m' :
  served w m op sector addr status head img m' → op = 0 ∨ op = 1 → 0 <= sector →
  ∃ data st len, m' = complete w (device_writes m addr status data st) head len ∧
    (data = [] ∨ zlen data = 512) ∧
    if decide (512 * sector + 512 <= zlen (bv_image w)) then
      st = 0 ∧
      if op =? 0 then img = bv_image w ∧ data = slice (bv_image w) (512 * sector) 512
      else img = splice (bv_image w) (512 * sector) (load m addr 512) ∧ data = []
    else img = bv_image w ∧ st mod 256 ≠ 0 ∧ (op = 0 → zlen data = 512).
Proof.
  unfold served, device_writes. intros Hs Hop Hsec. case_decide as Hin.
  - destruct Hop as [->| ->]; cbn in *; destruct Hs as (-> & len & ->).
    + exists (slice (bv_image w) (512 * sector) 512), 0, len. split_and!; try done.
      right. apply zlen_slice; lia.
    + exists [], 0, len. split_and!; try done. by left.
  - destruct Hs as (-> & junk & st & len & Hj & Hst & ->).
    destruct Hop as [->| ->]; cbn.
    + exists junk, st, len. split_and!; try done. by right.
    + exists [], st, len. split_and!; try done. by left.
Qed.

(** The driver's record after a request. *)
Definition vring_after (v : vring) (id : Z) : vring :=
  with_next 0 (with_used_last id (with_avail (u16 (avail_next (bookeeping v) + 1)) v)).

Definition view_after (w : blk_view) (img : list byte) : blk_view :=
  {| bv_image := img; bv_host := bv_host w; bv_num := bv_num w;
     bv_queue := bv_queue w; bv_last_avail := u16 (bv_last_avail w + 1) |}.

Section one_request.
Context (w : blk_view) (m : memory) (v : vring) (op flags sector hdr addr : Z).
Hypothesis Hidle : queue_idle w m v.
Hypothesis Hapart : buffers_apart v hdr addr.
Context (data : list byte) (st len : Z).
Hypothesis Hdata : data = [] ∨ zlen data = 512.

Definition memory_after : memory :=
  complete w (device_writes (request_memory m v op flags sector hdr addr) addr (hdr + 16) data st)
    0 len.

Lemma data_size : 0 <= zlen data <= 512.
Proof. destruct Hdata as [->|]; [done|lia]. Qed.

Lemma used_idx_after :
  load_le memory_after (used v + 2) 2 = u16 (load_le m (used v + 2) 2 + 1).
Proof.
  unfold memory_after. rewrite (complete_idx w m) by done. do 2 f_equal.
  rewrite <-(request_memory_used w m v op flags sector hdr addr) by done.
  pose proof data_size.
  destruct Hidle as [[_ Hn] [_ Hq] _ Hu _ _ _ _].
  destruct Hapart as [(Hh0 & Hh1 & Hh) (Hd0 & Hd1 & Hd) Hap].
  destruct (queue_places (desc v) (num v)) as (Hav & Hus & Hend); [lia|].
  unfold queue_apart in *. rewrite Hend in *. rewrite Hu.
  set (A := queue_avail _ _) in *. set (U := queue_used _ _) in *.
  unfold device_writes. set (m1 := request_memory _ _ _ _ _ _ _) in *. by mem_simpl.
Qed.

Lemma ring_after i : 0 <= i < num v → load_le memory_after (avail v + 4 + 2 * i) 2 = 0.
Proof.
  intros Hi. rewrite <-(request_memory_ring w m v op flags sector hdr addr i) by done.
  pose proof data_size. unfold memory_after.
  pose proof Hidle as [[_ Hn] [_ Hq] Ha Hu _ _ _ _].
  destruct Hapart as [(Hh0 & Hh1 & Hh) (Hd0 & Hd1 & Hd) Hap].
  destruct (queue_places (desc v) (num v)) as (Hav & Hus & Hend); [lia|].
  unfold queue_apart in *. rewrite Hend in *.
  rewrite (complete_other w m v) by (try done; rewrite Hu, Ha; lia).
  rewrite Ha. set (A := queue_avail _ _) in *. set (U := queue_used _ _) in *.
  unfold device_writes. set (m1 := request_memory _ _ _ _ _ _ _) in *. by mem_simpl.
Qed.

Lemma idle_after img :
  queue_idle (view_after w img) memory_after (vring_after v (load_le memory_after (used v + 2) 2)).
Proof.
  pose proof ring_after. destruct Hidle as [[Hn ?] ? ? ? ? [Hpos ?] ? ?].
  split; cbn; try done.
  rewrite Hpos. split; [done|apply (wrap_range 16); lia].
Qed.

(** The data buffer and the status byte as the driver reads them. *)
Lemma buffers_after :
  load_le memory_after (hdr + 16) 1 = st mod 256 ∧
  load memory_after addr 512 = (if decide (zlen data = 512) then data else load m addr 512).
Proof.
  pose proof data_size. unfold memory_after.
  pose proof Hidle as [[_ Hn] [_ Hq] Ha Hu _ [_ ?] _ _].
  destruct Hapart as [(Hh0 & Hh1 & Hh) (Hd0 & Hd1 & Hd) Hap].
  destruct (queue_places (desc v) (num v)) as (Hav & Hus & Hend); [lia|].
  unfold queue_apart in *.
  rewrite (complete_other w m v), (complete_block w m v) by (try done; rewrite Hu; rewrite Hend in *; lia).
  unfold device_writes. rewrite load_le_store_le_same. split; [done|].
  mem_simpl. case_decide as H512; [by rewrite <-H512, load_store_same|].
  destruct Hdata as [->|]; [|done]. cbn [store].
  rewrite Hend in *. set (A := queue_avail _ _) in *. set (U := queue_used _ _) in *.
  unfold request_memory, write_desc. rewrite Ha. fold A.
  set (j := _ mod (num v - 1)). assert (0 <= j < num v - 1) by (apply Z.mod_pos_bound; lia).
  by mem_simpl.
Qed.
End one_request.

(** [elsewhere v hdr addr a n]: the [n] bytes at [a] are in none of the areas a
    request uses: the queue, the frame of the header and the status byte, the
    sector buffer. *)
Definition elsewhere (v : vring) (hdr addr a n : Z) : Prop :=
  queue_apart (desc v) (num v) a n ∧ (a + n <= hdr ∨ hdr + 32 <= a) ∧ (a + n <= addr ∨ addr + 512 <= a).

Lemma memory_after_elsewhere w m v op flags sector hdr addr data st len a n :
  queue_idle w m v → buffers_apart v hdr addr → data = [] ∨ zlen data = 512 →
  elsewhere v hdr addr a n →
  load (memory_after w m v op flags sector hdr addr data st len) a n = load m a n.
Proof.
  intros Hidle [(Hh0 & Hh1 & Hh) (Hd0 & Hd1 & Hd) Hap] Hdata (Hq' & Hah & Had).
  assert (0 <= zlen data <= 512) as Hz by (by apply data_size).
  pose proof Hidle as [[_ Hn] [_ Hq] Ha Hu _ [_ Hpos] _ _].
  destruct (queue_places (desc v) (num v)) as (Hav & Hus & Hend); [lia|].
  unfold queue_apart in *. unfold memory_after.
  rewrite (complete_block w m v) by (try done; rewrite Hu; rewrite Hend in *; lia).
  rewrite Hend in *. unfold device_writes. mem_simpl.
  set (A := queue_avail _ _) in *. set (U := queue_used _ _) in *.
  unfold request_memory, write_desc. rewrite Ha. fold A.
  set (j := _ mod (num v - 1)). assert (0 <= j < num v - 1) by (apply Z.mod_pos_bound; lia).
  by mem_simpl.
Qed.

Lemma request_memory_data w m v op flags sector hdr addr :
  queue_idle w m v → buffers_apart v hdr addr →
  load (request_memory m v op flags sector hdr addr) addr 512 = load m addr 512.
Proof.
  intros [[_ Hn] [_ Hq] Ha _ _ [_ Hpos] _ _] [(Hh0 & Hh1 & Hh) (Hd0 & Hd1 & Hd) Hap].
  destruct (queue_places (desc v) (num v)) as (Hav & Hus & Hend); [lia|].
  unfold queue_apart in *. rewrite Hend in *.
  set (A := queue_avail _ _) in *. set (U := queue_used _ _) in *.
  unfold request_memory, write_desc. rewrite Ha. fold A.
  set (j := _ mod (num v - 1)). assert (0 <= j < num v - 1) by (apply Z.mod_pos_bound; lia).
  by mem_simpl.
Qed.

Section request.
Context {D : Type} `{!Platform D} `{!VirtioBlk D}.
Context (s0 : machine D) (drv : virtio_driver) (vr0 : vring).
Hypothesis Hdrv : virtio_drivers s0 !! BLK_DRIVER = Some drv.
Hypothesis Hvr : vrings drv !! 0%nat = Some vr0.
Abbreviation st := (QueueState.st BLK_DRIVER 0 s0 drv).

Lemma next_idx_differs m a : u16 (load_le m a 2 + 1) ≠ load_le m a 2.
Proof. pose proof (load_le_range m a 2). unfold wrap. zlia. Qed.

Lemma next_after_small v k :
  descr_next (bookeeping v) = k → 0 <= k → k + 1 < num v - 1 → next_after v = k + 1.
Proof. intros <- ? ?. apply Z.mod_small. lia. Qed.

(** What one request returns and leaves behind. *)
Definition request_outcome (w : blk_view) (m : memory) (op sector addr : Z)
    (status : Z) (img : list byte) (m' : memory) : Prop :=
  if decide (512 * sector + 512 <= zlen (bv_image w)) then
    status = 0 ∧
    if op =? 0 then img = bv_image w ∧ load m' addr 512 = slice (bv_image w) (512 * sector) 512
    else img = splice (bv_image w) (512 * sector) (load m addr 512)
  else img = bv_image w ∧ status ≠ 0.

(** The code up to the status byte, when the device takes [k + 1] steps to
    change the used index. *)
Lemma sector_request_run m d v p op flags sector addr k m2 d2 :
  let hdr := p - 32 in let m1 := request_memory m v op flags sector hdr addr in
  queue_idle (view d) m v → host drv = bv_host (view d) → buffers_apart v hdr addr →
  (op = 0 ∧ flags = 2) ∨ (op = 1 ∧ flags = 0) →
  (k <= patience)%nat →
  (∀ i, (1 <= i <= k)%nat → load_le (after i (mmio_store (bv_host (view d) + 16) 2 0 d) m1).2 (used v + 2) 2
                            = load_le m1 (used v + 2) 2) →
  after (S k) (mmio_store (bv_host (view d) + 16) 2 0 d) m1 = (d2, m2) →
  load_le m2 (used v + 2) 2 = u16 (load_le m (used v + 2) 2 + 1) →
  sector_request op flags BLK_DRIVER sector addr (st m d v p)
  = (Done (load_le m2 (hdr + 16) 1), st m2 d2 (vring_after v (load_le m2 (used v + 2) 2)) p).
Proof.
  intros hdr m1 Hidle Hhost Hapart Hop Hk Hsame Hafter Hidx.
  pose proof Hidle as [[Hnw Hn] [Hqw _] _ Hu Hnext _ Hused _].
  unfold sector_request, sector_frame. apply (with_frame_st BLK_DRIVER 0 s0 drv). fold hdr.
  cbn zeta. layout. change (sizeof virtio_blk_req_hdr) with 16. rewrite Z.add_0_r.
  unfold status_slot, VIRTIO_BLK_SIZE, VRING_DESCR_WRITABLE, vring_use_descr.
  do 3 (run_with (store_mem_st BLK_DRIVER 0 s0 drv _ _ _ _ _ _ _)).
  rewrite bind_assoc. run_with (get_vring_st BLK_DRIVER 0 s0 drv vr0 Hdrv Hvr _ _ _ _). run.
  rewrite Hnext.
  erewrite bind_done by (apply (add_to_descr_st BLK_DRIVER 0 s0 drv vr0 Hdrv Hvr); lia).
  rewrite (next_after_small v 0) by lia.
  erewrite bind_done by (apply (add_to_descr_st BLK_DRIVER 0 s0 drv vr0 Hdrv Hvr); cbn; lia).
  rewrite (next_after_small _ 1) by (cbn; lia).
  erewrite bind_done by (apply (add_to_descr_st BLK_DRIVER 0 s0 drv vr0 Hdrv Hvr); cbn; lia).
  erewrite bind_done by (apply (post_descr_st BLK_DRIVER 0 s0 drv vr0 Hdrv Hvr); cbn; lia).
  erewrite bind_done by (apply (signal_st BLK_DRIVER 0 s0 drv Hdrv)).
  cbn [num desc avail used bookeeping avail_next with_next set_bookeeping set_descr_next].
  rewrite Hhost. replace (store_le (store_le _ _ 2 0) _ 2 _) with m1.
  2: { unfold m1, request_memory. rewrite Z.mul_0_r, Z.add_0_r. by destruct Hop as [[-> ->]|[-> ->]]. }
  assert (load_le m1 (used v + 2) 2 = used_last (bookeeping v)) as Hold
    by (rewrite Hused; by eapply request_memory_used).
  erewrite bind_done.
  2: { apply (wait_completion_st BLK_DRIVER 0 s0 drv vr0 Hdrv Hvr k); [done|..]; cbn [used bookeeping used_last
         with_avail with_next set_bookeeping set_descr_next set_avail_next].
       - intros i Hi. rewrite <-Hold. by apply Hsame.
       - rewrite Hafter. cbn [snd]. rewrite Hidx, Hused. apply next_idx_differs. }
  rewrite Hafter. cbn [fst snd].
  unfold vring_unuse_descr. rewrite bind_assoc. run_with (get_vring_st BLK_DRIVER 0 s0 drv vr0 Hdrv Hvr _ _ _ _).
  rewrite bind_assoc. run_with (put_vring_st BLK_DRIVER 0 s0 drv vr0 Hdrv Hvr _ _ _ _ _). run.
  by rewrite load_mem_st.
Qed.

Lemma sector_request_spec m d v p op flags sector addr :
  queue_idle (view d) m v → host drv = bv_host (view d) →
  buffers_apart v (p - 32) addr → 0 <= sector < 2 ^ 64 →
  (op = 0 ∧ flags = 2) ∨ (op = 1 ∧ flags = 0) →
  ∃ status m' d' img id, let v' := vring_after v id in
    sector_request op flags BLK_DRIVER sector addr (st m d v p) = (Done status, st m' d' v' p) ∧
    queue_idle (view d') m' v' ∧ view d' = view_after (view d) img ∧
    request_outcome (view d) m op sector addr status img m' ∧ after_request d d' ∧
    ∀ a n, elsewhere v (p - 32) addr a n → load m' a n = load m a n.
Proof.
  intros Hidle Hhost Hapart Hsec Hop. set (hdr := p - 32) in *.
  pose proof Hidle as [[Hnw _] [Hqw _] _ Hu _ _ _ _].
  set (m1 := request_memory m v op flags sector hdr addr).
  destruct (serves d m1 op sector hdr addr (hdr + 16) 0) as (k & d2 & m2 & img & Hk & Hsame & Hiter & Hserved & Hview);
    [by apply request_memory_posted|].
  destruct (served_form _ _ _ _ _ _ _ _ _ Hserved) as (data & status & len & Hm2 & Hdata & Hout); [lia|lia|].
  change (m2 = memory_after (view d) m v op flags sector hdr addr data status len) in Hm2.
  pose proof (used_idx_after (view d) m v op flags sector hdr addr Hidle Hapart data status len Hdata) as Hidx.
  destruct (buffers_after (view d) m v op flags sector hdr addr Hidle Hapart data status len Hdata) as [Hst Hbuf].
  pose proof (idle_after (view d) m v op flags sector hdr addr Hidle Hapart data status len Hdata img) as Hidle2.
  rewrite <-Hm2 in Hidx, Hst, Hbuf, Hidle2. rewrite <-Hnw, <-Hqw, <-Hu in Hsame.
  exists (status mod 256), m2, d2, img, (load_le m2 (used v + 2) 2).
  split_and!; [|by rewrite Hview|done| | |intros; rewrite Hm2; by apply memory_after_elsewhere].
  - rewrite <-Hst. by apply (sector_request_run m d v p op flags sector addr k).
  - unfold request_outcome. revert Hout. destruct (decide (_ <= _)) as [Hin|Hin].
    + destruct (op =? 0); intros [-> Hout]; (split; [done|]); destruct Hout as [-> Hd].
      * split; [done|]. rewrite Hd in Hbuf. rewrite Hbuf, decide_True; [done|]. apply zlen_slice; lia.
      * unfold m1. by rewrite (request_memory_data (view d)).
    + intros (-> & Hst' & _). done.
  - exists m1, op, sector, hdr, addr, (hdr + 16), 0, (S k). split; [by apply request_memory_posted|].
    by rewrite Hiter.
Qed.
End request.

(** ** The machine is a block device *)

Lemma queue_idle_store w m v a bs :
  queue_idle w m v → queue_apart (desc v) (num v) a (zlen bs) → queue_idle w (store m a bs) v.
Proof.
  intros [? [Hq ?] Ha Hu ? [? ?] Hlast Hring] Hap.
  destruct (queue_places (desc v) (num v)) as (Hav & Hus & Hend); [lia|].
  unfold queue_apart in Hap. rewrite Hend in Hap.
  split; try done; try (intros i Hi).
  - rewrite Hlast, Hu. set (A := queue_avail _ _) in *. set (U := queue_used _ _) in *. by mem_simpl.
  - rewrite <-(Hring i Hi), Ha. set (A := queue_avail _ _) in *. set (U := queue_used _ _) in *.
    by mem_simpl.
Qed.

Section instance.
Context {D : Type} `{!Platform D} `{!VirtioBlk D}.

Record machine_ready (s : machine D) (drv : virtio_driver) (v : vring) : Prop := {
  ready_drv : virtio_drivers s !! BLK_DRIVER = Some drv;
  ready_vr : vrings drv !! 0%nat = Some v;
  ready_host : host drv = bv_host (view (dev s)) ∧ initialized drv = true;
  ready_image : zlen (bv_image (view (dev s))) mod 512 = 0 ∧ zlen (bv_image (view (dev s))) <= 2 ^ 64;
  ready_queue : queue_idle (view (dev s)) (mem s) v;
  ready_stack : 1024 <= sp s <= 2 ^ 64 ∧ queue_apart (desc v) (num v) (sp s - 1024) 1024;
}.

Definition blk_ready (s : machine D) : Prop := ∃ drv v, machine_ready s drv v.

Lemma ready_st (s0 : machine D) drv v0 m d v :
  machine_ready s0 drv v0 → host drv = bv_host (view d) → queue_idle (view d) m v →
  desc v = desc v0 → num v = num v0 → zlen (bv_image (view d)) = zlen (bv_image (view (dev s0))) →
  blk_ready (st BLK_DRIVER 0 s0 drv m d v (sp s0)).
Proof.
  intros [Hdrv Hvr [_ Hini] Him _ Hstk] Hh Hq Hd Hn Hz. exists (drv_with 0 drv v), v.
  split; cbn; [| |done|by rewrite Hz|done|by rewrite Hd, Hn].
  - apply list_lookup_insert_eq. by apply lookup_lt_Some in Hdrv.
  - apply list_lookup_insert_eq. by apply lookup_lt_Some in Hvr.
Qed.

(** A sector operation with the sector buffer in a frame of its own:
    [request_result] is what either operation returns and leaves behind. *)
Definition request_result (s : machine D) (op sector : Z) (blk : list byte)
    (status : Z) (data : list byte) (s' : machine D) : Prop :=
  let img := bv_image (view (dev s)) in
  blk_ready s' ∧
  if decide (512 * sector + 512 <= zlen img) then
    status = 0 ∧
    if op =? 0 then bv_image (view (dev s')) = img ∧ data = slice img (512 * sector) 512
    else bv_image (view (dev s')) = splice img (512 * sector) blk
  else bv_image (view (dev s')) = img ∧ status ≠ 0.

(** What a request leaves alone. *)
Definition disk_beside (s s' : machine D) : Prop :=
  sp s' = sp s ∧ the_heap s' = the_heap s ∧
  (∀ k, k ≠ BLK_DRIVER → virtio_drivers s' !! k = virtio_drivers s !! k) ∧
  after_request (dev s) (dev s') ∧ view (dev s') ≠ view (dev s) ∧
  ∀ drv v, virtio_drivers s !! BLK_DRIVER = Some drv → vrings drv !! 0%nat = Some v →
    (∃ drv' v', virtio_drivers s' !! BLK_DRIVER = Some drv' ∧ vrings drv' !! 0%nat = Some v' ∧
       desc v' = desc v ∧ num v' = num v) ∧
    ∀ a n, queue_apart (desc v) (num v) a n → a + n <= sp s - 1024 ∨ sp s <= a →
      load (mem s') a n = load (mem s) a n.

Lemma framed_request (s : machine D) op flags sector blk :
  blk_ready s → zlen blk = 512 → 0 <= sector < 2 ^ 64 →
  (op = 0 ∧ flags = 2) ∨ (op = 1 ∧ flags = 0) →
  ∃ s0 drv v m' d' v' status,
    let addr := sp s - 512 in
    let s' := st BLK_DRIVER 0 s0 drv m' d' v' (sp s) in
    s = st BLK_DRIVER 0 s0 drv (mem s) (dev s) v (sp s) ∧
    sector_request op flags BLK_DRIVER sector addr (st BLK_DRIVER 0 s0 drv (store (mem s) addr blk) (dev s) v addr)
    = (Done status, st BLK_DRIVER 0 s0 drv m' d' v' addr) ∧
    request_result s op sector blk status (load m' addr 512) s' ∧ disk_beside s s'.
Proof.
  intros (drv & v & Hready) Hblk Hsec Hop. pose proof Hready as [Hdrv Hvr [Hhost _] [Him Him'] Hq [Hsp Hstk]].
  set (addr := sp s - 512).
  assert (queue_apart (desc v) (num v) addr 512 ∧ queue_apart (desc v) (num v) (addr - 32) 32)
    as [Hap1 Hap2] by (unfold queue_apart, addr in *; lia).
  destruct (sector_request_spec s drv v Hdrv Hvr (store (mem s) addr blk) (dev s) v addr op flags sector addr)
    as (status & m' & d' & img & id & Hrun & Hq' & Hview & Hout & Hafter & Helse); [|done| |done|done|].
  { apply queue_idle_store; [done|]. by rewrite Hblk. }
  { split; unfold addr in *; try lia; split_and!; try lia; done. }
  exists s, drv, v, m', d', (vring_after v id), status. split; [by apply st_init|]. split; [done|].
  pose proof (load_store_same (mem s) addr blk) as Hl. rewrite Hblk in Hl.
  unfold request_outcome in Hout. rewrite Hl in Hout.
  split; [split; [|cbn [dev QueueState.st]; rewrite Hview; exact Hout]|].
  2: { split_and!; try done.
    - intros k Hk. cbn. by rewrite list_lookup_insert_ne.
    - cbn [dev QueueState.st]. rewrite Hview. intros Heq. apply (f_equal bv_last_avail) in Heq. cbn in Heq. revert Heq.
      unfold wrap. destruct (idle_pos _ _ _ Hq). zlia.
    - intros drv1 v1 Hdrv1 Hv1. rewrite Hdrv in Hdrv1. injection Hdrv1 as <-. rewrite Hvr in Hv1. injection Hv1 as <-.
      split; [eexists _, _; split_and!; [cbn; apply list_lookup_insert_eq; by apply lookup_lt_Some in Hdrv
        |cbn; apply list_lookup_insert_eq; by apply lookup_lt_Some in Hvr|done|done]|].
      intros a n Ha Hfr. cbn [mem QueueState.st]. rewrite Helse by (unfold elsewhere; split_and!; (done || (unfold addr; lia))).
      apply load_store_other. unfold addr. lia. }
  apply (ready_st s drv v); try done; rewrite Hview; [done|]. cbn [bv_image view_after].
  destruct (decide (_ <= _)); [destruct (op =? 0)|]; destruct Hout as [? Hout]; try by subst.
  - destruct Hout as [-> _]. done.
  - rewrite Hout. apply zlen_splice; lia.
Qed.

Lemma framed_read (s : machine D) sector blk :
  blk_ready s → zlen blk = 512 → 0 <= sector < 2 ^ 64 →
  ∃ status data s', read_sector sector blk s = (Done (status, data), s') ∧
    request_result s 0 sector blk status data s' ∧ disk_beside s s'.
Proof.
  intros Hr Hblk Hsec.
  destruct (framed_request s 0 2 sector blk Hr Hblk Hsec) as (s0 & drv & v & m' & d' & v' & status & Hst & Hrun & Hres);
    [by left|].
  do 3 eexists. split; [|exact Hres].
  etransitivity; [exact (f_equal (read_sector sector blk) Hst)|].
  apply (with_frame_st BLK_DRIVER 0 s0 drv). run. by run_with Hrun.
Qed.

Lemma framed_write (s : machine D) sector blk :
  blk_ready s → zlen blk = 512 → 0 <= sector < 2 ^ 64 →
  ∃ status data s', write_sector sector blk s = (Done status, s') ∧
    request_result s 1 sector blk status data s' ∧ disk_beside s s'.
Proof.
  intros Hr Hblk Hsec.
  destruct (framed_request s 1 0 sector blk Hr Hblk Hsec) as (s0 & drv & v & m' & d' & v' & status & Hst & Hrun & Hres);
    [by right|].
  do 3 eexists. split; [|exact Hres].
  etransitivity; [exact (f_equal (write_sector sector blk) Hst)|].
  apply (with_frame_st BLK_DRIVER 0 s0 drv). run. exact Hrun.
Qed.

#[export, refine] Instance machine_blk_spec : BlkSpec (machine D) :=
  {| ready := blk_ready; image s := bv_image (view (dev s)) |}.
Proof.
  - by intros s (drv & v & [_ _ _ [? ?] _ _]).
  - by intros s (drv & v & [_ _ _ [? ?] _ _]).
  - intros s sector blk Hr Hblk Hs Hin. pose proof Hr as (? & ? & [_ _ _ [_ Himg] _ _]).
    destruct (framed_read s sector blk) as (st & data & s' & Hrun & (Hr' & Hout) & _); [done..|lia|].
    rewrite decide_True in Hout by done. destruct Hout as (-> & Him & ->). by exists s'.
  - intros s sector blk Hr Hblk Hs Hout.
    destruct (framed_read s sector blk) as (st & data & s' & Hrun & (Hr' & Hres) & _); [done..|lia|].
    rewrite decide_False in Hres by lia. destruct Hres. by exists st, data, s'.
  - intros s sector blk Hr Hblk Hs Hin. pose proof Hr as (? & ? & [_ _ _ [_ Himg] _ _]).
    destruct (framed_write s sector blk) as (st & data & s' & Hrun & (Hr' & Hout) & _); [done..|lia|].
    rewrite decide_True in Hout by done. destruct Hout as (-> & Him). by exists s'.
Defined.
End instance.
