(* ===== verification/Chain.v ===== *)
(** * Requests of one descriptor (src/io.c, src/virtio.c)

    The console output and the randomness request are chains of a single
    descriptor.  [VirtioChain] is what a virtio device does with such a chain,
    as the VIRTIO specification states it; the lemma [chain_spec] is the
    driver's half, for any driver of the table. *)

From S2P Require Import Prelude Layout Ecall Memory Machine Vring QueueState Blk BlkVring.

(** A chain of one descriptor as the device finds it.  [flags] is 2 when the
    device is to write the buffer and 0 when it is to read it. *)
Record one_posted (w : blk_view) (m : memory) (head buf len flags : Z) : Prop := {
  one_idx : load_le m (queue_avail (bv_queue w) (bv_num w) + 2) 2 = u16 (bv_last_avail w + 1);
  one_head : load_le m (queue_avail (bv_queue w) (bv_num w) + 4 + 2 * (bv_last_avail w mod bv_num w)) 2 = head;
  one_desc : desc_is m (bv_queue w) head buf len flags 0;
  one_flags : flags = 0 ∨ flags = 2;
}.

(** [side host q d]: queue [q] of the device whose registers are at [host];
    its content is what the device has read from its chains so far (for the
    console, the characters on the line).  [has_queue]: there is such a queue,
    and the device is idle.  [answer host q d len]: what the device has to say
    to a request for [len] bytes; it may be shorter. A request on one queue leaves the
    other queues alone. *)
Class VirtioChain (D : Type) `{!Platform D} `{!VirtioBlk D} := {
  side : Z → Z → D → blk_view;
  has_queue : Z → Z → D → Prop;
  answer : Z → Z → D → Z → list byte;
  others_kept (host q : Z) (d d' : D) : Prop := ∀ host' q', (host', q') ≠ (host, q) →
    has_queue host' q' d → side host' q' d' = side host' q' d ∧ has_queue host' q' d';
  serves_one d m host q head buf len flags :
    let w := side host q d in
    let d0 := mmio_store (host + 16) 2 q d in
    has_queue host q d → one_posted w m head buf len flags →
    ∃ k d' m' data,
      (k <= patience)%nat ∧
      (∀ j, (1 <= j <= k)%nat →
         load_le (Nat.iter j (λ '(d, m), dma_step d m) (d0, m)).2
           (queue_used (bv_queue w) (bv_num w) + 2) 2
         = load_le m (queue_used (bv_queue w) (bv_num w) + 2) 2) ∧
      Nat.iter (S k) (λ '(d, m), dma_step d m) (d0, m) = (d', m') ∧
      zlen data <= len ∧ data = (if flags =? 0 then [] else answer host q d len) ∧
      m' = complete w (store m buf data) head (zlen data) ∧
      has_queue host q d' ∧ view d' = view d ∧
      side host q d' = view_after w (bv_image w ++ if flags =? 0 then load m buf len else []) ∧
      others_kept host q d d';
  (** When the disk has served a request, the other queues are as they were. *)
  serves_beside d m op sector hdr data status head k :
    let d0 := mmio_store (bv_host (view d) + 16) 2 0 d in
    let d' := (Nat.iter k (λ '(d, m), dma_step d m) (d0, m)).1 in
    request_posted (view d) m op sector hdr data status head → view d' ≠ view d →
    ∀ host q, has_queue host q d → side host q d' = side host q d ∧ has_queue host q d';
}.

(** The memory the driver hands over. *)
Definition one_memory (m : memory) (v : vring) (buf len flags : Z) : memory :=
  store_le (store_le (write_desc m (desc v) buf len 0 flags flags)
    (avail v + 4 + 2 * (avail_next (bookeeping v) mod (num v - 1))) 2 0)
    (avail v + 2) 2 (u16 (avail_next (bookeeping v) + 1)).

Section one_memory.
Context (w : blk_view) (m : memory) (v : vring) (buf len flags : Z).
Hypothesis Hidle : queue_idle w m v.
Hypothesis Hbuf : 0 <= buf < 2 ^ 64 ∧ buf + len <= 2 ^ 64 ∧ 0 <= len < 2 ^ 32 ∧ queue_apart (desc v) (num v) buf len.
Hypothesis Hflags : flags = 0 ∨ flags = 2.

(** Everything about the places of the rings and the slot, for [mem_simpl]. *)
Ltac places :=
  destruct Hidle as [[Hnw Hn] [Hqw Hq] Ha Hu _ [Hlast Hpos] _ Hring];
  destruct Hbuf as (Hb0 & Hb1 & Hlen & Hap);
  destruct (queue_places (desc v) (num v)) as (Hav & Hus & Hend); [lia|];
  unfold queue_apart in *; rewrite Hend in *; unfold one_memory, write_desc; rewrite Ha; rewrite ?Hu;
  set (A := queue_avail (desc v) (num v)) in *; set (U := queue_used (desc v) (num v)) in *;
  set (j := avail_next (bookeeping v) mod (num v - 1));
  assert (0 <= j < num v - 1) by (apply Z.mod_pos_bound; lia).

Lemma one_memory_ring i :
  0 <= i < num v → load_le (one_memory m v buf len flags) (avail v + 4 + 2 * i) 2 = 0.
Proof.
  intros Hi. places. rewrite Ha in Hring. fold A in Hring.
  destruct (decide (i = j)) as [->|Hij]; mem_simpl; [done|]. apply Hring. lia.
Qed.

Lemma one_memory_posted : one_posted w (one_memory m v buf len flags) 0 buf len flags.
Proof.
  assert (load_le (one_memory m v buf len flags)
    (queue_avail (bv_queue w) (bv_num w) + 4 + 2 * (bv_last_avail w mod bv_num w)) 2 = 0) as Hhead.
  { pose proof Hidle as [[Hn ?] [Hq _] Ha _ _ _ _ _]. rewrite <-Hq, <-Hn, <-Ha.
    apply one_memory_ring, Z.mod_pos_bound. lia. }
  split; [|done| |done].
  - places. rewrite <-Hqw, <-Hnw, <-Hlast. fold A. mem_simpl.
    rewrite (Z.mod_small (u16 _)); [done|]. apply (wrap_range 16); lia.
  - places. rewrite <-Hqw. unfold desc_is. rewrite Z.mul_0_r, Z.add_0_r.
    split_and!; mem_simpl; by rewrite Z.mod_small by lia.
Qed.

Lemma one_memory_used : load_le (one_memory m v buf len flags) (used v + 2) 2 = load_le m (used v + 2) 2.
Proof. places. by mem_simpl. Qed.

Lemma one_memory_elsewhere a n :
  queue_apart (desc v) (num v) a n → load (one_memory m v buf len flags) a n = load m a n.
Proof. intros Hout. places. by mem_simpl. Qed.

(** After the device has stored [data] and completed the chain. *)
Context (data : list byte).
Hypothesis Hdata : zlen data <= len.

Definition one_after : memory := complete w (store (one_memory m v buf len flags) buf data) 0 (zlen data).

Lemma one_after_idx : load_le one_after (used v + 2) 2 = u16 (load_le m (used v + 2) 2 + 1).
Proof.
  unfold one_after. rewrite (complete_idx w m) by done. do 2 f_equal. rewrite <-one_memory_used.
  set (m1 := one_memory _ _ _ _ _). pose proof (zlen_nonneg data).
  destruct Hidle as [[_ Hn] [_ Hq] _ Hu _ _ _ _]. destruct Hbuf as (? & ? & ? & Hap).
  destruct (queue_places (desc v) (num v)) as (Hav & Hus & Hend); [lia|].
  unfold queue_apart in *. rewrite Hend in *. rewrite Hu. by mem_simpl.
Qed.

Lemma one_after_idle img :
  queue_idle (view_after w img) one_after (vring_after v (load_le one_after (used v + 2) 2)).
Proof.
  assert (∀ i, 0 <= i < num v → load_le one_after (avail v + 4 + 2 * i) 2 = 0) as Hring.
  { intros i Hi. rewrite <-(one_memory_ring i) by done. unfold one_after.
    set (m1 := one_memory _ _ _ _ _). pose proof (zlen_nonneg data).
    pose proof Hidle as [[_ Hn] [_ Hq] Ha Hu _ _ _ _]. destruct Hbuf as (? & ? & ? & Hap).
    destruct (queue_places (desc v) (num v)) as (Hav & Hus & Hend); [lia|].
    unfold queue_apart in *. rewrite Hend in *.
    rewrite (complete_other w m v) by (try done; rewrite Hu, Ha; lia). rewrite Ha. by mem_simpl. }
  destruct Hidle as [[Hn ?] ? ? ? ? [Hpos ?] ? ?]. split; cbn; try done.
  rewrite Hpos. split; [done|apply (wrap_range 16); lia].
Qed.

Lemma load_complete a n :
  queue_apart (desc v) (num v) a n → ∀ m', load (complete w m' 0 (zlen data)) a n = load m' a n.
Proof.
  intros Hout m'. apply (complete_block w m v); [done|].
  destruct Hidle as [[_ Hn] _ _ Hu _ _ _ _]. destruct (queue_places (desc v) (num v)) as (Hav & Hus & Hend); [lia|].
  unfold queue_apart in *. lia.
Qed.

Lemma one_after_buffer : load one_after buf len = splice (load m buf len) 0 data.
Proof.
  destruct Hbuf as (? & ? & ? & Hap). unfold one_after. rewrite load_complete by done.
  rewrite <-(one_memory_elsewhere buf len Hap). by apply load_store_front.
Qed.

Lemma one_after_elsewhere a n :
  queue_apart (desc v) (num v) a n → a + n <= buf ∨ buf + len <= a → load one_after a n = load m a n.
Proof.
  intros Hout Hab. unfold one_after. rewrite load_complete by done.
  rewrite load_store_other by (pose proof (zlen_nonneg data); lia). by apply one_memory_elsewhere.
Qed.
End one_memory.

(** *** The driver's half *)

Section chain.
Context {D : Type} `{!Platform D} `{!VirtioBlk D} `{!VirtioChain D}.
Context (dn qn : nat) (s0 : machine D) (drv : virtio_driver) (vr0 : vring).
Hypothesis Hdrv : virtio_drivers s0 !! dn = Some drv.
Hypothesis Hvr : vrings drv !! qn = Some vr0.
Abbreviation st := (QueueState.st dn qn s0 drv).

(** The calls that add a chain of one descriptor, post it and wait, with
    what comes after them as [k]. *)
Lemma chain_spec m d v p buf len flags {A} (k : Z → prog (machine D) A) :
  let w := side (host drv) (Z.of_nat qn) d in
  queue_idle w m v → has_queue (host drv) (Z.of_nat qn) d →
  0 <= buf < 2 ^ 64 ∧ buf + len <= 2 ^ 64 ∧ 0 <= len < 2 ^ 32 ∧ queue_apart (desc v) (num v) buf len →
  flags = 0 ∨ flags = 2 →
  ∃ m' d' data id, let v' := vring_after v id in
    (next ← vring_add_to_descr (dn, qn) buf len flags 0 true;
     vring_post_descr (dn, qn) 0;;
     signal_virtio_device dn (Z.of_nat qn);;
     vring_wait_completion (dn, qn);;
     _ ← vring_unuse_descr (dn, qn) 0;
     k next) (st m d v p) = k (next_after v) (st m' d' v' p) ∧
    let w' := side (host drv) (Z.of_nat qn) d' in
    queue_idle w' m' v' ∧ has_queue (host drv) (Z.of_nat qn) d' ∧ view d' = view d ∧
    bv_image w' = bv_image w ++ (if flags =? 0 then load m buf len else []) ∧
    zlen data <= len ∧ load m' buf len = splice (load m buf len) 0 data ∧
    data = (if flags =? 0 then [] else answer (host drv) (Z.of_nat qn) d len) ∧
    others_kept (host drv) (Z.of_nat qn) d d' ∧
    ∀ a n, queue_apart (desc v) (num v) a n → a + n <= buf ∨ buf + len <= a → load m' a n = load m a n.
Proof using Hdrv Hvr.
  intros w Hidle Hhas Hbuf Hfl. pose proof Hidle as [[Hnw Hn] [Hqw _] _ Hu _ _ Hused _].
  set (m1 := one_memory m v buf len flags).
  destruct (serves_one d m1 (host drv) (Z.of_nat qn) 0 buf len flags) as
    (n & d' & m' & data & Hk & Hsame & Hiter & Hlen & Hnil & Hm' & Hhas' & Hview & Hside & Hothers);
    [done|by apply one_memory_posted|]. fold w in Hsame, Hm', Hside.
  change (m' = one_after w m v buf len flags data) in Hm'.
  pose proof (one_after_idx w m v buf len flags Hidle Hbuf data Hlen) as Hidx. rewrite <-Hm' in Hidx.
  exists m', d', data, (load_le m' (used v + 2) 2). split.
  - erewrite bind_done by (apply (add_to_descr_st dn qn s0 drv vr0 Hdrv Hvr); lia). rewrite Z.mul_0_r, Z.add_0_r.
    erewrite bind_done by (apply (post_descr_st dn qn s0 drv vr0 Hdrv Hvr); cbn; lia).
    erewrite bind_done by (apply (signal_st dn qn s0 drv Hdrv)).
    cbn [num desc avail used bookeeping avail_next with_next set_bookeeping set_descr_next].
    replace (store_le (store_le _ _ 2 0) _ 2 _) with m1 by (by destruct Hfl as [-> | ->]).
    assert (load_le m1 (used v + 2) 2 = used_last (bookeeping v)) as Hold
      by (rewrite Hused; by eapply one_memory_used).
    rewrite <-Hnw, <-Hqw, <-Hu in Hsame.
    change (after (S n) (mmio_store (host drv + 16) 2 (Z.of_nat qn) d) m1 = (d', m')) in Hiter.
    erewrite bind_done.
    2: { apply (wait_completion_st dn qn s0 drv vr0 Hdrv Hvr n); [done|..]; cbn [used bookeeping used_last
           with_avail with_next set_bookeeping set_descr_next set_avail_next].
         - intros i Hi. rewrite <-Hold. by apply Hsame.
         - rewrite Hiter. cbn [snd]. rewrite Hidx, Hused. apply next_idx_differs. }
    rewrite Hiter. cbn [fst snd].
    unfold vring_unuse_descr. rewrite bind_assoc. run_with (get_vring_st dn qn s0 drv vr0 Hdrv Hvr _ _ _ _).
    rewrite bind_assoc. run_with (put_vring_st dn qn s0 drv vr0 Hdrv Hvr _ _ _ _ _). run. reflexivity.
  - cbn zeta. rewrite Hside. cbn [bv_image view_after].
    split; [rewrite Hm'; by apply one_after_idle|]. split_and!; try done.
    + unfold m1. rewrite (one_memory_elsewhere w) by (try done; apply Hbuf). done.
    + rewrite Hm'. by apply (one_after_buffer w).
    + intros a b Ha Hab. rewrite Hm'. by apply (one_after_elsewhere w).
Qed.
End chain.
