(* ===== verification/VirtioDriver.v ===== *)
(** * Bringing up the virtio devices (src/virtio_driver.c, src/virtio.c, src/pci.c)

    The driver table, the initialisation of a queue, and the three device
    initialisers, which configure the device through its PCI configuration
    space and its legacy register window. *)

From S2P Require Import Prelude Layout Ecall Memory Machine Heap Vring.

Definition MAX_VIRTIO_DEVICE_ID : Z := 10.
Definition VIRTIO_DEVICE_STATUS_ACK : Z := 1.
Definition VIRTIO_DEVICE_STATUS_DRIVER_KNOWS : Z := 2.
Definition VIRTIO_DEVICE_STATUS_DRIVER_OK : Z := 4.
Definition BAR0_OFFSET : Z := 16.
Definition PCI_DEVICE_STATUS_UP : Z := 7.
Definition PCI_DEVICE_STATUS_OFFSET : Z := 4.

(** What a [struct vring] fresh from [malloc] happens to hold. *)
Class StaleVring := { stale_vring : vring }.

(** [find_virtio_driver]: the index in the table, [None] for a null pointer.
    Type 10 gives the address just past the table. *)
Definition find_virtio_driver (type : Z) : option nat :=
  if (type =? 0) || (10 <? type) then None else Some (Z.to_nat type).

Section operations.
Context {D : Type} `{!Platform D} `{!Linker} `{!StaleVring}.

Definition pci_device_set_status (pci_cfg status : Z) : prog (machine D) unit :=
  store_reg (pci_cfg + PCI_DEVICE_STATUS_OFFSET) 1 PCI_DEVICE_STATUS_UP.

Definition pci_device_set_bar (pci_cfg which value : Z) : prog (machine D) unit :=
  store_reg (pci_cfg + (BAR0_OFFSET + which * 4)) 4 value.

(** The address arithmetic of [vring_init]: where the three areas of a queue
    of [qsz] entries start. *)
Definition vring_place (desc qsz : Z) : Z * Z :=
  let avail := u64 (desc + virtq_descr_size qsz) in
  (avail, ALIGN_UP 64 (u64 (avail + virtq_avail_size qsz)) 4096).

Definition vring_init (r : vring_ref) (qsz : Z) : prog (machine D) unit :=
  let memsize := virtq_size (u32 qsz) in
  vring_shared_space ← forever_alloc_aligned memsize 4096;
  v ← get_vring r;
  let '(avail, used) := vring_place vring_shared_space (u32 qsz) in
  store_mem (avail + offsetof vring_avail "flags") 2 1;;
  put_vring r
    {| num := v.(num); size := memsize; bouncebufs := 0;
       bookeeping :=
         {| used_last := 0; avail_next := 0; avail_avail := u16 qsz; used_avail := u16 qsz;
            descr_head := v.(bookeeping).(descr_head); descr_next := 0 |};
       desc := vring_shared_space; avail := avail; used := used |}.

Definition upd_driver (i : nat) (f : virtio_driver → virtio_driver) : prog (machine D) unit :=
  d ← get_driver i; put_driver i (f d).

Definition set_place host pci conf (d : virtio_driver) :=
  {| device_id := d.(device_id); initialized := d.(initialized); init_f := d.(init_f);
     host := host; pci := pci; conf := conf; vrings := d.(vrings) |}.
Definition set_initialized (d : virtio_driver) :=
  {| device_id := d.(device_id); initialized := true; init_f := d.(init_f);
     host := d.(host); pci := d.(pci); conf := d.(conf); vrings := d.(vrings) |}.

Definition set_num n (v : vring) :=
  {| num := n; size := v.(size); bouncebufs := v.(bouncebufs); bookeeping := v.(bookeeping);
     desc := v.(desc); avail := v.(avail); used := v.(used) |}.
Definition vring_set_num (r : vring_ref) (n : Z) : prog (machine D) unit :=
  v ← get_vring r; put_vring r (set_num n v).

(** What the three initialisers do first. *)
Definition init_device (driver : nat) (pci_device host pci : Z) : prog (machine D) unit :=
  upd_driver driver (set_place host pci pci_device);;
  pci_device_set_bar pci_device 0 pci;;
  pci_device_set_bar pci_device 1 (2 ^ 32 - 1);;
  pci_device_set_status pci_device PCI_DEVICE_STATUS_UP;;
  virtio_device_set_status host VIRTIO_DEVICE_STATUS_ACK.

(** And last. *)
Definition device_up (driver : nat) (host : Z) : prog (machine D) bool :=
  virtio_device_set_status host
    (Z.lor VIRTIO_DEVICE_STATUS_DRIVER_KNOWS VIRTIO_DEVICE_STATUS_DRIVER_OK);;
  upd_driver driver set_initialized;;
  mret true.

Definition init_entropy_virtio (driver : nat) (pci_device host pci : Z) : prog (machine D) bool :=
  init_device driver pci_device host pci;;
  virtio_device_queue_select host 0;;
  virtio_q_len ← virtio_device_queue_size_read host;
  _ ← malloc sizeof_struct_vring;
  upd_driver driver (set_vrings [stale_vring]);;
  vring_init (driver, 0%nat) virtio_q_len;;
  vring_set_num (driver, 0%nat) virtio_q_len;;
  v ← get_vring (driver, 0%nat);
  virtio_device_queue_desc_write host v.(desc);;
  device_up driver host.

(** The queue is laid out for 256 entries whatever the device's size is. *)
Definition init_blk_virtio (driver : nat) (pci_device host pci : Z) : prog (machine D) bool :=
  init_device driver pci_device host pci;;
  _ ← load_reg (host + 0) 4;
  store_reg (host + 4) 4 0;;
  virtio_device_queue_select host 0;;
  virtio_q_len ← virtio_device_queue_size_read host;
  eprint_msg "Found block device with queue size: ";;
  eprint_num virtio_q_len;;
  eprint 10;;
  _ ← malloc sizeof_struct_vring;
  upd_driver driver (set_vrings [stale_vring]);;
  vring_init (driver, 0%nat) 256;;
  vring_set_num (driver, 0%nat) virtio_q_len;;
  v ← get_vring (driver, 0%nat);
  virtio_device_queue_desc_write host v.(desc);;
  device_up driver host.

Definition init_console_virtio (driver : nat) (pci_device host pci : Z) : prog (machine D) bool :=
  init_device driver pci_device host pci;;
  virtio_device_queue_select host 0;;
  virtio_q_len ← virtio_device_queue_size_read host;
  _ ← malloc (sizeof_struct_vring * 2);
  upd_driver driver (set_vrings [stale_vring; stale_vring]);;
  vring_init (driver, 0%nat) virtio_q_len;;
  vring_init (driver, 1%nat) virtio_q_len;;
  vring_set_num (driver, 0%nat) virtio_q_len;;
  vring_set_num (driver, 1%nat) virtio_q_len;;
  v0 ← get_vring (driver, 0%nat);
  virtio_device_queue_desc_write host v0.(desc);;
  virtio_device_queue_select host 1;;
  virtio_q_len ← virtio_device_queue_size_read host;
  v1 ← get_vring (driver, 1%nat);
  virtio_device_queue_desc_write host v1.(desc);;
  device_up driver host.

(** Calling a driver's [init_f]; a null pointer is undefined. *)
Definition call_init (driver : nat) (pci_device host pci : Z) : prog (machine D) bool :=
  d ← get_driver driver;
  match d.(init_f) with
  | Some init_entropy_virtio_f => init_entropy_virtio driver pci_device host pci
  | Some init_console_virtio_f => init_console_virtio driver pci_device host pci
  | Some init_blk_virtio_f => init_blk_virtio driver pci_device host pci
  | None => stop Undefined
  end.

(** *** Randomness *)

Definition CHUNK_SIZE : Z := 8.

(** [DEMANDOS_INTERNAL(memcpy)]: what it puts at its destination, byte by
    byte. *)
Fixpoint internal_memcpy (amt : nat) (src : Z) : prog (machine D) (list byte) :=
  match amt with
  | O => mret []
  | S amt =>
      b ← gets (λ s, load s.(mem) src 1);
      rest ← internal_memcpy amt (src + 1);
      mret (b ++ rest)
  end.

(** The loop of [virtio_get_randomness] from [filled] on; [buf] is the
    address of the chunk the device fills, [out] the bytes delivered so
    far to the caller's buffer. *)
Fixpoint randomness_loop (fuel : nat) (driver : nat) (buf length filled next : Z) (out : list byte)
    : prog (machine D) (list byte) :=
  if filled <? length then
    match fuel with
    | O => stop Hang
    | S fuel =>
        let just_used := next in
        next ← vring_add_to_descr (driver, 0%nat) buf CHUNK_SIZE 2 next true;
        vring_post_descr (driver, 0%nat) just_used;;
        signal_virtio_device driver 0;;
        vring_wait_completion (driver, 0%nat);;
        _ ← vring_unuse_descr (driver, 0%nat) just_used;
        let amt_to_copy := if u64 (length - filled) <? CHUNK_SIZE then u64 (length - filled) else CHUNK_SIZE in
        chunk ← internal_memcpy (Z.to_nat amt_to_copy) buf;
        randomness_loop fuel driver buf length (u64 (filled + CHUNK_SIZE)) next (out ++ chunk)
    end
  else mret out.

Lemma internal_memcpy_loads n src (s : machine D) :
  0 <= n → internal_memcpy (Z.to_nat n) src s = (Done (load (mem s) src n), s).
Proof.
  intros Hn. rewrite <-(Z2Nat.id n Hn) at 2. generalize (Z.to_nat n) as k. clear n Hn. intros k. revert src.
  induction k as [|k IH]; intros src; [done|]. cbn [internal_memcpy]. run. run_with (IH (src + 1)).
  by rewrite Nat2Z.inj_succ, <-Z.add_1_l, load_app by lia.
Qed.

(** The result and the bytes written to the front of the caller's buffer. *)
Definition virtio_get_randomness (length : Z) : prog (machine D) (Z * list byte) :=
  match find_virtio_driver 5 with
  | None => mret (2 ^ 64 - 1, [])
  | Some driver =>
      d ← get_driver driver;
      if negb d.(initialized) then mret (2 ^ 64 - 1, [])
      else with_frame CHUNK_SIZE (λ buf,
        modify (λ s, set_mem (store s.(mem) buf (zeros CHUNK_SIZE)) s);;
        next ← vring_use_descr (driver, 0%nat);
        out ← randomness_loop (Z.to_nat (length / CHUNK_SIZE + 1)) driver buf length 0 next [];
        mret (length, out))
  end.

(** The new value of [dl_random_bytes], which the program's start code reads. *)
Definition configure_dl_random : prog (machine D) Z :=
  '(filled, bytes) ← virtio_get_randomness 8;
  if negb (filled =? 8) then
    eprint_msg ("Error occurred configuring dl_random." +:+ nl);; epoweroff
  else mret (get_le (splice (zeros 8) 0 bytes) 0 8).
End operations.
