(* ===== verification/Pci.v ===== *)
(** * Finding the devices (src/pci.c, include/pci.h)

    The scan reads the vendor of every function of the first buses from the
    PCI configuration space and hands virtio devices to their drivers. *)

From S2P Require Import Prelude Layout Ecall Memory Machine Heap Vring VirtioDriver.

Definition BUS_SHIFT : Z := 20.
Definition DEV_SHIFT : Z := 15.
Definition FUN_SHIFT : Z := 12.

(** [~(SHIFT - 1)], on a 32-bit operand. *)
Definition DEV_MASK : Z := Z.lxor (2 ^ 32 - 1) (DEV_SHIFT - 1).
Definition FUN_MASK : Z := Z.lxor (2 ^ 32 - 1) (FUN_SHIFT - 1).

Definition PCI_OFF (bus dev fun_ : Z) : Z :=
  Z.lor (Z.lor (Z.shiftl bus BUS_SHIFT) (Z.shiftl dev DEV_SHIFT)) (Z.shiftl fun_ FUN_SHIFT).
Definition PCI_BUS (off : Z) : Z := u8 (Z.shiftr off BUS_SHIFT).
Definition PCI_DEV (off : Z) : Z := u8 (Z.land (Z.shiftr off DEV_SHIFT) DEV_MASK).
Definition PCI_FUN (off : Z) : Z := u8 (Z.land (Z.shiftr off FUN_SHIFT) FUN_MASK).

Definition MAX_PCI_BUSSES : Z := 2.
Definition MAX_PCI_DEVICES : Z := 32.
Definition MAX_PCI_FUNCTIONS : Z := 8.
Definition MAX_PCI_OFF : Z := PCI_OFF MAX_PCI_BUSSES MAX_PCI_DEVICES MAX_PCI_FUNCTIONS.

Definition PCI_BASE : Z := 805306368.       (* 0x30000000 *)
Definition PCI_CONF_BASE : Z := 4096.       (* 0x0001000 *)
Definition HOST_CONF_BASE : Z := 50335744.  (* 0x3001000 *)

Section operations.
Context {D : Type} `{!Platform D} `{!Linker} `{!StaleVring}.

Definition pci_config_space_alloc : prog (machine D) Z :=
  result ← gets pci_base;
  modify (set_pci_base (u32 (result + 4096)));;
  mret result.

(** A null driver is dereferenced, which is undefined. *)
Definition configure_pci_device (bus_base bus dev fun_ host pci : Z) : prog (machine D) unit :=
  let device_conf := bus_base + PCI_OFF bus dev fun_ in
  id ← load_reg (device_conf + 2) 2;
  let device_id := if 4105 (* 0x1009 *) <? id then u16 (id - 4160 (* 0x1040 *))
                   else u16 (id - 4096 (* 0x1000 *)) in
  match find_virtio_driver device_id with
  | None => stop Undefined
  | Some driver => _ ← call_init driver device_conf host pci; mret tt
  end.

(** The scan from offset [i] on, [todo] functions. *)
Fixpoint scan_loop (todo : nat) (i : Z) : prog (machine D) unit :=
  match todo with
  | O => mret tt
  | S todo =>
      vendor_id ← load_reg (PCI_BASE + i) 2;
      (if vendor_id =? 6900 (* 0x1af4 *) then
         allocd ← pci_config_space_alloc;
         configure_pci_device PCI_BASE (PCI_BUS i) (PCI_DEV i) (PCI_FUN i)
           (HOST_CONF_BASE + allocd) (u32 (PCI_CONF_BASE + allocd))
       else mret tt);;
      scan_loop todo (i + PCI_OFF 0 0 1)
  end.

Definition pci_scan : prog (machine D) unit :=
  scan_loop (Z.to_nat (MAX_PCI_OFF / PCI_OFF 0 0 1)) 0.

(** [__drivers_start .. __drivers_end]: the drivers the linker collected. *)
Fixpoint load_drivers (drivers : list virtio_driver) : prog (machine D) unit :=
  match drivers with
  | [] => mret tt
  | driver :: drivers =>
      (if MAX_VIRTIO_DEVICE_ID <=? device_id driver then
         eprint_msg ("Bad driver device id" +:+ nl)
       else put_driver (Z.to_nat (device_id driver)) driver);;
      load_drivers drivers
  end.

Definition configure_pci (drivers : list virtio_driver) : prog (machine D) unit :=
  load_drivers drivers;; pci_scan.
End operations.

(** The three drivers of virtio_driver.c. *)
Definition declared_driver (id : Z) (f : driver_init_f) : virtio_driver :=
  {| device_id := id; initialized := false; init_f := Some f; host := 0; pci := 0; conf := 0; vrings := [] |}.
Definition declared_drivers : list virtio_driver :=
  [declared_driver 5 init_entropy_virtio_f; declared_driver 3 init_console_virtio_f;
   declared_driver 1 init_blk_virtio_f].

(** ** Properties *)

(** The offsets the scan goes through. *)
Definition scanned (i : Z) : Prop := 0 <= i < MAX_PCI_OFF ∧ i mod 4096 = 0.

Lemma scanned_cases (P : Z → bool) :
  forallb P ((λ k, 4096 * Z.of_nat k) <$> seq 0 776) = true → ∀ i, scanned i → P i = true.
Proof.
  intros HP i [Hi Hm]. rewrite forallb_forall in HP. apply HP.
  apply list_elem_of_In, list_elem_of_fmap. exists (Z.to_nat (i / 4096)).
  change MAX_PCI_OFF with 3178496 in Hi. split; [zlia|].
  apply elem_of_seq. zlia.
Qed.

(** The masks of PCI_DEV and PCI_FUN are those of the shift counts: the
    device a scanned function is configured through is the function with the
    low two bits of its number cleared, so functions 0 and 4 of a device are
    configured correctly and the others configure function 0 or 4. *)
Theorem pci_function_confused i :
  scanned i →
  PCI_OFF (PCI_BUS i) (PCI_DEV i) (PCI_FUN i) = i - i / 4096 mod 4 * 4096.
Proof.
  intros Hi. apply Z.eqb_eq.
  apply (scanned_cases (λ i, PCI_OFF (PCI_BUS i) (PCI_DEV i) (PCI_FUN i) =? i - i / 4096 mod 4 * 4096));
    [vm_compute; reflexivity|done].
Qed.

Lemma pci_function_confused_witness :
  PCI_OFF (PCI_BUS 12288) (PCI_DEV 12288) (PCI_FUN 12288) = 0 ∧
  PCI_OFF (PCI_BUS 32768) (PCI_DEV 32768) (PCI_FUN 32768) = 32768.
Proof.
  split.
  - rewrite pci_function_confused; [reflexivity|split; [|reflexivity]]. change MAX_PCI_OFF with 3178496. lia.
  - rewrite pci_function_confused; [reflexivity|split; [|reflexivity]]. change MAX_PCI_OFF with 3178496. lia.
Defined.

(** [load_drivers] puts the entropy, console and block drivers of the
    repository into entries 5, 3 and 1 of the driver table and leaves the
    other entries as they were; each entry has its initialiser. *)
Lemma drivers_loaded {D} `{!Platform D} (s : machine D) :
  zlen (virtio_drivers s) = MAX_VIRTIO_DEVICE_ID →
  ∃ ds, let s' := set_drivers ds s in load_drivers declared_drivers s = (Done tt, s') ∧
    init_f <$> virtio_drivers s' !! 5%nat = Some (Some init_entropy_virtio_f) ∧
    init_f <$> virtio_drivers s' !! 3%nat = Some (Some init_console_virtio_f) ∧
    init_f <$> virtio_drivers s' !! 1%nat = Some (Some init_blk_virtio_f) ∧
    ∀ i, i ≠ 1%nat → i ≠ 3%nat → i ≠ 5%nat → virtio_drivers s' !! i = virtio_drivers s !! i.
Proof.
  unfold MAX_VIRTIO_DEVICE_ID, zlen. intros Hlen.
  assert (∀ i d (s : machine D), length (virtio_drivers s) = 10%nat → (i < 10)%nat →
    put_driver i d s = (Done tt, set_drivers (<[i := d]> (virtio_drivers s)) s)) as Hput.
  { intros i d s1 H10 Hi. unfold put_driver. run.
    destruct (lookup_lt_is_Some_2 (virtio_drivers s1) i) as [x Hx]; [lia|]. by rewrite Hx. }
  unfold declared_drivers. cbn -[put_driver Z.to_nat].
  assert (length (virtio_drivers s) = 10%nat) as H10 by lia.
  run_with (Hput 5%nat (declared_driver 5 init_entropy_virtio_f) s H10 ltac:(lia)).
  erewrite bind_done by (apply (Hput 3%nat); [cbn; by rewrite length_insert|lia]).
  erewrite bind_done by (apply (Hput 1%nat); [cbn; by rewrite !length_insert|lia]).
  eexists. split; [reflexivity|]. cbn [virtio_drivers set_drivers].
  rewrite !list_lookup_insert; repeat case_decide; rewrite ?length_insert in *; try lia.
  split_and!; try done. intros i ? ? ?. by rewrite !list_lookup_insert_ne.
Qed.
