(* ===== verification/Io.v ===== *)
(** * File descriptors (src/io.c)

    The descriptor table, the handlers a descriptor points to, and opening,
    closing, seeking and mounting.  The functions work on top of the file
    system; what they need of the board -- which drivers are up, the console
    device, the clock's registers -- is the class [Board]. *)

From S2P Require Import Prelude Layout Ecall Blk Ext2 Ext2File Ext2Dir.

(** [driver_up t]: [find_virtio_driver (t)] is not null and [initialized].
    [console_transmit buf]: the descriptor chain that sends [buf] to the
    console device.  [load_word a]: the 32-bit device register at [a]. *)
Class Board (St : Type) := {
  driver_up : Z → prog St bool;
  console_transmit : list byte → prog St unit;
  load_word : Z → prog St Z;
}.

(** What the board promises: the disk driver is up, and reading the clock
    leaves the disk alone. *)
Class BoardSpec (St : Type) `{!BlkDev St} `{!BlkSpec St} `{!Board St} := {
  disk_up s : ready s → ∃ s', driver_up 1 s = (Done true, s') ∧ ready s' ∧ image s' = image s;
  clock_reads a s : ready s →
    ∃ w s', load_word a s = (Done w, s') ∧ 0 <= w < 2 ^ 32 ∧ ready s' ∧ image s' = image s;
}.

(** ** Data *)

Inductive write_handler_t := stdout_write_handler_f | disk_write_handler_f.
Inductive read_handler_t := disk_read_handler_f.
Inductive seek_handler_t := disk_seek_handler_f.

(** A handler is [None] when the pointer is null. *)
Record io_descriptor := IoDescriptor {
  open : bool;
  pos : Z;
  ino : Z;
  write_handler : option write_handler_t;
  read_handler : option read_handler_t;
  seek_handler : option seek_handler_t;
}.

Definition closed_descriptor : io_descriptor := IoDescriptor false 0 0 None None None.

Definition max_fd : Z := 100.

(** The globals of io.c, on top of the rest of the system. *)
Record io_state (S : Type) := IoState {
  below : S;
  fds : list io_descriptor;
  _superblock : list byte;
  _superblock_mounted : bool;
}.
Arguments IoState {S}.
Arguments below {S}.
Arguments fds {S}.
Arguments _superblock {S}.
Arguments _superblock_mounted {S}.

(** At boot: statics are zero. *)
Definition initial_io {S} (b : S) : io_state S :=
  IoState b (replicate (Z.to_nat max_fd) closed_descriptor) (zeros (sizeof ext2_superblock)) false.

Definition set_below {S} (b : S) (s : io_state S) := IoState b s.(fds) s.(_superblock) s.(_superblock_mounted).
Definition set_fds {S} (f : list io_descriptor) (s : io_state S) := IoState s.(below) f s.(_superblock) s.(_superblock_mounted).
Definition set_superblock {S} (sb : list byte) (s : io_state S) := IoState s.(below) s.(fds) sb s.(_superblock_mounted).
Definition set_mounted {S} (m : bool) (s : io_state S) := IoState s.(below) s.(fds) s.(_superblock) m.

(** A function of a lower layer. *)
Definition lift {S A} (m : prog S A) : prog (io_state S) A := λ s,
  let '(r, b) := m s.(below) in (r, set_below b s).

#[export] Instance io_console {S} `{!Console S} : Console (io_state S) := {| eprint p := lift (eprint p) |}.

Definition SEEK_SET : Z := 0.
Definition SEEK_CUR : Z := 1.
Definition SEEK_END : Z := 2.

(** ** The clock (src/system.c) *)

(** The goldfish RTC: two 32-bit loads.  Returns the result and the two
    fields of [*tp]. *)
Definition system_time {S} `{!Board S} (clockid : Z) : prog S (bool * Z * Z) :=
  let raw := 1052672 (* 0x00101000 *) in
  low ← load_word raw;
  high ← load_word (raw + 4);
  let time := Z.lor (u64 (Z.shiftl high 32)) low in
  mret (true, time / 1000000000, time mod 1000000000).

Section operations.
Context {S : Type} `{!BlkDev S} `{!Console S} `{!Uninit} `{!Board S}.

(** *** The table *)

Definition is_fd_valid (fd : Z) : bool := fd <? max_fd.

(** [fds[fd]] *)
Definition get_fd (fd : Z) : prog (io_state S) io_descriptor :=
  t ← gets fds;
  defined (0 <=? fd);;
  match t !! Z.to_nat fd with Some d => mret d | None => stop Undefined end.
Definition put_fd (fd : Z) (d : io_descriptor) : prog (io_state S) unit :=
  t ← gets fds;
  defined ((0 <=? fd) && (fd <? zlen t));;
  modify (set_fds (<[Z.to_nat fd := d]> t)).

Definition is_fd_open (fd : Z) : prog (io_state S) bool :=
  if is_fd_valid fd then d ← get_fd fd; mret (open d) else mret false.

(** The first closed descriptor from index [i] on; -1 if there is none. *)
Fixpoint next_fd_from (t : list io_descriptor) (i : Z) : Z :=
  match t with
  | [] => -1
  | d :: t => if negb (open d) then i else next_fd_from t (i + 1)
  end.
Definition next_fd : prog (io_state S) Z :=
  t ← gets fds; mret (next_fd_from (take (Z.to_nat max_fd) t) 0).

Definition superblock_for_ino (ino : Z) : prog (io_state S) (list byte) := gets _superblock.
Definition superblock_for_pathname (pathname : list byte) : prog (io_state S) (list byte) :=
  gets _superblock.

(** *** Handlers: the results are [int]s *)

Definition stdout_write_handler (fd : Z) (buf : list byte) (size : Z) : prog (io_state S) Z :=
  up ← lift (driver_up 3);
  if negb up then mret (-1)
  else
    defined (size <=? zlen buf);;
    lift (console_transmit (slice buf 0 size));;
    mret (i32 size).

Definition disk_write_handler (fd : Z) (buf : list byte) (size : Z) : prog (io_state S) Z :=
  up ← lift (driver_up 1);
  if negb up then mret (-1)
  else
    is_open ← is_fd_open fd;
    if negb is_open then mret (-1)
    else
      iod ← get_fd fd;
      superb ← superblock_for_ino (ino iod);
      write_result ← lift (write_to_ino superb (ino iod) buf (pos iod) size);
      '(ok, tv_sec, _) ← lift (system_time 1);
      if negb ok then mret (-1)
      else
        ok ← lift (set_mtime_for_ino superb (ino iod) (u32 tv_sec));
        if negb ok then mret (-1) else mret (i32 write_result).

Definition disk_read_handler (fd : Z) (buf : list byte) (size : Z)
    : prog (io_state S) (Z * list byte) :=
  if size =? 0 then mret (0, buf)
  else
    up ← lift (driver_up 1);
    if negb up then mret (-1, buf)
    else
      is_open ← is_fd_open fd;
      if negb is_open then mret (-1, buf)
      else
        iod ← get_fd fd;
        superb ← superblock_for_ino (ino iod);
        '(read_result, buf) ← lift (read_from_ino superb (ino iod) buf (pos iod) size);
        '(ok, tv_sec, _) ← lift (system_time 1);
        if negb ok then mret (-1, buf)
        else
          ok ← lift (set_atime_for_ino superb (ino iod) (u32 tv_sec));
          if negb ok then mret (-1, buf) else mret (i32 read_result, buf).

Definition set_pos (p : Z) (d : io_descriptor) : io_descriptor :=
  IoDescriptor (open d) p (ino d) (write_handler d) (read_handler d) (seek_handler d).

Definition disk_seek_handler (fd off whence : Z) : prog (io_state S) Z :=
  is_open ← is_fd_open fd;
  if negb is_open then mret (-1)
  else
    iod ← get_fd fd;
    if whence =? SEEK_CUR then
      let p := u64 (pos iod + off) in put_fd fd (set_pos p iod);; mret (i32 p)
    else if whence =? SEEK_END then mret (-1)
    else if whence =? SEEK_SET then
      let p := u64 off in put_fd fd (set_pos p iod);; mret (i32 p)
    else mret (-1).

(** *** Opening and closing *)

Definition configure_stdio : prog (io_state S) bool :=
  d ← get_fd 1;
  put_fd 1 (IoDescriptor true (pos d) (ino d) (Some stdout_write_handler_f) (read_handler d) (seek_handler d));;
  mret true.

Definition configure_io : prog (io_state S) unit :=
  ok ← configure_stdio;
  if negb ok then eprint_msg ("There was an error initializing stdio!" +:+ nl) else mret tt.

(** The argument is an [int]; the tests convert it to [uint64_t]. *)
Definition close_fd (fd : Z) : prog (io_state S) Z :=
  if negb (is_fd_valid (u64 fd)) then mret (-1)
  else
    is_open ← is_fd_open (u64 fd);
    if negb is_open then mret (-1)
    else
      d ← get_fd fd;
      put_fd fd (IoDescriptor false (pos d) (ino d) None None None);;
      mret 0.

Definition opened (d : io_descriptor) : io_descriptor :=
  IoDescriptor true (pos d) (ino d) (Some disk_write_handler_f) (Some disk_read_handler_f)
    (Some disk_seek_handler_f).
Definition set_ino (i : Z) (d : io_descriptor) : io_descriptor :=
  IoDescriptor (open d) (pos d) i (write_handler d) (read_handler d) (seek_handler d).

(** [assert (_superblock_mounted)] *)
Definition assert_mounted : prog (io_state S) unit :=
  m ← gets _superblock_mounted; if negb m then stop AssertFailed else mret tt.

(** Returns the descriptor and the caller's path, which [strtok] cuts up. *)
Definition open_fd (pathname : list byte) : prog (io_state S) (Z * list byte) :=
  up ← lift (driver_up 1);
  if negb up then mret (-1, pathname)
  else
    fd ← next_fd;
    if fd <? 0 then mret (fd, pathname)
    else
      d ← get_fd fd;
      put_fd fd (opened d);;
      mounted ← gets _superblock_mounted;
      (if negb mounted then
         eprint_msg ("Superblock is not mounted." +:+ nl);; assert_mounted
       else mret tt);;
      superblock ← superblock_for_pathname pathname;
      '(ino_found, pathname, i) ← lift (ino_from_path superblock pathname (ino d));
      put_fd fd (set_ino i (opened d));;
      (if negb ino_found then
         eprint_msg "Could not find the inode.";; assert_mounted
       else mret tt);;
      mret (fd, pathname).

(** The result of [read_superblock] is not looked at. *)
Definition io_mount_hd : prog (io_state S) Z :=
  modify (λ s, set_superblock
    (set_field ext2_superblock "s_inodes_count"
      (set_field ext2_superblock "s_blocks_count" s.(_superblock) 0) 0) s);;
  up ← lift (driver_up 1);
  if negb up then mret (2 ^ 64 - 1)
  else
    sb ← gets _superblock;
    '(_, sb) ← lift (read_superblock sb);
    modify (set_superblock sb);;
    _ ← shl_int 1024 sb.[ext2_superblock, "s_log_block_size"%string];
    defined (negb (sb.[ext2_superblock, "s_blocks_per_group"%string] =? 0));;
    modify (set_mounted true);;
    mret 0.
End operations.

(** ** System calls on descriptors (src/strap_handler.c)

    Arguments and results are [uint64_t]; the [int] a handler returns is
    sign-extended.  Calling a null handler is undefined. *)
Section syscalls.
Context {S : Type} `{!BlkDev S} `{!Console S} `{!Uninit} `{!Board S}.

Definition seek_s (fd offset whence : Z) : prog (io_state S) Z :=
  is_open ← is_fd_open fd;
  if negb is_open then mret (2 ^ 64 - 1)
  else
    d ← get_fd fd;
    match seek_handler d with
    | Some disk_seek_handler_f => r ← disk_seek_handler fd (i64 offset) (i32 whence); mret (u64 r)
    | None => stop Undefined
    end.

Definition read_s (fd : Z) (buf : list byte) (size : Z) : prog (io_state S) (Z * list byte) :=
  is_open ← is_fd_open fd;
  if negb is_open then mret (2 ^ 64 - 1, buf)
  else
    d ← get_fd fd;
    match read_handler d with
    | Some disk_read_handler_f => '(r, buf) ← disk_read_handler fd buf size; mret (u64 r, buf)
    | None => stop Undefined
    end.

Definition write_s (fd : Z) (buf : list byte) (size : Z) : prog (io_state S) Z :=
  is_open ← is_fd_open fd;
  if negb is_open then mret (2 ^ 64 - 1)
  else
    d ← get_fd fd;
    match write_handler d with
    | Some stdout_write_handler_f => r ← stdout_write_handler fd buf size; mret (u64 r)
    | Some disk_write_handler_f => r ← disk_write_handler fd buf size; mret (u64 r)
    | None => stop Undefined
    end.

Definition openat_s (pathname : list byte) : prog (io_state S) (Z * list byte) :=
  '(fd, pathname) ← open_fd pathname; mret (u64 fd, pathname).

Definition close_s (fd : Z) : prog (io_state S) Z := r ← close_fd (i32 fd); mret (u64 r).
End syscalls.
