(* ===== verification/Timer.v ===== *)
(** * Timers and sleeping (src/system.c, src/os.c, src/strap_handler.c)

    The one hardware timer ([stimecmp]) serves the kernel's deferred work and
    the sleeping process.  Every look at the clock takes time: reading number
    [n] of the run shows [clock n].  A deferred function is denoted by its
    address, and calling it is the parameter [call_deferred]: the repository
    defines none. *)

From S2P Require Import Prelude.

(** ** Double-precision arithmetic

    The code computes with [double]s whose values are integers.  [double z]
    is the double nearest to [z], ties to even. *)
Definition double (z : Z) : Z :=
  if Z.abs z <? 2 ^ 53 then z
  else
    let e := Z.log2 (Z.abs z) - 52 in
    let q := Z.abs z / 2 ^ e in
    let r := Z.abs z mod 2 ^ e in
    let up := (2 ^ (e - 1) <? r) || ((r =? 2 ^ (e - 1)) && Z.odd q) in
    Z.sgn z * ((if up then q + 1 else q) * 2 ^ e).

Lemma double_small z : - 2 ^ 53 < z < 2 ^ 53 → double z = z.
Proof. intros. unfold double. by replace (Z.abs z <? 2 ^ 53) with true by lia. Qed.

(** Rounding does not cross [2^53]. *)
Lemma double_large z : 2 ^ 53 <= z → 2 ^ 53 <= double z.
Proof.
  intros Hz. unfold double. rewrite Z.abs_eq by lia. replace (z <? 2 ^ 53) with false by lia.
  rewrite Z.sgn_pos, Z.mul_1_l by lia.
  assert (53 <= Z.log2 z) by (apply Z.log2_le_pow2; lia).
  destruct (Z.log2_spec z ltac:(lia)) as [Hlog _].
  set (e := Z.log2 z - 52) in *. assert (0 < 2 ^ e) by (apply Z.pow_pos_nonneg; lia).
  assert (2 ^ 52 <= z / 2 ^ e) as Hq.
  { apply Z.div_le_lower_bound; [lia|]. rewrite <-Z.pow_add_r by lia.
    replace (e + 52) with (Z.log2 z) by lia. lia. }
  assert (2 ^ 53 <= 2 ^ 52 * 2 ^ e).
  { rewrite <-Z.pow_add_r by lia. apply Z.pow_le_mono_r; lia. }
  destruct (_ || _); nia.
Qed.

Lemma double_ltb x z : 0 <= x < 2 ^ 53 → 0 <= z → (x <? double z) = (x <? z).
Proof.
  intros Hx Hz. destruct (decide (z < 2 ^ 53)).
  - by rewrite double_small by lia.
  - pose proof (double_large z). lia.
Qed.

(** ** Data (include/os.h) *)

Record sleep := Sleep {
  wakeup_time : Z;
  should_wake : Z;
  cookie : Z;
  deferred : Z;
}.

Record process := Process {
  brk : Z;
  set_child_tid : Z;
  clear_child_tid : Z;
  asleep : sleep;
}.

Record os_state := Os {
  readings : nat;       (* how often the clock has been looked at *)
  stimecmp : Z;         (* the hardware register *)
  shadow_stime : Z;
  kernel_deferred : sleep;
  current : process;
}.

Definition STIME_UNSET : Z := 2 ^ 64 - 1.
Definition WAIT_TIMEOUT : Z := 2 ^ 64 - 1.
Definition WAIT_EVENT_OCCURRED : Z := 1.

Definition set_readings n (s : os_state) := Os n s.(stimecmp) s.(shadow_stime) s.(kernel_deferred) s.(current).
Definition set_timer t (s : os_state) := Os s.(readings) t t s.(kernel_deferred) s.(current).
Definition set_kernel_deferred d (s : os_state) :=
  Os s.(readings) s.(stimecmp) s.(shadow_stime) d s.(current).
Definition set_current p (s : os_state) :=
  Os s.(readings) s.(stimecmp) s.(shadow_stime) s.(kernel_deferred) p.
Definition set_asleep a (s : os_state) :=
  set_current (Process s.(current).(brk) s.(current).(set_child_tid) s.(current).(clear_child_tid) a) s.
Definition wake w (a : sleep) := Sleep a.(wakeup_time) w a.(cookie) a.(deferred).
Definition wake_at t (a : sleep) := Sleep t a.(should_wake) a.(cookie) a.(deferred).

Section operations.
Context (clock : nat → Z) (call_deferred : Z → Z → prog os_state unit).

Definition get_stime : prog os_state Z := λ s,
  (Done (clock (readings s)), set_readings (S (readings s)) s).

Definition set_stimecmp (future : Z) : prog os_state unit :=
  shadow ← gets shadow_stime;
  if negb (future =? STIME_UNSET) && negb (shadow =? STIME_UNSET) && (shadow <? future) then mret tt
  else modify (set_timer future).

Definition unset_stimecmp : prog os_state unit := set_stimecmp STIME_UNSET.

Definition set_deferred (whence deferred cookie : Z) : prog os_state unit :=
  d ← gets kernel_deferred;
  modify (set_kernel_deferred (Sleep d.(wakeup_time) d.(should_wake) cookie d.(Timer.deferred)));;
  now ← get_stime;
  let wakeup := u64 (now + whence) in
  modify (set_kernel_deferred (Sleep wakeup d.(should_wake) cookie deferred));;
  set_stimecmp wakeup.

(** A null function pointer is undefined. *)
Definition do_timer_deferreds (now : Z) : prog os_state unit :=
  d ← gets kernel_deferred;
  if d.(wakeup_time) <? now then
    defined (negb (d.(deferred) =? 0));;
    call_deferred d.(deferred) d.(cookie);;
    d ← gets kernel_deferred;
    modify (set_kernel_deferred (Sleep 0 d.(should_wake) 0 0))
  else mret tt.

Definition timer_interrupt_handler : prog os_state unit :=
  stime ← get_stime;
  unset_stimecmp;;
  d ← gets kernel_deferred;
  (if negb (d.(wakeup_time) =? 0) then
     (if d.(wakeup_time) <? stime then do_timer_deferreds stime else set_stimecmp d.(wakeup_time))
   else mret tt);;
  p ← gets current;
  if negb (p.(asleep).(wakeup_time) =? 0) then
    (if p.(asleep).(wakeup_time) <? stime then modify (set_asleep (wake 1 p.(asleep)))
     else set_stimecmp p.(asleep).(wakeup_time))
  else mret tt.

(** Interrupts are enabled for a moment: a timer that is due goes off. *)
Definition yield : prog os_state unit :=
  now ← get_stime;
  cmp ← gets stimecmp;
  if cmp <=? now then timer_interrupt_handler else mret tt.

(** *** Sleeping system calls *)

Fixpoint sleep_loop (fuel : nat) : prog os_state unit :=
  match fuel with
  | O => stop Hang
  | S fuel =>
      yield;;
      p ← gets current;
      if negb (p.(asleep).(should_wake) =? 0) then mret tt else sleep_loop fuel
  end.

(** [duration] is [*duration]: seconds and nanoseconds.  The sum is a
    double; its conversion is undefined outside of [uint64_t]. *)
Definition nanosleep_s (fuel : nat) (tv_sec tv_nsec : Z) : prog os_state Z :=
  now ← get_stime;
  let wakeup := double (double now + double (double (double tv_sec * 10000000) + double tv_nsec)) in
  defined ((0 <=? wakeup) && (wakeup <? 2 ^ 64));;
  p ← gets current;
  modify (set_asleep (wake_at wakeup p.(asleep)));;
  set_stimecmp wakeup;;
  sleep_loop fuel;;
  p ← gets current;
  modify (set_asleep (wake_at 0 (wake 0 p.(asleep))));;
  stop PowerOff.

(** The loop of [demand_s]; only the timeout ends it. *)
Fixpoint demand_loop (fuel : nat) (timeout : Z) : prog os_state Z :=
  match fuel with
  | O => stop Hang
  | S fuel =>
      yield;;
      now ← get_stime;
      if double (double timeout + 30000000) <? double now then mret WAIT_TIMEOUT
      else demand_loop fuel timeout
  end.

Definition demand_s (fuel : nat) (_timeout _event_p : Z) : prog os_state Z :=
  now ← get_stime;
  let timeout := u64 (now + _timeout) in
  set_stimecmp timeout;;
  demand_loop fuel timeout.

(** *** The program break and the thread pointer *)

Definition set_brk_s (new_brk : Z) : prog os_state Z :=
  p ← gets current;
  (if negb (new_brk =? 0) then
     modify (set_current (Process new_brk p.(set_child_tid) p.(clear_child_tid) p.(asleep)))
   else mret tt);;
  p ← gets current;
  mret p.(brk).

Definition set_child_tid_s (tidptr : Z) : prog os_state Z :=
  p ← gets current;
  modify (set_current (Process p.(brk) p.(set_child_tid) tidptr p.(asleep)));;
  mret 1.
End operations.
