(* ===== verification/Syscall.v ===== *)
(** * The system calls (src/strap_handler.c, src/util.c)

    A program's call reaches [system_call_dispatcher], which calls the
    handler the table holds for the number in register a7.  The state is the
    whole system: descriptors and file system, timers, the memory of the
    program's own objects, and the table.  A pointer argument is an address
    in the program's memory; a handler that passes an object on hands over
    its bytes and puts back what became of them.  (Program and kernel share
    one address space; their objects are different objects of one C program,
    so a program that respects its own objects cannot tell the difference.) *)

From S2P Require Import Prelude Programs Layout Ecall Memory Blk Ext2 Ext2File Ext2Dir SelfTest Io Timer.

(** What the handlers use of the drivers: [DEMANDOS_INTERNAL (malloc)] and
    [virtio_get_randomness], which returns its result and the bytes it puts
    at the front of the caller's buffer. *)
Class Services (S : Type) := {
  kernel_malloc : Z → prog S Z;
  get_randomness : Z → prog S (Z * list byte);
}.

(** The number of system calls ([__NR_syscalls] of the C library's headers),
    which is above every number the code uses, and the build options. *)
Class Build := {
  NR_syscalls : nat;
  NR_large : (279 <= NR_syscalls)%nat;
  ENABLE_TESTS : bool;
}.

(** ** State *)

Inductive syscall_handler :=
  | hardware_riscv_h | empty_h | write_s_h | set_child_tid_h | poweroff_s_h | set_brk_s_h
  | readlinkat_s_h | get_random_s_h | clock_gettime32_s_h | mprotect_s_h | fstat_s_h | ioctl_s_h
  | sys_breakpoint_h | openat_s_h | close_s_h | read_s_h | seek_s_h | nanosleep_s_h
  | demand_s_h | mount_hd_s_h | internal_unit_test_s_h | unimplemented_h.

(** [None] in the table is a null pointer. *)
Record system (S : Type) := System {
  io : io_state S;
  os : os_state;
  user : memory;
  syscall_handlers : list (option syscall_handler);
}.
Arguments System {S}.
Arguments io {S}.
Arguments os {S}.
Arguments user {S}.
Arguments syscall_handlers {S}.

Definition set_io {S} (i : io_state S) (s : system S) := System i s.(os) s.(user) s.(syscall_handlers).
Definition set_os {S} (o : os_state) (s : system S) := System s.(io) o s.(user) s.(syscall_handlers).
Definition set_user {S} (m : memory) (s : system S) := System s.(io) s.(os) m s.(syscall_handlers).
Definition set_handlers {S} (t : list (option syscall_handler)) (s : system S) :=
  System s.(io) s.(os) s.(user) t.

(** A function of the descriptor layer, of the timers, of the drivers. *)
Definition on_io {S A} : prog (io_state S) A → prog (system S) A := on io set_io.
Definition on_os {S A} : prog os_state A → prog (system S) A := on os set_os.
Definition kernel {S A} (m : prog S A) : prog (system S) A := on_io (lift m).

#[export] Instance system_console {S} `{!Console S} : Console (system S) :=
  {| eprint p := kernel (eprint p) |}.

(** Loads and stores through a pointer of the program. *)
Definition user_load {S} (a n : Z) : prog (system S) (list byte) := gets (λ s, load s.(user) a n).
Definition user_store {S} (a : Z) (bs : list byte) : prog (system S) unit :=
  modify (λ s, set_user (store s.(user) a bs) s).

(** The string at [a], with its NUL.  Memory is finite and what it does not
    hold reads as 0, so a NUL is found within [size m] bytes. *)
Fixpoint c_bytes (fuel : nat) (m : memory) (a : Z) : option (list byte) :=
  let b := default Byte.x00 (m !! a) in
  if decide (b = Byte.x00) then Some [b]
  else match fuel with O => None | S fuel => cons b <$> c_bytes fuel m (a + 1) end.
Definition user_string (m : memory) (a : Z) : option (list byte) := c_bytes (size m) m a.

(** Taken from glibc. *)
Definition stat : struct :=
  [("st_dev", U64); ("st_ino", U64); ("st_mode", U32); ("st_nlink", U32); ("st_uid", U32);
   ("st_gid", U32); ("st_rdev", U64); ("__pad1", U64); ("st_size", U64); ("st_blksize", U32);
   ("__pad2", U32); ("st_blocks", U64); ("st_atime", U64); ("st_atime_nsec", U64); ("st_mtime", U64);
   ("st_mtime_nsec", U64); ("st_ctime", U64); ("st_ctime_nsec", U64); ("__unused4", U32);
   ("__unused5", U32)]%string.

Definition timespec : struct := [("tv_sec", U64); ("tv_nsec", U64)]%string.

(** [p->f = x] and [p->f] for a structure of the program. *)
Definition store_field {S} (st : struct) (p : Z) (f : string) (x : Z) : prog (system S) unit :=
  modify (λ s, set_user (store_le s.(user) (p + offsetof st f) (Z.to_nat (fieldsize st f)) x) s).
Definition load_field {S} (st : struct) (p : Z) (f : string) : prog (system S) Z :=
  gets (λ s, load_le s.(user) (p + offsetof st f) (Z.to_nat (fieldsize st f))).

(** ** Handlers *)

Section handlers.
Context {S : Type} `{!BlkDev S} `{!Console S} `{!Uninit} `{!Board S} `{!Services S} `{!Build}.
Context (clock : nat → Z) (call_deferred : Z → Z → prog os_state unit) (turns : nat).

Definition hardware_riscv : prog (system S) Z := mret 0.
Definition empty : prog (system S) Z := mret 0.
Definition mprotect_s : prog (system S) Z := mret 0.
Definition ioctl_s : prog (system S) Z := mret 0.
Definition poweroff_s : prog (system S) Z := stop PowerOff.
Definition software_interrupt_handler : prog (system S) Z := stop PowerOff.

Definition unimplemented : prog (system S) Z := eprint_msg "Unimplemented";; stop PowerOff.

Definition breakpoint (value : Z) : prog (system S) unit :=
  eprint_msg ("We are at a breakpoint (with 1 value)." +:+ nl).
Definition sys_breakpoint : prog (system S) Z :=
  eprint_msg ("We are at a breakpoint (with 5 values)." +:+ nl);; mret 0.

(** The size of the caller's buffer is not looked at. *)
Definition actual_path : list byte :=
  String.list_byte_of_string "/home/hawkinsw/code/boot2bpf/build/unibpform" ++ [Byte.x00].
Definition readlinkat_s (_buf _buf_size : Z) : prog (system S) Z :=
  let actual_path_length := 24 in
  user_store _buf (slice actual_path 0 actual_path_length);;
  mret actual_path_length.

Definition get_random_s (_buffer length : Z) : prog (system S) Z :=
  '(r, bytes) ← kernel (get_randomness length);
  user_store _buffer bytes;;
  mret r.

Definition openat_h (_pathname : Z) : prog (system S) Z :=
  m ← gets user;
  match user_string m _pathname with
  | None => stop Undefined
  | Some pathname =>
      '(r, pathname) ← on_io (openat_s pathname);
      user_store _pathname pathname;;
      mret r
  end.

Definition read_h (fd _buf size : Z) : prog (system S) Z :=
  buf ← user_load _buf size;
  '(r, buf) ← on_io (read_s fd buf size);
  user_store _buf buf;;
  mret r.

Definition write_h (fd _buf size : Z) : prog (system S) Z :=
  buf ← user_load _buf size;
  on_io (write_s fd buf size).

Definition clock_gettime32_s (clockid tp : Z) : prog (system S) Z :=
  '(ok, tv_sec, tv_nsec) ← kernel (system_time clockid);
  store_field timespec tp "tv_sec" tv_sec;;
  store_field timespec tp "tv_nsec" tv_nsec;;
  mret (if (ok : bool) then 1 else 0).

Definition fstat_s (statbuf : Z) : prog (system S) Z :=
  store_field stat statbuf "st_size" 0;;
  store_field stat statbuf "st_mode" 8592 (* 0x2190 *);;
  store_field stat statbuf "st_blksize" 1024;;
  store_field stat statbuf "st_blocks" 0;;
  store_field stat statbuf "st_dev" 26;;
  store_field stat statbuf "st_ino" 7;;
  store_field stat statbuf "st_nlink" 1;;
  store_field stat statbuf "st_uid" 1;;
  mret 0.

Definition nanosleep_h (duration : Z) : prog (system S) Z :=
  tv_sec ← load_field timespec duration "tv_sec";
  tv_nsec ← load_field timespec duration "tv_nsec";
  on_os (nanosleep_s clock call_deferred turns (i64 tv_sec) (i64 tv_nsec)).

Definition mount_hd_s : prog (system S) Z :=
  _ ← kernel (kernel_malloc 500);
  on_io io_mount_hd.

(** The result of the test is not looked at. *)
Definition internal_unit_test_s : prog (system S) Z :=
  (if ENABLE_TESTS then
     eprint_msg ("Running internal unit tests ..." +:+ nl);;
     _ ← kernel test_ext2_implementation; mret tt
   else mret tt);;
  mret 0.

Definition run_handler (h : syscall_handler) (a0 a1 a2 a3 a4 a5 : Z) : prog (system S) Z :=
  match h with
  | hardware_riscv_h => hardware_riscv
  | empty_h => empty
  | write_s_h => write_h a0 a1 a2
  | set_child_tid_h => on_os (set_child_tid_s a0)
  | poweroff_s_h => poweroff_s
  | set_brk_s_h => on_os (set_brk_s a0)
  | readlinkat_s_h => readlinkat_s a2 a3
  | get_random_s_h => get_random_s a0 a1
  | clock_gettime32_s_h => clock_gettime32_s a0 a1
  | mprotect_s_h => mprotect_s
  | fstat_s_h => fstat_s a1
  | ioctl_s_h => ioctl_s
  | sys_breakpoint_h => sys_breakpoint
  | openat_s_h => openat_h a1
  | close_s_h => on_io (close_s a0)
  | read_s_h => read_h a0 a1 a2
  | seek_s_h => on_io (seek_s a0 a1 a2)
  | nanosleep_s_h => nanosleep_h a2
  | demand_s_h => on_os (demand_s clock call_deferred turns a0 a1)
  | mount_hd_s_h => mount_hd_s
  | internal_unit_test_s_h => internal_unit_test_s
  | unimplemented_h => unimplemented
  end.

(** ** The table *)

(** [syscall_handlers[i] = h] for the assignments after the loop, in order. *)
Definition assignments : list (nat * syscall_handler) :=
  [(258, hardware_riscv_h); (222, empty_h); (64, write_s_h); (96, set_child_tid_h); (99, empty_h);
   (93, poweroff_s_h); (94, poweroff_s_h); (214, set_brk_s_h); (261, empty_h); (78, readlinkat_s_h);
   (278, get_random_s_h); (113, clock_gettime32_s_h); (226, mprotect_s_h); (80, fstat_s_h);
   (29, ioctl_s_h); (14, sys_breakpoint_h); (56, openat_s_h); (57, close_s_h); (63, read_s_h);
   (62, seek_s_h); (115, nanosleep_s_h); (209, demand_s_h); (210, mount_hd_s_h);
   (211, internal_unit_test_s_h)]%nat.

Definition assign (t : list (option syscall_handler)) (a : nat * syscall_handler) :=
  <[a.1 := Some a.2]> t.

Definition configure_syscall_handlers : prog (system S) unit :=
  modify (set_handlers (foldl assign (replicate NR_syscalls (Some unimplemented_h)) assignments)).

Definition system_call_dispatcher (cause location value sp a7 a0 a1 a2 a3 a4 a5 : Z)
    : prog (system S) Z :=
  t ← gets syscall_handlers;
  defined (0 <=? a7);;
  match t !! Z.to_nat a7 with
  | Some (Some h) => run_handler h a0 a1 a2 a3 a4 a5
  | _ => stop Undefined
  end.
End handlers.
