(* ===== verification/FsTest.v ===== *)
(** * The test programs (driver/fs_test_main.c, driver/simple_test_main.c)

    The C library is outside of the repository: its wrappers around the
    system calls and [printf] are the fields of a class.  The addresses of the
    program's locals and literals are the compiler's. *)

From S2P Require Import Prelude Programs Layout Ecall Blk Ext2 Io Timer Syscall.

Class Posix (S : Type) := {
  posix_getrandom : Z → Z → Z → prog (system S) Z;
  posix_open : Z → Z → prog (system S) Z;
  posix_write : Z → Z → Z → prog (system S) Z;
  posix_read : Z → Z → Z → prog (system S) Z;
  posix_lseek : Z → Z → Z → prog (system S) Z;
  posix_gettimeofday : Z → Z → prog (system S) Z;
  posix_printf : list byte → list Z → prog (system S) Z;
}.

Class FsTestSymbols := {
  at_buffer : Z;        (* char buffer[8] *)
  at_what_read : Z;     (* char what_read[20] *)
  at_testing_txt : Z;   (* "testing.txt" *)
  at_hello : Z;         (* "Hello, World!\n" *)
  at_timev : Z;         (* struct timeval timev *)
}.

Definition GRND_RANDOM : Z := 2.
Definition O_CREAT : Z := 64.

(** [strlen("Hello, World!")] *)
Definition hello : list byte := String.list_byte_of_string "Hello, World!".

Section program.
Context {S : Type} `{!Posix S} `{!FsTestSymbols}.

Definition fs_test_main : prog (system S) Z :=
  user_store at_buffer (zeros 8);;
  r ← posix_getrandom at_buffer 8 GRND_RANDOM;
  if r <? 0 then
    _ ← posix_printf (String.list_byte_of_string ("Error occurred getting randomness!" +:+ nl)) [];
    mret 0
  else
    user_store at_what_read (zeros 20);;
    fd ← posix_open at_testing_txt O_CREAT;
    _ ← posix_write fd at_hello (zlen hello);
    _ ← posix_lseek fd 15 SEEK_SET;
    _ ← posix_write fd at_buffer 8;
    _ ← posix_lseek fd 0 SEEK_SET;
    _ ← posix_read fd at_what_read (zlen hello);
    _ ← posix_printf (String.list_byte_of_string ("what_read: -%s-" +:+ nl)) [at_what_read];
    mret 0.

(** driver/simple_test_main.c: [for (int i = 0; i < 10; i++)] *)
Fixpoint simple_loop (todo : nat) (i : Z) : prog (system S) unit :=
  match todo with
  | O => mret tt
  | Datatypes.S todo =>
      _ ← posix_printf (String.list_byte_of_string ("There will be no way this works (%d)!" +:+ nl)) [i];
      simple_loop todo (i + 1)
  end.

Definition simple_test_main : prog (system S) Z :=
  _ ← posix_gettimeofday at_timev 0;
  simple_loop 10 0;;
  mret 0.
End program.
