(* ===== verification/Trap.v ===== *)
(** * Entering and leaving the kernel (src/strap.S, src/demandos.c)

    The trap code is a list of RISC-V instructions, executed on the registers
    and the memory that holds the frame; the macros of the file are lists of
    instructions under their own names.  Between the two halves the handler
    of the table is called, with its arguments where the calling convention
    puts them. *)

From stdpp Require Import functions.
From S2P Require Import Prelude Programs Layout Ecall Memory Blk Ext2 Io Timer Syscall.

(** ** State *)

(** Registers [x1] to [x31]; [x 0] is not looked at. *)
Record hart := Hart {
  x : nat → Z;
  scause : Z;
  sepc : Z;
  stval : Z;
  sstatus : Z;
  ram : memory;
}.

Inductive csr := scause_r | sepc_r | stval_r | sstatus_r.
Definition read_csr (c : csr) (h : hart) : Z :=
  match c with scause_r => scause h | sepc_r => sepc h | stval_r => stval h | sstatus_r => sstatus h end.

Definition set_x (i : nat) (v : Z) (h : hart) :=
  Hart (<[i := v]> (x h)) (scause h) (sepc h) (stval h) (sstatus h) (ram h).
Definition set_sepc (v : Z) (h : hart) := Hart (x h) (scause h) v (stval h) (sstatus h) (ram h).
Definition set_ram (m : memory) (h : hart) := Hart (x h) (scause h) (sepc h) (stval h) (sstatus h) m.

(** What the registers of a processor can hold. *)
Definition in_u64 (v : Z) : Prop := 0 <= v < 2 ^ 64.
Definition wide (h : hart) : Prop := (∀ i, in_u64 (x h i)) ∧ ∀ c, in_u64 (read_csr c h).

(** The names of the calling convention. *)
Abbreviation ra := 1%nat.
Abbreviation sp := 2%nat.
Abbreviation t0 := 5%nat.
Abbreviation t1 := 6%nat.
Abbreviation t2 := 7%nat.
Abbreviation a n := (10 + n)%nat.
Abbreviation t5 := 30%nat.
Abbreviation t6 := 31%nat.

(** ** Instructions *)

Inductive instr :=
  | Addi (rd rs : nat) (imm : Z)
  | Slli (rd rs : nat) (n : Z)
  | Li (rd : nat) (v : Z)
  | Sd (rs : nat) (off : Z) (base : nat)
  | Ld (rd : nat) (off : Z) (base : nat)
  | Csrr (rd : nat) (c : csr)
  | Csrw_sepc (rs : nat).

Definition step (i : instr) (h : hart) : hart :=
  match i with
  | Addi rd rs imm => set_x rd (u64 (x h rs + imm)) h
  | Slli rd rs n => set_x rd (u64 (Z.shiftl (x h rs) n)) h
  | Li rd v => set_x rd v h
  | Sd rs off base => set_ram (store_le (ram h) (u64 (x h base + off)) 8 (x h rs)) h
  | Ld rd off base => set_x rd (load_le (ram h) (u64 (x h base + off)) 8) h
  | Csrr rd c => set_x rd (read_csr c h) h
  | Csrw_sepc rs => set_sepc (x h rs) h
  end.

Definition exec (l : list instr) (h : hart) : hart := foldl (λ h i, step i h) h l.

(** ** The macros *)

Definition frame_size : Z := 43 * 8.
Definition allocate_stack (size : Z) : list instr := [Addi sp sp (-1 * size)].
Definition deallocate_stack (size : Z) : list instr := [Addi sp sp size].

(** Slot [n] of the frame. *)
Definition slot (n : nat) : Z := 8 * Z.of_nat n.
Definition save (r n : nat) : instr := Sd r (slot n) sp.
Definition restore (r n : nat) : instr := Ld r (slot n) sp.

Definition push_registers : list instr := (λ i, save i i) <$> seq 1 31.

Definition get_push_trap_registers (scause sepc stval : nat) : list instr :=
  [Csrr scause scause_r; save scause 32; Csrr sepc sepc_r; save sepc 33; Csrr stval stval_r; save stval 34].

(** ** The table *)

Inductive trap_handler := software_interrupt_handler_h | timer_interrupt_handler_h | system_call_dispatcher_h.

Definition _trap_handlers : list (option trap_handler) :=
  [None; Some software_interrupt_handler_h; None; None; None; Some timer_interrupt_handler_h;
   None; None; Some system_call_dispatcher_h].

(** ** [_trap_dispatch] *)

Definition trap_entry : list instr :=
  allocate_stack frame_size ++ push_registers ++ get_push_trap_registers t0 t1 t2 ++
  [save (a 7) 35; save (a 0) 36; save (a 1) 37; save (a 2) 38; save (a 3) 39; save (a 4) 40;
   save (a 5) 41; save sp 42].

Definition load_arguments : list instr :=
  [Csrr (a 0) sstatus_r; restore (a 1) 33; restore (a 2) 34; restore (a 3) 42; restore (a 4) 35;
   restore (a 5) 36; restore (a 6) 37; restore (a 7) 38].

(** Where the program goes on: behind an [ecall], at the instruction that an
    interrupt kept from running. *)
Definition return_address (h : hart) : hart :=
  let h := exec [restore t1 33; Li t6 8; restore t5 32] h in
  let h := if x h t5 =? x h t6 then exec [Addi t1 t1 4] h else h in
  exec [Csrw_sepc t1] h.

Definition restore_registers (h : hart) : hart :=
  let h := exec ((λ i, restore i i) <$> seq 1 9) h in
  let h := if x h t5 =? x h t6 then h else exec [restore (a 0) 10; restore (a 1) 11] h in
  exec ((λ i, restore i i) <$> seq 12 20) h.

Definition trap_exit (h : hart) : hart :=
  exec (deallocate_stack frame_size) (restore_registers (return_address h)).

(** ** Calling a handler *)

(** What a compiled C function leaves: [after_call r h] for the result [r],
    [None] for a [void] function.  The convention of RISC-V: the stack
    pointer and the saved registers are as before, the result is in [a0],
    the caller's frame is not written to, and what the registers hold has 64
    bits.  [parameters_kept] goes beyond the convention: the first three words
    of the frame of src/strap.S are where the dispatcher finds its ninth to
    eleventh parameter, which a callee may write to, and two of them are the
    saved ra and sp.  It is an assumption on the compiled dispatcher, which has
    no reason to write to its parameters; src/strap.S relies on it to give the
    program its ra back. *)
Class CallConvention := {
  after_call : option Z → hart → hart;
  callee_saved r h i : (i ∈ [2; 3; 4; 8; 9] ++ seq 18 10)%nat → x (after_call r h) i = x h i;
  locals_kept r h n : (3 <= n < 43)%nat →
    load_le (ram (after_call r h)) (x h sp + slot n) 8 = load_le (ram h) (x h sp + slot n) 8;
  parameters_kept r h n : (n < 3)%nat →
    load_le (ram (after_call r h)) (x h sp + slot n) 8 = load_le (ram h) (x h sp + slot n) 8;
  returns_value h r : x (after_call (Some r) h) (a 0) = r;
  wide_kept r h : (∀ v, r = Some v → in_u64 v) → wide h → wide (after_call r h);
}.

Lemma frame_kept `{!CallConvention} r h n : (n < 43)%nat →
  load_le (ram (after_call r h)) (x h sp + slot n) 8 = load_le (ram h) (x h sp + slot n) 8.
Proof. intros Hn. destruct (decide (n < 3)%nat); [by apply parameters_kept|apply locals_kept; lia]. Qed.

(** Argument [n] of a call: the first eight in registers, the others on the
    stack. *)
Definition arg (h : hart) (n : nat) : Z :=
  if decide (n < 8)%nat then x h (a n) else load_le (ram h) (x h sp + 8 * (Z.of_nat n - 8)) 8.

(** The processor and, above it, the state of the kernel. *)
Record core (S : Type) := Core { cpu : hart; sys : system S }.
Arguments Core {S}.
Arguments cpu {S}.
Arguments sys {S}.

Definition set_cpu {S} (h : hart) (c : core S) := Core h (sys c).
Definition set_sys {S} (s : system S) (c : core S) := Core (cpu c) s.

Section dispatch.
Context {S : Type} `{!BlkDev S} `{!Console S} `{!Uninit} `{!Board S} `{!Services S} `{!Build} `{!CallConvention}.
Context (clock : nat → Z) (call_deferred : Z → Z → prog os_state unit) (turns : nat).

Definition on_sys {A} : prog (system S) A → prog (core S) A := on sys set_sys.
Definition on_cpu (f : hart → hart) : prog (core S) unit := modify (λ c, set_cpu (f (cpu c)) c).

Definition call_handler (t : trap_handler) : prog (core S) unit :=
  h ← gets cpu;
  match t with
  | system_call_dispatcher_h =>
      r ← on_sys (system_call_dispatcher clock call_deferred turns (arg h 0) (arg h 1) (arg h 2) (arg h 3)
                    (arg h 4) (arg h 5) (arg h 6) (arg h 7) (arg h 8) (arg h 9) (arg h 10));
      on_cpu (after_call (Some r))
  | timer_interrupt_handler_h =>
      on_sys (on_os (timer_interrupt_handler clock call_deferred));; on_cpu (after_call None)
  | software_interrupt_handler_h =>
      r ← on_sys software_interrupt_handler; on_cpu (after_call (Some r))
  end.

(** The shift loses the top bit of the cause, which tells interrupts from
    exceptions.  The handler stands for its address in [into]. *)
Definition load_trap_handler_address (trap : nat) : prog (core S) (option trap_handler) :=
  on_cpu (exec [Slli trap trap 3]);;
  h ← gets cpu;
  mret (default None (_trap_handlers !! Z.to_nat (x h trap / 8))).

Definition _trap_dispatch : prog (core S) unit :=
  on_cpu (exec trap_entry);;
  t ← load_trap_handler_address t0;
  match t with
  | None => stop Undefined
  | Some t => on_cpu (exec load_arguments);; call_handler t;; on_cpu trap_exit
  end.

(** ** Calls of the program (src/demandos.c)

    The arguments go to their registers and the [scall] instruction at [pc]
    traps with cause 8; the result is in [a0]. *)
Definition taken (cause pc : Z) (h : hart) : hart := Hart (x h) cause pc 0 (sstatus h) (ram h).

Definition scall (pc syscall_no arg0 arg1 : Z) : prog (core S) Z :=
  on_cpu (set_x (a 7) syscall_no);;
  on_cpu (set_x (a 0) arg0);;
  on_cpu (set_x (a 1) arg1);;
  on_cpu (taken 8 pc);;
  _trap_dispatch;;
  h ← gets cpu;
  mret (x h (a 0)).

Definition wait_for_event (pc _timeout _event : Z) : prog (core S) Z := scall pc 209 _timeout _event.
Definition mount_hd (pc : Z) : prog (core S) Z := scall pc 210 0 0.
End dispatch.
