(* ===== verification/Ramdisk.v ===== *)
(** * A concrete block device

    A disk held in a list, with a console beside it: the smallest state that
    satisfies [BlkSpec], [ConsoleSpec] and [Uninit].  The theorems of the
    block and file-system files are about any such state; their witnesses run
    on this one.  It models no code of the repository. *)

From S2P Require Import Prelude Layout Ecall Blk Ext2.

Record ramdisk := RamDisk { disk : list byte; line : list Z }.

(** A sector past the end is refused with status 1 (VIRTIO_BLK_S_IOERR). *)
#[export] Instance ramdisk_blk : BlkDev ramdisk := {|
  read_sector sector blk := λ s,
    if decide (512 * sector + 512 <= zlen (disk s))
    then (Done (0, slice (disk s) (512 * sector) 512), s) else (Done (1, blk), s);
  write_sector sector blk := λ s,
    if decide (512 * sector + 512 <= zlen (disk s))
    then (Done 0, RamDisk (splice (disk s) (512 * sector) blk) (line s)) else (Done 1, s)
|}.

#[export, refine] Instance ramdisk_blk_spec : BlkSpec ramdisk := {|
  ready s := zlen (disk s) mod 512 = 0 ∧ zlen (disk s) <= 2 ^ 64;
  image := disk
|}.
Proof.
  - by intros s [].
  - by intros s [].
  - intros s sector blk Hr ? ? ?. exists s. cbn. by rewrite decide_True.
  - intros s sector blk Hr ? ? ?. exists 1, blk, s. cbn. by rewrite decide_False by lia.
  - intros s sector blk Hr Hb ? ?. eexists. cbn. rewrite decide_True by done.
    split; [done|]. cbn. rewrite zlen_splice by lia. done.
Defined.

#[export] Instance ramdisk_console : Console ramdisk :=
  {| eprint p := λ s, (Done tt, RamDisk (disk s) (line s ++ [p])) |}.
#[export, refine] Instance ramdisk_console_spec : ConsoleSpec ramdisk := {| serial := line |}.
Proof. intros p s. by eexists. Defined.

(** Uninitialised memory that happens to hold the byte 0xa5. *)
#[export, refine] Instance stale_uninit : Uninit :=
  {| uninit n := replicate (Z.to_nat n) Byte.xa5 |}.
Proof. intros. unfold zlen. rewrite length_replicate. lia. Defined.

(** A disk on which every other sector cannot be read or written. *)
Record faulty := Faulty { good : list byte }.
#[export] Instance faulty_blk : BlkDev faulty := {|
  read_sector sector blk := λ s,
    if Z.even sector then (Done (0, zeros 512), s) else (Done (1, blk), s);
  write_sector sector blk := λ s, (Done (if Z.even sector then 0 else 1), s)
|}.

Lemma faulty_returns : sectors_return faulty.
Proof.
  split; intros sector blk s Hb; cbn.
  - destruct (Z.even sector); [by exists 0, (zeros 512), s|by exists 1, blk, s].
  - by eexists _, s.
Defined.

(** *** A small ext2 volume

    Nine blocks of 1 KiB: the superblock (block 1), the group descriptor
    (block 2), the inode table (block 3), the root directory (block 5) with
    the entries ["."], [".."] and ["lib"], the directory ["lib"] (block 7)
    with the entry ["log"], and the two blocks 6 and 8 of the file
    ["/lib/log"].  Inodes: 2 is the root, 3 is ["lib"], 4 is the file. *)

Definition bytes_of (s : string) : list byte := String.list_byte_of_string s.

Definition entry (ino rec_len : Z) (name : string) : list byte :=
  le_split 4 ino ++ le_split 2 rec_len ++ le_split 1 (zlen (bytes_of name)) ++ le_split 1 0 ++
  bytes_of name.

Definition sample_superblock : list byte :=
  set_field ext2_superblock "s_rev_level"
    (set_field ext2_superblock "s_inode_size"
      (set_field ext2_superblock "s_inodes_per_group" (zeros 1024) 8) 256) 1.

(** A one-block inode or, for the file, a two-block one. *)
Definition sample_inode (mode size b0 b1 : Z) : list byte :=
  put_le (put_le
    (set_field ext2_inode "i_size" (set_field ext2_inode "i_mode" (zeros 256) mode) size)
    40 4 b0) 44 4 b1.

Definition sample_root_dir : list byte :=
  splice (splice (splice (zeros 1024) 0 (entry 2 12 ".")) 12 (entry 2 12 "..")) 24 (entry 3 1000 "lib").
Definition sample_lib_dir : list byte := splice (zeros 1024) 0 (entry 4 1024 "log").

Definition sample_image : list byte :=
  let img := zeros 9216 in
  let img := splice img 1024 sample_superblock in
  let img := splice img 2048 (set_field ext2_blockgroup "bg_inode_table" (zeros 32) 3) in
  let img := splice img (3072 + 256) (sample_inode 16877 1024 5 0) in
  let img := splice img (3072 + 512) (sample_inode 16877 1024 7 0) in
  let img := splice img (3072 + 768) (sample_inode 33188 1500 6 8) in
  let img := splice img 5120 sample_root_dir in
  let img := splice img 7168 sample_lib_dir in
  let img := splice img 6144 (bytes_of "first block") in
  splice img 8192 (bytes_of "second block").

Definition sample : ramdisk := RamDisk sample_image [].

(** The volume is a closed list of 9 KiB: only [vm_compute] may unfold it. *)
#[global] Opaque sample_image.
