(* ===== verification/RefDevice.v ===== *)
(** * A concrete virtio block device

    A device that satisfies the law [VirtioBlk]: notified, it waits a little,
    then takes the chain it finds, serves the request and completes it.  It
    models no code of the repository; the theorems about the virtqueue driver
    are about any device with the law, and their witnesses run on this one. *)

From S2P Require Import Prelude Layout Ecall Memory Machine Heap LinkerScript Vring QueueState Blk BlkVring.

(** [rd_busy] is the number of steps until the device looks at its queue. *)
Record ref_device := RefDevice { rd_view : blk_view; rd_busy : option nat }.

Definition latency : nat := 2.

(** One request: the addresses of the three buffers of the chain that the
    available ring names, and what becomes of the disk and the memory. *)
Definition serve_buffers (v : blk_view) (m : memory) (op sector data status : Z) : list byte * memory :=
  let img := bv_image v in
  if decide (512 * sector + 512 <= zlen img) then
    if op =? 0 then (img, store_le (store m data (slice img (512 * sector) 512)) status 1 0)
    else (splice img (512 * sector) (load m data 512), store_le m status 1 0)
  else (img, store_le (if op =? 0 then store m data (zeros 512) else m) status 1 1).

Definition serve_chain (v : blk_view) (m : memory) : blk_view * memory :=
  let ring := queue_avail (bv_queue v) (bv_num v) + 4 in
  let head := load_le m (ring + 2 * (bv_last_avail v mod bv_num v)) 2 in
  let d0 := bv_queue v + 16 * head in
  let d1 := bv_queue v + 16 * load_le m (d0 + 14) 2 in
  let d2 := bv_queue v + 16 * load_le m (d1 + 14) 2 in
  let hdr := load_le m d0 8 in
  let '(img, m') := serve_buffers v m (load_le m hdr 4) (load_le m (hdr + 8) 8) (load_le m d1 8) (load_le m d2 8) in
  ({| bv_image := img; bv_host := bv_host v; bv_num := bv_num v; bv_queue := bv_queue v;
      bv_last_avail := u16 (bv_last_avail v + 1) |}, complete v m' head 513).

#[export] Instance ref_platform : Platform ref_device := {|
  mmio_store a n x d :=
    if decide (a = bv_host (rd_view d) + 16) then RefDevice (rd_view d) (Some latency) else d;
  mmio_load a n d := (if decide (a = bv_host (rd_view d) + 12) then u16 (bv_num (rd_view d)) else 0, d);
  dma_step d m :=
    match rd_busy d with
    | None => (d, m)
    | Some (S n) => (RefDevice (rd_view d) (Some n), m)
    | Some O => let '(v, m') := serve_chain (rd_view d) m in (RefDevice v None, m')
    end;
  patience := 8
|}.

Lemma serve_chain_posted v m op sector hdr data status head :
  request_posted v m op sector hdr data status head →
  ∃ img m', served v m op sector data status head img m' ∧
    serve_chain v m = ({| bv_image := img; bv_host := bv_host v; bv_num := bv_num v;
      bv_queue := bv_queue v; bv_last_avail := u16 (bv_last_avail v + 1) |}, m').
Proof.
  intros [_ Hhead (n1 & n2 & n3 & (Hh & _ & _ & Hn1) & (Hd & _ & _ & Hn2) & (Hst & _)) (Hop & Hops) Hsec].
  unfold serve_chain. rewrite Hhead, Hn1, Hn2, Hh, Hd, Hst, Hop, Hsec. unfold serve_buffers, served.
  destruct (decide (512 * sector + 512 <= zlen (bv_image v))).
  - destruct Hops as [->| ->]; cbn; eauto 8.
  - do 2 eexists. split; [|done]. split; [done|]. exists (zeros 512), 1, 513.
    split_and!; [by apply zlen_zeros|done|done].
Qed.

#[export, refine] Instance ref_virtio_blk : VirtioBlk ref_device := {| view := rd_view |}.
Proof.
  - intros d. cbn. by rewrite decide_True.
  - intros d m op sector hdr data status head v d0 Hposted.
    assert (d0 = RefDevice v (Some latency)) as -> by (unfold d0; cbn; by rewrite decide_True).
    destruct (serve_chain_posted _ _ _ _ _ _ _ _ Hposted) as (img & m' & Hserved & Hchain).
    eexists latency, (RefDevice _ None), m', img. split_and!.
    + cbn. unfold latency. lia.
    + intros j Hj. unfold latency in Hj.
      assert (j = 1%nat ∨ j = 2%nat) as [->| ->] by lia; reflexivity.
    + cbn. fold v. by rewrite Hchain.
    + done.
    + done.
Defined.

(** ** A machine with this device

    A queue of 8 entries at 1 MiB and a disk of two sectors; all of memory is
    zero. *)
Definition ref_view (img : list byte) : blk_view :=
  {| bv_image := img; bv_host := 4096; bv_num := 8; bv_queue := 2 ^ 20; bv_last_avail := 0 |}.

Definition ref_vring : vring :=
  {| num := 8; size := 4174; bouncebufs := 0;
     bookeeping := {| used_last := 0; avail_next := 0; avail_avail := 0; used_avail := 0;
                      descr_head := 0; descr_next := 0 |};
     desc := 2 ^ 20; avail := 2 ^ 20 + 128; used := 2 ^ 20 + 4096 |}.

Definition ref_driver : virtio_driver :=
  {| device_id := 2; initialized := true; init_f := Some init_blk_virtio_f; host := 4096; pci := 0;
     conf := 0; vrings := [ref_vring] |}.

Definition null_driver : virtio_driver :=
  {| device_id := 0; initialized := false; init_f := None; host := 0; pci := 0; conf := 0; vrings := [] |}.

(** The heap as [initialize_heap] leaves it. *)
Definition ref_heap : heap :=
  let start := _heap_start in
  {| heap_start := start; heap_end := _heap_end;
     arena_start_32 := start; arena_end_32 := start + 330;
     arena_start_64 := start + 330; arena_end_64 := start + 980;
     arena_start_128 := start + 980; arena_end_128 := start + 2270;
     arena_start_256 := start + 2270; arena_end_256 := start + 4840;
     arena_start_512 := start + 4840; arena_end_512 := start + 9970 |}.

Definition ref_machine (img : list byte) : machine ref_device :=
  Machine ∅ (RefDevice (ref_view img) None) [null_driver; ref_driver] (2 ^ 31) ref_heap
    _forever_storage_start 0 [].

Lemma ref_ready img :
  zlen img mod 512 = 0 → zlen img <= 2 ^ 64 → blk_ready (ref_machine img).
Proof.
  intros. exists ref_driver, ref_vring. split; try done.
  split; vm_compute; intuition congruence.
Defined.
