(* ===== verification/BlkTheorems.v ===== *)
(** * The byte-level block routines are correct

    Properties of [virtio_blk_read_sync] and [virtio_blk_write_sync] (src/blk.c)
    on any state that satisfies the block-device interface, and, for the
    bounds, on any device whatever its statuses are. *)

From S2P Require Import Prelude Ecall Blk Ext2 Ramdisk.

Lemma available_range len offset size : 0 <= size → 0 <= available len offset size <= size.
Proof. unfold available. lia. Qed.

Lemma zlen_available {A} (l : list A) offset size :
  0 <= offset → 0 <= size → zlen (slice l offset size) = available (zlen l) offset size.
Proof. intros. by rewrite zlen_slice_min. Qed.

(** A buffer after [n] bytes at [at_] were replaced, byte by byte. *)
Lemma lookup_splice_Z {A} (l new : list A) o i :
  0 <= o → o <= zlen l → 0 <= i →
  splice l o new !! Z.to_nat i =
    if decide (o <= i < o + zlen new) then new !! Z.to_nat (i - o) else l !! Z.to_nat i.
Proof.
  intros. rewrite lookup_splice by lia. unfold zlen.
  repeat case_decide; try lia; try done. f_equal. lia.
Qed.

Lemma lookup_slice_Z {A} (l : list A) o n i :
  0 <= o → 0 <= i < n → slice l o n !! Z.to_nat i = l !! Z.to_nat (o + i).
Proof. intros. rewrite lookup_slice, decide_True by lia. f_equal. lia. Qed.

Section claims.
Context {St : Type} `{BlkSpec St}.
Implicit Types s : St.

(** C15.  [virtio_blk_read_sync] delivers the disk: it returns the number
    [r] of requested bytes that lie on the disk (a short count exactly when
    the request runs past the end), puts byte [offset + k] of the disk at
    [output + k] for every [k < r], whatever the alignment to sectors is,
    changes no other byte of the caller's buffer and nothing on the disk. *)
Theorem blk_read_delivers output at_ offset size s :
  ready s → 0 <= at_ → 0 <= offset → 0 <= size < 2 ^ 64 →
  offset + size <= 2 ^ 64 → at_ + size <= zlen output →
  let r := available (zlen (image s)) offset size in
  ∃ output' s', virtio_blk_read_sync output at_ offset size s = (Done (r, output'), s') ∧
    ready s' ∧ image s' = image s ∧ zlen output' = zlen output ∧
    ∀ i, 0 <= i →
      output' !! Z.to_nat i =
        if decide (at_ <= i < at_ + r) then image s !! Z.to_nat (offset + (i - at_))
        else output !! Z.to_nat i.
Proof.
  intros Hs Hat Hoff Hsize Hsum Hout r.
  destruct (virtio_blk_read_sync_spec output at_ offset size s) as (s' & Hrun & Hr & Him); [done..|].
  pose proof (zlen_available (image s) offset size Hoff ltac:(lia)) as Hz. fold r in Hz.
  pose proof (available_range (zlen (image s)) offset size ltac:(lia)) as Hrange. fold r in Hrange.
  exists (splice output at_ (slice (image s) offset size)), s'. rewrite Hz in Hrun.
  split_and!; [done..|rewrite zlen_splice; lia|].
  intros i Hi. rewrite lookup_splice_Z, Hz by lia.
  case_decide; [|done]. apply lookup_slice_Z; lia.
Qed.

(** C16.  [virtio_blk_write_sync] changes exactly the bytes it was asked to:
    it returns the number [r] of bytes that lie on the disk, byte
    [offset + k] of the disk becomes byte [k] of the caller's buffer for
    every [k < r], and every other byte of the disk, in particular the rest
    of the first and of the last sector, keeps its value. *)
Theorem blk_write_exact input at_ offset size s :
  ready s → 0 <= at_ → 0 <= offset → 0 <= size < 2 ^ 64 →
  offset + size <= 2 ^ 64 → at_ + size <= zlen input →
  let r := available (zlen (image s)) offset size in
  ∃ s', virtio_blk_write_sync input at_ offset size s = (Done r, s') ∧ ready s' ∧
    zlen (image s') = zlen (image s) ∧
    ∀ j, 0 <= j →
      image s' !! Z.to_nat j =
        if decide (offset <= j < offset + r) then input !! Z.to_nat (at_ + (j - offset))
        else image s !! Z.to_nat j.
Proof.
  intros Hs Hat Hoff Hsize Hsum Hin r.
  destruct (virtio_blk_write_sync_spec input at_ offset size s) as (s' & Hrun & Hr & Him); [done..|].
  fold r in Hrun, Him. unfold available in r.
  assert (0 < r → offset + r <= zlen (image s)) by lia.
  assert (zlen (slice input at_ r) = r) as Hz by (apply zlen_slice; lia).
  exists s'. rewrite Him. destruct (decide (r = 0)) as [Hr0|].
  - rewrite Hr0, slice_nil, splice_nil. split_and!; [congruence|done..|].
    intros j Hj. by rewrite decide_False by lia.
  - split_and!; [done..|rewrite zlen_splice; lia|].
    intros j Hj. rewrite lookup_splice_Z, Hz by lia.
    case_decide; [|done]. apply lookup_slice_Z; lia.
Qed.

(** What is written is read back: after a write of [size] bytes inside
    the disk, a read of the same range into any buffer returns the bytes
    written, at any offset and length. *)
Theorem blk_write_read_roundtrip input output offset s :
  ready s → 0 <= offset → offset + zlen input <= zlen (image s) →
  zlen input < 2 ^ 64 → zlen input <= zlen output →
  ∃ s' s'', virtio_blk_write_sync input 0 offset (zlen input) s = (Done (zlen input), s') ∧
    virtio_blk_read_sync output 0 offset (zlen input) s'
    = (Done (zlen input, splice output 0 input), s'') ∧ image s'' = image s'.
Proof.
  intros Hs Hoff Hin Hsize Hout. pose proof (image_bound s Hs). pose proof (zlen_nonneg input).
  destruct (virtio_blk_write_sync_spec input 0 offset (zlen input) s)
    as (s' & Hwr & Hr & Him); [done|lia..|].
  replace (available _ _ _) with (zlen input) in * by (unfold available; lia).
  rewrite slice_all in Him by lia.
  destruct (virtio_blk_read_sync_spec output 0 offset (zlen input) s')
    as (s'' & Hrd & Hr' & Him'); [done|lia..|].
  rewrite Him, slice_splice_same in Hrd by lia. eauto.
Qed.
End claims.

Section any_device.
Context {St : Type} `{!BlkDev St}.
Hypothesis returns : sectors_return St.
Implicit Types s : St.

(** C30.  The byte loops are safe on any device that answers: whatever the
    statuses are and even when [offset + size] wraps around, they return
    after at most [size / 512 + 2] sectors with a count [r] of at most
    [size], and the read has written the first [r] bytes of its destination
    and nothing else. *)
Theorem blk_loops_safe output input at_ offset size s :
  0 <= at_ → 0 <= offset → 0 <= size < 2 ^ 64 → at_ + size <= zlen output → at_ + size <= zlen input →
  (∃ r output' s', virtio_blk_read_sync output at_ offset size s = (Done (r, output'), s') ∧
     0 <= r <= size ∧ zlen output' = zlen output ∧
     ∀ i, 0 <= i → i < at_ ∨ at_ + r <= i → output' !! Z.to_nat i = output !! Z.to_nat i) ∧
  (∃ r s', virtio_blk_write_sync input at_ offset size s = (Done r, s') ∧ 0 <= r <= size).
Proof using returns.
  intros Hat Hoff Hsize Hout Hin.
  assert (0 < size → turns_needed (offset + 0) (size - 0) <= Z.of_nat (sector_turns size)) as Hturns
    by (intros; rewrite Z.sub_0_r; apply turns_enough; lia).
  split.
  - destruct (blk_read_loop_total returns (sector_turns size) output at_ offset size 0 s)
      as (data & s' & Hrun & Hle); [lia..|done|].
    zero_norm. pose proof (zlen_nonneg data). do 3 eexists. split; [exact Hrun|].
    split_and!; [lia..|rewrite zlen_splice; lia|].
    intros i Hi Hir. rewrite lookup_splice_Z by lia. by rewrite decide_False by lia.
  - destruct (blk_write_loop_total returns (sector_turns size) input at_ offset size 0 s)
      as (r & s' & Hrun & Hr); [lia..|done|eauto].
Qed.
End any_device.

(** ** Witnesses *)

Definition two_sectors : ramdisk := RamDisk (zeros 512 ++ replicate 512 Byte.x07) [].

Lemma blk_read_delivers_witness :
  ∃ output' s', virtio_blk_read_sync (zeros 8) 2 508 6 two_sectors = (Done (6, output'), s') ∧
    output' = zeros 6 ++ [Byte.x07; Byte.x07].
Proof.
  destruct (blk_read_delivers (zeros 8) 2 508 6 two_sectors) as (o & s' & Hrun & _);
    [split; vm_compute; congruence|vm_compute; intuition congruence..|].
  exists o, s'. split; [exact Hrun|].
  assert (virtio_blk_read_sync (zeros 8) 2 508 6 two_sectors
    = (Done (6, zeros 6 ++ [Byte.x07; Byte.x07]), two_sectors)) as Heq by (vm_compute; reflexivity).
  rewrite Heq in Hrun. by inversion Hrun.
Defined.

Lemma blk_write_exact_witness :
  ∃ s', virtio_blk_write_sync (replicate 8 Byte.x01) 0 1020 8 two_sectors = (Done 4, s') ∧
    zlen (image s') = 1024.
Proof.
  destruct (blk_write_exact (replicate 8 Byte.x01) 0 1020 8 two_sectors) as (s' & Hrun & _ & Hz & _);
    [split; vm_compute; congruence|vm_compute; intuition congruence..|].
  exists s'. split; [exact Hrun|exact Hz].
Defined.

Lemma blk_write_read_roundtrip_witness :
  ∃ s' s'', virtio_blk_write_sync (bytes_of "abc") 0 511 3 two_sectors = (Done 3, s') ∧
    virtio_blk_read_sync (zeros 3) 0 511 3 s' = (Done (3, bytes_of "abc"), s'').
Proof.
  destruct (blk_write_read_roundtrip (bytes_of "abc") (zeros 3) 511 two_sectors)
    as (s' & s'' & Hwr & Hrd & _);
    [split; vm_compute; congruence|vm_compute; intuition congruence..|].
  exists s', s''. split; [exact Hwr|exact Hrd].
Defined.

(** The second sector fails. *)
Lemma blk_loops_safe_witness :
  ∃ output' s', virtio_blk_read_sync (zeros 1024) 0 0 1024 (Faulty []) = (Done (512, output'), s') ∧
    zlen output' = 1024.
Proof.
  destruct (proj1 (blk_loops_safe faulty_returns (zeros 1024) (zeros 1024) 0 0 1024 (Faulty [])
    ltac:(lia) ltac:(lia) ltac:(lia) ltac:(vm_compute; congruence) ltac:(vm_compute; congruence)))
    as (r & o & s' & Hrun & _ & Hz & _).
  exists o, s'. split; [|exact Hz]. rewrite Hrun. vm_compute in Hrun. by inversion Hrun.
Defined.
