(* ===== verification/Ext2Theorems.v ===== *)
(** * The inode layer of the ext2 code is correct

    Properties of the superblock, block, inode, file-content and time-stamp
    functions of src/ext2.c, on any state that satisfies the block-device
    interface. *)

From S2P Require Import Prelude Layout Ecall Blk Ext2 Ext2File BlkTheorems Ramdisk.

(** The positions of a time stamp in the inode and the setter the code has
    for it. *)
Definition time_setters {St} `{!BlkDev St} `{!Uninit}
    : list (string * (list byte → Z → Z → prog St bool)) :=
  [("i_atime", set_atime_for_ino); ("i_mtime", set_mtime_for_ino); ("i_ctime", set_ctime_for_ino)]%string.

(** The message [read_superblock] prints about a superblock. *)
Definition superblock_message (sb : list byte) : list Z :=
  if negb (sb.[ext2_superblock, "s_log_block_size"%string] =? 0)
  then chars ("Error: Unsupported block size for filesystem!" +:+ nl)
  else if negb (sb.[ext2_superblock, "s_inode_size"%string] =? 256)
  then chars ("Error: Unsupported inode size for filesystem!" +:+ nl)
  else if negb (sb.[ext2_superblock, "s_rev_level"%string] =? 1)
  then chars ("Error: Unsupported revision level for filesystem!" +:+ nl)
  else [].

Lemma prints_msg {St} `{ConsoleSpec St} msg (s : St) :
  Forall (λ c, c ≠ 0) (chars msg) → prints (eprint_msg msg) (chars msg) s.
Proof. intros. by apply prints_str. Qed.

(** [shl_int 1024 n] is defined exactly for [n < 21], and is 1024 only for 0. *)
Lemma shl_1024 {S} n (s : S) :
  0 <= n < 21 → shl_int 1024 n s = (Done (1024 * 2 ^ n), s) ∧ (1024 * 2 ^ n =? 1024) = (n =? 0).
Proof.
  intros Hn. unfold shl_int. rewrite Z.shiftl_mul_pow2 by lia.
  assert (2 ^ n <= 2 ^ 20) by (apply Z.pow_le_mono_r; lia).
  rewrite bind_defined by lia. split; [done|].
  destruct (Z.eqb_spec n 0) as [->|]; [done|].
  assert (2 ^ 1 <= 2 ^ n) by (apply Z.pow_le_mono_r; lia). lia.
Qed.

Section claims.
Context {St : Type} `{BlkSpec St} `{!Uninit}.
Implicit Types s : St.

(** An inode written with [inode_to_ino] is read back by
    [inode_from_ino]: both report success and the 256 bytes agree, provided
    the inode table does not overlap the group descriptor that locates it. *)
Theorem inode_write_read sb rinode old ino loc s :
  ready s → inode_placed (image s) sb ino loc → zlen rinode = 256 → zlen old = 256 →
  loc + 256 <= bg_position sb ino ∨ bg_position sb ino + 32 <= loc →
  ∃ s' s'', inode_to_ino sb rinode ino s = (Done true, s') ∧
    inode_from_ino sb old ino s' = (Done (true, rinode), s'').
Proof.
  intros Hs Hp Hlen Hold Hap. pose proof (placed_nonneg _ _ _ _ Hp).
  pose proof Hp as [[Hino (Hipg & Hbg & _)] Hin].
  destruct (inode_to_ino_spec sb rinode ino loc s) as (s' & Hwr & Hr & Him); [done..|].
  destruct (inode_from_ino_spec sb old ino loc s') as (s'' & Hrd & _); [done| |done|].
  - rewrite Him. apply (inode_placed_ext (image s)); [apply zlen_splice; lia| |done].
    apply slice_splice_other; unfold bg_position in *; try lia.
    pose proof (get_field_nonneg ext2_superblock "s_inodes_per_group" sb).
    assert (0 <= (ino - 1) / sb.[ext2_superblock, "s_inodes_per_group"%string])
      by (apply Z.div_pos; lia). lia.
  - rewrite Him, <-Hlen, slice_splice_same in Hrd by lia. eauto.
Qed.

(** [set_atime_for_ino], [set_mtime_for_ino] and [set_ctime_for_ino]
    report success and store the time, modulo 2^32, little-endian in their
    own field of the inode on the disk; every other byte of the disk, the
    other time stamps included, keeps its value. *)
Theorem set_time_exact f setter sb ino loc time s :
  (f, setter) ∈ time_setters → ready s → inode_placed (image s) sb ino loc →
  let pos := loc + offsetof ext2_inode f in
  ∃ s', setter sb ino time s = (Done true, s') ∧ ready s' ∧
    get_le (image s') pos 4 = u32 time ∧
    ∀ j, 0 <= j → j < pos ∨ pos + 4 <= j → image s' !! Z.to_nat j = image s !! Z.to_nat j.
Proof.
  intros Hf Hs Hp pos. pose proof (placed_nonneg _ _ _ _ Hp). pose proof (placed_inside _ _ _ _ Hp).
  assert (setter = set_time_for_ino f ∧ fieldsize ext2_inode f = 4 ∧ 0 <= offsetof ext2_inode f <= 252)
    as (-> & Hsz & Hoff).
  { unfold time_setters in Hf. rewrite !elem_of_cons, elem_of_nil in Hf.
    destruct Hf as [[= -> ->]|[[= -> ->]|[[= -> ->]|[]]]]; (split; [reflexivity|]); layout; lia. }
  destruct (set_time_for_ino_spec f sb ino loc time s) as (s' & Hrun & Hr & Him);
    [done|lia|lia|done..|].
  exists s'. rewrite Him. fold pos. split_and!; [done..| |].
  - rewrite get_put_same by lia. done.
  - intros j Hj Hjpos. unfold put_le. rewrite lookup_splice_Z, zlen_le_split by lia.
    by rewrite decide_False by lia.
Qed.

(** C18.  [read_from_ino] returns the bytes of the file: [buffer[k]] becomes
    byte [(offset + k) mod 1024] of the disk block that entry
    [(offset + k) / 1024] of the inode names, for every [k < len], across
    block boundaries, and the rest of the buffer and the disk are
    unchanged. *)
Theorem read_from_ino_exact sb ino loc buffer offset len s :
  ready s → inode_placed (image s) sb ino loc →
  0 <= offset → 0 <= len < 2 ^ 64 → offset + len <= 2 ^ 64 → len <= zlen buffer →
  let inode := slice (image s) loc 256 in
  range_ok (zlen (image s)) inode offset len →
  ∃ buffer' s', read_from_ino sb ino buffer offset len s = (Done (len, buffer'), s') ∧
    image s' = image s ∧ zlen buffer' = zlen buffer ∧
    ∀ k, 0 <= k →
      buffer' !! Z.to_nat k =
        if decide (k < len) then image s !! Z.to_nat (file_pos inode (offset + k))
        else buffer !! Z.to_nat k.
Proof.
  intros Hs Hp Hoff Hlen Hsum Hbuf inode Hok.
  destruct (read_from_ino_spec sb ino loc buffer offset len s) as (s' & Hrun & _ & Him); [done..|].
  pose proof (zlen_file_bytes (image s) inode offset len ltac:(lia)) as Hz.
  eexists _, s'. split; [exact Hrun|]. fold inode.
  split_and!; [done|rewrite zlen_splice; lia|].
  intros k Hk. rewrite lookup_splice_Z, Hz by lia. rewrite Z.sub_0_r, Z.add_0_l.
  destruct (decide (k < len)).
  - rewrite decide_True, lookup_file_bytes by lia.
    symmetry. apply list_lookup_lookup_total_lt.
    pose proof (file_pos_inside _ _ _ (Hok k ltac:(lia))). unfold zlen in *. lia.
  - by rewrite decide_False by lia.
Qed.

(** C19.  [write_to_ino] stores the caller's bytes at exactly the disk
    positions of the file (when no disk block appears twice among those it
    touches), reports the full length, and changes no other byte of the
    disk: no other file, no metadata, and not the rest of its own blocks. *)
Theorem write_to_ino_exact sb ino loc buffer offset len s :
  ready s → inode_placed (image s) sb ino loc →
  0 <= offset → 0 <= len < 2 ^ 64 → offset + len <= 2 ^ 64 → len <= zlen buffer →
  let inode := slice (image s) loc 256 in
  range_ok (zlen (image s)) inode offset len → blocks_distinct inode offset len →
  ∃ s', write_to_ino sb ino buffer offset len s = (Done len, s') ∧ ready s' ∧
    (∀ k, 0 <= k < len →
       image s' !! Z.to_nat (file_pos inode (offset + k)) = buffer !! Z.to_nat k) ∧
    (∀ q, 0 <= q → (∀ k, 0 <= k < len → file_pos inode (offset + k) ≠ q) →
       image s' !! Z.to_nat q = image s !! Z.to_nat q).
Proof.
  intros Hs Hp Hoff Hlen Hsum Hbuf inode Hok Hdist.
  destruct (write_to_ino_spec sb ino loc buffer offset len s) as (s' & Hrun & Hr & Him); [done..|].
  fold inode in Him. assert (zlen (slice buffer 0 len) = len) as Hz by (apply zlen_slice; lia).
  exists s'. rewrite Him. split_and!; [done..| |].
  - intros k Hk. rewrite write_file_lookup by (rewrite ?Hz; done). by apply lookup_slice_Z; lia.
  - intros q Hq Hne. apply write_file_lookup_other; [|done]. by rewrite Hz.
Qed.

(** What is written to a file is read from it: [write_to_ino]
    followed by [read_from_ino] of the same range returns the bytes
    written, provided the range's blocks are usable and distinct and hold
    neither the inode nor its group descriptor. *)
Theorem file_write_read sb ino loc input output offset s :
  ready s → inode_placed (image s) sb ino loc → 0 <= offset →
  let len := zlen input in let inode := slice (image s) loc 256 in
  len < 2 ^ 64 → offset + len <= 2 ^ 64 → len <= zlen output →
  range_ok (zlen (image s)) inode offset len → blocks_distinct inode offset len →
  region_apart inode offset len loc 256 → region_apart inode offset len (bg_position sb ino) 32 →
  ∃ s' s'', write_to_ino sb ino input offset len s = (Done len, s') ∧
    read_from_ino sb ino output offset len s' = (Done (len, splice output 0 input), s'').
Proof.
  intros Hs Hp Hoff len inode Hlen Hsum Hout Hok Hdist Hap1 Hap2.
  pose proof (zlen_nonneg input). pose proof (placed_nonneg _ _ _ _ Hp).
  destruct (write_to_ino_spec sb ino loc input offset len s) as (s' & Hwr & Hr & Him); [done|done|lia..|done|].
  fold inode in Him. rewrite slice_all in Him by (unfold len; lia).
  assert (slice (image s') loc 256 = inode) as Hinode
    by (rewrite Him; apply slice_write_file; [lia|lia|done]).
  assert (zlen (image s') = zlen (image s)) as Hz by (rewrite Him; apply zlen_write_file).
  pose proof (bg_position_nonneg _ _ _ _ Hp).
  destruct (read_from_ino_spec sb ino loc output offset len s') as (s'' & Hrd & _);
    [done| |lia..| |].
  - apply (inode_placed_ext (image s)); [done| |done].
    rewrite Him. by apply slice_write_file; [lia|lia|].
  - by rewrite Hinode, Hz.
  - rewrite Hinode, Him, file_bytes_write_file in Hrd by done. eauto.
Qed.

(** When the inode lies past the end of the disk, reading and writing
    the file return -1 as a [size_t] and leave the disk and the caller's
    buffer alone, and the time setters return false. *)
Theorem missing_inode_reported sb ino loc buffer offset len f time s :
  ready s → inode_located (image s) sb ino loc → zlen (image s) < loc + 256 →
  (∃ s', read_from_ino sb ino buffer offset len s = (Done (2 ^ 64 - 1, buffer), s') ∧
         image s' = image s) ∧
  (∃ s', write_to_ino sb ino buffer offset len s = (Done (2 ^ 64 - 1), s') ∧ image s' = image s) ∧
  (∃ s', set_time_for_ino f sb ino time s = (Done false, s') ∧ image s' = image s).
Proof.
  intros Hs Hp Hend.
  destruct (inode_from_ino_short sb (uninit (sizeof ext2_inode)) ino loc s)
    as (junk & s' & Hrd & _ & Him); [done..|by rewrite zlen_uninit|].
  split_and!; exists s'; (split; [|done]).
  - unfold read_from_ino. run_with Hrd. done.
  - unfold write_to_ino. run_with Hrd. done.
  - unfold set_time_for_ino. run_with Hrd. done.
Qed.

(** C40.  A file position past the fifteenth block of the inode (15 KiB) has
    no defined behaviour: the loops index [i_block] with the position, so
    they read past the array instead of following the indirect blocks. *)
Theorem read_past_inode_blocks sb ino loc buffer offset len s :
  ready s → inode_placed (image s) sb ino loc → 15 * 1024 <= offset < 2 ^ 64 → 0 < len →
  (read_from_ino sb ino buffer offset len s).1 = Stop Undefined ∧
  (write_to_ino sb ino buffer offset len s).1 = Stop Undefined.
Proof.
  intros Hs Hp Hoff Hlen.
  destruct (inode_from_ino_spec sb (uninit (sizeof ext2_inode)) ino loc s)
    as (s1 & Hrd & _); [done..|by rewrite zlen_uninit|].
  assert (∃ n, block_turns len = S n) as [n Hn].
  { unfold block_turns, EXT2_SUPPORTED_BLOCK_SIZE.
    exists (Z.to_nat (len / 1024 + 1)). zlia. }
  assert (∀ inode (s2 : St), get_elem ext2_inode "i_block" inode
    (u64 (offset + 0) / EXT2_SUPPORTED_BLOCK_SIZE) s2 = (Stop Undefined, s2)) as Hundef.
  { intros. apply get_elem_outside. layout. right. rewrite wrap_small by lia.
    unfold EXT2_SUPPORTED_BLOCK_SIZE. zlia. }
  unfold read_from_ino, write_to_ino. run_with Hrd. run_with Hrd. cbn [negb]. rewrite Hn.
  cbn [read_ino_loop write_ino_loop]. rewrite (proj2 (Z.ltb_lt 0 len)) by done.
  by rewrite !(bind_stop _ _ _ _ _ (Hundef _ _)).
Qed.

(** A block written with [ext2_write_block] is the block read by
    [ext2_read_block], for every block inside the disk and below 4 GiB. *)
Theorem block_write_read block_no buffer old s :
  ready s → 0 <= block_no < 2 ^ 22 → block_no * 1024 + 1024 <= zlen (image s) →
  zlen buffer = 1024 → zlen old = 1024 →
  ∃ s' s'', ext2_write_block block_no 0 buffer s = (Done true, s') ∧
    image s' = splice (image s) (block_no * 1024) buffer ∧
    ext2_read_block block_no old s' = (Done (true, buffer), s'').
Proof.
  intros Hs Hno Hin Hlen Hold. unfold ext2_write_block, ext2_read_block, EXT2_SUPPORTED_BLOCK_SIZE.
  rewrite Z.add_0_r. rewrite !(wrap_small 32) by (rewrite ?(wrap_small 32); lia).
  destruct (virtio_blk_write_sync_spec buffer 0 (block_no * 1024) 1024 s)
    as (s' & Hwr & Hr & Him); [done|lia..|].
  replace (available _ _ _) with 1024 in * by (unfold available; lia).
  rewrite slice_all in Him by lia.
  destruct (virtio_blk_read_sync_spec old 0 (block_no * 1024) 1024 s')
    as (s'' & Hrd & _); [done|lia..|].
  rewrite Him, <-Hlen, slice_splice_same, splice_all in Hrd by lia.
  exists s', s''. run_with Hwr. split_and!; [done..|]. rewrite Hlen in Hrd. run_with Hrd. done.
Qed.
End claims.

(** Block positions are 32-bit products: a block number and the number
    2^22 above it name the same bytes, so an access at or above 4 GiB goes to
    the wrong block without an error, on every device. *)
Theorem block_position_wraps {St} `{!BlkDev St} block_no block_offset buffer (s : St) :
  ext2_read_block (block_no + 2 ^ 22) buffer s = ext2_read_block block_no buffer s ∧
  ext2_write_block (block_no + 2 ^ 22) block_offset buffer s
  = ext2_write_block block_no block_offset buffer s.
Proof.
  unfold ext2_read_block, ext2_write_block, EXT2_SUPPORTED_BLOCK_SIZE.
  assert (u32 ((block_no + 2 ^ 22) * 1024) = u32 (block_no * 1024)) as ->; [|done].
  unfold wrap. replace ((block_no + 2 ^ 22) * 1024) with (block_no * 1024 + 1 * 2 ^ 32) by lia.
  apply Z.mod_add. lia.
Qed.

Section superblock.
Context {St : Type} `{BlkSpec St} `{ConsoleSpec St}.
Implicit Types s : St.

Lemma read_superblock_spec superblock s :
  ready s → zlen superblock = 1024 → 2048 <= zlen (image s) →
  let sb := slice (image s) 1024 1024 in
  sb.[ext2_superblock, "s_log_block_size"%string] < 21 →
  ∃ s1 s', read_superblock superblock s
      = (Done (bool_decide (sb.[ext2_superblock, "s_log_block_size"%string] = 0 ∧
                            sb.[ext2_superblock, "s_inode_size"%string] = 256), sb), s') ∧
    image s1 = image s ∧ serial s' = serial s1 ++ superblock_message sb.
Proof.
  intros Hs Hlen Hin sb Hlog. unfold read_superblock, superblock_message. layout.
  assert (zlen sb = 1024) as Hsb by (apply zlen_slice; lia).
  destruct (virtio_blk_read_sync_spec superblock 0 1024 1024 s) as (s1 & Hrd & _ & Him);
    [done|lia..|].
  fold sb in Hrd. rewrite Hsb, splice_all in Hrd by lia. run_with Hrd. rewrite Z.eqb_refl. cbn [negb].
  pose proof (get_field_nonneg ext2_superblock "s_log_block_size" sb).
  destruct (shl_1024 sb.[ext2_superblock, "s_log_block_size"%string] s1) as [Hshl H1024]; [lia|].
  run_with Hshl. rewrite H1024. exists s1.
  set (log := get_field _ _ _) in *. set (isz := get_field _ "s_inode_size" _).
  set (rev := get_field _ "s_rev_level" _).
  assert (∀ msg, Forall (λ c, c ≠ 0) (chars msg) → ∃ s', eprint_msg msg s1 = (Done tt, s') ∧
    serial s' = serial s1 ++ chars msg) as Hprint by (intros; by apply prints_msg).
  destruct (Z.eqb_spec log 0) as [->|]; cbn [negb].
  1: destruct (Z.eqb_spec isz 256) as [->|]; cbn [negb].
  1: destruct (Z.eqb_spec rev 1) as [->|]; cbn [negb].
  - exists s1. by rewrite app_nil_r.
  - edestruct Hprint as (s' & Hp & Hser); [|exists s'; rewrite (bind_done _ _ _ _ _ Hp)];
      [repeat constructor; done|done].
  - edestruct Hprint as (s' & Hp & Hser); [|exists s'; rewrite (bind_done _ _ _ _ _ Hp)];
      [repeat constructor; done|]. rewrite bool_decide_eq_false_2 by (by intros []). done.
  - edestruct Hprint as (s' & Hp & Hser); [|exists s'; rewrite (bind_done _ _ _ _ _ Hp)];
      [repeat constructor; done|]. rewrite bool_decide_eq_false_2 by (by intros []). done.
Qed.

(** [read_superblock] delivers bytes 1024 to 2047 of the disk and
    accepts them exactly when the block size is 1 KiB and the inode size 256
    bytes; otherwise it prints which of the two is unsupported.  A revision
    other than 1 is reported and accepted. *)
Theorem read_superblock_checks superblock s :
  ready s → zlen superblock = 1024 → 2048 <= zlen (image s) →
  let sb := slice (image s) 1024 1024 in
  sb.[ext2_superblock, "s_log_block_size"%string] < 21 →
  ∃ s1 s', read_superblock superblock s
      = (Done (bool_decide (sb.[ext2_superblock, "s_log_block_size"%string] = 0 ∧
                            sb.[ext2_superblock, "s_inode_size"%string] = 256), sb), s') ∧
    image s1 = image s ∧ serial s' = serial s1 ++ superblock_message sb.
Proof. apply read_superblock_spec. Qed.
End superblock.

(** ** Witnesses *)

(** [concrete] decides a closed inequality or equation by evaluation. *)
Ltac concrete := vm_compute; intuition congruence.

Lemma sample_ready : ready sample.
Proof. split; concrete. Defined.

(** Inode 4, the file, is the fourth entry of the table at block 3. *)
Lemma sample_placed : inode_placed (image sample) sample_superblock 4 3840.
Proof. split; [split|]; concrete. Defined.

Definition sample_file : list byte := slice sample_image 3840 256.

Lemma sample_range : range_ok (zlen (image sample)) sample_file 1020 8.
Proof.
  intros k Hk. assert ((1020 + k) / 1024 = 0 ∨ (1020 + k) / 1024 = 1) as [->| ->] by zlia; concrete.
Defined.

Lemma sample_distinct : blocks_distinct sample_file 1020 8.
Proof.
  intros k k' Hk Hk'.
  assert ((1020 + k) / 1024 = 0 ∨ (1020 + k) / 1024 = 1) as [->| ->] by zlia;
  assert ((1020 + k') / 1024 = 0 ∨ (1020 + k') / 1024 = 1) as [->| ->] by zlia; concrete.
Defined.

Lemma sample_apart o m : 0 <= o → o + m <= 6144 → region_apart sample_file 1020 8 o m.
Proof.
  intros Ho Hm k Hk. right. unfold file_pos.
  assert ((1020 + k) / 1024 = 0 ∨ (1020 + k) / 1024 = 1) as [->| ->] by zlia.
  - change (i_block sample_file 0) with 6. zlia.
  - change (i_block sample_file 1) with 8. zlia.
Defined.

Lemma inode_write_read_witness :
  ∃ s' s'', inode_to_ino sample_superblock (zeros 256) 4 sample = (Done true, s') ∧
    inode_from_ino sample_superblock sample_file 4 s' = (Done (true, zeros 256), s'').
Proof.
  apply (inode_write_read sample_superblock (zeros 256) sample_file 4 3840 sample);
    [apply sample_ready|apply sample_placed|reflexivity|reflexivity|right; concrete].
Defined.

Lemma set_time_exact_witness :
  ∃ s', set_mtime_for_ino sample_superblock 4 1700000000 sample = (Done true, s') ∧
    get_le (image s') 3856 4 = 1700000000.
Proof.
  destruct (set_time_exact "i_mtime" set_mtime_for_ino sample_superblock 4 3840 1700000000 sample)
    as (s' & Hrun & _ & Hget & _); [by right; left|apply sample_ready|apply sample_placed|].
  exists s'. split; [exact Hrun|exact Hget].
Defined.

Lemma read_from_ino_exact_witness :
  ∃ buffer' s', read_from_ino sample_superblock 4 (zeros 16) 1020 8 sample = (Done (8, buffer'), s') ∧
    buffer' = zeros 4 ++ bytes_of "seco" ++ zeros 8.
Proof.
  destruct (read_from_ino_exact sample_superblock 4 3840 (zeros 16) 1020 8 sample)
    as (b & s' & Hrun & _);
    [apply sample_ready|apply sample_placed|lia|lia|lia|concrete|apply sample_range|].
  exists b, s'. split; [exact Hrun|].
  assert (read_from_ino sample_superblock 4 (zeros 16) 1020 8 sample
    = (Done (8, zeros 4 ++ bytes_of "seco" ++ zeros 8), sample)) as Heq by (vm_compute; reflexivity).
  rewrite Heq in Hrun. by inversion Hrun.
Defined.

Lemma write_to_ino_exact_witness :
  ∃ s', write_to_ino sample_superblock 4 (bytes_of "boundary") 1020 8 sample = (Done 8, s') ∧
    image s' !! Z.to_nat 8192 = Some Byte.x64.
Proof.
  destruct (write_to_ino_exact sample_superblock 4 3840 (bytes_of "boundary") 1020 8 sample)
    as (s' & Hrun & _ & Hpos & _);
    [apply sample_ready|apply sample_placed|lia|lia|lia|concrete|apply sample_range|apply sample_distinct|].
  exists s'. split; [exact Hrun|]. specialize (Hpos 4 ltac:(split; concrete)).
  replace (file_pos _ _) with 8192 in Hpos by (vm_compute; reflexivity). exact Hpos.
Defined.

Lemma file_write_read_witness :
  ∃ s' s'', write_to_ino sample_superblock 4 (bytes_of "boundary") 1020 8 sample = (Done 8, s') ∧
    read_from_ino sample_superblock 4 (zeros 8) 1020 8 s' = (Done (8, bytes_of "boundary"), s'').
Proof.
  apply (file_write_read sample_superblock 4 3840 (bytes_of "boundary") (zeros 8) 1020 sample);
    [apply sample_ready|apply sample_placed|lia|concrete|concrete|concrete|apply sample_range
    |apply sample_distinct|apply sample_apart; lia|].
  change (bg_position sample_superblock 4) with 2048. apply sample_apart; lia.
Defined.

(** The sample cut inside the inode table: inode 4 is missing. *)
Definition cut_sample : ramdisk := RamDisk (slice sample_image 0 3584) [].

Lemma missing_inode_reported_witness :
  ∃ s', read_from_ino sample_superblock 4 (zeros 16) 0 16 cut_sample
    = (Done (2 ^ 64 - 1, zeros 16), s') ∧ image s' = image cut_sample.
Proof.
  apply (missing_inode_reported sample_superblock 4 3840 (zeros 16) 0 16 "i_atime" 0 cut_sample);
    [split; concrete|split; concrete|concrete].
Defined.

Lemma read_past_inode_blocks_witness :
  (read_from_ino sample_superblock 4 (zeros 16) 15360 1 sample).1 = Stop Undefined.
Proof.
  apply (read_past_inode_blocks sample_superblock 4 3840 (zeros 16) 15360 1 sample);
    [apply sample_ready|apply sample_placed|lia|lia].
Defined.

Lemma block_write_read_witness :
  ∃ s' s'', ext2_write_block 6 0 (zeros 1024) sample = (Done true, s') ∧
    image s' = splice (image sample) (6 * 1024) (zeros 1024) ∧
    ext2_read_block 6 (uninit 1024) s' = (Done (true, zeros 1024), s'').
Proof.
  apply (block_write_read 6 (zeros 1024) (uninit 1024) sample);
    [apply sample_ready|lia|concrete|reflexivity|reflexivity].
Defined.

Lemma read_superblock_checks_witness :
  ∃ s', read_superblock (zeros 1024) sample = (Done (true, sample_superblock), s') ∧ line s' = [].
Proof.
  destruct (read_superblock_checks (zeros 1024) sample) as (s1 & s' & Hrun & _);
    [apply sample_ready|reflexivity|concrete|concrete|].
  exists s'. split.
  - replace (Done (true, sample_superblock)) with
      (Done (bool_decide (get_field ext2_superblock "s_log_block_size" (slice sample_image 1024 1024) = 0 ∧
         get_field ext2_superblock "s_inode_size" (slice sample_image 1024 1024) = 256),
       slice sample_image 1024 1024)) by (vm_compute; reflexivity).
    exact Hrun.
  - assert (read_superblock (zeros 1024) sample = (Done (true, sample_superblock), sample)) as Heq
      by (vm_compute; reflexivity).
    rewrite Heq in Hrun. symmetry. exact (f_equal (λ x, line x.2) Hrun).
Defined.
