(* ===== verification/Ext2DirTheorems.v ===== *)
(** * Directory search and path resolution are correct

    Properties of [inode_from_dir], [ino_from_path] and [inode_from_path]
    (src/ext2.c) against the reference view of a directory: the list of its
    entries in disk order. *)

From S2P Require Import Prelude Layout Ecall Blk Ext2 Ext2File Ext2Dir BlkTheorems Ext2Theorems Ramdisk.

(** The test of the code accepts an entry exactly when its name is a prefix
    of the component that is looked for. *)
Lemma name_matches_prefix name c : no_nul name → name_matches name c = bool_decide (name `prefix_of` c).
Proof.
  intros Hn. revert c. induction Hn as [|x name Hx _ IH]; intros c; cbn.
  - rewrite bool_decide_eq_true_2; [done|apply prefix_nil].
  - destruct c as [|y c].
    + rewrite !bool_decide_eq_false_2; [done|apply prefix_nil_not|done].
    + destruct (decide (x ≠ y)) as [|Hxy].
      { rewrite bool_decide_eq_false_2; [done|]. intros Hp. by apply prefix_cons_inv_1 in Hp. }
      apply dec_stable in Hxy as ->. rewrite decide_False, IH by done.
      apply bool_decide_ext. split; [apply prefix_cons|apply prefix_cons_inv_2].
Qed.

(** The first entry of the list that satisfies [P]. *)
Definition first_entry (P : list byte → Prop) (es : list dirent) (e : dirent) : Prop :=
  ∃ es1 es2, es = es1 ++ e :: es2 ∧ P (de_name e) ∧ Forall (λ e', ¬ P (de_name e')) es1.

Lemma find_entry_first es c e :
  Forall (λ e, no_nul (de_name e)) es → first_entry (λ n, n `prefix_of` c) es e →
  find_entry es c = Some (de_ino e).
Proof.
  intros Hnn (es1 & es2 & -> & He & Hes1).
  apply Forall_app in Hnn as [Hnn1 Hnn2]. inversion Hnn2 as [|? ? Hne ?]; subst.
  rewrite find_entry_app. replace (find_entry es1 c) with (@None Z).
  - unfold find_entry. rewrite filter_cons, decide_True; [done|].
    rewrite name_matches_prefix by done. by apply bool_decide_pack.
  - symmetry. unfold find_entry.
    induction es1 as [|e1 es1 IH]; [done|]. inversion Hes1; inversion Hnn1; subst.
    rewrite filter_cons, decide_False; [by apply IH|].
    rewrite name_matches_prefix by done. by intros ?%bool_decide_unpack.
Qed.

Lemma find_entry_none es c :
  Forall (λ e, no_nul (de_name e)) es → Forall (λ e, ¬ de_name e `prefix_of` c) es →
  find_entry es c = None.
Proof.
  intros Hnn Hes. unfold find_entry. induction Hes as [|e es He _ IH]; [done|].
  inversion Hnn; subst. rewrite filter_cons, decide_False; [by apply IH|].
  rewrite name_matches_prefix by done. by intros ?%bool_decide_unpack.
Qed.

Section claims.
Context {St : Type} `{BlkSpec St} `{!Uninit}.
Implicit Types s : St.

Lemma inode_from_dir_spec sb path c dir inode ino es s :
  ready s → c_string path c → zlen inode = 256 → dir_listing (image s) dir 0 es →
  match find_entry es c with
  | Some i => ∀ loc, inode_placed (image s) sb i loc →
      ∃ s', inode_from_dir sb path dir inode ino s
            = (Done (true, slice (image s) loc 256, (λ _, i) <$> ino), s')
          ∧ ready s' ∧ image s' = image s
  | None =>
      ∃ s', inode_from_dir sb path dir inode ino s = (Done (false, inode, ino), s')
          ∧ ready s' ∧ image s' = image s
  end.
Proof. intros. by apply scan_dir_spec. Qed.

(** C22.  [inode_from_dir] returns the inode of the first entry, in disk
    order over all blocks of the directory, whose name is a prefix of the
    component, stores its number through a non-null [ino], and leaves the
    disk alone: the in-place copying of entries over the front of the block
    buffer does not disturb the search. *)
Theorem directory_finds_first_prefix sb path c dir inode ino es e loc s :
  ready s → c_string path c → zlen inode = 256 → dir_listing (image s) dir 0 es →
  Forall (λ e, no_nul (de_name e)) es → first_entry (λ n, n `prefix_of` c) es e →
  inode_placed (image s) sb (de_ino e) loc →
  ∃ s', inode_from_dir sb path dir inode ino s
      = (Done (true, slice (image s) loc 256, (λ _, de_ino e) <$> ino), s') ∧ image s' = image s.
Proof.
  intros Hs Hpath Hlen Hlist Hnn Hfirst Hp.
  pose proof (inode_from_dir_spec sb path c dir inode ino es s Hs Hpath Hlen Hlist) as Hrun.
  rewrite (find_entry_first es c e) in Hrun by done.
  destruct (Hrun loc Hp) as (s' & ? & _ & ?). eauto.
Qed.

(** C21.  In a directory where no other entry's name is a prefix of the
    component, the lookup is exact: it succeeds with the inode of the entry
    of that name if there is one, and otherwise returns false with the out
    objects untouched. *)
Theorem directory_lookup_exact sb path c dir inode ino es s :
  ready s → c_string path c → zlen inode = 256 → dir_listing (image s) dir 0 es →
  Forall (λ e, no_nul (de_name e) ∧ (de_name e `prefix_of` c → de_name e = c)) es →
  (∀ e loc, first_entry (λ n, n = c) es e → inode_placed (image s) sb (de_ino e) loc →
     ∃ s', inode_from_dir sb path dir inode ino s
       = (Done (true, slice (image s) loc 256, (λ _, de_ino e) <$> ino), s') ∧ image s' = image s) ∧
  (c ∉ de_name <$> es →
     ∃ s', inode_from_dir sb path dir inode ino s = (Done (false, inode, ino), s') ∧ image s' = image s).
Proof.
  intros Hs Hpath Hlen Hlist Hes. rewrite Forall_and in Hes. destruct Hes as [Hnn Hpre].
  pose proof (inode_from_dir_spec sb path c dir inode ino es s Hs Hpath Hlen Hlist) as Hrun.
  split.
  - intros e loc (es1 & es2 & -> & He & Hes1) Hp.
    rewrite (find_entry_first _ c e) in Hrun; [|done|].
    + destruct (Hrun loc Hp) as (s' & ? & _ & ?). eauto.
    + exists es1, es2. split_and!; [done|by rewrite He|].
      apply Forall_app in Hpre as [Hpre _].
      rewrite Forall_forall in Hpre, Hes1 |- *.
      intros e' Hin Hp'. apply (Hes1 e' Hin). by apply Hpre.
  - intros Hc. rewrite find_entry_none in Hrun; [|done|].
    + destruct Hrun as (s' & ? & _ & ?). eauto.
    + rewrite Forall_forall in Hpre |- *. intros e He Hp. apply Hc.
      rewrite <-(Hpre e He Hp). by apply list_elem_of_fmap_2.
Qed.

(** C39.  A directory block whose first entry has [rec_len] 0 and another
    name than the one looked for is never left: the search does not
    return, however many turns it is given. *)
Theorem directory_zero_rec_len sb path c dir inode ino s :
  ready s → c_string path c → block_ok (zlen (image s)) dir 0 → i_block dir 0 ≠ 0 →
  let e := entry_at (slice (image s) (i_block dir 0 * 1024) 1024) 0 in
  de_rec_len e = 0 → name_matches (de_name e) c = false →
  (inode_from_dir sb path dir inode ino s).1 = Stop Hang ∧
  ∀ fuel, (scan_block fuel (slice (image s) (i_block dir 0 * 1024) 1024) path 0 s).1 = Stop Hang.
Proof.
  intros Hs Hpath (Hi & Hin & H32) Hnz e Hrec Hm.
  pose proof (i_block_nonneg dir 0). pose proof (image_bound s Hs).
  assert (zlen (slice (image s) (i_block dir 0 * 1024) 1024) = 1024) by (apply zlen_slice; lia).
  split; [|intros fuel; by rewrite (scan_block_stuck fuel _ path c)].
  unfold inode_from_dir, EXT2_MAX_DIRECT_BLOCKS_PER_INODE. cbn [Z.to_nat Pos.to_nat Pos.iter_op].
  destruct (Z.to_nat 13) as [|todo] eqn:Htodo; [done|]. clear Htodo. cbn [scan_dir].
  rewrite (bind_done _ _ _ _ _ (get_i_block dir 0 s Hi)). apply Z.eqb_neq in Hnz as ->.
  rewrite (wrap_small 32) by lia. cbn zeta.
  destruct (virtio_blk_read_sync_spec (uninit 1024) 0 (i_block dir 0 * 1024) 1024 s)
    as (s1 & Hrd & _); [done|lia..|rewrite zlen_uninit; lia|].
  rewrite splice_all in Hrd by (rewrite zlen_uninit; lia).
  rewrite (bind_done _ _ _ _ _ Hrd).
  by rewrite (bind_stop _ _ _ _ _ (scan_block_stuck scan_turns _ path c s1 Hpath ltac:(done) Hrec Hm)).
Qed.

(** C20.  [ino_from_path] resolves a path component by component from the
    root directory (inode 2): it returns what the walk over the directory
    listings gives, with the number of the last inode found in [*ino] (the
    caller's value for a path without components), and does not change the
    disk.  The path buffer keeps its length. *)
Theorem path_resolution sb path tail ino loc ok inode' ino' s :
  ready s → no_nul path → inode_placed (image s) sb 2 loc →
  resolves (image s) sb (slice (image s) loc 256) (Some ino) (components path) ok inode' (Some ino') →
  ∃ path' s', ino_from_path sb (path ++ Byte.x00 :: tail) ino s = (Done (ok, path', ino'), s')
    ∧ image s' = image s ∧ length path' = length (path ++ Byte.x00 :: tail).
Proof.
  intros Hs Hnn Hp Hres.
  destruct (ino_from_path_spec sb path tail ino loc ok inode' ino' s) as (p & s' & ? & _ & ? & ?);
    [done..|]. eauto 6.
Qed.

(** [inode_from_path] resolves a path the same way and delivers the
    inode itself. *)
Theorem path_resolution_inode sb path tail inode loc ok inode' s :
  ready s → no_nul path → inode_placed (image s) sb 2 loc → zlen inode = 256 →
  resolves (image s) sb (slice (image s) loc 256) None (components path) ok inode' None →
  ∃ path' s', inode_from_path sb (path ++ Byte.x00 :: tail) inode s
      = (Done (ok, path', inode'), s') ∧ image s' = image s.
Proof.
  intros Hs Hnn Hp Hlen Hres. unfold inode_from_path.
  destruct (inode_from_ino_spec sb inode 2 loc s) as (s1 & Hrd & Hr1 & Him1); [done..|].
  run_with Hrd. cbn [negb].
  pose proof (placed_nonneg _ _ _ _ Hp). pose proof (placed_inside _ _ _ _ Hp).
  destruct (path_loop_spec (length (path ++ Byte.x00 :: tail)) sb [] path tail
    (slice (image s) loc 256) None ok inode' None s1)
    as (path' & s2 & Hloop & Hr2 & Him2 & Hl); rewrite ?Him1; try done.
  { apply zlen_slice; lia. }
  { rewrite length_app. cbn. pose proof (components_length path). lia. }
  cbn [app length] in Hloop. run_with Hloop. exists path', s2. by rewrite Him2, Him1.
Qed.
End claims.

(** ** The sample volume *)

Definition sample_root : list byte := slice sample_image 3328 256.
Definition root_entries : list dirent :=
  [entry_at (slice sample_image 5120 1024) 0; entry_at (slice sample_image 5120 1024) 12;
   entry_at (slice sample_image 5120 1024) 24].

(** The prefix test accepts wrong names: on the sample volume, whose
    root directory has no entry ["library"], the lookup of ["library"]
    succeeds and returns inode 3, the one of ["lib"]. *)
Theorem prefix_name_accepted :
  bytes_of "library" ∉ de_name <$> root_entries ∧
  ∃ inode, inode_from_dir sample_superblock (bytes_of "library" ++ [Byte.x00]) sample_root (zeros 256)
    (Some 0) sample = (Done (true, inode, Some 3), sample).
Proof.
  split.
  - apply (bool_decide_unpack _). vm_compute. exact I.
  - exists (slice sample_image 3584 256). vm_compute. reflexivity.
Qed.

(** ** Witnesses *)

(** The listings of the two directories, as the code walks them. *)
Definition lib_entries : list dirent := [entry_at (slice sample_image 7168 1024) 0].
Definition sample_lib : list byte := slice sample_image 3584 256.

Ltac entry_here := apply chain_entry; [concrete|concrete|].

Lemma root_listing : dir_listing sample_image sample_root 0 root_entries.
Proof.
  change root_entries with (root_entries ++ []). apply listing_block; [concrete|concrete| | |].
  - split_and!; concrete.
  - change (slice sample_image (i_block sample_root 0 * 1024) 1024) with (slice sample_image 5120 1024).
    unfold root_entries. entry_here.
    replace (0 + _) with 12 by (vm_compute; reflexivity). entry_here.
    replace (12 + _) with 24 by (vm_compute; reflexivity). entry_here.
    replace (24 + _) with 1024 by (vm_compute; reflexivity). constructor.
  - apply listing_end; concrete.
Defined.

Lemma lib_listing : dir_listing sample_image sample_lib 0 lib_entries.
Proof.
  change lib_entries with (lib_entries ++ []). apply listing_block; [concrete|concrete| | |].
  - split_and!; concrete.
  - change (slice sample_image (i_block sample_lib 0 * 1024) 1024) with (slice sample_image 7168 1024).
    unfold lib_entries. entry_here.
    replace (0 + _) with 1024 by (vm_compute; reflexivity). constructor.
  - apply listing_end; concrete.
Defined.

Lemma root_names : Forall (λ e, no_nul (de_name e)) root_entries.
Proof. apply (bool_decide_unpack _). vm_compute. exact I. Defined.

Lemma root_placed : inode_placed sample_image sample_superblock 2 3328.
Proof. split; [split|]; concrete. Defined.
Lemma lib_placed : inode_placed sample_image sample_superblock 3 3584.
Proof. split; [split|]; concrete. Defined.

Lemma c_string_bytes s rest : no_nul (bytes_of s) → c_string (bytes_of s ++ Byte.x00 :: rest) (bytes_of s).
Proof. intros. split; [done|by eexists]. Defined.

Lemma lib_no_nul : no_nul (bytes_of "lib").
Proof. apply (bool_decide_unpack _). vm_compute. exact I. Defined.

Lemma lib_is_last :
  Forall (λ e, de_name e `prefix_of` bytes_of "lib" → de_name e = bytes_of "lib") root_entries.
Proof. repeat (constructor; [apply (bool_decide_unpack _); vm_compute; exact I|]). constructor. Defined.

Lemma lib_first (P : list byte → Prop) :
  P (bytes_of "lib") → ¬ P (bytes_of ".") → ¬ P (bytes_of "..") →
  first_entry P root_entries (entry_at (slice sample_image 5120 1024) 24).
Proof.
  intros H1 H2 H3.
  exists [entry_at (slice sample_image 5120 1024) 0; entry_at (slice sample_image 5120 1024) 12], [].
  split; [reflexivity|]. split.
  - replace (de_name _) with (bytes_of "lib") by (vm_compute; reflexivity). done.
  - repeat constructor.
    + replace (de_name _) with (bytes_of ".") by (vm_compute; reflexivity). done.
    + replace (de_name _) with (bytes_of "..") by (vm_compute; reflexivity). done.
Defined.

Lemma lib_ino : de_ino (entry_at (slice sample_image 5120 1024) 24) = 3.
Proof. vm_compute. reflexivity. Defined.

Lemma directory_finds_first_prefix_witness :
  ∃ s', inode_from_dir sample_superblock (bytes_of "lib" ++ [Byte.x00]) sample_root (zeros 256) (Some 0) sample
    = (Done (true, sample_lib, Some 3), s') ∧ image s' = sample_image.
Proof.
  destruct (directory_finds_first_prefix sample_superblock (bytes_of "lib" ++ [Byte.x00]) (bytes_of "lib")
    sample_root (zeros 256) (Some 0) root_entries (entry_at (slice sample_image 5120 1024) 24) 3584 sample)
    as (s' & Hrun & Him);
    [apply sample_ready|apply c_string_bytes, lib_no_nul|reflexivity|apply root_listing|apply root_names
    |by apply lib_first; apply (bool_decide_unpack _); vm_compute|rewrite lib_ino; apply lib_placed|].
  rewrite lib_ino in Hrun. exists s'. split; [exact Hrun|exact Him].
Defined.

Lemma directory_lookup_exact_witness :
  ∃ s', inode_from_dir sample_superblock (bytes_of "lib" ++ [Byte.x00]) sample_root (zeros 256) None sample
    = (Done (true, sample_lib, None), s') ∧ image s' = sample_image.
Proof.
  destruct (proj1 (directory_lookup_exact sample_superblock (bytes_of "lib" ++ [Byte.x00]) (bytes_of "lib")
    sample_root (zeros 256) None root_entries sample sample_ready (c_string_bytes _ [] lib_no_nul) eq_refl
    root_listing (proj2 (Forall_and _ _) (conj root_names lib_is_last)))
    (entry_at (slice sample_image 5120 1024) 24) 3584) as (s' & Hrun & Him);
    [by apply lib_first; apply (bool_decide_unpack _); vm_compute|rewrite lib_ino; apply lib_placed|].
  exists s'. split; [exact Hrun|exact Him].
Defined.

(** The sample with the root directory cleared. *)
Definition stuck_sample : ramdisk := RamDisk (splice sample_image 5120 (splice (zeros 1024) 6 [Byte.x01; Byte.x00; Byte.x78])) [].

Lemma directory_zero_rec_len_witness :
  (inode_from_dir sample_superblock (bytes_of "lib" ++ [Byte.x00]) sample_root (zeros 256) None stuck_sample).1
  = Stop Hang.
Proof.
  apply (directory_zero_rec_len sample_superblock _ (bytes_of "lib") sample_root (zeros 256) None stuck_sample);
    [split; concrete|by apply c_string_bytes, lib_no_nul|split_and!; concrete|concrete|concrete|concrete].
Defined.

Lemma path_resolution_witness :
  ∃ path' s', ino_from_path sample_superblock (bytes_of "/lib/log" ++ [Byte.x00]) 0 sample
    = (Done (true, path', 4), s').
Proof.
  destruct (path_resolution sample_superblock (bytes_of "/lib/log") [] 0 3328 true
    (slice sample_image 3840 256) 4 sample) as (p & s' & Hrun & _);
    [apply sample_ready|apply (bool_decide_unpack _); vm_compute; exact I|apply root_placed| |by exists p, s'].
  change (components (bytes_of "/lib/log")) with [bytes_of "lib"; bytes_of "log"].
  eapply resolves_step; [apply root_listing|vm_compute; reflexivity|apply lib_placed|].
  eapply resolves_step; [apply lib_listing|vm_compute; reflexivity|apply sample_placed|].
  apply resolves_done.
Defined.

Lemma path_resolution_inode_witness :
  ∃ path' s', inode_from_path sample_superblock (bytes_of "lib//nowhere" ++ [Byte.x00]) (zeros 256) sample
    = (Done (false, path', sample_lib), s').
Proof.
  destruct (path_resolution_inode sample_superblock (bytes_of "lib//nowhere") [] (zeros 256) 3328 false
    sample_lib sample) as (p & s' & Hrun & _);
    [apply sample_ready|apply (bool_decide_unpack _); vm_compute; exact I|apply root_placed|reflexivity|
    |by exists p, s'].
  change (components (bytes_of "lib//nowhere")) with [bytes_of "lib"; bytes_of "nowhere"].
  eapply resolves_step; [apply root_listing|vm_compute; reflexivity|apply lib_placed|].
  eapply resolves_missing; [apply lib_listing|vm_compute; reflexivity].
Defined.
