(* ===== verification/VringTheorems.v ===== *)
(** * The virtqueue block driver is correct

    Sector requests over the virtqueue move exactly one sector, for every
    device that behaves as the VIRTIO specification says; sequences of them
    behave like a plain disk; and what happens
    when the queue is too small or the device is silent. *)

From S2P Require Import Prelude Layout Ecall Memory Machine Blk Vring QueueState BlkVring Ext2 Ext2File Ramdisk BlkTheorems Ext2Theorems RefDevice.

Section requests.
Context {D : Type} `{!Platform D} `{!VirtioBlk D}.
Implicit Types s : machine D.

(** The buffer a caller passes: in memory, apart from the queue and from
    the frame of the request. *)
Definition buffer_ok (s : machine D) (v : vring) (addr : Z) : Prop :=
  0 <= addr ∧ addr + 512 <= 2 ^ 64 ∧ queue_apart (desc v) (num v) addr 512 ∧
  (addr + 512 <= sp s - 32 ∨ sp s <= addr).

Lemma ready_apart s drv v addr :
  machine_ready s drv v → buffer_ok s v addr → buffers_apart v (sp s - 32) addr.
Proof.
  intros [_ _ _ _ _ [Hsp Hstk]] (? & ? & ? & ?).
  split; [unfold queue_apart in *; lia|done|lia].
Qed.

(** One request on a ready machine. *)
Lemma request_on_machine s drv v op flags sector addr :
  machine_ready s drv v → buffer_ok s v addr → 0 <= sector < 2 ^ 64 →
  (op = 0 ∧ flags = 2) ∨ (op = 1 ∧ flags = 0) →
  ∃ status img s', sector_request op flags BLK_DRIVER sector addr s = (Done status, s') ∧
    blk_ready s' ∧ bv_image (view (dev s')) = img ∧ sp s' = sp s ∧ console_out s' = console_out s ∧
    request_outcome (view (dev s)) (mem s) op sector addr status img (mem s') ∧
    ∀ a n, elsewhere v (sp s - 32) addr a n → load (mem s') a n = load (mem s) a n.
Proof.
  intros Hready Hbuf Hsec Hop. pose proof Hready as [Hdrv Hvr [Hhost _] [Him Him'] Hq [Hsp Hstk]].
  destruct (sector_request_spec s drv v Hdrv Hvr (mem s) (dev s) v (sp s) op flags sector addr)
    as (status & m' & d' & img & id & Hrun & Hq' & Hview & Hout & _ & Hrest); [done|done| |done|done|].
  { by eapply ready_apart. }
  rewrite <-(st_init BLK_DRIVER 0 s drv v Hdrv Hvr) in Hrun.
  do 3 eexists. split; [exact Hrun|]. cbn. rewrite Hview. split_and!; try done.
  apply (ready_st s drv v); try done; rewrite Hview; [done|]. cbn.
  unfold request_outcome in Hout. destruct (decide (_ <= _)); [destruct (op =? 0)|].
  - by destruct Hout as (_ & -> & _).
  - destruct Hout as (_ & ->). apply zlen_splice; rewrite ?zlen_load; lia.
  - by destruct Hout as (-> & _).
Qed.

(** [virtio_blk_read_sector_sync], over the virtqueue and for every
    device with the law of the VIRTIO specification, puts exactly the sector
    it was asked for at [addr] and returns status 0; the disk, the console
    and every byte of memory outside the queue, the request's own frame and
    the sector buffer are unchanged, and the queue is ready for the next
    request: the driver's use of [num - 1] entries of the available ring
    never disagrees with the device. *)
Theorem sector_read_over_queue s drv v sector addr :
  machine_ready s drv v → buffer_ok s v addr → 0 <= sector →
  512 * sector + 512 <= zlen (image s) →
  ∃ s', virtio_blk_read_sector_sync BLK_DRIVER sector addr s = (Done 0, s') ∧
    blk_ready s' ∧ image s' = image s ∧ console_out s' = console_out s ∧
    load (mem s') addr 512 = slice (image s) (512 * sector) 512 ∧
    ∀ a n, elsewhere v (sp s - 32) addr a n → load (mem s') a n = load (mem s) a n.
Proof.
  intros Hready Hbuf Hsec Hin. pose proof Hready as [_ _ _ [_ Hmax] _ _]. cbn in Hin.
  destruct (request_on_machine s drv v 0 2 sector addr)
    as (status & img & s' & Hrun & Hr & Himg & _ & Hcon & Hout & Hrest); [done|done|lia|by left|].
  unfold request_outcome in Hout. rewrite decide_True in Hout by done.
  destruct Hout as (-> & -> & Hload). exists s'. done.
Qed.

(** [virtio_blk_write_sector_sync] replaces exactly the sector on the
    disk by the 512 bytes at [addr] and returns status 0; memory outside the
    queue, the request's frame and the buffer is unchanged and the queue is
    ready again. *)
Theorem sector_write_over_queue s drv v sector addr :
  machine_ready s drv v → buffer_ok s v addr → 0 <= sector →
  512 * sector + 512 <= zlen (image s) →
  ∃ s', virtio_blk_write_sector_sync BLK_DRIVER sector addr s = (Done 0, s') ∧
    blk_ready s' ∧ image s' = splice (image s) (512 * sector) (load (mem s) addr 512) ∧
    console_out s' = console_out s ∧
    ∀ a n, elsewhere v (sp s - 32) addr a n → load (mem s') a n = load (mem s) a n.
Proof.
  intros Hready Hbuf Hsec Hin. pose proof Hready as [_ _ _ [_ Hmax] _ _]. cbn in Hin.
  destruct (request_on_machine s drv v 1 0 sector addr)
    as (status & img & s' & Hrun & Hr & Himg & _ & Hcon & Hout & Hrest); [done|done|lia|by right|].
  unfold request_outcome in Hout. rewrite decide_True in Hout by done.
  destruct Hout as (-> & ->). exists s'. done.
Qed.

(** A request for a sector past the end of the disk, either way,
    returns the device's error status, which is not 0, and changes nothing
    on the disk. *)
Theorem sector_past_end_over_queue s drv v sector addr :
  machine_ready s drv v → buffer_ok s v addr → 0 <= sector < 2 ^ 64 →
  zlen (image s) < 512 * sector + 512 →
  (∃ status s', virtio_blk_read_sector_sync BLK_DRIVER sector addr s = (Done status, s') ∧
     status ≠ 0 ∧ image s' = image s ∧ blk_ready s') ∧
  (∃ status s', virtio_blk_write_sector_sync BLK_DRIVER sector addr s = (Done status, s') ∧
     status ≠ 0 ∧ image s' = image s ∧ blk_ready s').
Proof.
  intros Hready Hbuf Hsec Hend. cbn in Hend. split.
  - destruct (request_on_machine s drv v 0 2 sector addr)
      as (status & img & s' & Hrun & Hr & Himg & _ & _ & Hout & _); [done|done|lia|by left|].
    unfold request_outcome in Hout. rewrite decide_False in Hout by lia.
    destruct Hout as (-> & Hst). by exists status, s'.
  - destruct (request_on_machine s drv v 1 0 sector addr)
      as (status & img & s' & Hrun & Hr & Himg & _ & _ & Hout & _); [done|done|lia|by right|].
    unfold request_outcome in Hout. rewrite decide_False in Hout by lia.
    destruct Hout as (-> & Hst). by exists status, s'.
Qed.

End requests.

(** ** Sequences of requests *)

Inductive sector_op := ReadSector (sector : Z) | WriteSector (sector : Z) (blk : list byte).

Section sequences.
Context {St : Type} `{!BlkDev St}.

(** Returns the sectors read. *)
Fixpoint run_ops (ops : list sector_op) : prog St (list (list byte)) :=
  match ops with
  | [] => mret []
  | ReadSector n :: ops =>
      '(_, blk) ← read_sector n (zeros 512); rest ← run_ops ops; mret (blk :: rest)
  | WriteSector n blk :: ops => _ ← write_sector n blk; run_ops ops
  end.
End sequences.

(** The same requests on a plain disk. *)
Fixpoint disk_ops (img : list byte) (ops : list sector_op) : list (list byte) * list byte :=
  match ops with
  | [] => ([], img)
  | ReadSector n :: ops => let '(r, img') := disk_ops img ops in (slice img (512 * n) 512 :: r, img')
  | WriteSector n blk :: ops => disk_ops (splice img (512 * n) blk) ops
  end.

Definition op_inside (len : Z) (op : sector_op) : Prop :=
  match op with
  | ReadSector n => 0 <= n ∧ 512 * n + 512 <= len
  | WriteSector n blk => 0 <= n ∧ 512 * n + 512 <= len ∧ zlen blk = 512
  end.

Lemma run_ops_spec {St} `{BlkSpec St} ops (s : St) :
  ready s → Forall (op_inside (zlen (image s))) ops →
  ∃ s', run_ops ops s = (Done (disk_ops (image s) ops).1, s') ∧
    ready s' ∧ image s' = (disk_ops (image s) ops).2.
Proof.
  revert s. induction ops as [|[n|n blk] ops IH]; intros s Hs Hops; cbn [run_ops disk_ops]; [eauto| |];
    inversion Hops as [|? ? Hop Hops']; subst.
  - destruct Hop as [Hn Hin].
    destruct (read_sector_inside s n (zeros 512)) as (s1 & Hrd & Hr1 & Him1); [done|by apply zlen_zeros|done..|].
    run_with Hrd. destruct (IH s1 Hr1) as (s2 & Hrun & Hr2 & Him2); [by rewrite Him1|].
    run_with Hrun. rewrite Him1 in *. destruct (disk_ops (image s) ops). by exists s2.
  - destruct Hop as (Hn & Hin & Hblk).
    destruct (write_sector_inside s n blk) as (s1 & Hwr & Hr1 & Him1); [done..|].
    run_with Hwr. destruct (IH s1 Hr1) as (s2 & Hrun & Hr2 & Him2).
    + rewrite Him1, zlen_splice by lia. done.
    + rewrite Him1 in *. by exists s2.
Qed.

(** C6.  The driver refines a plain disk: any sequence of sector reads and
    writes inside the disk, however long (the 16-bit ring indices wrap around
    every 65536 requests), returns what the same sequence returns on the disk
    image and leaves that image on the disk. *)
Theorem driver_refines_disk {D} `{!Platform D} `{!VirtioBlk D} ops (s : machine D) :
  ready s → Forall (op_inside (zlen (image s))) ops →
  ∃ s', run_ops ops s = (Done (disk_ops (image s) ops).1, s') ∧
    ready s' ∧ image s' = (disk_ops (image s) ops).2.
Proof. apply (run_ops_spec (St := machine D)). Qed.

(** ** Misuse and silence *)

Section failures.
Context {D : Type} `{!Platform D}.
Implicit Types s : machine D.

(** A descriptor index outside the table is caught: [vring_add_to_descr]
    writes nothing, prints its error and powers the machine off, for every
    driver and every queue. *)
Theorem descriptor_overflow_powers_off r v buf size flags w ends s :
  get_vring r s = (Done v, s) → num v <= w →
  vring_add_to_descr r buf size flags w ends s
  = (Stop PowerOff, set_out (console_out s ++ chars ("Error: Attempting to use a descriptor entry beyond the available quantity." +:+ nl)) s).
Proof.
  intros Hv Hw. unfold vring_add_to_descr. run_with Hv.
  rewrite (proj2 (Z.leb_le _ _) Hw).
  erewrite bind_done; [done|]. apply eprint_msg_machine. repeat constructor; done.
Qed.

Lemma poll_silent fuel v j (s0 : machine D) drv :
  virtio_drivers s0 !! BLK_DRIVER = Some drv → vrings drv !! 0%nat = Some v →
  (∀ j, load_le (after (S j) (dev s0) (mem s0)).2 (used v + 2) 2 = used_last (bookeeping v)) →
  (poll_used fuel v (used_last (bookeeping v))
     (QueueState.st BLK_DRIVER 0 s0 drv (after j (dev s0) (mem s0)).2 (after j (dev s0) (mem s0)).1 v (sp s0))).1
  = Stop Hang.
Proof.
  intros Hdrv Hvr Hsame. revert j.
  induction fuel as [|fuel IH]; intros j; cbn [poll_used]; rewrite Z.eqb_refl; [done|].
  run_with (read_used_st BLK_DRIVER 0 s0 drv j (dev s0) (mem s0) v (sp s0)).
  rewrite Hsame. apply IH.
Qed.

(** [vring_wait_completion] polls for as long as the used index has
    not moved: with a device that leaves it alone it does not return, for
    any number of looks ([patience]) the model allows. *)
Theorem silent_device_hangs s drv v :
  virtio_drivers s !! BLK_DRIVER = Some drv → vrings drv !! 0%nat = Some v →
  (∀ j, load_le (after (S j) (dev s) (mem s)).2 (used v + 2) 2 = used_last (bookeeping v)) →
  (vring_wait_completion (BLK_DRIVER, 0%nat) s).1 = Stop Hang.
Proof.
  intros Hdrv Hvr Hsame. rewrite (st_init BLK_DRIVER 0 s drv v Hdrv Hvr). unfold vring_wait_completion.
  run_with (get_vring_st BLK_DRIVER 0 s drv v Hdrv Hvr (mem s) (dev s) v (sp s)).
  run_with (read_used_st BLK_DRIVER 0 s drv 0 (dev s) (mem s) v (sp s)). rewrite Hsame.
  pose proof (poll_silent patience v 1 s drv Hdrv Hvr Hsame) as Hpoll.
  destruct (poll_used _ _ _ _) as [[]] eqn:Heq in Hpoll; [done|].
  rewrite (bind_stop _ _ _ _ _ Heq). cbn in *. congruence.
Qed.
End failures.

(** ** Witnesses *)

Definition two_sector_machine : machine ref_device := ref_machine (disk two_sectors).

Lemma two_sector_ready : machine_ready two_sector_machine ref_driver ref_vring.
Proof. split; try (vm_compute; intuition congruence). split; vm_compute; intuition congruence. Defined.

Lemma two_sector_buffer : buffer_ok two_sector_machine ref_vring (2 ^ 31 - 4096).
Proof. vm_compute. intuition congruence. Defined.

Lemma sector_read_over_queue_witness :
  ∃ s', virtio_blk_read_sector_sync BLK_DRIVER 1 (2 ^ 31 - 4096) two_sector_machine = (Done 0, s') ∧
    load (mem s') (2 ^ 31 - 4096) 512 = replicate 512 Byte.x07.
Proof.
  destruct (sector_read_over_queue two_sector_machine ref_driver ref_vring 1 (2 ^ 31 - 4096))
    as (s' & Hrun & _ & _ & _ & Hload & _);
    [apply two_sector_ready|apply two_sector_buffer|lia|vm_compute; congruence|].
  exists s'. split; [exact Hrun|exact Hload].
Defined.

Lemma sector_write_over_queue_witness :
  ∃ s', virtio_blk_write_sector_sync BLK_DRIVER 0 (2 ^ 31 - 4096) two_sector_machine = (Done 0, s') ∧
    image s' = splice (disk two_sectors) 0 (zeros 512).
Proof.
  destruct (sector_write_over_queue two_sector_machine ref_driver ref_vring 0 (2 ^ 31 - 4096))
    as (s' & Hrun & _ & Him & _);
    [apply two_sector_ready|apply two_sector_buffer|lia|vm_compute; congruence|].
  exists s'. split; [exact Hrun|exact Him].
Defined.

Lemma sector_past_end_over_queue_witness :
  ∃ status s', virtio_blk_read_sector_sync BLK_DRIVER 2 (2 ^ 31 - 4096) two_sector_machine
    = (Done status, s') ∧ status ≠ 0.
Proof.
  destruct (sector_past_end_over_queue two_sector_machine ref_driver ref_vring 2 (2 ^ 31 - 4096))
    as ((st & s' & Hrun & Hst & _) & _);
    [apply two_sector_ready|apply two_sector_buffer|lia|vm_compute; congruence|].
  exists st, s'. split; [exact Hrun|exact Hst].
Defined.

Lemma driver_refines_disk_witness :
  ∃ s', run_ops [WriteSector 0 (replicate 512 Byte.x01); ReadSector 0; ReadSector 1] two_sector_machine
    = (Done [replicate 512 Byte.x01; replicate 512 Byte.x07], s').
Proof.
  destruct (driver_refines_disk (D := ref_device)
    [WriteSector 0 (replicate 512 Byte.x01); ReadSector 0; ReadSector 1] two_sector_machine)
    as (s' & Hrun & _); [apply ref_ready; vm_compute; congruence
    |repeat constructor; vm_compute; congruence|].
  exists s'. exact Hrun.
Defined.

Lemma descriptor_overflow_powers_off_witness :
  (vring_add_to_descr (BLK_DRIVER, 0%nat) 0 16 0 8 false two_sector_machine).1 = Stop PowerOff.
Proof.
  rewrite (descriptor_overflow_powers_off (D := ref_device) _ ref_vring);
    [reflexivity|reflexivity|vm_compute; congruence].
Defined.

(** The reference device is never notified here. *)
Lemma silent_device_hangs_witness :
  (vring_wait_completion (BLK_DRIVER, 0%nat) two_sector_machine).1 = Stop Hang.
Proof.
  apply (silent_device_hangs (D := ref_device) two_sector_machine ref_driver ref_vring); [reflexivity..|].
  intros j. replace (after (S j) (dev two_sector_machine) (mem two_sector_machine))
    with (dev two_sector_machine, mem two_sector_machine); [reflexivity|].
  induction j as [|j IH]; [reflexivity|]. rewrite <-after_S, <-IH. reflexivity.
Defined.
