(* ===== verification/HeapTheorems.v ===== *)
(** * The allocators are correct

    [malloc] hands out blocks that are large enough and apart from every block
    in use, and powers the machine off instead of returning NULL;
    [forever_alloc_aligned] returns aligned areas that never overlap. *)

From S2P Require Import Prelude Layout Ecall Memory Machine Heap LinkerScript RefDevice.

Section arenas.
Implicit Types h : heap.

Definition arenas h : list (Z * Z) :=
  [(32, arena_start_32 h); (64, arena_start_64 h); (128, arena_start_128 h);
   (256, arena_start_256 h); (512, arena_start_512 h)].

(** What [initialize_heap] establishes. *)
Record heap_laid_out h : Prop := {
  laid_32 : arena_start_32 h = heap_start h;
  laid_64 : arena_start_64 h = arena_start_32 h + 330;
  laid_128 : arena_start_128 h = arena_start_64 h + 650;
  laid_256 : arena_start_256 h = arena_start_128 h + 1290;
  laid_512 : arena_start_512 h = arena_start_256 h + 2570;
  laid_end : arena_end_512 h = arena_start_512 h + 5130 ∧ arena_end_512 h <= heap_end h;
}.

(** [block h p x]: [p] is the buffer of an element of arena [x]. *)
Definition block h (p x : Z) : Prop :=
  ∃ start i, (x, start) ∈ arenas h ∧ 0 <= i < 10 ∧ p = start + arena_element x * i + 1.

Definition in_use (m : memory) (p : Z) : Prop := load_le m (p - 1) 1 ≠ 0.

Lemma arenas_cases h x start :
  (x, start) ∈ arenas h →
  (x = 32 ∧ start = arena_start_32 h) ∨ (x = 64 ∧ start = arena_start_64 h) ∨
  (x = 128 ∧ start = arena_start_128 h) ∨ (x = 256 ∧ start = arena_start_256 h) ∨
  (x = 512 ∧ start = arena_start_512 h).
Proof. unfold arenas. rewrite !elem_of_cons, elem_of_nil. intros H. repeat (destruct H as [[= -> ->]|H]; [tauto|]). done. Qed.

Lemma block_inside h p x :
  heap_laid_out h → block h p x → heap_start h < p ∧ p + x <= arena_end_512 h.
Proof.
  intros [] (start & i & Hin & Hi & ->). unfold arena_element.
  apply arenas_cases in Hin as [[-> ->]|[[-> ->]|[[-> ->]|[[-> ->]|[-> ->]]]]]; lia.
Qed.

Lemma block_positive h p x : block h p x → 0 < x.
Proof. intros (start & i & Hin & _). apply arenas_cases in Hin. lia. Qed.

(** Two blocks are the same or apart, their [used] bytes included. *)
Lemma blocks_apart h p x p' x' :
  heap_laid_out h → block h p x → block h p' x' →
  (p = p' ∧ x = x') ∨ p + x <= p' - 1 ∨ p' + x' <= p - 1.
Proof.
  intros [] (start & i & Hin & Hi & ->) (start' & i' & Hin' & Hi' & ->). unfold arena_element.
  apply arenas_cases in Hin as [[-> ->]|[[-> ->]|[[-> ->]|[[-> ->]|[-> ->]]]]];
  apply arenas_cases in Hin' as [[-> ->]|[[-> ->]|[[-> ->]|[[-> ->]|[-> ->]]]]]; lia.
Qed.
End arenas.

Section malloc.
Context {D : Type} `{!Platform D} `{!Linker}.
Implicit Types s : machine D.

Definition mark_used (p : Z) (s : machine D) : machine D := set_mem (store_le (mem s) (p - 1) 1 1) s.

Lemma try_arena_spec todo x start i s :
  (∃ j, i <= j < i + Z.of_nat todo ∧ ¬ in_use (mem s) (start + arena_element x * j + 1) ∧
     let p := start + arena_element x * j + 1 in
     try_arena todo x start i s = (Done (Some p), mark_used p s)) ∨
  ((∀ j, i <= j < i + Z.of_nat todo → in_use (mem s) (start + arena_element x * j + 1)) ∧
   try_arena todo x start i s = (Done None, s)).
Proof.
  unfold in_use. revert i. induction todo as [|todo IH]; intros i; cbn [try_arena].
  { right. split; [lia|done]. }
  unfold load_mem. run.
  destruct (Z.eqb_spec (load_le (mem s) (start + arena_element x * i) 1) 0) as [Hfree|Hused].
  - left. exists i. replace (start + arena_element x * i + 1 - 1) with (start + arena_element x * i) by lia.
    split_and!; [lia|lia|lia|]. unfold store_mem, mark_used. run.
    by replace (start + arena_element x * i + 1 - 1) with (start + arena_element x * i) by lia.
  - destruct (IH (i + 1)) as [(j & Hj & Hfree & Hrun)|[Hall Hrun]].
    + left. exists j. split_and!; [lia|lia|done|done].
    + right. split; [|done]. intros j Hj. destruct (decide (j = i)) as [->|].
      * by replace (start + arena_element x * i + 1 - 1) with (start + arena_element x * i) by lia.
      * apply Hall. lia.
Qed.

(** What an allocation may do: take a free block, or give up when no block
    of a sufficient size is free. *)
Definition malloc_ok (size : Z) (fits : Z → Prop) (s : machine D) (r : outcome Z * machine D) : Prop :=
  match r with
  | (Done p, s') =>
      ∃ x, size < x ∧ block (the_heap s) p x ∧ ¬ in_use (mem s) p ∧ s' = mark_used p s
  | (Stop f, s') =>
      f = PowerOff ∧ (∃ o, s' = set_out o s) ∧
      ∀ p x, fits x → size < x → block (the_heap s) p x → in_use (mem s) p
  end.

Lemma TRY_ALLOC_FROM_spec x start size rest (fits : Z → Prop) s :
  (x, start) ∈ arenas (the_heap s) → (∀ start', (x, start') ∈ arenas (the_heap s) → start' = start) →
  malloc_ok size fits s (rest s) →
  malloc_ok size (λ y, y = x ∨ fits y) s (TRY_ALLOC_FROM x start size rest s).
Proof.
  intros Hin Huniq Hrest. unfold TRY_ALLOC_FROM. destruct (Z.ltb_spec size x).
  - destruct (try_arena_spec (Z.to_nat ARENA_ELEMENT_COUNT) x start 0 s)
      as [(j & Hj & Hfree & Hrun)|[Hall Hrun]]; run_with Hrun.
    + exists x. split_and!; [done| |done|done]. by exists start, j.
    + cbn beta iota. destruct (rest s) as [[p|f] s']; [done|].
      destruct Hrest as (-> & Hm & Hr). split_and!; [done..|].
      intros p y [->|Hy] Hsz Hb; [|by eapply Hr].
      destruct Hb as (start' & i & Hin' & Hi & ->). rewrite (Huniq start') by done.
      apply Hall. unfold ARENA_ELEMENT_COUNT. lia.
  - destruct (rest s) as [[p|f] s']; [done|].
    destruct Hrest as (-> & Hm & Hr). split_and!; [done..|].
    intros p y [->|Hy] Hsz Hb; [lia|by eapply Hr].
Qed.

Lemma malloc_spec size s : malloc_ok size (λ _, True) s (malloc size s).
Proof.
  assert (malloc_ok size (λ y, y = 32 ∨ y = 64 ∨ y = 128 ∨ y = 256 ∨ y = 512 ∨ False) s (malloc size s)) as Hok.
  { unfold malloc. run.
    repeat (apply TRY_ALLOC_FROM_spec;
      [unfold arenas; set_solver|intros start' Hs; apply arenas_cases in Hs; lia|]).
    erewrite bind_done by (apply eprint_msg_machine; repeat constructor; done).
    split_and!; [done|by eexists|done]. }
  unfold malloc_ok in *. destruct (malloc size s) as [[p|f] s']; [done|].
  destruct Hok as (-> & Hm & Hr). split_and!; [done..|].
  intros p x _ Hsz Hb. apply (Hr p x); try done. destruct Hb as (start & i & Hin & _).
  apply arenas_cases in Hin. lia.
Qed.

(** C26.  [malloc] is sound: when it returns, the block lies inside the
    heap, holds more than [size] bytes, was free, does not overlap any block
    in use (nor its [used] byte), and the only memory it changes is the
    block's own [used] byte.  It never returns a null pointer: when every
    large enough block is in use it powers the machine off. *)
Theorem malloc_sound size s :
  heap_laid_out (the_heap s) →
  match malloc size s with
  | (Done p, s') =>
      ∃ x, size < x ∧ block (the_heap s) p x ∧ heap_start (the_heap s) < p ∧ p + x <= heap_end (the_heap s) ∧
        ¬ in_use (mem s) p ∧ in_use (mem s') p ∧
        (∀ p' x', block (the_heap s) p' x' → in_use (mem s) p' → p + x <= p' - 1 ∨ p' + x' <= p - 1) ∧
        (∀ a, a ≠ p - 1 → mem s' !! a = mem s !! a) ∧ the_heap s' = the_heap s
  | (Stop f, s') =>
      f = PowerOff ∧ mem s' = mem s ∧
      ∀ p x, size < x → block (the_heap s) p x → in_use (mem s) p
  end.
Proof.
  intros Hh. pose proof (malloc_spec size s) as Hok. unfold malloc_ok in Hok.
  destruct (malloc size s) as [[p|f] s'].
  - destruct Hok as (x & Hx & Hb & Hfree & ->). pose proof (block_inside _ _ _ Hh Hb).
    pose proof (laid_end _ Hh). exists x. split_and!; try done; try lia; cbn [mem set_mem mark_used].
    + unfold in_use. by rewrite load_le_store_le_same.
    + intros p' x' Hb' Hused. destruct (blocks_apart _ _ _ _ _ Hh Hb Hb') as [[-> ->]|]; [done|lia].
    + intros a Ha. apply lookup_store_other. rewrite zlen_le_split. lia.
  - destruct Hok as (-> & [o ->] & Hr). split_and!; [done..|]. intros p x. by apply Hr.
Qed.

(** [initialize_heap] lays the five arenas out one after the other
    from the start of the heap, or powers the machine off when they do not
    fit below its end. *)
Lemma initialize_heap_layout s :
  if _heap_start + 9970 <=? _heap_end then
    ∃ h, initialize_heap s = (Done tt, set_heap h s) ∧ heap_laid_out h ∧
      heap_start h = _heap_start ∧ heap_end h = _heap_end
  else (initialize_heap s).1 = Stop PowerOff.
Proof.
  unfold initialize_heap, check_arenas, ARENA_ELEMENT_COUNT, arena_element.
  rewrite !Z.eqb_refl. cbn [negb]. run.
  set (start := _heap_start). set (stop_ := _heap_end).
  replace (stop_ <? _) with (negb (start + 9970 <=? stop_)) by lia.
  destruct (Z.leb_spec (start + 9970) stop_); cbn [negb].
  - eexists. split; [done|]. split; [|done]. split; cbn; lia.
  - by erewrite bind_done by (apply eprint_msg_machine; repeat constructor; done).
Qed.

Lemma forever_alloc_spec size k s :
  0 <= k < 64 → 0 <= size → 0 <= forever_storage_frontier s →
  forever_storage_frontier s + 2 ^ k + size <= 2 ^ 64 →
  ∃ p, p mod 2 ^ k = 0 ∧ forever_storage_frontier s <= p < forever_storage_frontier s + 2 ^ k ∧
    forever_alloc_aligned size (2 ^ k) s =
      if p + size <=? _forever_storage_stop then (Done p, set_frontier (p + size) s)
      else (Done 0, set_out (console_out s ++ chars ("There is no more forever space left!" +:+ nl)) s).
Proof.
  intros Hk Hsize Hf Hfit. set (f := forever_storage_frontier s) in *.
  assert (0 < 2 ^ k) by lia.
  assert (∃ p, ALIGN_UP 64 f (2 ^ k) = p ∧ p mod 2 ^ k = 0 ∧ f <= p < f + 2 ^ k) as (p & Hp & Hmod & Hr).
  { eexists. rewrite ALIGN_UP_spec by lia. split; [done|]. split; [by apply Z.mod_mul; lia|].
    pose proof (Z.div_mod (f + 2 ^ k - 1) (2 ^ k) ltac:(lia)).
    pose proof (Z.mod_pos_bound (f + 2 ^ k - 1) (2 ^ k) ltac:(lia)). lia. }
  exists p. split_and!; [done|lia..|].
  unfold forever_alloc_aligned. fold f. run. fold f. rewrite Hp, (wrap_small 64) by lia.
  replace (_forever_storage_stop <? p + size) with (negb (p + size <=? _forever_storage_stop)) by lia.
  destruct (p + size <=? _forever_storage_stop); cbn [negb]; [done|].
  by erewrite bind_done by (apply eprint_msg_machine; repeat constructor; done).
Qed.

(** C27.  [forever_alloc_aligned] returns the first multiple of [2^k] at or
    after the frontier and moves the frontier behind the area, so that
    successive areas are aligned, inside the storage and pairwise apart; it
    returns NULL, and keeps the frontier, exactly when the area would end
    past the storage. *)
Theorem forever_alloc_sound size k s :
  0 <= k < 64 → 0 <= size → 0 <= forever_storage_frontier s →
  forever_storage_frontier s + 2 ^ k + size <= 2 ^ 64 →
  ∃ p s', p mod 2 ^ k = 0 ∧ forever_storage_frontier s <= p < forever_storage_frontier s + 2 ^ k ∧
    forever_alloc_aligned size (2 ^ k) s
    = (Done (if p + size <=? _forever_storage_stop then p else 0), s') ∧
    mem s' = mem s ∧
    forever_storage_frontier s' =
      if p + size <=? _forever_storage_stop then p + size else forever_storage_frontier s.
Proof.
  intros Hk Hsize Hf Hfit. destruct (forever_alloc_spec size k s) as (p & Hmod & Hr & Hrun); [done..|].
  exists p. rewrite Hrun. destruct (p + size <=? _forever_storage_stop); eexists; split_and!; (done || lia).
Qed.
End malloc.

(** ** Witnesses *)

(** The first block for a [struct vring]: it is at an odd offset of the heap. *)
Lemma malloc_sound_witness :
  malloc 64 (ref_machine []) = (Done (_heap_start + 981), mark_used (_heap_start + 981) (ref_machine [])) ∧
  ∃ x, 64 < x ∧ block ref_heap (_heap_start + 981) x.
Proof.
  assert (malloc 64 (ref_machine []) = (Done (_heap_start + 981), mark_used (_heap_start + 981) (ref_machine [])))
    as Hrun by (vm_compute; reflexivity).
  split; [exact Hrun|].
  pose proof (malloc_sound (D := ref_device) 64 (ref_machine [])) as H. rewrite Hrun in H.
  destruct H as (x & Hx & Hb & _); [split; vm_compute; intuition congruence|].
  exists x. split; [exact Hx|exact Hb].
Defined.

Lemma forever_alloc_sound_witness :
  ∃ p s', p mod 4096 = 0 ∧ forever_alloc_aligned 5000 4096 (ref_machine [])
    = (Done (if p + 5000 <=? _forever_storage_stop then p else 0), s').
Proof.
  destruct (forever_alloc_sound (D := ref_device) 5000 12 (ref_machine [])) as (p & s' & Hmod & _ & Hrun & _);
    [lia|lia|vm_compute; congruence|vm_compute; congruence|].
  exists p, s'. split; [exact Hmod|exact Hrun].
Defined.
