(* ===== verification/LegacyBus.v ===== *)
(** * The virtio devices on the PCI bus, as the initialisers see them

    [LegacyBus] is what the code relies on of the board: the functions of the
    bus, the legacy register window of a virtio device (VIRTIO 1.1, 4.1.4.8),
    and what a device does when it is told DRIVER_OK.  None of it is code of
    the repository; BootDevice.v has a board that satisfies the laws. *)

From stdpp Require Import functions.
From S2P Require Import Prelude Layout Ecall Memory Machine Vring QueueState Blk BlkVring Chain.

(** The registers of one function: in its configuration space BAR 0; in its
    window the selected queue, the page of each queue and the status.
    [f_size] is the number of entries of a queue, 0 when there is no such
    queue. *)
Record function_regs := FunctionRegs {
  f_bar0 : Z;
  f_sel : Z;
  f_pfn : Z → Z;
  f_status : Z;
  f_size : Z → Z;
}.

(** Two blocks of 64 bytes, the space of the registers that are used. *)
Definition blocks_apart (a b : Z) : Prop := a + 64 <= b ∨ b + 64 <= a.
Definition in_block (b a : Z) : Prop := b <= a < b + 64.

(** A store to the registers of the function whose configuration space is at
    [c], the I/O space of the bus being at [window]. *)
Definition legacy_store (window c a v : Z) (r : function_regs) : function_regs :=
  let host := window + f_bar0 r in
  if decide (a = c + 16) then FunctionRegs v (f_sel r) (f_pfn r) (f_status r) (f_size r)
  else if decide (a = host + 8) then
    FunctionRegs (f_bar0 r) (f_sel r) (<[f_sel r := v]> (f_pfn r)) (f_status r) (f_size r)
  else if decide (a = host + 14) then FunctionRegs (f_bar0 r) v (f_pfn r) (f_status r) (f_size r)
  else if decide (a = host + 18) then FunctionRegs (f_bar0 r) (f_sel r) (f_pfn r) v (f_size r)
  else r.

Class LegacyBus (D : Type) `{!Platform D} `{!VirtioBlk D} `{!VirtioChain D} := {
  functions : list Z;      (* where the configuration space of each function is *)
  disk_function : Z;
  io_window : Z;
  pci_id : Z → Z;
  fn : Z → D → function_regs;
  host_of (c : Z) (d : D) : Z := io_window + f_bar0 (fn c d);
  (** The window of [c] is apart from all configuration spaces and from the
      windows of the other functions. *)
  clear (c : Z) (d : D) : Prop := ∀ c', c' ∈ functions →
    blocks_apart c' (host_of c d) ∧ (c' ≠ c → blocks_apart (host_of c' d) (host_of c d));
  not_notify (a : Z) (d : D) : Prop := ∀ c, c ∈ functions → a ≠ host_of c d + 16;
  elsewhere (c : Z) (d : D) (a : Z) : Prop := ¬ in_block c a ∧ ¬ in_block (host_of c d) a;

  (** Which registers there are. *)
  disk_on_bus : disk_function ∈ functions;
  fn_store c a n v d :
    c ∈ functions → not_notify a d → fn c (mmio_store a n v d) = legacy_store io_window c a v (fn c d);
  fn_load c a n d : fn c (mmio_load a n d).2 = fn c d;
  vendor_load a d :
    (mmio_load a 2 d).1 = 6900 → (∀ c, c ∈ functions → a ≠ c + 2 ∧ a ≠ host_of c d + 12) → a ∈ functions;
  function_load c d : c ∈ functions → (mmio_load c 2 d).1 = 6900 ∧ (mmio_load (c + 2) 2 d).1 = pci_id c;
  size_load c d :
    c ∈ functions → clear c d → (mmio_load (host_of c d + 12) 2 d).1 = f_size (fn c d) (f_sel (fn c d));

  (** What the devices do when nobody notifies them. *)
  view_host d : bv_host (view d) = host_of disk_function d;
  store_image a n v d : bv_image (view (mmio_store a n v d)) = bv_image (view d);
  quiet_load a n d :
    view (mmio_load a n d).2 = view d ∧
    ∀ h q, side h q (mmio_load a n d).2 = side h q d ∧ (has_queue h q d → has_queue h q (mmio_load a n d).2);
  disk_quiet a n v d :
    not_notify a d → elsewhere disk_function d a → view (mmio_store a n v d) = view d;
  side_quiet c q a n v d :
    c ∈ functions → not_notify a d → elsewhere c d a → clear c (mmio_store a n v d) →
    has_queue (host_of c d) q d →
    side (host_of c d) q (mmio_store a n v d) = side (host_of c d) q d ∧
    has_queue (host_of c d) q (mmio_store a n v d);

  (** The store of the status that first sets DRIVER_OK starts the device. *)
  disk_starts v d :
    let r := fn disk_function d in
    clear disk_function d → Z.testbit (f_status r) 2 = false → Z.testbit v 2 = true →
    view (mmio_store (host_of disk_function d + 18) 1 v d) =
      {| bv_image := bv_image (view d); bv_host := host_of disk_function d; bv_num := f_size r 0;
         bv_queue := 4096 * f_pfn r 0; bv_last_avail := 0 |};
  side_starts c q v d :
    let r := fn c d in let d' := mmio_store (host_of c d + 18) 1 v d in
    c ∈ functions → c ≠ disk_function → clear c d → 0 < f_size r q →
    Z.testbit (f_status r) 2 = false → Z.testbit v 2 = true →
    side (host_of c d) q d' =
      {| bv_image := []; bv_host := host_of c d; bv_num := f_size r q;
         bv_queue := 4096 * f_pfn r q; bv_last_avail := 0 |} ∧
    has_queue (host_of c d) q d';
}.

(** ** Accesses to one function

    Everything an initialiser does to the bus: it reads registers, and writes
    those of its own function [c], whose BAR it makes [pci]. *)
Section accesses.
Context {D : Type} `{!Platform D} `{!VirtioBlk D} `{!VirtioChain D} `{!LegacyBus D}.
Implicit Types d : D.

(** A store to the function's own registers. *)
Definition own_store (c pci : Z) d (a v : Z) : Prop :=
  (in_block c a ∧ (a = c + 16 → v = pci)) ∨
  (host_of c d = io_window + pci ∧ in_block (io_window + pci) a ∧ a ≠ io_window + pci + 16).

Inductive accesses (c pci : Z) : D → D → Prop :=
  | no_access d : accesses c pci d d
  | access_load d d' a n : accesses c pci d d' → accesses c pci d (mmio_load a n d').2
  | access_store d d' a n v :
      accesses c pci d d' → own_store c pci d' a v → accesses c pci d (mmio_store a n v d').

(** The other functions are apart from everything [c] may use. *)
Definition bus_ready (c pci : Z) d : Prop :=
  c ∈ functions ∧ blocks_apart c (host_of c d) ∧ blocks_apart c (io_window + pci) ∧
  ∀ c', c' ∈ functions → c' ≠ c →
    blocks_apart c' c ∧ blocks_apart c' (io_window + pci) ∧
    blocks_apart (host_of c' d) c ∧ blocks_apart (host_of c' d) (io_window + pci).

(** Another function that has its window for good. *)
Definition settled (c c' : Z) d : Prop := c' ∈ functions ∧ c' ≠ c ∧ clear c' d.

Lemma legacy_store_elsewhere window c a v r :
  ¬ in_block c a → ¬ in_block (window + f_bar0 r) a → legacy_store window c a v r = r.
Proof.
  unfold in_block, legacy_store. intros. by rewrite !decide_False by lia.
Qed.

Ltac blocks := unfold in_block, blocks_apart in *; lia.

(** What is true of the bus all along. *)
Definition same_bus (c pci : Z) d d' : Prop :=
  (host_of c d' = host_of c d ∨ host_of c d' = io_window + pci) ∧
  ∀ c', c' ∈ functions → c' ≠ c → fn c' d' = fn c' d.

Lemma own_store_apart c pci d d' a v :
  bus_ready c pci d → same_bus c pci d d' → own_store c pci d' a v →
  not_notify a d' ∧
  ∀ c', c' ∈ functions → c' ≠ c → ¬ in_block c' a ∧ ¬ in_block (host_of c' d') a.
Proof.
  intros (Hc & Hown & Hnew & Hother) [Hhost Hfn] Ha.
  assert (∀ c', c' ∈ functions → c' ≠ c → ¬ in_block c' a ∧ ¬ in_block (host_of c' d') a) as Happ.
  { intros c' Hc' Hne. destruct (Hother c' Hc' Hne) as (? & ? & ? & ?).
    assert (host_of c' d' = host_of c' d) as -> by (unfold host_of; by rewrite Hfn).
    destruct Ha as [[Ha _]|(_ & Ha & _)]; split; blocks. }
  split; [|done]. intros c' Hc'. destruct (decide (c' = c)) as [->|Hne].
  - destruct Ha as [[Ha _]|(Hh & Ha & Hne)]; [|by rewrite Hh]. destruct Hhost as [-> | ->]; blocks.
  - destruct (Happ c' Hc' Hne). blocks.
Qed.

Lemma accesses_bus c pci d d' : accesses c pci d d' → bus_ready c pci d → same_bus c pci d d'.
Proof.
  intros Hacc Hb. induction Hacc as [d|d d' a n _ IH|d d' a n v _ IH Ha].
  - split; [by left|done].
  - destruct (IH Hb) as [IH1 IH2]. unfold same_bus, host_of in *. rewrite fn_load. split; [done|].
    intros c' ? ?. rewrite fn_load. by apply IH2.
  - specialize (IH Hb). destruct (own_store_apart c pci d d' a v Hb IH Ha) as [Hn Happ].
    destruct IH as [IH1 IH2], Hb as (Hc & Hown & Hnew & Hother). split.
    + unfold host_of at 1 3. rewrite fn_store by done. unfold legacy_store.
      destruct (decide (a = c + 16)) as [->|]; cbn.
      * destruct Ha as [[_ Hv]|(_ & Ha & _)]; [right; by rewrite Hv|blocks].
      * repeat case_decide; cbn; exact IH1.
    + intros c' Hc' Hne. destruct (Happ c' Hc' Hne). rewrite fn_store, <-(IH2 c') by done.
      by apply legacy_store_elsewhere.
Qed.

Lemma same_bus_clear c pci c' d d' :
  bus_ready c pci d → same_bus c pci d d' → settled c c' d → host_of c' d' = host_of c' d ∧ clear c' d'.
Proof.
  intros (_ & _ & _ & Hother) [Hhost Hfn] (Hc' & Hne & Hclear).
  assert (∀ x, x ∈ functions → x ≠ c → host_of x d' = host_of x d) as Heq
    by (intros x ? ?; unfold host_of; by rewrite Hfn).
  rewrite Heq by done. split; [done|]. intros x Hx. destruct (Hclear x Hx) as [H1 H2].
  rewrite Heq by done. split; [done|]. intros Hxc'. destruct (decide (x = c)) as [->|].
  - destruct Hhost as [-> | ->]; [by apply H2|]. destruct (Hother c' Hc' Hne) as (_ & _ & _ & ?). blocks.
  - rewrite Heq by done. by apply H2.
Qed.

(** A settled function keeps its queues; the disk keeps its content in any
    case, and its queue when it is another function. *)
Lemma accesses_side c pci c' q d d' :
  accesses c pci d d' → bus_ready c pci d → settled c c' d → has_queue (host_of c' d) q d →
  side (host_of c' d) q d' = side (host_of c' d) q d ∧ has_queue (host_of c' d) q d'.
Proof.
  intros Hacc Hb Hset Hhas. induction Hacc as [d|d d' a n _ IH|d d' a n v Hacc IH Ha]; [done|..].
  - destruct (IH Hb Hset Hhas) as [<- Hq]. destruct (quiet_load a n d') as [_ Hl].
    destruct (Hl (host_of c' d) q) as [-> Hk]. split; [done|by apply Hk].
  - destruct (IH Hb Hset Hhas) as [<- Hq]. pose proof (accesses_bus _ _ _ _ Hacc Hb) as Hsame.
    destruct (own_store_apart c pci d d' a v Hb Hsame Ha) as [Hn Happ].
    destruct (same_bus_clear c pci c' d d' Hb Hsame Hset) as [Hhost _].
    assert (accesses c pci d (mmio_store a n v d')) as Hacc' by (by apply access_store).
    destruct (same_bus_clear c pci c' d _ Hb (accesses_bus _ _ _ _ Hacc' Hb) Hset) as [_ Hclear].
    destruct Hset as (Hc' & Hne & _). rewrite <-Hhost in *. by apply side_quiet; [..|apply Happ| |].
Qed.

Lemma accesses_image c pci d d' : accesses c pci d d' → bv_image (view d') = bv_image (view d).
Proof.
  induction 1 as [d|d d' a n _ <-|d d' a n v _ <- _]; [done| |apply store_image].
  by destruct (quiet_load a n d') as [-> _].
Qed.

Lemma accesses_view c pci d d' :
  accesses c pci d d' → bus_ready c pci d → c ≠ disk_function → view d' = view d.
Proof.
  intros Hacc Hb Hne. induction Hacc as [d|d d' a n _ IH|d d' a n v Hacc IH Ha]; [done|..].
  - rewrite <-IH by done. by destruct (quiet_load a n d') as [-> _].
  - rewrite <-IH by done. pose proof (accesses_bus _ _ _ _ Hacc Hb) as Hsame.
    destruct (own_store_apart c pci d d' a v Hb Hsame Ha) as [Hn Happ].
    apply disk_quiet; [done|]. by apply Happ; [apply disk_on_bus|].
Qed.
End accesses.
