(* ===== verification/BringUp.v ===== *)
(** * Runs of the initialisers, symbolically (src/virtio_driver.c)

    While an initialiser runs, only the memory, the device, the driver's
    array of queues, the frontier of the forever storage and the console
    output change.  [bs] is a machine described by these; the lemmas say what
    each step does to it, for the driver at index [i] and the function at
    [c]. *)

From stdpp Require Import functions.
From S2P Require Import Prelude Layout Ecall Memory Machine Heap HeapTheorems Vring QueueState Blk BlkVring Chain VirtioDriver LegacyBus.

(** ** Where a queue of [n] entries lies *)

Section places.
Context (q n : Z).
Hypothesis Hn : 0 < n <= 2 ^ 15.

Lemma virtq_size_eq :
  virtq_size n = (18 * n + 6 + 4095) / 4096 * 4096 + (8 * n + 6 + 4095) / 4096 * 4096.
Proof.
  unfold virtq_size, virtq_descr_size, virtq_avail_size, virtq_used_size, sizeof_vring_avail_item.
  change (sizeof vring_desc_item) with 16. change (sizeof vring_used_item) with 8. change 4096 with (2 ^ 12).
  rewrite !(wrap_small 32 (16 * n)), !(wrap_small 32 (2 * 3 + _)), (wrap_small 32 (16 * n + _)) by lia.
  rewrite !ALIGN_UP_spec by lia. change (2 ^ 12) with 4096.
  replace (16 * n + (2 * 3 + 2 * n) + 4096 - 1) with (18 * n + 6 + 4095) by lia.
  replace (2 * 3 + 8 * n + 4096 - 1) with (8 * n + 6 + 4095) by lia.
  rewrite wrap_small; [done|]. zlia.
Qed.

Lemma virtq_size_bounds : 0 < virtq_size n < 2 ^ 20 ∧ virtq_size n mod 4096 = 0.
Proof. rewrite virtq_size_eq. zlia. Qed.

Hypothesis Hq : 0 <= q ∧ q mod 4096 = 0.

Lemma queue_fits : queue_end q n <= q + virtq_size n.
Proof. rewrite virtq_size_eq. unfold queue_end, queue_used, queue_avail. zlia. Qed.

Lemma vring_place_eq : q + virtq_size n <= 2 ^ 63 → vring_place q n = (queue_avail q n, queue_used q n).
Proof.
  intros Hb. pose proof virtq_size_bounds. unfold vring_place, virtq_descr_size, virtq_avail_size, sizeof_vring_avail_item.
  change (sizeof vring_desc_item) with 16. rewrite virtq_size_eq in Hb.
  rewrite (wrap_small 32 (16 * n)), (wrap_small 32 (2 * 3 + _)) by lia.
  assert (q + 18 * n + 6 + 4095 < 2 ^ 64) by zlia.
  rewrite !(wrap_small 64) by (rewrite ?(wrap_small 64); lia).
  unfold queue_used, queue_avail. f_equal.
  change 4096 with (2 ^ 12). rewrite ALIGN_UP_spec by lia. change (2 ^ 12) with 4096. do 2 f_equal. lia.
Qed.
End places.

Lemma load_zero m a n :
  (∀ i, 0 <= i < Z.of_nat n → default Byte.x00 (m !! (a + i)) = Byte.x00) → load_le m a n = 0.
Proof.
  intros Hz. unfold load_le. replace (load m a (Z.of_nat n)) with (replicate n Byte.x00).
  - clear. induction n as [|n IH]; [done|].
    change (Z.lor 0 (Z.shiftl (le_combine (replicate n Byte.x00)) 8) = 0). by rewrite IH.
  - apply list_eq. intros k. unfold load. rewrite list_lookup_fmap.
    destruct (decide (k < n)%nat).
    + rewrite lookup_replicate_2, lookup_seqZ_lt by lia. cbn. f_equal. symmetry. apply Hz. lia.
    + rewrite lookup_seqZ_ge, (lookup_ge_None_2 (replicate _ _)) by (rewrite ?length_replicate; lia). done.
Qed.

(** The driver's record of a queue laid out for [n] entries at [q]. *)
Definition fresh_vring (q n : Z) (v : vring) : vring :=
  {| num := num v; size := virtq_size n; bouncebufs := 0;
     bookeeping :=
       {| used_last := 0; avail_next := 0; avail_avail := n; used_avail := n;
          descr_head := descr_head (bookeeping v); descr_next := 0 |};
     desc := q; avail := queue_avail q n; used := queue_used q n |}.

(** It is idle when the device has the same queue and the memory there is
    zero but for the flags of the available ring. *)
Lemma fresh_queue_idle w m q n v :
  4 <= n <= 2 ^ 15 → 0 <= q → bv_num w = n → bv_queue w = q → bv_last_avail w = 0 →
  (∀ a, q <= a < queue_end q n → a < queue_avail q n ∨ queue_avail q n + 2 <= a →
     default Byte.x00 (m !! a) = Byte.x00) →
  queue_idle w m (set_num n (fresh_vring q n v)).
Proof.
  intros Hn Hq <- <- Hlast Hzero.
  destruct (queue_places (bv_queue w) (bv_num w)) as (Hav & Hus & Hend); [lia|].
  split; cbn; try (done || lia).
  - symmetry. apply load_zero. intros i Hi. apply Hzero; lia.
  - intros i Hi. apply load_zero. intros k Hk. apply Hzero; lia.
Qed.

(** ** The states *)

Section bring_up.
Context {D : Type} `{!Platform D} `{!VirtioBlk D} `{!VirtioChain D} `{!LegacyBus D} `{!Linker} `{!StaleVring}.
Context (i : nat) (c pci : Z) (s0 : machine D) (drv : virtio_driver).
Hypothesis Hdrv : virtio_drivers s0 !! i = Some drv.
Hypothesis Hbus : bus_ready c pci (dev s0).
Let host : Z := io_window + pci.
Let sz : Z → Z := f_size (fn c (dev s0)).

Definition placed_driver (vs : list vring) : virtio_driver := set_vrings vs (set_place (io_window + pci) pci c drv).
Definition bs (m : memory) (d : D) (vs : list vring) (f : Z) (o : list Z) : machine D :=
  Machine m d (<[i := placed_driver vs]> (virtio_drivers s0)) (sp s0) (the_heap s0) f (pci_base s0) o.

Lemma bs_driver m d vs f o : virtio_drivers (bs m d vs f o) !! i = Some (placed_driver vs).
Proof. cbn. apply list_lookup_insert_eq. by apply lookup_lt_Some in Hdrv. Qed.

Lemma put_driver_bs m d vs vs' f o :
  put_driver i (placed_driver vs') (bs m d vs f o) = (Done tt, bs m d vs' f o).
Proof.
  unfold put_driver. run. rewrite bs_driver. unfold modify, set_drivers, bs. cbn.
  by rewrite list_insert_insert_eq.
Qed.

Lemma upd_vrings_bs m d vs vs' f o :
  upd_driver i (set_vrings vs') (bs m d vs f o) = (Done tt, bs m d vs' f o).
Proof. unfold upd_driver, get_driver. run. rewrite bs_driver. run. apply (put_driver_bs m d vs vs'). Qed.

Lemma get_driver_bs m d vs f o : get_driver i (bs m d vs f o) = (Done (placed_driver vs), bs m d vs f o).
Proof. unfold get_driver. run. by rewrite bs_driver. Qed.

Lemma get_vring_bs j v m d vs f o :
  vs !! j = Some v → get_vring (i, j) (bs m d vs f o) = (Done v, bs m d vs f o).
Proof.
  intros Hv. unfold get_vring. cbn [fst snd]. run_with (get_driver_bs m d vs f o).
  change (vrings (placed_driver vs)) with vs. by rewrite Hv.
Qed.

Lemma put_vring_bs j v v' m d vs f o :
  vs !! j = Some v → put_vring (i, j) v' (bs m d vs f o) = (Done tt, bs m d (<[j := v']> vs) f o).
Proof.
  intros Hv. unfold put_vring. cbn [fst snd]. run_with (get_driver_bs m d vs f o).
  change (vrings (placed_driver vs)) with vs. rewrite Hv. apply (put_driver_bs m d vs (<[j := v']> vs)).
Qed.

Lemma set_num_bs j v n m d vs f o :
  vs !! j = Some v →
  vring_set_num (i, j) n (bs m d vs f o) = (Done tt, bs m d (<[j := set_num n v]> vs) f o).
Proof. intros Hv. unfold vring_set_num. run_with (get_vring_bs j v m d vs f o Hv). by apply (put_vring_bs j v). Qed.

(** ** Storage *)

Lemma vring_init_bs j v n m d vs f o :
  vs !! j = Some v → 0 < n <= 2 ^ 15 → 0 <= f → f + 4096 + virtq_size n <= _forever_storage_stop →
  _forever_storage_stop <= 2 ^ 43 →
  ∃ q, q mod 4096 = 0 ∧ f <= q < f + 4096 ∧
    vring_init (i, j) n (bs m d vs f o)
    = (Done tt, bs (store_le m (queue_avail q n) 2 1) d (<[j := fresh_vring q n v]> vs) (q + virtq_size n) o).
Proof.
  intros Hv Hn Hf Hfit Hstop. pose proof (virtq_size_bounds n Hn) as [Hsize _].
  unfold vring_init. rewrite (wrap_small 32 n), (wrap_small 16 n) by lia.
  destruct (forever_alloc_spec (virtq_size n) 12 (bs m d vs f o)) as (q & Hmod & Hq & Hrun);
    [cbn [forever_storage_frontier bs]; lia..|].
  cbn [forever_storage_frontier bs] in Hq, Hrun. change (2 ^ 12) with 4096 in *.
  rewrite (proj2 (Z.leb_le _ _)) in Hrun by lia.
  exists q. split; [done|]. split; [lia|]. run_with Hrun.
  change (set_frontier (q + virtq_size n) (bs m d vs f o)) with (bs m d vs (q + virtq_size n) o).
  run_with (get_vring_bs j v m d vs (q + virtq_size n) o Hv).
  rewrite vring_place_eq by lia. layout. rewrite Z.add_0_r. unfold store_mem. run.
  change (set_mem _ _) with (bs (store_le m (queue_avail q n) 2 1) d vs (q + virtq_size n) o).
  by apply (put_vring_bs j v).
Qed.

(** A block for a [struct vring], or for two of them, from a heap that still
    has room. *)
Definition heap_room (m : memory) : Prop :=
  heap_laid_out (the_heap s0) ∧ ∃ p x, 128 < x ∧ block (the_heap s0) p x ∧ ¬ in_use m p.

Lemma malloc_bs size m d vs f o :
  heap_room m → size <= 128 →
  ∃ p, malloc size (bs m d vs f o) = (Done p, bs (store_le m (p - 1) 1 1) d vs f o) ∧
    ∃ x, size < x ∧ block (the_heap s0) p x ∧ ¬ in_use m p.
Proof.
  intros [Hh (p & x & Hx & Hb & Hfree)] Hsize. pose proof (malloc_spec size (bs m d vs f o)) as Hok.
  unfold malloc_ok in Hok. destruct (malloc size (bs m d vs f o)) as [[q|e] s'].
  - destruct Hok as (y & Hy & Hb' & Hfree' & ->). exists q. split; [done|]. by exists y.
  - destruct Hok as (_ & _ & Hall). destruct Hfree. exact (Hall p x I ltac:(lia) Hb).
Qed.

Lemma load_reg_run a n s :
  load_reg a n s = (Done (mmio_load a n (dev s)).1, set_dev (mmio_load a n (dev s)).2 s).
Proof. unfold load_reg. by destruct (mmio_load a n (dev s)). Qed.

(** ** Registers *)

(** What the bus looks like once BAR 0 is set. *)
Record own_state (d : D) (sel : Z) (pfn : Z → Z) (status : Z) : Prop := {
  own_accesses : accesses c pci (dev s0) d;
  own_regs : fn c d = FunctionRegs pci sel pfn status sz;
}.

Lemma own_host d sel pfn status : own_state d sel pfn status → host_of c d = io_window + pci.
Proof. intros [_ Hr]. unfold host_of. by rewrite Hr. Qed.

Lemma own_clear d sel pfn status : own_state d sel pfn status → clear c d.
Proof.
  intros Hown. destruct (accesses_bus _ _ _ _ (own_accesses _ _ _ _ Hown) Hbus) as [_ Hfn].
  destruct Hbus as (_ & _ & Hnew & Hother). intros c' Hc'. rewrite (own_host _ _ _ _ Hown).
  destruct (decide (c' = c)) as [->|Hne]; [done|]. destruct (Hother c' Hc' Hne) as (_ & ? & _ & ?).
  split; [done|]. intros _. unfold host_of at 1. by rewrite Hfn.
Qed.

(** A store to register [off] of the window. *)
Lemma own_store_state d sel pfn status off n v :
  own_state d sel pfn status → 0 <= off < 64 → off ≠ 16 →
  accesses c pci (dev s0) (mmio_store (host + off) n v d) ∧
  fn c (mmio_store (host + off) n v d)
  = (if decide (off = 8) then FunctionRegs pci sel (<[sel := v]> pfn) status sz
     else if decide (off = 14) then FunctionRegs pci v pfn status sz
     else if decide (off = 18) then FunctionRegs pci sel pfn v sz else FunctionRegs pci sel pfn status sz).
Proof.
  intros Hown Hoff Hne. pose proof Hown as [Hacc Hr]. pose proof (own_host _ _ _ _ Hown) as Hh.
  assert (own_store c pci d (host + off) v) as Hst.
  { right. unfold in_block, host. split; [done|]. lia. }
  destruct (own_store_apart c pci (dev s0) d _ v Hbus (accesses_bus _ _ _ _ Hacc Hbus) Hst) as [Hn _].
  split; [by apply access_store|]. destruct Hbus as (Hc & _ & Hnew & _). rewrite fn_store, Hr by done.
  unfold legacy_store, blocks_apart, host in *. cbn. rewrite decide_False by lia.
  repeat (case_decide || lia); try done.
Qed.

Lemma own_load d sel pfn status a n : own_state d sel pfn status → own_state (mmio_load a n d).2 sel pfn status.
Proof. intros [Hacc Hr]. split; [by apply access_load|by rewrite fn_load]. Qed.

(** A store to the configuration space, BAR 0 apart. *)
Lemma own_conf_store d sel pfn status off n v :
  own_state d sel pfn status → 0 <= off < 64 → off ≠ 16 →
  own_state (mmio_store (c + off) n v d) sel pfn status.
Proof.
  intros Hown Hoff Hne. pose proof Hown as [Hacc Hr].
  assert (own_store c pci d (c + off) v) as Hst by (left; unfold in_block; lia).
  destruct (own_store_apart c pci (dev s0) d _ v Hbus (accesses_bus _ _ _ _ Hacc Hbus) Hst) as [Hn _].
  split; [by apply access_store|]. destruct Hbus as (Hc & _ & Hnew & _). rewrite fn_store, Hr by done.
  unfold legacy_store, blocks_apart in *. cbn. by rewrite !decide_False by lia.
Qed.

Lemma init_device_bs :
  ∃ d, init_device i c host pci s0
      = (Done tt, bs (mem s0) d (vrings drv) (forever_storage_frontier s0) (console_out s0)) ∧
    own_state d (f_sel (fn c (dev s0))) (f_pfn (fn c (dev s0))) 1.
Proof.
  unfold init_device, upd_driver, get_driver, put_driver. run. rewrite Hdrv. run. rewrite Hdrv.
  unfold pci_device_set_bar, pci_device_set_status, virtio_device_set_status, store_reg, modify,
    BAR0_OFFSET, PCI_DEVICE_STATUS_OFFSET, VIRTIO_DEVICE_STATUS_HOST_CFG_OFFSET,
    PCI_DEVICE_STATUS_UP, VIRTIO_DEVICE_STATUS_ACK. run. cbn [dev set_dev set_drivers].
  change (16 + 0 * 4) with 16. change (16 + 1 * 4) with 20.
  assert (own_state (mmio_store (c + 16) 4 pci (dev s0)) (f_sel (fn c (dev s0))) (f_pfn (fn c (dev s0)))
    (f_status (fn c (dev s0)))) as H1.
  { assert (own_store c pci (dev s0) (c + 16) pci) as Hst by (left; unfold in_block; split; [lia|done]).
    destruct (own_store_apart c pci (dev s0) (dev s0) _ _ Hbus (accesses_bus _ _ _ _ (no_access _ _ _) Hbus) Hst) as [Hn _].
    split; [apply access_store; [apply no_access|done]|]. rewrite fn_store by (try done; apply Hbus).
    unfold legacy_store. by rewrite decide_True. }
  apply (own_conf_store _ _ _ _ 20 4 (2 ^ 32 - 1)) in H1; [|lia..].
  apply (own_conf_store _ _ _ _ 4 1 7) in H1; [|lia..].
  destruct (own_store_state _ _ _ _ 18 1 1 H1) as [Hacc Hr]; [lia..|].
  eexists. split; [reflexivity|]. by split.
Qed.

Lemma select_size_bs q m d vs f o sel pfn status :
  own_state d sel pfn status →
  ∃ d', (∀ B (k : Z → prog (machine D) B),
           (virtio_device_queue_select host q;; n ← virtio_device_queue_size_read host; k n) (bs m d vs f o)
           = k (sz q) (bs m d' vs f o)) ∧
    own_state d' q pfn status.
Proof.
  intros Hown. destruct (own_store_state d sel pfn status 14 2 q Hown) as [Hacc Hr]; [lia..|].
  assert (own_state (mmio_store (host + 14) 2 q d) q pfn status) as H1 by (by split).
  set (d1 := mmio_store (host + 14) 2 q d) in *. exists (mmio_load (host + 12) 2 d1).2.
  split; [|by apply own_load]. intros B k.
  unfold virtio_device_queue_select, virtio_device_queue_size_read, store_reg,
    VIRTIO_Q_SELECT_HOST_CFG_OFFSET, VIRTIO_Q_SIZE_HOST_CFG_OFFSET. run.
  change (set_dev _ _) with (bs m d1 vs f o). run_with (load_reg_run (host + 12) 2 (bs m d1 vs f o)). cbn [dev bs].
  pose proof (size_load c d1 (proj1 Hbus) (own_clear _ _ _ _ H1)) as Hsz.
  rewrite (own_host _ _ _ _ H1), Hr in Hsz. cbn in Hsz. fold host in Hsz.
  by rewrite Hsz.
Qed.

Lemma desc_write_bs a m d vs f o sel pfn status :
  own_state d sel pfn status → 0 <= a < 2 ^ 44 →
  ∃ d', virtio_device_queue_desc_write host a (bs m d vs f o) = (Done tt, bs m d' vs f o) ∧
    own_state d' sel (<[sel := a / 4096]> pfn) status.
Proof.
  intros Hown Ha. exists (mmio_store (host + 8) 4 (a / 4096) d).
  destruct (own_store_state d sel pfn status 8 4 (a / 4096) Hown) as [Hacc Hr]; [lia..|].
  split; [|by split]. unfold virtio_device_queue_desc_write, store_reg, modify,
    VIRTIO_Q_ADDR_HOST_CFG_OFFSET, VIRTIO_Q_ADDR_PAGE_SHIFT.
  rewrite Z.shiftr_div_pow2 by lia. change (2 ^ 12) with 4096. by rewrite wrap_small by zlia.
Qed.

(** The machine when the initialiser is done. *)
Definition brought_up (m : memory) (d : D) (vs : list vring) (f : Z) (o : list Z) : machine D :=
  Machine m d (<[i := set_initialized (placed_driver vs)]> (virtio_drivers s0)) (sp s0) (the_heap s0) f (pci_base s0) o.

(** The view of queue [q] of a device that has just been started. *)
Definition started_view (img : list byte) (pfn : Z → Z) (q : Z) : blk_view :=
  {| bv_image := img; bv_host := io_window + pci; bv_num := sz q; bv_queue := 4096 * pfn q; bv_last_avail := 0 |}.

Lemma device_up_bs m d vs f o sel pfn :
  own_state d sel pfn 1 →
  ∃ d', device_up i host (bs m d vs f o) = (Done true, brought_up m d' vs f o) ∧
    accesses c pci (dev s0) d' ∧ host_of c d' = io_window + pci ∧
    (c = disk_function → view d' = started_view (bv_image (view (dev s0))) pfn 0) ∧
    (c ≠ disk_function → ∀ q, 0 < sz q →
       side (io_window + pci) q d' = started_view [] pfn q ∧ has_queue (io_window + pci) q d').
Proof.
  intros Hown. exists (mmio_store (host + 18) 1 6 d).
  destruct (own_store_state d sel pfn 1 18 1 6 Hown) as [Hacc Hr]; [lia..|].
  pose proof (own_host _ _ _ _ Hown) as Hh. pose proof (own_clear _ _ _ _ Hown) as Hclear.
  assert (fn c d = FunctionRegs pci sel pfn 1 sz) as Hfn by apply Hown. split_and!.
  - unfold device_up, virtio_device_set_status, store_reg, upd_driver, VIRTIO_DEVICE_STATUS_HOST_CFG_OFFSET.
    run. change (set_dev _ _) with (bs m (mmio_store (host + 18) 1 6 d) vs f o).
    run_with (get_driver_bs m (mmio_store (host + 18) 1 6 d) vs f o).
    unfold put_driver. run. rewrite bs_driver. unfold modify, set_drivers, bs, brought_up. cbn.
    by rewrite list_insert_insert_eq.
  - done.
  - unfold host_of. by rewrite Hr.
  - intros Hc. pose proof (disk_starts 6 d) as Hst. cbn zeta in Hst. rewrite <-Hc, Hh, Hfn in Hst.
    fold host in Hst. rewrite Hst by done. unfold started_view. f_equal. by eapply accesses_image, Hown.
  - intros Hc q Hq. pose proof (side_starts c q 6 d) as Hst. cbn zeta in Hst. rewrite Hh, Hfn in Hst.
    fold host in Hst. apply Hst; try done. apply Hbus.
Qed.

(** ** The three initialisers *)

(** What they need of the machine: a block of the heap and [need] bytes of
    the forever storage. *)
Record storage_ready (need : Z) : Prop := {
  storage_heap : heap_room (mem s0);
  storage_room : 0 <= forever_storage_frontier s0 ∧
    forever_storage_frontier s0 + need <= _forever_storage_stop <= 2 ^ 43;
}.

(** The block [p] of the heap is taken, and nothing else has changed there. *)
Definition took (m : memory) (p : Z) : Prop := (∃ x, 0 < x ∧ block (the_heap s0) p x) ∧ ¬ in_use m p.

Definition device_started (d : D) (pfn : Z → Z) : Prop :=
  accesses c pci (dev s0) d ∧ host_of c d = io_window + pci ∧
  (c = disk_function → view d = started_view (bv_image (view (dev s0))) pfn 0) ∧
  (c ≠ disk_function → ∀ q, 0 < sz q →
     side (io_window + pci) q d = started_view [] pfn q ∧ has_queue (io_window + pci) q d).

Lemma init_entropy_up :
  let n := sz 0 in let f := forever_storage_frontier s0 in
  storage_ready (4096 + virtq_size n) → 0 < n <= 2 ^ 15 →
  ∃ p q d pfn,
    let m := store_le (store_le (mem s0) (p - 1) 1 1) (queue_avail q n) 2 1 in
    init_entropy_virtio i c host pci s0
    = (Done true, brought_up m d [set_num n (fresh_vring q n stale_vring)] (q + virtq_size n) (console_out s0)) ∧
    took (mem s0) p ∧ q mod 4096 = 0 ∧ f <= q < f + 4096 ∧ device_started d pfn ∧ pfn 0 = q / 4096.
Proof.
  intros n f [Hheap [Hf Hstop]] Hn. pose proof (virtq_size_bounds n Hn) as [Hpos _].
  destruct init_device_bs as (d1 & Hrun1 & H1). unfold init_entropy_virtio. run_with Hrun1.
  destruct (select_size_bs 0 (mem s0) d1 (vrings drv) f (console_out s0) _ _ _ H1) as (d2 & Hrun2 & H2).
  rewrite Hrun2. fold n.
  destruct (malloc_bs sizeof_struct_vring (mem s0) d2 (vrings drv) f (console_out s0) Hheap)
    as (p & Hrun3 & x & Hx & Hp); [done|]. run_with Hrun3.
  run_with (upd_vrings_bs (store_le (mem s0) (p - 1) 1 1) d2 (vrings drv) [stale_vring] f (console_out s0)).
  destruct (vring_init_bs 0 stale_vring n (store_le (mem s0) (p - 1) 1 1) d2 [stale_vring] f (console_out s0))
    as (q & Hmod & Hq & Hrun4); [done..|unfold f; lia|lia|]. run_with Hrun4. cbn [list_insert].
  set (m := store_le _ (queue_avail q n) 2 1) in *. set (v := fresh_vring q n stale_vring).
  run_with (set_num_bs 0 v n m d2 [v] (q + virtq_size n) (console_out s0) eq_refl). cbn [list_insert].
  run_with (get_vring_bs 0 (set_num n v) m d2 [set_num n v] (q + virtq_size n) (console_out s0) eq_refl).
  destruct (desc_write_bs q m d2 [set_num n v] (q + virtq_size n) (console_out s0) _ _ _ H2)
    as (d3 & Hrun5 & H3); [unfold f in *; lia|]. change (desc (set_num n v)) with q. run_with Hrun5.
  destruct (device_up_bs m d3 [set_num n v] (q + virtq_size n) (console_out s0) _ _ H3) as (d4 & Hrun6 & Hd4).
  exists p, q, d4. eexists. split; [exact Hrun6|]. split; [split; [exists x; unfold sizeof_struct_vring in Hx; split; [lia|apply Hp]|apply Hp]|].
  split_and!; [done|lia|lia|exact Hd4|]. by rewrite fn_lookup_insert.
Qed.

Lemma eprint_num_bs n m d vs f o : ∃ o', eprint_num n (bs m d vs f o) = (Done tt, bs m d vs f o').
Proof. unfold eprint_num. destruct (negb _); eexists; reflexivity. Qed.

Lemma features_bs m d vs f o sel pfn status :
  own_state d sel pfn status →
  ∃ d', (∀ B (k : prog (machine D) B),
           (_ ← load_reg (host + 0) 4; store_reg (host + 4) 4 0;; k) (bs m d vs f o) = k (bs m d' vs f o)) ∧
    own_state d' sel pfn status.
Proof.
  intros Hown. set (d1 := (mmio_load (host + 0) 4 d).2).
  assert (own_state d1 sel pfn status) as H1 by (by apply own_load).
  destruct (own_store_state d1 sel pfn status 4 4 0 H1) as [Hacc Hr]; [lia..|].
  exists (mmio_store (host + 4) 4 0 d1). split; [|by split]. intros B k.
  run_with (load_reg_run (host + 0) 4 (bs m d vs f o)). unfold store_reg. by run.
Qed.

(** The queue is laid out for 256 entries. *)
Lemma init_blk_up :
  let n := sz 0 in let f := forever_storage_frontier s0 in
  storage_ready (4096 + virtq_size 256) →
  ∃ p q d pfn o,
    let m := store_le (store_le (mem s0) (p - 1) 1 1) (queue_avail q 256) 2 1 in
    init_blk_virtio i c host pci s0
    = (Done true, brought_up m d [set_num n (fresh_vring q 256 stale_vring)] (q + virtq_size 256) o) ∧
    took (mem s0) p ∧ q mod 4096 = 0 ∧ f <= q < f + 4096 ∧ device_started d pfn ∧ pfn 0 = q / 4096.
Proof.
  intros n f [Hheap [Hf Hstop]]. change (virtq_size 256) with 12288 in *.
  destruct init_device_bs as (d1 & Hrun1 & H1). unfold init_blk_virtio. run_with Hrun1.
  destruct (features_bs (mem s0) d1 (vrings drv) f (console_out s0) _ _ _ H1) as (d2 & Hrun2 & H2).
  rewrite Hrun2.
  destruct (select_size_bs 0 (mem s0) d2 (vrings drv) f (console_out s0) _ _ _ H2) as (d3 & Hrun3 & H3).
  rewrite Hrun3. fold n. erewrite bind_done by (apply eprint_msg_machine; repeat constructor; done).
  set (o1 := console_out _ ++ _). change (set_out o1 _) with (bs (mem s0) d3 (vrings drv) f o1).
  destruct (eprint_num_bs n (mem s0) d3 (vrings drv) f o1) as (o2 & Hnum). run_with Hnum.
  unfold eprint at 1, machine_console. run. set (o := console_out _ ++ _).
  change (set_out o _) with (bs (mem s0) d3 (vrings drv) f o).
  destruct (malloc_bs sizeof_struct_vring (mem s0) d3 (vrings drv) f o Hheap)
    as (p & Hrun4 & x & Hx & Hp); [done|]. run_with Hrun4.
  run_with (upd_vrings_bs (store_le (mem s0) (p - 1) 1 1) d3 (vrings drv) [stale_vring] f o).
  destruct (vring_init_bs 0 stale_vring 256 (store_le (mem s0) (p - 1) 1 1) d3 [stale_vring] f o)
    as (q & Hmod & Hq & Hrun5); [done|lia|unfold f; lia|change (virtq_size 256) with 12288; lia|lia|].
  run_with Hrun5. cbn [list_insert].
  set (m := store_le _ (queue_avail q 256) 2 1) in *. set (v := fresh_vring q 256 stale_vring).
  change (virtq_size 256) with 12288 in *.
  run_with (set_num_bs 0 v n m d3 [v] (q + 12288) o eq_refl). cbn [list_insert].
  run_with (get_vring_bs 0 (set_num n v) m d3 [set_num n v] (q + 12288) o eq_refl).
  destruct (desc_write_bs q m d3 [set_num n v] (q + 12288) o _ _ _ H3)
    as (d4 & Hrun6 & H4); [unfold f in *; lia|]. change (desc (set_num n v)) with q. run_with Hrun6.
  destruct (device_up_bs m d4 [set_num n v] (q + 12288) o _ _ H4) as (d5 & Hrun7 & Hd5).
  exists p, q, d5. do 2 eexists. split; [exact Hrun7|].
  split; [split; [exists x; unfold sizeof_struct_vring in Hx; split; [lia|apply Hp]|apply Hp]|].
  split_and!; [done|lia|lia|exact Hd5|]. by rewrite fn_lookup_insert.
Qed.

(** Both queues are laid out for the entries of queue 0; the size of queue 1
    is read and not used. *)
Lemma init_console_up :
  let n := sz 0 in let f := forever_storage_frontier s0 in
  storage_ready (2 * (4096 + virtq_size n)) → 0 < n <= 2 ^ 15 →
  ∃ p q0 q1 d pfn,
    let m := store_le (store_le (store_le (mem s0) (p - 1) 1 1) (queue_avail q0 n) 2 1) (queue_avail q1 n) 2 1 in
    let v q := set_num n (fresh_vring q n stale_vring) in
    init_console_virtio i c host pci s0
    = (Done true, brought_up m d [v q0; v q1] (q1 + virtq_size n) (console_out s0)) ∧
    took (mem s0) p ∧ q0 mod 4096 = 0 ∧ f <= q0 < f + 4096 ∧ q1 mod 4096 = 0 ∧
    q0 + virtq_size n <= q1 < q0 + virtq_size n + 4096 ∧
    device_started d pfn ∧ pfn 0 = q0 / 4096 ∧ pfn 1 = q1 / 4096.
Proof.
  intros n f [Hheap [Hf Hstop]] Hn. pose proof (virtq_size_bounds n Hn) as [Hpos _].
  destruct init_device_bs as (d1 & Hrun1 & H1). unfold init_console_virtio. run_with Hrun1.
  set (o := console_out s0) in *.
  destruct (select_size_bs 0 (mem s0) d1 (vrings drv) f o _ _ _ H1) as (d2 & Hrun2 & H2).
  rewrite Hrun2. fold n.
  destruct (malloc_bs (sizeof_struct_vring * 2) (mem s0) d2 (vrings drv) f o Hheap)
    as (p & Hrun3 & x & Hx & Hp); [done|]. run_with Hrun3.
  set (m0 := store_le (mem s0) (p - 1) 1 1).
  run_with (upd_vrings_bs m0 d2 (vrings drv) [stale_vring; stale_vring] f o).
  destruct (vring_init_bs 0 stale_vring n m0 d2 [stale_vring; stale_vring] f o)
    as (q0 & Hmod0 & Hq0 & Hrun4); [done|done|done|lia|lia|]. run_with Hrun4. cbn [list_insert].
  set (m1 := store_le m0 (queue_avail q0 n) 2 1). set (w0 := fresh_vring q0 n stale_vring).
  destruct (vring_init_bs 1 stale_vring n m1 d2 [w0; stale_vring] (q0 + virtq_size n) o)
    as (q1 & Hmod1 & Hq1 & Hrun5); [done|done|lia|lia|lia|]. run_with Hrun5. cbn [list_insert].
  set (m2 := store_le m1 (queue_avail q1 n) 2 1). set (w1 := fresh_vring q1 n stale_vring).
  set (e := q1 + virtq_size n) in *.
  run_with (set_num_bs 0 w0 n m2 d2 [w0; w1] e o eq_refl). cbn [list_insert].
  run_with (set_num_bs 1 w1 n m2 d2 [set_num n w0; w1] e o eq_refl). cbn [list_insert].
  set (vs := [set_num n w0; set_num n w1]).
  run_with (get_vring_bs 0 (set_num n w0) m2 d2 vs e o eq_refl).
  destruct (desc_write_bs q0 m2 d2 vs e o _ _ _ H2) as (d3 & Hrun6 & H3); [lia|].
  change (desc (set_num n w0)) with q0. run_with Hrun6.
  destruct (select_size_bs 1 m2 d3 vs e o _ _ _ H3) as (d4 & Hrun7 & H4). rewrite Hrun7.
  run_with (get_vring_bs 1 (set_num n w1) m2 d4 vs e o eq_refl).
  destruct (desc_write_bs q1 m2 d4 vs e o _ _ _ H4) as (d5 & Hrun8 & H5); [lia|].
  change (desc (set_num n w1)) with q1. run_with Hrun8.
  destruct (device_up_bs m2 d5 vs e o _ _ H5) as (d6 & Hrun9 & Hd6).
  exists p, q0, q1, d6. eexists. split; [exact Hrun9|].
  split; [split; [exists x; unfold sizeof_struct_vring in Hx; split; [lia|apply Hp]|apply Hp]|].
  split_and!; [done|lia|lia|done|lia|lia|exact Hd6| |].
  - by rewrite fn_lookup_insert_ne, fn_lookup_insert by done.
  - by rewrite fn_lookup_insert.
Qed.
End bring_up.
