(* ===== verification/BlkBoot.v ===== *)
(** * The block driver comes up ready

    [init_blk_virtio] establishes the invariant that every later request
    relies on, for every board with the laws of LegacyBus.v. *)

From stdpp Require Import functions.
From S2P Require Import Prelude Layout Ecall Memory Machine Heap HeapTheorems Blk Vring QueueState BlkVring Chain VirtioDriver LegacyBus BringUp.

(** What boot provides for all initialisers: a heap laid out, forever
    storage that nobody has written from the frontier on, and the two and the
    stack apart from each other. *)
Record boot_machine {D} `{!Platform D} `{!Linker} (s : machine D) : Prop := {
  boot_heap : heap_laid_out (the_heap s);
  boot_frontier : 0 <= _forever_storage_start <= forever_storage_frontier s ∧
    forever_storage_frontier s <= _forever_storage_stop <= 2 ^ 43;
  boot_zero : ∀ a, forever_storage_frontier s <= a < _forever_storage_stop →
    default Byte.x00 (mem s !! a) = Byte.x00;
  boot_apart : heap_end (the_heap s) <= _forever_storage_start ∨
    _forever_storage_stop <= heap_start (the_heap s);
  boot_stack : 1024 <= sp s <= 2 ^ 64 ∧
    (sp s <= _forever_storage_start ∨ _forever_storage_stop <= sp s - 1024);
}.

(** And for the initialiser of driver [i], function [c], when its BAR is to be
    [pci]: an entry in the driver table, a block of the heap for the [struct
    vring]s, [need] bytes of forever storage, and a bus on which nobody else
    answers at the addresses it is going to use. *)
Record boot_state {D} `{!Platform D} `{!VirtioBlk D} `{!VirtioChain D} `{!LegacyBus D} `{!Linker}
    (s : machine D) (i : nat) (c pci need : Z) : Prop := {
  boot_place : boot_machine s;
  boot_table : ∃ drv, virtio_drivers s !! i = Some drv;
  boot_bus : bus_ready c pci (dev s);
  boot_room : ∃ p x, 128 < x ∧ block (the_heap s) p x ∧ ¬ in_use (mem s) p;
  boot_need : forever_storage_frontier s + need <= _forever_storage_stop;
}.

Section boot.
Context {D : Type} `{!Platform D} `{!VirtioBlk D} `{!VirtioChain D} `{!LegacyBus D} `{!Linker} `{!StaleVring}.
Implicit Types s : machine D.

Lemma boot_storage s i c pci need : boot_state s i c pci need → storage_ready s need.
Proof. intros [[Hh Hf _ _ _] _ _ Hroom Hneed]. split; [by split|lia]. Qed.

(** The [used] byte of a block is in the heap, which is apart from the storage. *)
Lemma took_inside s p : boot_machine s → took s (mem s) p → heap_start (the_heap s) <= p - 1 < heap_end (the_heap s).
Proof.
  intros [Hh _ _ _ _] [(x & Hx & Hb) _]. pose proof (block_inside _ _ _ Hh Hb). pose proof (laid_end _ Hh). lia.
Qed.

Lemma took_apart s m p :
  boot_machine s → took s m p → p - 1 < _forever_storage_start ∨ _forever_storage_stop <= p - 1.
Proof.
  intros [Hh _ _ Hap _] [(x & Hx & Hb) _]. pose proof (block_inside _ _ _ Hh Hb). pose proof (laid_end _ Hh). lia.
Qed.

(** The queue that an initialiser has laid out is idle. *)
Lemma boot_queue_idle s p q n v (w : blk_view) m :
  boot_machine s → took s (mem s) p → 4 <= n <= 2 ^ 15 →
  forever_storage_frontier s <= q → q mod 4096 = 0 → q + virtq_size n <= _forever_storage_stop →
  (∀ a, q <= a < queue_end q n → a < queue_avail q n ∨ queue_avail q n + 2 <= a →
     m !! a = store_le (mem s) (p - 1) 1 1 !! a) →
  bv_num w = n → bv_queue w = q → bv_last_avail w = 0 →
  queue_idle w m (set_num n (fresh_vring q n v)).
Proof.
  intros Hboot Hp Hn Hq Hmod Hfit Hm Hnum Hqueue Hlast.
  pose proof (boot_zero _ Hboot) as Hz. pose proof (boot_frontier _ Hboot).
  pose proof (queue_fits q n ltac:(lia) ltac:(lia)).
  destruct (took_apart _ _ _ Hboot Hp) as [Hpq|Hpq];
    (apply fresh_queue_idle; try done; [lia|]); intros a Ha Hfl;
    (rewrite Hm by done; unfold store_le; rewrite lookup_store_other by (rewrite zlen_le_split; lia); apply Hz; lia).
Qed.

(** The queue is always laid out for 256 entries: with a device whose
    queue is smaller (up to 227 entries) the driver and the device disagree
    on where the used ring is, and the machine is not ready. *)
Theorem blk_boot_small_queue s pci :
  boot_state s BLK_DRIVER disk_function pci (4096 + virtq_size 256) →
  0 <= f_size (fn disk_function (dev s)) 0 <= 227 →
  ∃ s', init_blk_virtio BLK_DRIVER disk_function (io_window + pci) pci s = (Done true, s') ∧
    ¬ ready s'.
Proof.
  intros Hboot Hsize. pose proof (boot_storage _ _ _ _ _ Hboot) as Hst. destruct Hboot as [_ [drv Hdrv] Hbus _ _].
  destruct (init_blk_up BLK_DRIVER disk_function pci s drv Hdrv Hbus Hst)
    as (p & q & d & pfn & o & Hrun & Hp & Hmod & Hq & (_ & _ & Hview & _) & Hpfn).
  eexists. split; [exact Hrun|]. specialize (Hview eq_refl).
  intros (drv' & v & [Hd Hv _ _ Hidle _]).
  cbn in Hd. rewrite list_lookup_insert_eq in Hd by (by apply lookup_lt_Some in Hdrv).
  injection Hd as <-. injection Hv as <-. pose proof (idle_used _ _ _ Hidle) as Hu. cbn in Hu.
  unfold queue_used, queue_avail in Hu. zlia.
Qed.
End boot.
