(* ===== verification/Invariants.v ===== *)
(** * What the file system does to the device, whatever is on the disk

    On any volume, however damaged, and for any arguments, the functions of
    blk.c and ext2.c leave the block device ready for the next request; the
    functions that read leave the disk as it is.  The lemmas are the hints of
    [uphold] for the layers above. *)

From S2P Require Import Prelude Programs Layout Ecall Blk Ext2 Ext2File Ext2Dir SelfTest.

(** Printing does not touch the disk. *)
Class QuietConsole (St : Type) `{!BlkDev St} `{!BlkSpec St} `{!Console St} :=
  eprint_quiet p s : ready s → ∃ s', eprint p s = (Done tt, s') ∧ ready s' ∧ image s' = image s.

(** A property of the device that reading does not change. *)
Class ReadStable {St} `{BlkSpec St} (P : St → Prop) := {
  stable_ready s : P s → ready s;
  stable_read s s' : P s → ready s' → image s' = image s → P s';
}.

#[export, refine] Instance ready_stable {St} `{BlkSpec St} : ReadStable ready := {}.
Proof. all: done. Defined.
#[export, refine] Instance image_stable {St} `{BlkSpec St} img :
  ReadStable (λ s, ready s ∧ image s = img) := {}.
Proof. - by intros s []. - intros s s' [_ <-]. done. Defined.
#[export] Hint Extern 0 (ReadStable _) => typeclasses eauto : uphold.

(** A [size_t] result of ext2.c: -1, or a number of bytes up to [n]. *)
Definition amount (n r : Z) : Prop := r = u64 (-1) ∨ 0 <= r <= n.

Section reads.
Context {St : Type} `{BlkSpec St} `{!Console St} `{!QuietConsole St} `{!Uninit}.
Context (P : St → Prop) `{!ReadStable P}.

Lemma sector_in_range pos : 0 <= virtio_blk_sector_from_pos (u64 pos) < 2 ^ 55.
Proof.
  unfold virtio_blk_sector_from_pos, VIRTIO_BLK_SIZE. pose proof (wrap_range 64 pos). zlia.
Qed.

Lemma upholds_read_sector pos blk :
  zlen blk = 512 →
  upholds P (read_sector (virtio_blk_sector_from_pos (u64 pos)) blk)
    (λ r, r.1 = 0 → zlen r.2 = 512).
Proof.
  intros Hblk s Hs. pose proof (sector_in_range pos) as Hr. set (sec := virtio_blk_sector_from_pos _) in *.
  pose proof (stable_ready s Hs) as Hrdy. pose proof (image_sectors s Hrdy).
  destruct (decide (512 * sec + 512 <= zlen (image s))).
  - destruct (read_sector_inside s sec blk) as (s' & -> & Hr' & Him); [done..|lia|done|].
    cbn. split; [by eapply stable_read|]. intros _. apply zlen_slice; lia.
  - destruct (read_sector_outside s sec blk) as (st & blk' & s' & -> & Hst & Hr' & Him); [done|done|done|zlia|].
    cbn. split; [by eapply stable_read|done].
Qed.

Lemma upholds_blk_read_loop fuel output at_ offset size amt :
  upholds P (blk_read_loop fuel output at_ offset size amt) (λ r, zlen r.2 = zlen output).
Proof.
  revert output amt. induction fuel as [|fuel IH]; intros output amt; cbn [blk_read_loop].
  { uphold; done. }
  destruct (amt <? size); [|by apply upholds_ret].
  eapply upholds_bind; [by apply upholds_read_sector|]. intros [st blk] _.
  destruct (negb (st =? 0)); [by apply upholds_ret|].
  eapply upholds_bind; [apply upholds_memcpy|]. intros o <-. apply IH.
Qed.

Lemma upholds_blk_read output at_ offset size :
  upholds P (virtio_blk_read_sync output at_ offset size) (λ r, zlen r.2 = zlen output).
Proof. apply upholds_blk_read_loop. Qed.
#[local] Hint Resolve upholds_blk_read : uphold.

Lemma upholds_get_elem st f v i : upholds P (get_elem st f v i) any.
Proof. unfold get_elem. uphold. Qed.
Lemma upholds_shl_int a n : upholds P (shl_int a n) any.
Proof. unfold shl_int. uphold. Qed.
Lemma upholds_eprint p : upholds P (eprint p) any.
Proof.
  intros s Hs. destruct (eprint_quiet p s (stable_ready s Hs)) as (s' & -> & Hr & Him).
  split; [by eapply stable_read|exact I].
Qed.
#[local] Hint Resolve upholds_get_elem upholds_shl_int upholds_eprint : uphold.

Lemma upholds_eprint_str str : upholds P (eprint_str str) any.
Proof. induction str as [|c str IH]; cbn [eprint_str]; uphold. Qed.
Lemma upholds_eprint_msg msg : upholds P (eprint_msg msg) any.
Proof. apply upholds_eprint_str. Qed.
Lemma upholds_eprint_num n : upholds P (eprint_num n) any.
Proof. unfold eprint_num. uphold. Qed.
Lemma upholds_eprint_bytes l : upholds P (eprint_bytes l) any.
Proof. pose proof upholds_eprint_num. induction l; cbn [eprint_bytes]; uphold. Qed.
#[local] Hint Resolve upholds_eprint_str upholds_eprint_msg upholds_eprint_num upholds_eprint_bytes : uphold.
Lemma upholds_eprint_buffer msg buffer n : upholds P (eprint_buffer msg buffer n) any.
Proof. unfold eprint_buffer. uphold. Qed.
#[local] Hint Resolve upholds_eprint_buffer : uphold.

Lemma upholds_ino_disk_offset sb ino : upholds P (ino_disk_offset sb ino) any.
Proof. unfold ino_disk_offset, INODE_TABLE_LOC, INODE_LOC_IN_TABLE, bg_from_bgno. uphold. Qed.
#[local] Hint Resolve upholds_ino_disk_offset : uphold.

Lemma upholds_inode_from_ino sb rinode ino :
  upholds P (inode_from_ino sb rinode ino) (λ r, zlen r.2 = zlen rinode).
Proof. unfold inode_from_ino. uphold. done. Qed.
Lemma upholds_read_superblock sb : upholds P (read_superblock sb) (λ r, zlen r.2 = zlen sb).
Proof. unfold read_superblock. uphold; done. Qed.
#[local] Hint Resolve upholds_inode_from_ino upholds_read_superblock : uphold.

Lemma upholds_read_ino_loop fuel inode buffer offset len amt :
  upholds P (read_ino_loop fuel inode buffer offset len amt)
    (λ r, zlen r.2 = zlen buffer ∧ (0 <= amt → 0 <= len → amount len r.1)).
Proof.
  revert buffer amt. induction fuel as [|fuel IH]; intros buffer amt; cbn [read_ino_loop];
    destruct (Z.ltb_spec amt len); try (apply upholds_ret; split; [done|right; cbn; lia]); [apply upholds_stop|].
  eapply upholds_bind; [apply upholds_get_elem|]. intros no _.
  eapply upholds_bind; [apply upholds_blk_read|]. intros [n b] Hb. cbn in Hb.
  destruct (negb _); [apply upholds_ret; split; [done|right; cbn; lia]|]. rewrite <-Hb.
  eapply upholds_weaken; [apply IH|]. intros r [Hz Hr]. split; [done|]. intros _. apply Hr. by apply wrap_range.
Qed.
Lemma upholds_read_from_ino sb ino buffer offset len :
  upholds P (read_from_ino sb ino buffer offset len)
    (λ r, zlen r.2 = zlen buffer ∧ (0 <= len → amount len r.1)).
Proof.
  unfold read_from_ino. eapply upholds_bind; [apply upholds_inode_from_ino|]. intros [found inode] _.
  destruct (negb found); [apply upholds_ret; split; [done|by left]|].
  eapply upholds_weaken; [apply upholds_read_ino_loop|]. intros r [Hz Hr]. split; [done|]. by apply Hr.
Qed.

Lemma upholds_strncmp a b n : upholds P (strncmp_eq a b n) any.
Proof. revert a b. induction n as [|n IH]; intros a b; cbn [strncmp_eq]; uphold. Qed.
Lemma upholds_strtok buf pos : upholds P (strtok buf pos) (λ r, zlen r.1.2 = zlen buf).
Proof. unfold strtok. uphold; cbn; try done. unfold zlen. by rewrite length_insert. Qed.
#[local] Hint Resolve upholds_strncmp upholds_strtok : uphold.
Lemma upholds_scan_block fuel buffer path idx : upholds P (scan_block fuel buffer path idx) any.
Proof. revert buffer idx. induction fuel as [|fuel IH]; intros buffer idx; cbn [scan_block]; uphold. Qed.
#[local] Hint Resolve upholds_scan_block : uphold.
Lemma upholds_scan_dir todo sb path dir inode ino o :
  upholds P (scan_dir todo sb path dir inode ino o) (λ r, zlen r.1.2 = zlen inode).
Proof. revert o. induction todo as [|todo IH]; intros o; cbn [scan_dir]; uphold; done. Qed.
Lemma upholds_inode_from_dir sb path dir inode ino :
  upholds P (inode_from_dir sb path dir inode ino) (λ r, zlen r.1.2 = zlen inode).
Proof. apply upholds_scan_dir. Qed.
#[local] Hint Resolve upholds_inode_from_dir : uphold.
Lemma upholds_path_loop fuel sb path pos inode ino : upholds P (path_loop fuel sb path pos inode ino) (λ r, zlen r.1.1.2 = zlen path).
Proof.
  revert path pos inode ino. induction fuel as [|fuel IH]; intros; cbn [path_loop]; uphold;
    subst; cbn in *; congruence.
Qed.
#[local] Hint Resolve upholds_path_loop : uphold.
Lemma upholds_ino_from_path sb path ino : upholds P (ino_from_path sb path ino) (λ r, zlen r.1.2 = zlen path).
Proof. unfold ino_from_path. uphold; subst; done. Qed.
Lemma upholds_inode_from_path sb path inode : upholds P (inode_from_path sb path inode) any.
Proof. unfold inode_from_path. uphold. Qed.
#[local] Hint Resolve upholds_inode_from_path : uphold.

(** *** The self test *)

Lemma upholds_debug_block fuel buffer idx : upholds P (debug_block fuel buffer idx) any.
Proof. revert buffer idx. induction fuel as [|fuel IH]; intros; cbn [debug_block]; uphold. Qed.
#[local] Hint Resolve upholds_debug_block : uphold.
Lemma upholds_debug_dirent inode : upholds P (debug_dirent inode) any.
Proof.
  unfold debug_dirent. generalize 0. generalize (Z.to_nat EXT2_MAX_DIRECT_BLOCKS_PER_INODE).
  intros n. induction n as [|n IH]; intros; cbn [debug_blocks]; uphold.
Qed.
#[local] Hint Resolve upholds_debug_dirent : uphold.

Lemma zlen_splice_front (l l' : list byte) : zlen l <= zlen (splice l 0 l').
Proof. unfold splice, zlen. rewrite !length_app, length_take, length_drop. lia. Qed.

Lemma upholds_check_file sb bs path msg content failure ino buffer :
  512 <= zlen buffer →
  upholds P (check_file sb bs path msg content failure ino buffer) (λ r, 512 <= zlen r.2).
Proof.
  intros Hb. unfold check_file. eapply upholds_bind; [apply upholds_inode_from_path|]. intros [[? ?] ino'] _.
  eapply upholds_bind; [apply upholds_get_elem|]. intros block _.
  eapply upholds_bind; [apply upholds_read_sector; apply zlen_slice; lia|]. intros [? sector] _.
  pose proof (zlen_splice_front buffer sector). uphold; cbn; lia.
Qed.

Lemma upholds_expect b yes no : upholds P (expect b yes no) any.
Proof. unfold expect, report. uphold. Qed.
#[local] Hint Resolve upholds_check_file upholds_expect : uphold.

Lemma upholds_self_test : upholds P test_ext2_implementation (λ r, r = true).
Proof.
  unfold test_ext2_implementation, report.
  eapply upholds_bind; [apply upholds_read_superblock|]. intros [? sb] _.
  do 5 (apply (upholds_bind _ _ _ any); [uphold|intros ? _]).
  eapply upholds_bind; [apply upholds_blk_read|]. intros [n buffer] Hb. cbn in Hb.
  change (zlen (zeros 1024)) with 1024 in Hb.
  destruct (negb _); [by apply upholds_ret|].
  do 10 (apply (upholds_bind _ _ _ any); [uphold|intros ? _]). case_match.
  eapply upholds_bind; [apply upholds_debug_dirent|intros ? _].
  eapply upholds_bind; [apply upholds_check_file; lia|]. intros [ino' buffer'] Hb'.
  eapply upholds_bind; [apply upholds_check_file; exact Hb'|]. intros _ _. uphold; done.
Qed.
End reads.

(** ** Functions that write *)

#[export] Hint Resolve upholds_blk_read upholds_get_elem upholds_shl_int upholds_eprint
  upholds_eprint_str upholds_eprint_msg upholds_eprint_num upholds_ino_disk_offset
  upholds_inode_from_ino upholds_read_superblock upholds_read_from_ino upholds_ino_from_path
  upholds_self_test : uphold.

Section writes.
Context {St : Type} `{BlkSpec St} `{!Uninit}.

(** One turn of the write loop: the sector written is the sector that was
    read before, so it lies on the disk. *)
Lemma upholds_write_turn pos (f : list byte → prog St (list byte)) (k : Z → prog St Z) :
  (∀ blk, upholds (ready (St := St)) (f blk) (λ b, zlen b = zlen blk)) →
  (∀ blk s, (f blk s).2 = s) → (∀ r, upholds ready (k r) any) →
  ∀ n, upholds ready
    ('(r, blk) ← read_sector (virtio_blk_sector_from_pos (u64 pos)) (zeros VIRTIO_BLK_SIZE);
     if negb (r =? 0) then mret n
     else blk ← f blk; w ← write_sector (virtio_blk_sector_from_pos (u64 pos)) blk; k w) any.
Proof.
  intros Hf Hpure Hk n s Hs. pose proof (sector_in_range pos) as Hr.
  set (sec := virtio_blk_sector_from_pos _) in *. pose proof (image_sectors s Hs).
  destruct (decide (512 * sec + 512 <= zlen (image s))).
  - destruct (read_sector_inside s sec (zeros VIRTIO_BLK_SIZE)) as (s1 & Hrd & Hr1 & Him1); [done..|lia|done|].
    run_with Hrd. cbn [negb Z.eqb]. set (blk := slice _ _ _).
    assert (zlen blk = 512) as Hblk by (apply zlen_slice; lia).
    destruct (Hf blk s1 Hr1) as [Hr2 Hlen]. pose proof (Hpure blk s1) as Hp.
    destruct (f blk s1) as [[b|e] s2] eqn:Hfb; cbn in Hr2, Hlen, Hp; subst s2; [|by rewrite (bind_stop _ _ _ _ _ Hfb)].
    run_with Hfb.
    destruct (write_sector_inside s1 sec b) as (s2 & Hwr & Hr2' & _);
      [done|lia|lia|by rewrite Him1|]. run_with Hwr. by apply Hk.
  - destruct (read_sector_outside s sec (zeros VIRTIO_BLK_SIZE)) as (st & blk' & s' & Hrd & Hst & Hr' & Him);
      [done|done|done|zlia|]. run_with Hrd. apply Z.eqb_neq in Hst as ->. by split.
Qed.

Lemma upholds_blk_write_loop fuel input at_ offset size amt :
  upholds (ready (St := St)) (blk_write_loop fuel input at_ offset size amt) any.
Proof.
  revert amt. induction fuel as [|fuel IH]; intros amt; cbn [blk_write_loop]; [uphold|].
  destruct (amt <? size); [|by apply upholds_ret]. cbn zeta.
  apply (upholds_write_turn (offset + amt)
    (λ blk, memcpy blk _ input (at_ + amt) _) (λ w, if negb (w =? 0) then mret amt else blk_write_loop fuel _ _ _ _ _)).
  - intros blk. apply upholds_memcpy.
  - intros blk s. unfold memcpy, defined. by destruct (_ && _).
  - intros r. destruct (negb _); [by apply upholds_ret|apply IH].
Qed.
Lemma upholds_blk_write input at_ offset size :
  upholds (ready (St := St)) (virtio_blk_write_sync input at_ offset size) any.
Proof. apply upholds_blk_write_loop. Qed.
#[local] Hint Resolve upholds_blk_write : uphold.

Lemma upholds_inode_to_ino sb rinode ino : upholds (ready (St := St)) (inode_to_ino sb rinode ino) any.
Proof. unfold inode_to_ino. uphold. Qed.
#[local] Hint Resolve upholds_inode_to_ino : uphold.
Lemma upholds_set_time f sb ino t : upholds (ready (St := St)) (set_time_for_ino f sb ino t) any.
Proof. unfold set_time_for_ino. uphold. Qed.
Lemma upholds_write_ino_loop fuel inode buffer offset len amt :
  upholds (ready (St := St)) (write_ino_loop fuel inode buffer offset len amt) (λ r, 0 <= amt → 0 <= len → amount len r).
Proof.
  revert amt. induction fuel as [|fuel IH]; intros amt; cbn [write_ino_loop];
    destruct (Z.ltb_spec amt len); try (apply upholds_ret; right; lia); [apply upholds_stop|].
  eapply upholds_bind; [apply upholds_get_elem|]. intros no _.
  eapply upholds_bind; [apply upholds_blk_write|]. intros n _.
  destruct (negb _); [apply upholds_ret; right; lia|].
  eapply upholds_weaken; [apply IH|]. intros r Hr _. apply Hr. by apply wrap_range.
Qed.
Lemma upholds_write_to_ino sb ino buffer offset len :
  upholds (ready (St := St)) (write_to_ino sb ino buffer offset len) (λ r, 0 <= len → amount len r).
Proof.
  unfold write_to_ino. eapply upholds_bind; [apply (upholds_inode_from_ino ready)|]. intros [found inode] _.
  destruct (negb found); [apply upholds_ret; by left|].
  eapply upholds_weaken; [apply upholds_write_ino_loop|]. intros r Hr. by apply Hr.
Qed.
End writes.
#[export] Hint Resolve upholds_blk_write upholds_set_time upholds_write_to_ino : uphold.
