(* ===== verification/SelfTestTheorems.v ===== *)
(** * The self test of the file system (properties)

    [debug_dirent] ends on every well-formed directory; the self test reads
    only, and can fail only by switching the machine off. *)

From S2P Require Import Prelude Programs Layout Ecall Blk Ext2 Ext2File Ext2Dir Ramdisk SelfTest BlkTheorems Ext2Theorems Ext2DirTheorems Invariants.

Section walk.
Context {St : Type} `{BlkSpec St} `{!Uninit}.
Implicit Types s : St.

(** The same two copies as in [scan_block]; every entry is passed. *)
Lemma debug_block_spec fuel buffer blk idx es s :
  chain blk idx es → zlen blk = 1024 → zlen buffer = 1024 → idx = 0 ∨ 8 <= idx →
  (∀ o n, idx <= o → 0 <= n → slice buffer o n = slice blk o n) → (length es <= fuel)%nat →
  debug_block fuel buffer idx s = (Done tt, s).
Proof.
  intros Hchain Hblk. revert fuel buffer.
  induction Hchain as [|idx es e Hlt Hrec Hchain IH]; intros fuel buffer Hbuf Hidx Hsame Hfuel.
  { by destruct fuel. }
  destruct fuel as [|fuel]; cbn [length] in Hfuel; [lia|]. cbn [debug_block].
  rewrite (proj2 (Z.ltb_lt _ _) Hlt).
  pose proof (get_le_range blk (idx + 6) 1) as Hnl. pose proof (chain_bound _ _ _ Hchain) as Hb.
  pose proof (zlen_nonneg es).
  destruct (entry_copied buffer blk idx (de_rec_len e)) as (Hb1 & Hb2 & Hf1 & Hf2 & Hrest);
    [done|done|done|lia|lia|done|].
  change (sizeof ext2_dirent) with 8. run_apply memcpy_done.
  destruct (entry_fields _ _ _ Hf1) as (_ & -> & _). fold e. run_apply memcpy_done.
  set (b2 := splice _ 0 (slice _ idx (de_rec_len e))) in *.
  destruct (entry_fields b2 blk idx) as (_ & -> & ->); [intros; apply Hf2; lia|]. fold e.
  change (2 ^ (8 * Z.of_nat 1)) with 256 in Hnl.
  erewrite bind_done by (apply memcpy_done; change (zlen (zeros 255)) with 255; lia).
  apply IH; [done|lia|done|lia].
Qed.

Lemma debug_blocks_spec todo inode o es s :
  ready s → dir_listing (image s) inode o es → Z.of_nat todo = EXT2_MAX_DIRECT_BLOCKS_PER_INODE - o →
  ∃ s', debug_blocks todo inode o s = (Done tt, s') ∧ ready s' ∧ image s' = image s.
Proof.
  unfold EXT2_MAX_DIRECT_BLOCKS_PER_INODE. intros Hs Hlist. remember (image s) as img eqn:Himg.
  revert todo s Hs Himg. induction Hlist as [o ->|o Ho Hz|o es es' Ho Hnz Hok Hchain _ IH];
    unfold EXT2_MAX_DIRECT_BLOCKS_PER_INODE in *; intros todo s Hs Himg Htodo.
  - destruct todo; [|lia]. by exists s.
  - destruct todo; [lia|]. cbn [debug_blocks]. exists s.
    run_with (get_i_block inode o s ltac:(lia)). rewrite Hz. done.
  - destruct todo as [|todo]; [lia|]. cbn [debug_blocks]. subst img.
    run_with (get_i_block inode o s ltac:(lia)). apply Z.eqb_neq in Hnz as ->.
    destruct Hok as (_ & Hin & H32). pose proof (i_block_nonneg inode o). pose proof (image_bound s Hs).
    assert (zlen (uninit 1024) = 1024) by by apply zlen_uninit.
    destruct (virtio_blk_read_sync_spec (uninit 1024) 0 (i_block inode o * 1024) 1024 s)
      as (s1 & Hrd & Hr1 & Him1); [done|lia..|]. rewrite splice_all in Hrd by (rewrite zlen_slice; lia).
    rewrite (wrap_small 32) by lia. run_with Hrd.
    erewrite bind_done; [by apply IH; [done|done|lia]|].
    pose proof (chain_bound _ _ _ Hchain).
    eapply debug_block_spec; [exact Hchain|..]; try (apply zlen_slice; lia); try done; [by left|].
    unfold zlen, scan_turns in *. lia.
Qed.

(** C31.  [debug_dirent] ends on every directory whose blocks are chains of
    entries, however many blocks and entries there are, and leaves the disk
    as it was: no name is too long for the buffer of 255 bytes and no entry
    leaves the block. *)
Theorem debug_dirent_ends inode es s :
  ready s → dir_listing (image s) inode 0 es →
  ∃ s', debug_dirent inode s = (Done tt, s') ∧ ready s' ∧ image s' = image s.
Proof. intros Hs Hlist. by eapply debug_blocks_spec. Qed.

(** The self test reads only, and its result says nothing: on every
    volume, however damaged, and whether it returns or stops, the disk is as
    before; and whenever it returns, it returns true, also on the path that
    reports that the group descriptor could not be read (its [-1] is
    converted to [bool]). *)
Theorem self_test_never_false `{!Console St} `{!QuietConsole St} s :
  ready s → ∃ r s', test_ext2_implementation s = (r, s') ∧ ready s' ∧ image s' = image s ∧ r ≠ Done false.
Proof.
  intros Hs. destruct (upholds_self_test (λ s', ready s' ∧ image s' = image s) s) as [[Hr Him] Hret]; [done|].
  destruct (test_ext2_implementation s) as [r s']. exists r, s'. split_and!; try done. intros ->. done.
Qed.
End walk.

(** ** Witnesses *)

Lemma debug_dirent_ends_witness : ∃ s', debug_dirent sample_root sample = (Done tt, s') ∧ image s' = sample_image.
Proof.
  destruct (debug_dirent_ends sample_root _ sample sample_ready root_listing) as (s' & Hrun & _ & Him).
  exists s'. split; [exact Hrun|exact Him].
Defined.

#[export] Instance ramdisk_quiet_console : QuietConsole ramdisk.
Proof. intros p s Hs. by eexists. Defined.

(** A volume like the one the test is written for: ["/blank"], ["/eve"] and
    ["/this/is/a/test"], the inode table at block 8.  The test passes. *)
Definition test_inode (ino size block : Z) (img : list byte) : list byte :=
  splice img (8192 + 256 * (ino - 1)) (sample_inode 33188 size block 0).
Definition one_entry (ino : Z) (name : string) : list byte := splice (zeros 1024) 0 (entry ino 1024 name).

Definition test_image : list byte :=
  let img := splice (zeros 17408) 1024 (set_field ext2_superblock "s_blocks_per_group" sample_superblock 8192) in
  let img := splice img 2048 (set_field ext2_blockgroup "bg_inode_table" (zeros 32) 8) in
  let img := test_inode 2 1024 10 (test_inode 3 7 11 (test_inode 4 4 12 (test_inode 5 1024 13 img))) in
  let img := test_inode 6 1024 14 (test_inode 7 1024 15 (test_inode 8 0 16 img)) in
  let img := splice img 10240 (splice (splice (splice (zeros 1024) 0 (entry 3 16 "blank")) 16 (entry 4 12 "eve"))
                                28 (entry 5 996 "this")) in
  let img := splice (splice img 11264 (bytes_of "testing")) 12288 (bytes_of "adam") in
  splice (splice (splice img 13312 (one_entry 6 "is")) 14336 (one_entry 7 "a")) 15360 (one_entry 8 "test").
Definition test_disk : ramdisk := RamDisk test_image [].
#[global] Opaque test_image.

Lemma self_test_never_false_witness :
  ∃ s', test_ext2_implementation test_disk = (Done true, s') ∧ image s' = test_image.
Proof.
  destruct (self_test_never_false test_disk) as (r & s' & Hrun & _ & Him & _); [split; vm_compute; congruence|].
  assert (r = Done true) as -> by (apply (f_equal fst) in Hrun; vm_compute in Hrun; by rewrite <-Hrun).
  exists s'. split; [exact Hrun|exact Him].
Defined.
