(* ===== verification/IoTheorems.v ===== *)
(** * The descriptor layer is correct

    The table's invariant is kept by every call on any device; on a device
    with the block-device laws, opening, reading, writing and seeking do what
    a descriptor promises. *)

From S2P Require Import Prelude Layout Ecall Blk Ext2 Ext2File Ext2Dir Ramdisk BlkTheorems Ext2Theorems Ext2DirTheorems Io.

(** ** The table *)

Section table.
Context {S : Type}.
Implicit Types s : io_state S.

(** What a descriptor in slot [i] may be: closed; a file; or the console,
    in slot 1 only. *)
Definition descriptor_ok (i : nat) (d : io_descriptor) : Prop :=
  open d = true →
  (write_handler d = Some disk_write_handler_f ∧ read_handler d = Some disk_read_handler_f ∧
   seek_handler d = Some disk_seek_handler_f) ∨
  (i = 1%nat ∧ write_handler d = Some stdout_write_handler_f ∧ read_handler d = None ∧
   seek_handler d = None).

Definition table_ok (t : list io_descriptor) : Prop :=
  zlen t = max_fd ∧ ∀ i d, t !! i = Some d → descriptor_ok i d.

Lemma table_insert t i d : table_ok t → descriptor_ok i d → table_ok (<[i := d]> t).
Proof.
  intros [Hlen Ht] Hd. split; [unfold zlen; by rewrite length_insert|].
  intros j d' Hj. apply list_lookup_insert_Some in Hj as [(-> & <- & _)|[_ Hj]]; eauto.
Qed.

(** A program keeps the table valid whatever its outcome is; [reads] also
    tells what a successful run has returned. *)
Definition keeps {A} (m : prog (io_state S) A) : Prop :=
  ∀ s, table_ok (fds s) → table_ok (fds (m s).2).

Lemma keeps_ret {A} (a : A) : keeps (mret a).
Proof. by intros s. Qed.
Lemma keeps_stop {A} f : keeps (@stop (io_state S) A f).
Proof. by intros s. Qed.
Lemma keeps_defined b : keeps (defined (S := io_state S) b).
Proof. destruct b; intros s Hs; exact Hs. Qed.
Lemma keeps_gets {A} (f : io_state S → A) : keeps (gets f).
Proof. by intros s. Qed.
Lemma keeps_lift {A} (m : prog S A) : keeps (lift m).
Proof. intros s Hs. unfold lift. destruct (m (below s)). exact Hs. Qed.
Lemma keeps_bind {A B} (m : prog (io_state S) A) (f : A → prog (io_state S) B) :
  keeps m → (∀ a, keeps (f a)) → keeps (m ≫= f).
Proof.
  intros Hm Hf s Hs. specialize (Hm s Hs). unfold mbind, prog_bind.
  destruct (m s) as [[a|e] s']; [by apply Hf|done].
Qed.
Lemma keeps_modify (f : io_state S → io_state S) : (∀ s, fds (f s) = fds s) → keeps (modify f).
Proof. intros Hf s Hs. cbn. by rewrite Hf. Qed.
Lemma keeps_put fd d : descriptor_ok (Z.to_nat fd) d → keeps (put_fd fd d).
Proof.
  intros Hd s Hs. unfold put_fd. run. destruct (_ && _); [|done]. cbn. by apply table_insert.
Qed.

(** A bind on [get_fd] may use that the descriptor found is valid. *)
Lemma keeps_get {B} fd (f : io_descriptor → prog (io_state S) B) :
  (∀ d, descriptor_ok (Z.to_nat fd) d → keeps (f d)) → keeps (get_fd fd ≫= f).
Proof.
  intros Hf s Hs. unfold get_fd. run. destruct (0 <=? fd); [|done]. unfold defined. run.
  destruct (fds s !! Z.to_nat fd) as [d|] eqn:Hd; [|done]. run. apply Hf; [|done]. by apply Hs.
Qed.
End table.

Create HintDb keeps.
#[export] Hint Resolve keeps_ret keeps_stop keeps_defined keeps_gets keeps_lift keeps_bind keeps_put : keeps.

(** [keeps] goes through a program. *)
Ltac keeps_step :=
  match goal with
  | |- ∀ _, _ => intros ?
  | |- keeps (get_fd _ ≫= _) => apply keeps_get; intros ? ?
  | |- keeps (_ ≫= _) => apply keeps_bind
  | |- keeps (modify _) => apply keeps_modify; done
  | |- keeps (put_fd _ _) => apply keeps_put
  | |- keeps (if ?b then _ else _) => destruct b
  | |- keeps (match ?x with _ => _ end) => destruct x
  | |- keeps _ => solve [eauto with keeps]
  end.
Ltac keeps := repeat keeps_step.

Section invariant.
Context {S : Type} `{!BlkDev S} `{!Console S} `{!Uninit} `{!Board S}.

Lemma keeps_eprint_str str : keeps (eprint_str (St := io_state S) str).
Proof.
  induction str as [|c str IH]; cbn [eprint_str]; unfold eprint, io_console; keeps.
Qed.
Lemma keeps_eprint_msg msg : keeps (eprint_msg (St := io_state S) msg).
Proof. apply keeps_eprint_str. Qed.
Lemma keeps_is_open fd : keeps (is_fd_open (S := S) fd).
Proof. unfold is_fd_open. keeps. Qed.
Lemma keeps_assert : keeps (assert_mounted (S := S)).
Proof. unfold assert_mounted. keeps. Qed.
#[local] Hint Resolve keeps_eprint_msg keeps_is_open keeps_assert : keeps.

Lemma keeps_stdout fd buf size : keeps (stdout_write_handler (S := S) fd buf size).
Proof. unfold stdout_write_handler. keeps. Qed.
Lemma keeps_disk_write fd buf size : keeps (disk_write_handler (S := S) fd buf size).
Proof. unfold disk_write_handler, superblock_for_ino. keeps. Qed.
Lemma keeps_disk_read fd buf size : keeps (disk_read_handler (S := S) fd buf size).
Proof. unfold disk_read_handler, superblock_for_ino. keeps. Qed.
Lemma keeps_seek fd off whence : keeps (disk_seek_handler (S := S) fd off whence).
Proof. unfold disk_seek_handler. keeps; done. Qed.
Lemma keeps_close fd : keeps (close_fd (S := S) fd).
Proof. unfold close_fd. keeps. done. Qed.
Lemma keeps_open path : keeps (open_fd (S := S) path).
Proof.
  unfold open_fd, next_fd, superblock_for_pathname. keeps; by left.
Qed.
Lemma keeps_mount : keeps (io_mount_hd (S := S)).
Proof. unfold io_mount_hd, shl_int. keeps. Qed.
#[local] Hint Resolve keeps_stdout keeps_disk_write keeps_disk_read keeps_seek keeps_close
  keeps_open keeps_mount : keeps.

(** The calls a program can make on descriptors, with any arguments; the
    outcome may be a return or a stop. *)
Inductive io_step (s s' : io_state S) : Prop :=
  | step_open path : (openat_s path s).2 = s' → io_step s s'
  | step_close fd : (close_s fd s).2 = s' → io_step s s'
  | step_seek fd offset whence : (seek_s fd offset whence s).2 = s' → io_step s s'
  | step_read fd buf size : (read_s fd buf size s).2 = s' → io_step s s'
  | step_write fd buf size : (write_s fd buf size s).2 = s' → io_step s s'
  | step_mount : (io_mount_hd s).2 = s' → io_step s s'.

Lemma keeps_openat_s path : keeps (openat_s (S := S) path).
Proof. unfold openat_s. keeps. Qed.
Lemma keeps_close_s fd : keeps (close_s (S := S) fd).
Proof. unfold close_s. keeps. Qed.
Lemma keeps_seek_s fd off wh : keeps (seek_s (S := S) fd off wh).
Proof. unfold seek_s. keeps. Qed.
Lemma keeps_read_s fd buf sz : keeps (read_s (S := S) fd buf sz).
Proof. unfold read_s. keeps. Qed.
Lemma keeps_write_s fd buf sz : keeps (write_s (S := S) fd buf sz).
Proof. unfold write_s. keeps. Qed.

Lemma io_step_ok s s' : io_step s s' → table_ok (fds s) → table_ok (fds s').
Proof.
  intros [path <-|fd <-|fd off wh <-|fd buf sz <-|fd buf sz <-|<-].
  - apply keeps_openat_s.
  - apply keeps_close_s.
  - apply keeps_seek_s.
  - apply keeps_read_s.
  - apply keeps_write_s.
  - apply keeps_mount.
Qed.

(** The table after [configure_io] at boot. *)
Lemma configured_ok (b : S) : table_ok (fds (configure_io (initial_io b)).2).
Proof.
  replace (fds _) with (<[1%nat := IoDescriptor true 0 0 (Some stdout_write_handler_f) None None]>
    (replicate (Z.to_nat max_fd) closed_descriptor)) by reflexivity.
  split; [done|]. intros i d Hd Hopen.
  destruct (decide (i = 1%nat)) as [->|Hi].
  - rewrite list_lookup_insert_eq in Hd by (rewrite length_replicate; unfold max_fd; lia).
    injection Hd as <-. by right.
  - rewrite list_lookup_insert_ne in Hd by done. apply lookup_replicate in Hd as [-> _]. done.
Qed.

(** C23.  The descriptor table stays valid: in every state reachable from
    boot by any sequence of open, close, seek, read, write and mount calls,
    with any arguments, on any device and whether the calls succeed or stop
    half-way, the table has 100 entries and every open descriptor has its
    handlers -- all three of a file, or the write handler of the console in
    slot 1 -- so a write never calls a null handler. *)
Theorem table_always_valid (b : S) s :
  rtc io_step (configure_io (initial_io b)).2 s →
  table_ok (fds s) ∧
  ∀ fd d, fds s !! fd = Some d → open d = true → write_handler d ≠ None.
Proof.
  intros Hreach. assert (table_ok (fds s)) as Hok.
  { pose proof (configured_ok b) as Hstart. induction Hreach; eauto using io_step_ok. }
  split; [done|]. intros fd d Hd Hopen.
  destruct (proj2 Hok fd d Hd Hopen) as [(-> & _)|(_ & -> & _)]; done.
Qed.
End invariant.

(** ** Descriptors of files *)

Section files.
Context {S : Type} `{BlkSpec S} `{!Console S} `{!Uninit} `{!Board S} `{!BoardSpec S}.
Implicit Types s : io_state S.

Lemma lift_done {A} (m : prog S A) s a b : m (below s) = (Done a, b) → lift m s = (Done a, set_below b s).
Proof. intros Hm. unfold lift. by rewrite Hm. Qed.

(** The two words of the clock, put together. *)
Lemma lor_words hi lo :
  0 <= hi < 2 ^ 32 → 0 <= lo < 2 ^ 32 → Z.lor (u64 (Z.shiftl hi 32)) lo = 2 ^ 32 * hi + lo.
Proof.
  intros Hhi Hlo. rewrite Z.shiftl_mul_pow2, wrap_small, <-Z.shiftl_mul_pow2 by lia.
  assert (Z.land (Z.shiftl hi 32) lo = 0) as Hland.
  { apply Z.bits_inj'. intros i Hi. rewrite Z.land_spec, Z.bits_0, Z.shiftl_spec by lia.
    destruct (decide (i < 32)).
    - by rewrite (Z.testbit_neg_r hi) by lia.
    - rewrite <-(Z.mod_small lo (2 ^ 32)), Z.mod_pow2_bits_high by lia. apply andb_false_r. }
  pose proof (Z.add_lor_land (Z.shiftl hi 32) lo). rewrite Z.shiftl_mul_pow2 in * by lia. lia.
Qed.

Lemma system_time_spec c (b : S) :
  ready b → ∃ hi lo b', let t := 2 ^ 32 * hi + lo in
    system_time c b = (Done (true, t / 1000000000, t mod 1000000000), b') ∧
    0 <= hi < 2 ^ 32 ∧ 0 <= lo < 2 ^ 32 ∧ ready b' ∧ image b' = image b.
Proof.
  intros Hb. unfold system_time.
  destruct (clock_reads 1052672 b Hb) as (lo & b1 & Hlo & ? & Hr1 & Him1). run_with Hlo.
  destruct (clock_reads (1052672 + 4) b1 Hr1) as (hi & b2 & Hhi & ? & Hr2 & Him2). run_with Hhi.
  rewrite lor_words by done. exists hi, lo, b2. by rewrite Him2, Him1.
Qed.

(** [file_fd s fd d loc]: [fd] is open on a file, whose inode is at [loc]. *)
Record file_fd (s : io_state S) (fd : Z) (d : io_descriptor) (loc : Z) : Prop := {
  ff_range : 0 <= fd < max_fd;
  ff_slot : fds s !! Z.to_nat fd = Some d;
  ff_open : open d = true ∧ write_handler d = Some disk_write_handler_f ∧
    read_handler d = Some disk_read_handler_f ∧ seek_handler d = Some disk_seek_handler_f;
  ff_pos : 0 <= pos d;
  ff_ready : ready (below s);
  ff_placed : inode_placed (image (below s)) (_superblock s) (ino d) loc;
}.

Definition fd_inode (s : io_state S) (loc : Z) : list byte := slice (image (below s)) loc 256.

Lemma get_fd_done s fd d loc b : file_fd s fd d loc → get_fd fd (set_below b s) = (Done d, set_below b s).
Proof.
  intros [Hr Hs _ _ _ _]. unfold get_fd. run. rewrite bind_defined by lia. cbn [fds set_below]. by rewrite Hs.
Qed.

Lemma is_fd_open_done s fd d loc b :
  file_fd s fd d loc → is_fd_open fd (set_below b s) = (Done true, set_below b s).
Proof.
  intros Hf. pose proof (ff_range _ _ _ _ Hf). unfold is_fd_open, is_fd_valid.
  rewrite (proj2 (Z.ltb_lt _ _)) by lia. run_with (get_fd_done s fd d loc b Hf).
  by rewrite (proj1 (ff_open _ _ _ _ Hf)).
Qed.

Lemma set_below_self s : set_below (below s) s = s.
Proof. by destruct s. Qed.

(** Both handlers begin by finding the disk driver up and the descriptor open. *)
Lemma handler_start {A} (fd : Z) (none : A) (k : io_descriptor → prog (io_state S) A) s d loc :
  file_fd s fd d loc →
  ∃ b, (up ← lift (driver_up 1);
        if negb up then mret none
        else is_open ← is_fd_open fd; if negb is_open then mret none else iod ← get_fd fd; k iod) s
       = k d (set_below b s) ∧ ready b ∧ image b = image (below s).
Proof.
  intros Hf. destruct (disk_up (below s) (ff_ready _ _ _ _ Hf)) as (b & Hup & Hr & Him).
  exists b. split; [|done]. run_with (lift_done _ s _ _ Hup). cbn [negb].
  run_with (is_fd_open_done s fd d loc b Hf). cbn [negb].
  by run_with (get_fd_done s fd d loc b Hf).
Qed.

(** The range of the file a call of [size] bytes touches. *)
Record call_ok (s : io_state S) (d : io_descriptor) (loc : Z) (buf : list byte) (size : Z) : Prop := {
  co_size : 0 <= size < 2 ^ 31 ∧ size <= zlen buf ∧ pos d + size <= 2 ^ 64;
  co_range : range_ok (zlen (image (below s))) (fd_inode s loc) (pos d) size;
}.

Lemma disk_read_handler_spec s fd d loc buf size :
  file_fd s fd d loc → call_ok s d loc buf size → 0 < size →
  ∃ t b, disk_read_handler fd buf size s
      = (Done (size, splice buf 0 (file_bytes (image (below s)) (fd_inode s loc) (pos d) size)), set_below b s) ∧
    ready b ∧ image b = put_le (image (below s)) (loc + 8) 4 (u32 t).
Proof.
  intros Hf [(Hsz & Hbuf & Hsum) Hok] Hpos. pose proof Hf as [_ _ _ Hp0 Hr Hplaced].
  unfold disk_read_handler, superblock_for_ino. replace (size =? 0) with false by lia.
  edestruct (handler_start fd (-1, buf)) as (b0 & Hstart & Hr0 & Him0); [exact Hf|].
  rewrite Hstart. clear Hstart. run. cbn [_superblock set_below].
  destruct (read_from_ino_spec (_superblock s) (ino d) loc buf (pos d) size b0)
    as (b1 & Hrd & Hr1 & Him1); rewrite ?Him0; try done; try lia.
  rewrite Him0 in Hrd, Him1. run_with (lift_done _ (set_below b0 s) _ _ Hrd).
  destruct (system_time_spec 1 b1 Hr1) as (hi & lo & b2 & Htime & _ & _ & Hr2 & Him2).
  set (t := (2 ^ 32 * hi + lo) / 1000000000) in *.
  run_with (lift_done _ (set_below b1 (set_below b0 s)) _ _ Htime). cbn [negb].
  destruct (set_time_for_ino_spec "i_atime" (_superblock s) (ino d) loc (u32 t) b2)
    as (b3 & Hset & Hr3 & Him3); try done; [by rewrite Him2, Him1|].
  erewrite bind_done by (apply lift_done; exact Hset). cbn [negb].
  exists t, b3. rewrite swrap_small by lia. split; [done|]. by rewrite Him3, Him2, Him1.
Qed.

Lemma disk_write_handler_spec s fd d loc buf size :
  file_fd s fd d loc → call_ok s d loc buf size →
  region_apart (fd_inode s loc) (pos d) size (bg_position (_superblock s) (ino d)) 32 →
  ∃ t b, disk_write_handler fd buf size s = (Done size, set_below b s) ∧ ready b ∧
    image b = put_le (write_file (image (below s)) (fd_inode s loc) (pos d) (slice buf 0 size))
                (loc + 16) 4 (u32 t).
Proof.
  intros Hf [(Hsz & Hbuf & Hsum) Hok] Hap. pose proof Hf as [_ _ _ Hp0 Hr Hplaced].
  unfold disk_write_handler, superblock_for_ino.
  edestruct (handler_start fd (-1)) as (b0 & Hstart & Hr0 & Him0); [exact Hf|].
  rewrite Hstart. clear Hstart. run. cbn [_superblock set_below].
  destruct (write_to_ino_spec (_superblock s) (ino d) loc buf (pos d) size b0)
    as (b1 & Hwr & Hr1 & Him1); rewrite ?Him0; try done; try lia.
  rewrite Him0 in Him1. fold (fd_inode s loc) in Him1. run_with (lift_done _ (set_below b0 s) _ _ Hwr).
  destruct (system_time_spec 1 b1 Hr1) as (hi & lo & b2 & Htime & _ & _ & Hr2 & Him2).
  set (t := (2 ^ 32 * hi + lo) / 1000000000) in *.
  run_with (lift_done _ (set_below b1 (set_below b0 s)) _ _ Htime). cbn [negb].
  destruct (set_time_for_ino_spec "i_mtime" (_superblock s) (ino d) loc (u32 t) b2)
    as (b3 & Hset & Hr3 & Him3); try done.
  { rewrite Him2, Him1. apply (inode_placed_ext (image (below s))); [apply zlen_write_file| |done].
    apply slice_write_file; [apply bg_position_nonneg with (1 := Hplaced)|lia|].
    by rewrite zlen_slice by lia. }
  erewrite bind_done by (apply lift_done; exact Hset). cbn [negb].
  exists t, b3. rewrite swrap_small by lia. split; [done|]. by rewrite Him3, Him2, Him1.
Qed.

(** *** After a write, the file is still where it was *)

Lemma get_le_slice (l : list byte) o n o' k :
  0 <= o → 0 <= o' → o' + Z.of_nat k <= n → get_le (slice l o n) o' k = get_le l (o + o') k.
Proof. intros. unfold get_le. by rewrite slice_slice by lia. Qed.

Lemma stamped_blocks (img img1 : list byte) loc t i :
  0 <= loc → loc + 256 <= zlen img1 → 0 <= i < 15 → slice img1 loc 256 = slice img loc 256 →
  i_block (slice (put_le img1 (loc + 16) 4 t) loc 256) i = i_block (slice img loc 256) i.
Proof.
  intros Hloc Hin Hi <-. unfold i_block. change (offsetof ext2_inode "i_block") with 40.
  rewrite !get_le_slice by lia. apply get_put_other; lia.
Qed.

Lemma file_bytes_ext (img img' inode inode' : list byte) p n :
  (∀ k, 0 <= k < n → file_pos inode' (p + k) = file_pos inode (p + k) ∧
     img' !! Z.to_nat (file_pos inode (p + k)) = img !! Z.to_nat (file_pos inode (p + k))) →
  file_bytes img' inode' p n = file_bytes img inode p n.
Proof.
  intros Heq. unfold file_bytes. apply list_fmap_ext. intros j k Hk.
  apply lookup_seqZ in Hk as [-> Hj]. destruct (Heq (0 + Z.of_nat j) ltac:(lia)) as [-> Hl].
  by rewrite !list_lookup_total_alt, Hl.
Qed.

(** *** Claims *)

Definition first_closed (t : list io_descriptor) (i : nat) (d : io_descriptor) : Prop :=
  t !! i = Some d ∧ open d = false ∧ ∀ j d', (j < i)%nat → t !! j = Some d' → open d' = true.

Lemma next_fd_first t i d j : first_closed t i d → next_fd_from t j = j + Z.of_nat i.
Proof.
  revert i j. induction t as [|d' t IH]; intros i j (Hi & Hd & Hlow); [done|]. cbn [next_fd_from].
  destruct i as [|i]; cbn in Hi.
  - injection Hi as ->. rewrite Hd. cbn. lia.
  - rewrite (Hlow 0%nat d') by (done || lia). cbn [negb].
    rewrite (IH i); [lia|]. split; [done|]. split; [done|]. intros k d'' Hk. apply (Hlow (Datatypes.S k)). lia.
Qed.

Lemma next_fd_full t j : Forall (λ d, open d = true) t → next_fd_from t j = -1.
Proof. intros Ht. revert j. induction Ht as [|d t Hd _ IH]; intros j; cbn [next_fd_from]; [done|].
  rewrite Hd. apply IH. Qed.

Lemma put_fd_done s i d :
  (i < length (fds s))%nat → put_fd (Z.of_nat i) d s = (Done tt, set_fds (<[i := d]> (fds s)) s).
Proof.
  intros Hi. unfold put_fd. run. rewrite bind_defined by (unfold zlen; lia). by rewrite Nat2Z.id.
Qed.

(** What both outcomes of a lookup share: the descriptor that [open_fd]
    fills in and the state before the inode is looked at. *)
Lemma open_fd_run s i d path tail loc ok inode' ino' :
  zlen (fds s) = max_fd → first_closed (fds s) i d → _superblock_mounted s = true →
  ready (below s) → no_nul path → inode_placed (image (below s)) (_superblock s) 2 loc →
  resolves (image (below s)) (_superblock s) (slice (image (below s)) loc 256) (Some (ino d))
    (components path) ok inode' (Some ino') →
  ∃ path' b, let s1 := set_below b (set_fds (<[i := set_ino ino' (opened d)]> (fds s)) s) in
    open_fd (path ++ Byte.x00 :: tail) s
    = ((if negb ok then eprint_msg "Could not find the inode.";; assert_mounted else mret tt);;
       mret (Z.of_nat i, path')) s1 ∧
    ready b ∧ image b = image (below s) ∧ zlen path' = zlen (path ++ Byte.x00 :: tail).
Proof.
  intros Hlen Hfirst Hmnt Hr Hnn Hp Hres. pose proof Hfirst as (Hi & _).
  assert (Z.of_nat i < max_fd) as Hi100 by (apply lookup_lt_Some in Hi; unfold zlen in Hlen; lia).
  unfold open_fd, next_fd, superblock_for_pathname.
  destruct (disk_up (below s) Hr) as (b & Hup & Hrb & Himb).
  run_with (lift_done _ s _ _ Hup). cbn [negb]. run. cbn [fds set_below].
  rewrite (take_ge (fds s)) by (unfold zlen in Hlen; lia).
  rewrite (next_fd_first _ i d) by done. rewrite Z.add_0_l.
  replace (Z.of_nat i <? 0) with false by lia.
  unfold get_fd at 1. run. rewrite bind_defined by lia. cbn [fds set_below]. rewrite Nat2Z.id, Hi. run.
  assert (i < length (fds s))%nat as Hlt by (by eapply lookup_lt_Some).
  run_with (put_fd_done (set_below b s) i (opened d) Hlt). run.
  cbn [_superblock_mounted _superblock set_fds set_below]. rewrite Hmnt. cbn [negb]. run.
  cbn [_superblock set_fds set_below]. rewrite <-Himb in Hp, Hres.
  destruct (ino_from_path_spec (_superblock s) path tail (ino d) loc ok inode' ino' b)
    as (path' & b2 & Hrun & Hr2 & Him2 & Hlen'); [done..|].
  erewrite bind_done by (apply lift_done; exact Hrun).
  exists path', b2. split; [|rewrite Him2, Himb; unfold zlen; by rewrite Hlen'].
  erewrite bind_done by (apply put_fd_done; cbn [fds set_below set_fds]; by rewrite length_insert).
  cbn [fds set_below set_fds]. rewrite list_insert_insert_eq.
  destruct ok; reflexivity.
Qed.

(** Printing changes what was printed and, as a rule of [Console], nothing the
    descriptor layer holds. *)
Lemma io_prints `{!ConsoleSpec S} str s :
  Forall (λ c, c ≠ 0) str →
  ∃ b, eprint_str (str ++ [0]) s = (Done tt, set_below b s) ∧ serial b = serial (below s) ++ str.
Proof.
  intros Hstr. revert s. induction Hstr as [|c str Hc _ IH]; intros s; cbn [app eprint_str].
  - exists (below s). by rewrite set_below_self, app_nil_r.
  - destruct (eprint_spec c (below s)) as (b1 & Hb1 & Hs1).
    apply Z.eqb_neq in Hc as ->. unfold eprint, io_console. run_with (lift_done _ s _ _ Hb1).
    destruct (IH (set_below b1 s)) as (b2 & Hrun & Hs2). exists b2. split; [exact Hrun|].
    rewrite Hs2. cbn [below set_below]. by rewrite Hs1, <-app_assoc.
Qed.

(** C24.  [open_fd] on an existing path returns the lowest closed
    descriptor, makes it an open file descriptor for the inode the path
    names, leaves every other descriptor and the disk alone, and keeps the
    position the slot had; with all 100 open it returns -1 and changes no
    descriptor. *)
Theorem open_existing s path tail loc inode' ino' :
  zlen (fds s) = max_fd → _superblock_mounted s = true → ready (below s) →
  no_nul path → inode_placed (image (below s)) (_superblock s) 2 loc →
  (∀ i d, first_closed (fds s) i d →
     resolves (image (below s)) (_superblock s) (slice (image (below s)) loc 256) (Some (ino d))
       (components path) true inode' (Some ino') →
     ∃ path' s', open_fd (path ++ Byte.x00 :: tail) s = (Done (Z.of_nat i, path'), s') ∧
       fds s' = <[i := IoDescriptor true (pos d) ino' (Some disk_write_handler_f)
                         (Some disk_read_handler_f) (Some disk_seek_handler_f)]> (fds s) ∧
       image (below s') = image (below s) ∧ ready (below s')) ∧
  (Forall (λ d, open d = true) (fds s) →
     ∃ s', open_fd (path ++ Byte.x00 :: tail) s = (Done (-1, path ++ Byte.x00 :: tail), s') ∧
       fds s' = fds s ∧ image (below s') = image (below s)).
Proof.
  intros Hlen Hmnt Hr Hnn Hp. split.
  - intros i d Hfirst Hres.
    destruct (open_fd_run s i d path tail loc true inode' ino') as (path' & b & Hrun & Hrb & Himb & _); [done..|].
    exists path'. rewrite Hrun. eexists. split; [reflexivity|]. done.
  - intros Hfull. unfold open_fd, next_fd. destruct (disk_up (below s) Hr) as (b & Hup & Hrb & Himb).
    run_with (lift_done _ s _ _ Hup). cbn [negb]. run. cbn [fds set_below].
    rewrite next_fd_full by (by apply Forall_take). eexists. split; [reflexivity|]. done.
Qed.

(** C38.  A path that does not exist is opened all the same: when the walk
    stops at a missing component, [open_fd] prints a message but returns a
    valid descriptor, open for reading and writing on the last inode the
    walk reached -- the directory that misses the entry, or the inode the
    slot had before. *)
Theorem open_missing `{!ConsoleSpec S} s i d path tail loc inode' ino' :
  zlen (fds s) = max_fd → first_closed (fds s) i d → _superblock_mounted s = true →
  ready (below s) → no_nul path → inode_placed (image (below s)) (_superblock s) 2 loc →
  resolves (image (below s)) (_superblock s) (slice (image (below s)) loc 256) (Some (ino d))
    (components path) false inode' (Some ino') →
  ∃ path' s', open_fd (path ++ Byte.x00 :: tail) s = (Done (Z.of_nat i, path'), s') ∧
    fds s' !! i = Some (IoDescriptor true (pos d) ino' (Some disk_write_handler_f)
                          (Some disk_read_handler_f) (Some disk_seek_handler_f)).
Proof.
  intros Hlen Hfirst Hmnt Hr Hnn Hp Hres.
  destruct (open_fd_run s i d path tail loc false inode' ino') as (path' & b & Hrun & _); [done..|].
  exists path'. rewrite Hrun. cbn [negb]. run. set (s1 := set_below b _).
  destruct (io_prints (chars "Could not find the inode.") s1) as (b' & Hmsg & _); [repeat constructor; done|].
  run_with Hmsg. unfold assert_mounted. run.
  cbn [_superblock_mounted set_below set_fds s1]. rewrite Hmnt. cbn [negb]. run.
  eexists. split; [reflexivity|]. cbn. apply list_lookup_insert_eq.
  destruct Hfirst as (Hi & _). by apply lookup_lt_Some in Hi.
Qed.

Lemma read_s_spec s fd d loc buf size :
  file_fd s fd d loc → call_ok s d loc buf size → 0 < size →
  ∃ t b, read_s fd buf size s
      = (Done (size, splice buf 0 (file_bytes (image (below s)) (fd_inode s loc) (pos d) size)), set_below b s) ∧
    ready b ∧ image b = put_le (image (below s)) (loc + 8) 4 (u32 t).
Proof.
  intros Hf Hc Hpos. pose proof (co_size _ _ _ _ _ Hc).
  destruct (disk_read_handler_spec s fd d loc buf size Hf Hc Hpos) as (t & b & Hrun & Hr & Him).
  exists t, b. split; [|done]. unfold read_s.
  rewrite <-(set_below_self s) at 1. run_with (is_fd_open_done s fd d loc (below s) Hf). cbn [negb].
  run_with (get_fd_done s fd d loc (below s) Hf). destruct (ff_open _ _ _ _ Hf) as (_ & _ & -> & _).
  rewrite set_below_self. run_with Hrun. by rewrite wrap_small by lia.
Qed.

(** C25.  [read_s] on a file descriptor returns [size] and the bytes of the
    file from the descriptor's position on, sets the access time of the
    inode on the disk and changes nothing else there; the position is not
    advanced. *)
Theorem read_call_exact s fd d loc buf size :
  file_fd s fd d loc → call_ok s d loc buf size → 0 < size →
  ∃ t s', read_s fd buf size s
      = (Done (size, splice buf 0 (file_bytes (image (below s)) (fd_inode s loc) (pos d) size)), s') ∧
    image (below s') = put_le (image (below s)) (loc + 8) 4 (u32 t) ∧ fds s' = fds s.
Proof.
  intros Hf Hc Hpos. destruct (read_s_spec s fd d loc buf size Hf Hc Hpos) as (t & b & Hrun & _ & Him).
  by exists t, (set_below b s).
Qed.

Lemma write_s_spec s fd d loc buf size :
  file_fd s fd d loc → call_ok s d loc buf size →
  region_apart (fd_inode s loc) (pos d) size (bg_position (_superblock s) (ino d)) 32 →
  ∃ t b, write_s fd buf size s = (Done size, set_below b s) ∧ ready b ∧
    image b = put_le (write_file (image (below s)) (fd_inode s loc) (pos d) (slice buf 0 size)) (loc + 16) 4 (u32 t).
Proof.
  intros Hf Hc Hap. pose proof (co_size _ _ _ _ _ Hc).
  destruct (disk_write_handler_spec s fd d loc buf size Hf Hc Hap) as (t & b & Hrun & Hr & Him).
  exists t, b. split; [|done]. unfold write_s.
  rewrite <-(set_below_self s) at 1. run_with (is_fd_open_done s fd d loc (below s) Hf). cbn [negb].
  run_with (get_fd_done s fd d loc (below s) Hf). destruct (ff_open _ _ _ _ Hf) as (_ & -> & _).
  rewrite set_below_self. run_with Hrun. by rewrite wrap_small by lia.
Qed.

(** The file after a write of [data] and a new stamp in the inode. *)
Lemma stamped_file img inode loc p data t :
  let n := zlen data in let img1 := write_file img inode p data in
  inode = slice img loc 256 → 0 <= loc → loc + 256 <= zlen img → 0 <= p →
  range_ok (zlen img) inode p n → blocks_distinct inode p n → region_apart inode p n loc 256 →
  let img2 := put_le img1 (loc + 16) 4 t in let inode2 := slice img2 loc 256 in
  range_ok (zlen img2) inode2 p n ∧ file_bytes img2 inode2 p n = data.
Proof.
  intros n img1 Hinode Hloc Hin Hp Hok Hdist Hap img2 inode2.
  assert (zlen img1 = zlen img) as Hz1 by apply zlen_write_file.
  assert (zlen img2 = zlen img) as Hz2 by (unfold img2; rewrite zlen_put_le; lia).
  assert (∀ k, 0 <= k < n → i_block inode2 ((p + k) / 1024) = i_block inode ((p + k) / 1024)) as Hblk.
  { intros k Hk. unfold inode2, img2. rewrite (stamped_blocks img), Hinode; [done|done|lia|apply (Hok k Hk)|].
    apply slice_write_file; [lia|lia|done]. }
  split.
  - intros k Hk. unfold block_ok. rewrite Hz2, Hblk by done. by apply Hok.
  - rewrite (file_bytes_ext img1 img2 inode inode2).
    + by apply file_bytes_write_file.
    + intros k Hk. unfold file_pos at 1. rewrite Hblk by done. split; [done|].
      pose proof (file_pos_nonneg inode (p + k)). specialize (Hap k Hk).
      unfold img2, put_le. rewrite lookup_splice_Z by (rewrite ?zlen_le_split; lia).
      rewrite zlen_le_split. by rewrite decide_False by lia.
Qed.

Lemma write_read_spec s fd d loc data buf :
  file_fd s fd d loc → call_ok s d loc data (zlen data) → 0 < zlen data → zlen data <= zlen buf →
  blocks_distinct (fd_inode s loc) (pos d) (zlen data) →
  region_apart (fd_inode s loc) (pos d) (zlen data) loc 256 →
  region_apart (fd_inode s loc) (pos d) (zlen data) (bg_position (_superblock s) (ino d)) 32 →
  loc + 256 <= bg_position (_superblock s) (ino d) ∨ bg_position (_superblock s) (ino d) + 32 <= loc →
  ∃ b b', write_s fd data (zlen data) s = (Done (zlen data), set_below b s) ∧
    read_s fd buf (zlen data) (set_below b s) = (Done (zlen data, splice buf 0 data), set_below b' s).
Proof.
  intros Hf Hc Hpos Hbuf Hdist Hap1 Hap2 Hap3. pose proof Hf as [Hr Hslot Hop Hp0 _ Hp].
  pose proof Hc as [(Hsz & _ & Hsum) Hok].
  pose proof (placed_nonneg _ _ _ _ Hp) as Hloc. pose proof (placed_inside _ _ _ _ Hp) as Hin.
  destruct (write_s_spec s fd d loc data (zlen data) Hf Hc Hap2) as (t & b & Hwr & Hrb & Him).
  rewrite slice_all in Him by lia.
  destruct (stamped_file (image (below s)) (fd_inode s loc) loc (pos d) data (u32 t)) as [Hok2 Hfile]; try done.
  rewrite <-Him in Hok2, Hfile.
  pose proof (zlen_write_file (image (below s)) (fd_inode s loc) (pos d) data) as Hz1.
  assert (file_fd (set_below b s) fd d loc) as Hf'.
  { split; try done. cbn [below set_below _superblock]. pose proof (bg_position_nonneg _ _ _ _ Hp).
    apply (inode_placed_ext (image (below s))); rewrite ?Him; [by rewrite zlen_put_le by lia| |done].
    unfold put_le. rewrite slice_splice_other by (rewrite ?zlen_le_split; lia).
    by apply slice_write_file. }
  destruct (read_s_spec (set_below b s) fd d loc buf (zlen data) Hf') as (t' & b' & Hrd & _); [|done|].
  { split; [lia|exact Hok2]. }
  exists b, b'. split; [exact Hwr|].
  rewrite Hrd. cbn [below set_below]. unfold fd_inode. cbn [below set_below]. by rewrite Hfile.
Qed.

Lemma seek_s_spec s fd d loc offset whence :
  file_fd s fd d loc →
  let p := if i32 whence =? SEEK_CUR then u64 (pos d + i64 offset) else u64 (i64 offset) in
  seek_s fd offset whence s =
    if (i32 whence =? SEEK_CUR) || (i32 whence =? SEEK_SET)
    then (Done (u64 (i32 p)), set_fds (<[Z.to_nat fd := set_pos p d]> (fds s)) s)
    else (Done (2 ^ 64 - 1), s).
Proof.
  intros Hf p. unfold seek_s, disk_seek_handler. pose proof (ff_range _ _ _ _ Hf).
  rewrite <-(set_below_self s) at 1. run_with (is_fd_open_done s fd d loc (below s) Hf). cbn [negb].
  run_with (get_fd_done s fd d loc (below s) Hf). destruct (ff_open _ _ _ _ Hf) as (_ & _ & _ & ->). run.
  run_with (is_fd_open_done s fd d loc (below s) Hf). cbn [negb]. run.
  run_with (get_fd_done s fd d loc (below s) Hf). rewrite set_below_self.
  assert (∀ d', put_fd fd d' s = (Done tt, set_fds (<[Z.to_nat fd := d']> (fds s)) s)) as Hput.
  { intros d'. rewrite <-(Z2Nat.id fd) at 1 by lia. apply put_fd_done.
    by eapply lookup_lt_Some, (ff_slot _ _ _ _ Hf). }
  destruct (Z.eqb_spec (i32 whence) SEEK_CUR); cbn [orb].
  - run. by run_with (Hput (set_pos p d)).
  - destruct (Z.eqb_spec (i32 whence) SEEK_END) as [->|]; [done|].
    destruct (Z.eqb_spec (i32 whence) SEEK_SET); [|done]. run. by run_with (Hput (set_pos p d)).
Qed.

(** [seek_s] on a file descriptor: SEEK_SET and SEEK_CUR set the
    64-bit position (wrapping around), any other [whence], SEEK_END
    included, returns -1 and changes nothing.  The new position is returned
    through an [int]: above 2 GiB the caller gets a truncated value. *)
Theorem seek_call s fd d loc offset whence :
  file_fd s fd d loc →
  let p := if i32 whence =? SEEK_CUR then u64 (pos d + i64 offset) else u64 (i64 offset) in
  seek_s fd offset whence s =
    if (i32 whence =? SEEK_CUR) || (i32 whence =? SEEK_SET)
    then (Done (u64 (i32 p)), set_fds (<[Z.to_nat fd := set_pos p d]> (fds s)) s)
    else (Done (2 ^ 64 - 1), s).
Proof. apply seek_s_spec. Qed.
End files.

(** ** Witnesses *)

(** A board around the concrete disk: every driver is up, the console writes
    to the line, and the clock stands at 5 * 2^32 + 7 ns. *)
#[export] Instance ramdisk_board : Board ramdisk := {|
  driver_up t := mret true;
  console_transmit buf := λ s, (Done tt, RamDisk (disk s) (line s ++ (byte.unsigned <$> buf)));
  load_word a := mret (if a =? 1052672 then 7 else 5)
|}.

#[export] Instance ramdisk_board_spec : BoardSpec ramdisk.
Proof.
  split.
  - intros s Hs. by exists s.
  - intros a s Hs. exists (if a =? 1052672 then 7 else 5), s. split; [done|].
    split; [by destruct (a =? 1052672)|done].
Defined.

(** The sample volume mounted, descriptor 0 open on the file at 1020. *)
Definition sample_fd : io_descriptor :=
  IoDescriptor true 1020 4 (Some disk_write_handler_f) (Some disk_read_handler_f) (Some disk_seek_handler_f).
Definition booted : io_state ramdisk := (configure_io (initial_io sample)).2.
Definition mounted_sample : io_state ramdisk := set_mounted true (set_superblock sample_superblock booted).
Definition sample_io : io_state ramdisk := set_fds (<[0%nat := sample_fd]> (fds booted)) mounted_sample.

Lemma sample_file_fd : file_fd sample_io 0 sample_fd 3840.
Proof. split; [concrete|reflexivity|split_and!; reflexivity|concrete|apply sample_ready|apply sample_placed]. Defined.

Lemma sample_call_ok (buf : list byte) : zlen buf = 8 → call_ok sample_io sample_fd 3840 buf 8.
Proof. intros Hb. split; [rewrite Hb; concrete|apply sample_range]. Defined.

Lemma table_always_valid_witness : table_ok (fds (close_s 1 booted).2).
Proof.
  apply (table_always_valid sample (close_s 1 booted).2).
  apply rtc_once. by apply (step_close _ _ 1).
Defined.

Lemma first_free : first_closed (fds mounted_sample) 0 closed_descriptor.
Proof. split; [reflexivity|]. split; [reflexivity|lia]. Defined.

Lemma log_no_nul : no_nul (bytes_of "/lib/log").
Proof. apply (bool_decide_unpack _). vm_compute. exact I. Defined.
Lemma nowhere_no_nul : no_nul (bytes_of "/lib/nowhere").
Proof. apply (bool_decide_unpack _). vm_compute. exact I. Defined.

Lemma open_existing_witness :
  ∃ path' s', open_fd (bytes_of "/lib/log" ++ [Byte.x00]) mounted_sample = (Done (0, path'), s') ∧
    ready (below s').
Proof.
  destruct (proj1 (open_existing mounted_sample (bytes_of "/lib/log") [] 3328 (slice sample_image 3840 256) 4
    eq_refl eq_refl sample_ready log_no_nul root_placed) 0%nat closed_descriptor first_free)
    as (path' & s' & Hrun & _ & _ & Hr).
  - change (components (bytes_of "/lib/log")) with [bytes_of "lib"; bytes_of "log"].
    eapply resolves_step; [apply root_listing|vm_compute; reflexivity|apply lib_placed|].
    eapply resolves_step; [apply lib_listing|vm_compute; reflexivity|apply sample_placed|].
    apply resolves_done.
  - exists path', s'. split; [exact Hrun|exact Hr].
Defined.

(** The descriptor is open on inode 3, the directory ["lib"]. *)
Lemma open_missing_witness :
  ∃ path' s', open_fd (bytes_of "/lib/nowhere" ++ [Byte.x00]) mounted_sample = (Done (0, path'), s') ∧
    ino <$> fds s' !! 0%nat = Some 3.
Proof.
  destruct (open_missing mounted_sample 0 closed_descriptor (bytes_of "/lib/nowhere") [] 3328 sample_lib 3)
    as (path' & s' & Hrun & Hfd);
    [reflexivity|apply first_free|reflexivity|apply sample_ready|apply nowhere_no_nul
    |apply root_placed| |].
  - change (components (bytes_of "/lib/nowhere")) with [bytes_of "lib"; bytes_of "nowhere"].
    eapply resolves_step; [apply root_listing|vm_compute; reflexivity|apply lib_placed|].
    eapply resolves_missing; [apply lib_listing|vm_compute; reflexivity].
  - exists path', s'. split; [exact Hrun|]. by rewrite Hfd.
Defined.

Lemma read_call_exact_witness :
  ∃ s', read_s 0 (zeros 8) 8 sample_io
    = (Done (8, splice (zeros 8) 0 (file_bytes sample_image sample_file 1020 8)), s') ∧ fds s' = fds sample_io.
Proof.
  destruct (read_call_exact sample_io 0 sample_fd 3840 (zeros 8) 8 sample_file_fd (sample_call_ok (zeros 8) eq_refl))
    as (t & s' & Hrun & _ & Hfds); [lia|].
  exists s'. split; [exact Hrun|exact Hfds].
Defined.

Lemma seek_call_witness :
  seek_s 0 (2 ^ 32 + 5) 0 sample_io
  = (Done 5, set_fds (<[0%nat := set_pos (2 ^ 32 + 5) sample_fd]> (fds sample_io)) sample_io).
Proof. exact (seek_call sample_io 0 sample_fd 3840 (2 ^ 32 + 5) 0 sample_file_fd). Defined.
