(* ===== verification/FileSpec.v ===== *)
(** * A file as its program sees it

    The contract of the calls on an open file: an array of bytes and an
    offset.  [write] and [read] take effect at the offset and leave it where
    it is; only [lseek] moves it.  The descriptor layer over the ext2 volume
    is a refinement of this file, as long as the program stays within the
    bytes that the inode's blocks hold. *)

From S2P Require Import Prelude Programs Layout Ecall Blk BlkTheorems Ext2 Ext2File Ext2Theorems Invariants Io IoTheorems Ramdisk.

(** ** The specification *)

Record file := File { contents : list byte; offset : Z }.

Inductive file_op :=
  | Write (data : list byte)
  | Read (n : Z)
  | Seek (off whence : Z).

(** The value a call returns, and the bytes that a read delivers. *)
Definition file_step (op : file_op) (f : file) : (Z * list byte) * file :=
  match op with
  | Write data => (zlen data, [], File (splice (contents f) (offset f) data) (offset f))
  | Read n => (n, slice (contents f) (offset f) n, f)
  | Seek off whence =>
      let p := if whence =? SEEK_CUR then offset f + off else off in (p, [], File (contents f) p)
  end.

Fixpoint file_run (ops : list file_op) (f : file) : list (Z * list byte) * file :=
  match ops with
  | [] => ([], f)
  | op :: ops => let '(r, f) := file_step op f in let '(rs, f) := file_run ops f in (r :: rs, f)
  end.

(** The calls that stay within the file. *)
Definition op_fits (op : file_op) (f : file) : Prop :=
  match op with
  | Write data => offset f + zlen data <= zlen (contents f)
  | Read n => 0 < n ∧ offset f + n <= zlen (contents f)
  | Seek off whence => whence ∈ [SEEK_SET; SEEK_CUR] ∧ - 2 ^ 31 <= off < 2 ^ 31 ∧
      0 <= (if whence =? SEEK_CUR then offset f + off else off) <= zlen (contents f)
  end.

Fixpoint ops_fit (ops : list file_op) (f : file) : Prop :=
  match ops with
  | [] => True
  | op :: ops => op_fits op f ∧ ops_fit ops (file_step op f).2
  end.

(** ** The implementation: the calls of io.c on descriptor [fd] *)

Section implementation.
Context {S : Type} `{!BlkDev S} `{!Console S} `{!Uninit} `{!Board S}.

(** The arguments of a system call are 64-bit words; a read is given a
    buffer of the length asked for. *)
Definition io_op (fd : Z) (op : file_op) : prog (io_state S) (Z * list byte) :=
  match op with
  | Write data => r ← write_s fd data (zlen data); mret (r, [])
  | Read n => read_s fd (zeros n) n
  | Seek off whence => r ← seek_s fd (u64 off) whence; mret (r, [])
  end.

Definition io_run (fd : Z) (ops : list file_op) : prog (io_state S) (list (Z * list byte)) := mapM (io_op fd) ops.
End implementation.

(** ** The bytes of an inode *)

(** Where the bytes of the file are depends on the block numbers only. *)
Definition same_blocks (inode inode' : list byte) : Prop := ∀ i, 0 <= i < 15 → i_block inode' i = i_block inode i.

(** The first [n] bytes of the file lie on the disk, apart from each other,
    from the inode, and from the descriptor of its group. *)
Record mapped (len : Z) (inode : list byte) (n loc bg : Z) : Prop := {
  map_range : range_ok len inode 0 n;
  map_distinct : blocks_distinct inode 0 n;
  map_inode : region_apart inode 0 n loc 256;
  map_group : region_apart inode 0 n bg 32 ∧ (loc + 256 <= bg ∨ bg + 32 <= loc);
}.

Lemma mapped_block len inode n loc bg k : mapped len inode n loc bg → 0 <= k < n → 0 <= k / 1024 < 15.
Proof. intros [Hr _ _ _] Hk. apply (Hr k Hk). Qed.

Lemma mapped_same len inode inode' n loc bg :
  same_blocks inode inode' → mapped len inode n loc bg → mapped len inode' n loc bg.
Proof.
  intros Hb Hm. assert (∀ k, 0 <= k < n → i_block inode' ((0 + k) / 1024) = i_block inode ((0 + k) / 1024)) as Heq
    by (intros k Hk; by apply Hb, (mapped_block _ _ _ _ _ _ Hm)).
  assert (∀ k, 0 <= k < n → file_pos inode' (0 + k) = file_pos inode (0 + k)) as Hpos
    by (intros k Hk; unfold file_pos; by rewrite Heq).
  destruct Hm as [Hr Hd Hi [Hg ?]]. split.
  - intros k Hk. unfold block_ok. rewrite Heq by done. by apply Hr.
  - intros k k' Hk Hk'. rewrite !Heq by done. by apply Hd.
  - intros k Hk. rewrite Hpos by done. by apply Hi.
  - split; [|done]. intros k Hk. rewrite Hpos by done. by apply Hg.
Qed.

(** A part of the file is as well placed as the whole. *)
Lemma mapped_part len inode n loc bg p m :
  mapped len inode n loc bg → 0 <= p → p + m <= n →
  range_ok len inode p m ∧ blocks_distinct inode p m ∧ region_apart inode p m loc 256 ∧ region_apart inode p m bg 32.
Proof.
  intros [Hr Hd Hi [Hg _]] Hp Hm. split_and!.
  - intros k Hk. apply (Hr (p + k)). lia.
  - intros k k' Hk Hk'. apply (Hd (p + k) (p + k')); lia.
  - intros k Hk. apply (Hi (p + k)). lia.
  - intros k Hk. apply (Hg (p + k)). lia.
Qed.

(** A time stamp in the inode moves no block and touches no byte of the file. *)
Lemma stamp_blocks (img img1 : list byte) loc o t :
  0 <= loc → loc + 256 <= zlen img1 → slice img1 loc 256 = slice img loc 256 → 0 <= o <= 36 →
  same_blocks (slice img loc 256) (slice (put_le img1 (loc + o) 4 t) loc 256).
Proof.
  intros Hloc Hin <- Ho i Hi. unfold i_block. change (offsetof ext2_inode "i_block") with 40.
  rewrite !get_le_slice by lia. apply get_put_other; lia.
Qed.

Lemma stamp_file (img1 inode inode' : list byte) n loc bg o t :
  mapped (zlen img1) inode n loc bg → same_blocks inode inode' → 0 <= loc → loc + 256 <= zlen img1 → 0 <= o <= 252 →
  file_bytes (put_le img1 (loc + o) 4 t) inode' 0 n = file_bytes img1 inode 0 n.
Proof.
  intros Hm Hb Hloc Hin Ho. apply file_bytes_ext. intros k Hk.
  pose proof (mapped_block _ _ _ _ _ _ Hm Hk). unfold file_pos at 1. rewrite Hb by done. split; [done|].
  pose proof (file_pos_nonneg inode (0 + k)). pose proof (map_inode _ _ _ _ _ Hm k Hk).
  unfold put_le. rewrite lookup_splice_Z by (rewrite ?zlen_le_split; lia).
  rewrite zlen_le_split. by rewrite decide_False by lia.
Qed.

(** A write replaces the bytes of its range. *)
Lemma written_file (img inode : list byte) n loc bg p data :
  mapped (zlen img) inode n loc bg → 0 <= p → p + zlen data <= n →
  file_bytes (write_file img inode p data) inode 0 n = splice (file_bytes img inode 0 n) p data.
Proof.
  intros Hm Hp Hn. pose proof (zlen_nonneg data).
  destruct (mapped_part _ _ _ _ _ p (zlen data) Hm) as (Hr & Hd & _); [lia..|].
  assert (∀ im, zlen im = zlen img → ∀ k, 0 <= k < n →
    file_bytes im inode 0 n !! Z.to_nat k = im !! Z.to_nat (file_pos inode k)) as Hl.
  { intros im Hz k Hk. rewrite lookup_file_bytes by done. symmetry. apply list_lookup_lookup_total_lt.
    pose proof (file_pos_inside (zlen img) inode k (map_range _ _ _ _ _ Hm k Hk)). rewrite Z.add_0_l. unfold zlen in *. lia. }
  apply list_eq. intros i. destruct (decide (Z.of_nat i < n)) as [Hi|Hi].
  - replace i with (Z.to_nat (Z.of_nat i)) by lia. set (k := Z.of_nat i) in *.
    rewrite Hl by (try apply zlen_write_file; lia).
    rewrite lookup_splice_Z by (rewrite ?zlen_file_bytes; lia). case_decide as Hc.
    + rewrite <-(write_file_lookup img inode p data) by (done || lia). do 3 f_equal. lia.
    + rewrite Hl by (done || lia). apply write_file_lookup_other; [|apply file_pos_nonneg].
      intros k' Hk' Heq. assert (p + k' = k); [|lia].
      by apply (file_pos_inj inode 0 n (p + k') k); [lia|apply Hm|lia|lia|].
  - rewrite !lookup_ge_None_2; [done| |].
    + pose proof (zlen_splice (file_bytes img inode 0 n) p data) as Hz.
      rewrite zlen_file_bytes in Hz by lia. unfold zlen in *. lia.
    + pose proof (zlen_file_bytes (write_file img inode p data) inode 0 n). unfold zlen in *. lia.
Qed.

(** ** The refinement *)

Section refinement.
Context {S : Type} `{BlkSpec S} `{!Console S} `{!Uninit} `{!Board S} `{!BoardSpec S}.
Implicit Types s : io_state S.

(** Descriptor [fd] is open on the file [f]. *)
Record holds s (fd : Z) (d : io_descriptor) (loc : Z) (f : file) : Prop := {
  hold_fd : file_fd s fd d loc;
  hold_offset : pos d = offset f ∧ 0 <= offset f <= zlen (contents f);
  hold_contents : contents f = file_bytes (image (below s)) (fd_inode s loc) 0 (zlen (contents f));
  hold_mapped : mapped (zlen (image (below s))) (fd_inode s loc) (zlen (contents f)) loc (bg_position (_superblock s) (ino d));
}.

Lemma small_size len inode n loc bg : mapped len inode n loc bg → 0 <= n → n <= 15 * 1024.
Proof.
  intros Hm Hn. destruct (decide (n = 0)) as [->|]; [lia|].
  pose proof (mapped_block _ _ _ _ _ (n - 1) Hm ltac:(lia)). zlia.
Qed.

Lemma file_part (img inode : list byte) p m n :
  0 <= p → 0 <= m → p + m <= n → file_bytes img inode p m = slice (file_bytes img inode 0 n) p m.
Proof.
  intros Hp Hm Hn. replace n with (p + (m + (n - p - m))) by lia. rewrite !file_bytes_split by lia.
  rewrite Z.add_0_l. unfold slice. rewrite drop_app_length' by (pose proof (zlen_file_bytes img inode 0 p); unfold zlen in *; lia).
  rewrite take_app_length'; [done|]. pose proof (zlen_file_bytes img inode p m). unfold zlen in *. lia.
Qed.

(** A stamp after a call on the file leaves the descriptor open on it. *)
Lemma stamped_holds s fd d loc f img1 b o t contents' :
  holds s fd d loc f → ready b → image b = put_le img1 (loc + o) 4 t → 0 <= o <= 36 →
  zlen img1 = zlen (image (below s)) → slice img1 loc 256 = fd_inode s loc →
  slice img1 (bg_position (_superblock s) (ino d)) 32 = slice (image (below s)) (bg_position (_superblock s) (ino d)) 32 →
  contents' = file_bytes img1 (fd_inode s loc) 0 (zlen (contents f)) → zlen contents' = zlen (contents f) →
  holds (set_below b s) fd d loc (File contents' (offset f)).
Proof.
  intros [Hf [Hoff Hle] Hc Hm] Hrb Him Ho Hz1 Hin1 Hbg1 Hc' Hz'.
  pose proof Hf as [Hr Hslot Hop Hp0 _ Hp]. pose proof (placed_nonneg _ _ _ _ Hp). pose proof (placed_inside _ _ _ _ Hp).
  pose proof (bg_position_nonneg _ _ _ _ Hp).
  assert (same_blocks (fd_inode s loc) (slice (image b) loc 256)) as Hb
    by (rewrite Him; apply stamp_blocks; (done || lia)).
  assert (zlen (image b) = zlen (image (below s))) as Hzb by (rewrite Him, zlen_put_le; lia).
  split; cbn [contents offset]; rewrite ?Hz'.
  - split; try done. cbn [below set_below _superblock]. apply (inode_placed_ext (image (below s))); [done| |done].
    rewrite Him, <-Hbg1. unfold put_le. destruct (map_group _ _ _ _ _ Hm) as [_ Hap].
    apply slice_splice_other; rewrite ?zlen_le_split; lia.
  - done.
  - unfold fd_inode at 1. cbn [below set_below]. rewrite Hc', Him. rewrite Him in Hb. rewrite <-Hz1 in Hm.
    symmetry. by apply (stamp_file _ _ _ _ _ _ _ _ Hm Hb); lia.
  - unfold fd_inode. cbn [below set_below _superblock]. rewrite Hzb. by apply (mapped_same _ (fd_inode s loc)).
Qed.

Lemma write_holds s fd d loc f data :
  holds s fd d loc f → op_fits (Write data) f →
  ∃ b, io_op fd (Write data) s = (Done (file_step (Write data) f).1, set_below b s) ∧
    holds (set_below b s) fd d loc (file_step (Write data) f).2.
Proof.
  intros Hh Hfit. pose proof Hh as [Hf [Hoff Hle] Hc Hm]. cbn in Hfit. pose proof (zlen_nonneg data).
  pose proof (small_size _ _ _ _ _ Hm ltac:(lia)). pose proof Hf as [_ _ _ _ _ Hp]. pose proof (placed_nonneg _ _ _ _ Hp).
  destruct (mapped_part _ _ _ _ _ (offset f) (zlen data) Hm) as (Hr & _ & Hi & Hg); [lia..|]. rewrite <-Hoff in Hr, Hi, Hg.
  destruct (write_s_spec s fd d loc data (zlen data) Hf) as (t & b & Hrun & Hrb & Him);
    [split; [lia|done]|done|].
  rewrite (slice_all data) in Him by lia. exists b. split; [cbn [io_op]; by run_with Hrun|].
  eapply (stamped_holds _ _ _ _ _ _ _ 16 _ _ Hh Hrb Him); [lia|apply zlen_write_file|..].
  - by apply slice_write_file; [lia|lia|].
  - apply slice_write_file; [by eapply bg_position_nonneg|lia|done].
  - rewrite Hoff, (written_file _ _ _ _ _ _ _ Hm) by lia. by rewrite <-Hc.
  - rewrite zlen_splice; lia.
Qed.

Lemma read_holds s fd d loc f n buf :
  holds s fd d loc f → op_fits (Read n) f → zlen buf = n →
  ∃ b, read_s fd buf n s = (Done (file_step (Read n) f).1, set_below b s) ∧
    holds (set_below b s) fd d loc (file_step (Read n) f).2.
Proof.
  intros Hh [Hn Hfit] Hbuf. pose proof Hh as [Hf [Hoff Hle] Hc Hm].
  pose proof (small_size _ _ _ _ _ Hm ltac:(lia)).
  destruct (mapped_part _ _ _ _ _ (offset f) n Hm) as (Hr & _); [lia..|]. rewrite <-Hoff in Hr.
  destruct (read_s_spec s fd d loc buf n Hf) as (t & b & Hrun & Hrb & Him); [split; [lia|done]|done|].
  exists b. split.
  - cbn [file_step fst]. rewrite Hrun, Hoff, (file_part _ _ _ _ (zlen (contents f))) by lia. rewrite <-Hc.
    rewrite splice_all; [done|]. rewrite Hbuf, zlen_slice by lia. lia.
  - destruct f as [c o]. by eapply (stamped_holds _ _ _ _ _ _ _ 8 _ _ Hh Hrb Him).
Qed.

Lemma i64_word z : - 2 ^ 63 <= z < 2 ^ 63 → i64 (u64 z) = z.
Proof. intros Hz. unfold swrap, wrap. zlia. Qed.

Lemma seek_holds s fd d loc f off whence :
  holds s fd d loc f → op_fits (Seek off whence) f →
  ∃ p, io_op fd (Seek off whence) s
      = (Done (file_step (Seek off whence) f).1, set_fds (<[Z.to_nat fd := set_pos p d]> (fds s)) s) ∧
    holds (set_fds (<[Z.to_nat fd := set_pos p d]> (fds s)) s) fd (set_pos p d) loc (file_step (Seek off whence) f).2.
Proof.
  intros Hh (Hwh & Hoffr & Hp). pose proof Hh as [Hf [Hoff Hle] Hc Hm].
  pose proof (small_size _ _ _ _ _ Hm ltac:(lia)). pose proof Hf as [Hr Hslot Hop _ Hrb Hpl].
  assert (i32 whence = whence) as Hi32
    by (apply elem_of_cons in Hwh as [->|[->|[]%elem_of_nil]%elem_of_cons]; reflexivity).
  set (p := if whence =? SEEK_CUR then offset f + off else off) in *.
  assert ((if i32 whence =? SEEK_CUR then u64 (pos d + i64 (u64 off)) else u64 (i64 (u64 off))) = p) as Hpos.
  { rewrite Hi32, i64_word by lia. unfold p in *. rewrite Hoff. destruct (whence =? SEEK_CUR); apply wrap_small; lia. }
  exists p. split.
  - cbn [io_op]. erewrite bind_done; [reflexivity|].
    rewrite (seek_s_spec s fd d loc (u64 off) whence Hf). rewrite Hpos, Hi32, swrap_small, wrap_small by lia.
    apply elem_of_cons in Hwh as [->|[->|[]%elem_of_nil]%elem_of_cons]; reflexivity.
  - split; [|split; [done|exact Hp]|exact Hc|exact Hm].
    split; try done; cbn; [|apply Hp]. apply list_lookup_insert_eq. by apply lookup_lt_Some in Hslot.
Qed.

(** One call. *)
Lemma io_op_refines s fd d loc f op :
  holds s fd d loc f → op_fits op f →
  ∃ s' d', io_op fd op s = (Done (file_step op f).1, s') ∧ holds s' fd d' loc (file_step op f).2 ∧
    fds s' = <[Z.to_nat fd := d']> (fds s) ∧ _superblock s' = _superblock s.
Proof.
  intros Hh Hfit. pose proof (ff_slot _ _ _ _ (hold_fd _ _ _ _ _ Hh)) as Hslot. destruct op as [data|n|off whence].
  - destruct (write_holds s fd d loc f data Hh Hfit) as (b & Hrun & Hh'). exists (set_below b s), d.
    split_and!; try done. by rewrite list_insert_id.
  - destruct (read_holds s fd d loc f n (zeros n) Hh Hfit) as (b & Hrun & Hh'); [by destruct Hfit; rewrite zlen_zeros; lia|]. exists (set_below b s), d.
    split_and!; try done. by rewrite list_insert_id.
  - destruct (seek_holds s fd d loc f off whence Hh Hfit) as (p & Hrun & Hh').
    eexists _, _. split_and!; [exact Hrun|exact Hh'|done|done].
Qed.

(** C7.  An open file refines the specification: any sequence of [write_s],
    [read_s] and [seek_s] on a descriptor, within the bytes that the blocks of
    the inode hold, returns what the same calls return on an array of bytes
    with an offset that only [lseek] moves, and leaves the descriptor open on
    that array; the other descriptors are untouched. *)
Theorem file_calls_refine_file s fd d loc f ops :
  holds s fd d loc f → ops_fit ops f →
  ∃ s' d', io_run fd ops s = (Done (file_run ops f).1, s') ∧ holds s' fd d' loc (file_run ops f).2 ∧
    fds s' = <[Z.to_nat fd := d']> (fds s).
Proof.
  revert s d f. induction ops as [|op ops IH]; intros s d f Hh Hfit.
  { exists s, d. split; [done|]. split; [done|]. rewrite list_insert_id; [done|]. apply (hold_fd _ _ _ _ _ Hh). }
  destruct Hfit as [Hop Hops]. destruct (io_op_refines s fd d loc f op Hh Hop) as (s1 & d1 & Hrun & Hh1 & Hfds & _).
  destruct (IH s1 d1 _ Hh1 Hops) as (s2 & d2 & Hrun2 & Hh2 & Hfds2). exists s2, d2.
  cbn [io_run mapM file_run]. destruct (file_step op f) as [r f1]. cbn [fst snd] in *.
  destruct (file_run ops f1) as [rs f2]. cbn [fst snd] in *. split_and!; [|done|].
  - run_with Hrun. by run_with Hrun2.
  - by rewrite Hfds2, Hfds, list_insert_insert_eq.
Qed.
End refinement.

(** ** Witnesses *)

(** The file of the sample volume has two blocks, 6 and 8. *)
Lemma sample_mapped : mapped (zlen (image sample)) sample_file 2048 3840 2048.
Proof.
  assert (∀ k, 0 <= k < 2048 → k / 1024 = 0 ∨ k / 1024 = 1) as Hk by (intros; zlia).
  assert (∀ o m, o + m <= 6144 → region_apart sample_file 0 2048 o m) as Hap.
  { intros o m Hm k Hk'. right. unfold file_pos. destruct (Hk (0 + k) ltac:(lia)) as [->| ->].
    - change (i_block sample_file 0) with 6. zlia.
    - change (i_block sample_file 1) with 8. zlia. }
  split.
  - intros k Hk'. destruct (Hk (0 + k) ltac:(lia)) as [->| ->]; concrete.
  - intros k k' Hk1 Hk2. destruct (Hk (0 + k) ltac:(lia)) as [->| ->], (Hk (0 + k') ltac:(lia)) as [->| ->]; concrete.
  - apply Hap. lia.
  - split; [apply Hap; lia|lia].
Defined.

Definition sample_contents : file := File (file_bytes sample_image sample_file 0 2048) 1020.

Lemma sample_holds : holds sample_io 0 sample_fd 3840 sample_contents.
Proof.
  split; [apply sample_file_fd|split; [reflexivity|concrete]|reflexivity|exact sample_mapped].
Defined.

(** A write across the end of the first block, a seek, and a read back. *)
Lemma file_calls_refine_file_witness :
  ∃ s', io_run 0 [Write (bytes_of "Hello, World!"); Seek 1022 SEEK_SET; Read 5] sample_io
    = (Done [(13, []); (1022, []); (5, bytes_of "llo, ")], s').
Proof.
  destruct (file_calls_refine_file sample_io 0 sample_fd 3840 sample_contents
    [Write (bytes_of "Hello, World!"); Seek 1022 SEEK_SET; Read 5] sample_holds) as (s' & d' & Hrun & _).
  - split; [concrete|]. split; [|split; [concrete|exact I]].
    split; [apply (bool_decide_unpack _); vm_compute; exact I|]. split; [lia|concrete].
  - exists s'. rewrite Hrun. f_equal.
Defined.
