(* ===== verification/Board.v ===== *)
(** * The descriptor layer on the machine

    [Board] for the machine: the driver table, the console's transmit queue
    (src/io.c, [stdout_write_handler]) and the clock's registers.  With it the
    system calls of Io.v run on the virtqueue driver, down to the bytes the
    device moves. *)

From S2P Require Import Prelude Layout Ecall Memory Machine Heap LinkerScript Blk Ext2 Ext2File Vring QueueState BlkVring VirtioDriver Io Ramdisk RefDevice BlkTheorems Ext2Theorems Ext2DirTheorems IoTheorems.

Definition CONSOLE_DRIVER : nat := 3.

Section operations.
Context {D : Type} `{!Platform D}.

(** [driver && driver->initialized] *)
Definition driver_is_up (type : Z) : prog (machine D) bool :=
  match find_virtio_driver type with
  | None => mret false
  | Some i => d ← get_driver i; mret (initialized d)
  end.

(** The chain of one descriptor that [stdout_write_handler] sends: [size]
    bytes at [buf] on the second queue of the console. *)
Definition stdout_transmit (buf size : Z) : prog (machine D) unit :=
  let vring := (CONSOLE_DRIVER, 1%nat) in
  just_used ← vring_use_descr vring;
  _ ← vring_add_to_descr vring buf (u32 size) 0 just_used true;
  vring_post_descr vring just_used;;
  signal_virtio_device CONSOLE_DRIVER 1;;
  vring_wait_completion vring;;
  _ ← vring_unuse_descr vring just_used;
  mret tt.

(** src/io.c gives the device the address of the program's buffer.  The
    program's objects are in a memory of their own here, so the bytes are
    first put into a frame on the kernel's stack, which has to have room for
    them; nothing of the code has this bound. *)
#[export] Instance machine_board : Board (machine D) := {|
  driver_up := driver_is_up;
  console_transmit buf :=
    with_frame (zlen buf) (λ addr,
      modify (λ s, set_mem (store s.(mem) addr buf) s);;
      stdout_transmit addr (zlen buf));
  load_word a := load_reg a 4
|}.
End operations.

Lemma disk_is_up {D} `{!Platform D} `{!VirtioBlk D} (s : machine D) : blk_ready s → driver_up 1 s = (Done true, s).
Proof.
  intros (drv & v & [Hdrv _ [_ Hini] _ _ _]).
  unfold driver_up, machine_board, driver_is_up. change (find_virtio_driver 1) with (Some BLK_DRIVER).
  unfold get_driver. run. rewrite Hdrv. run. unfold mret, prog_ret. by rewrite Hini.
Qed.

(** The clock is a 32-bit register pair that is no part of the disk. *)
Class RtcLaw (D : Type) `{!Platform D} `{!VirtioBlk D} :=
  rtc_load a d : view (mmio_load a 4 d).2 = view d ∧ 0 <= (mmio_load a 4 d).1 < 2 ^ 32.

Section board.
Context {D : Type} `{!Platform D} `{!VirtioBlk D} `{!RtcLaw D}.

(** src/io.c gives the device the address of the program's buffer.  The
    program's objects are in a memory of their own here, so the bytes are
    first put into a frame on the kernel's stack, which has to have room for
    them; nothing of the code has this bound. *)
#[export] Instance machine_board_spec : BoardSpec (machine D).
Proof.
  split.
  - intros s Hs. exists s. split; [by apply disk_is_up|done].
  - intros a s (drv & v & [Hdrv Hvr Hhost Him Hq Hsp]). destruct (rtc_load a (dev s)) as [Hview Hw].
    unfold load_word, machine_board, load_reg. destruct (mmio_load a 4 (dev s)) as [w d'] eqn:Hload. cbn in *.
    exists w, (set_dev d' s). split; [done|]. split; [done|]. cbn. rewrite Hview. split; [|done].
    exists drv, v. split; cbn; rewrite ?Hview; done.
Defined.

End board.

(** ** A concrete machine *)

#[export] Instance ref_rtc : RtcLaw ref_device.
Proof.
  intros a d. split; [done|]. cbn. case_decide; [|lia].
  pose proof (wrap_range 16 (bv_num (rd_view d)) ltac:(lia)). lia.
Defined.

(** The sample volume behind the virtqueue, descriptor 0 open on the file. *)
Definition machine_io : io_state (machine ref_device) :=
  IoState (ref_machine sample_image) [sample_fd] sample_superblock true.

Lemma machine_file_fd : file_fd machine_io 0 sample_fd 3840.
Proof.
  split; [concrete|reflexivity|split_and!; reflexivity|concrete| |apply sample_placed].
  apply ref_ready; concrete.
Defined.
