(* ===== verification/ChainTheorems.v ===== *)
(** * The console and the source of randomness, over their queues

    What the program writes to descriptor 1 reaches the console device byte
    for byte, and a request for randomness returns what the entropy device
    stored; both leave their queue ready for the next request and the disk
    driver untouched. *)

From S2P Require Import Prelude Layout Ecall Memory Machine Heap Vring QueueState Blk BlkVring Chain VirtioDriver Ext2 Ext2File Io IoTheorems Board.

Section requests.
Context {D : Type} `{!Platform D} `{!VirtioBlk D} `{!VirtioChain D}.
Implicit Types s : machine D.

(** Queue [j] of driver [i] is up, idle and apart from the disk's queue. *)
Record side_ready s (i j : nat) (drv : virtio_driver) (v : vring) : Prop := {
  side_drv : virtio_drivers s !! i = Some drv ∧ i ≠ BLK_DRIVER;
  side_vr : vrings drv !! j = Some v;
  side_up : initialized drv = true;
  side_has : has_queue (host drv) (Z.of_nat j) (dev s);
  side_queue : queue_idle (side (host drv) (Z.of_nat j) (dev s)) (mem s) v;
}.

(** The [n] bytes below the stack pointer are free for a buffer, and the
    queue [v] is apart from the disk's. *)
Record side_placed s (v bv : vring) (n : Z) : Prop := {
  placed_stack : 0 <= n < 2 ^ 32 ∧ n <= sp s < 2 ^ 64;
  placed_queue : queue_apart (desc v) (num v) (sp s - n) n;
  placed_disk : queue_apart (desc bv) (num bv) (sp s - n) n;
  placed_apart : queue_end (desc v) (num v) <= desc bv ∨ queue_end (desc bv) (num bv) <= desc v;
}.

(** What a request on queue [j] of driver [i] with a buffer of [n] bytes
    leaves alone. *)
Definition beside (i j : nat) (n : Z) s s' : Prop :=
  sp s' = sp s ∧ the_heap s' = the_heap s ∧ (∀ k, k ≠ i → virtio_drivers s' !! k = virtio_drivers s !! k) ∧
  ∀ drv v, virtio_drivers s !! i = Some drv → vrings drv !! j = Some v →
    (∃ drv' v', virtio_drivers s' !! i = Some drv' ∧ vrings drv' !! j = Some v' ∧
       desc v' = desc v ∧ num v' = num v ∧ host drv' = host drv) ∧
    others_kept (host drv) (Z.of_nat j) (dev s) (dev s') ∧ view (dev s') = view (dev s) ∧
    ∀ a len, queue_apart (desc v) (num v) a len → a + len <= sp s - n ∨ sp s <= a →
      load (mem s') a len = load (mem s) a len.

(** What the device behind the queue has read so far. *)
Definition received s (drv : virtio_driver) (j : nat) : list byte :=
  bv_image (side (host drv) (Z.of_nat j) (dev s)).

(** An idle queue stays idle when its area of memory keeps its contents. *)
Lemma queue_idle_same w m m' v :
  queue_idle w m v →
  (∀ a n, desc v <= a → a + n <= queue_end (desc v) (num v) → load m' a n = load m a n) →
  queue_idle w m' v.
Proof.
  intros [? [Hq ?] Ha Hu ? [? ?] Hlast Hring] Hsame.
  destruct (queue_places (desc v) (num v)) as (Hav & Hus & Hend); [lia|].
  split; try done.
  - rewrite Hlast. unfold load_le. rewrite Hsame; [done|lia|lia].
  - intros i Hi. rewrite <-(Hring i Hi). unfold load_le. rewrite Hsame; [done|lia|lia].
Qed.

(** Queue [j] of driver [i] and the disk are up, with [room] bytes of stack
    for a buffer. *)
Definition side_works (room : Z) (i j : nat) s : Prop :=
  ∃ drv v bdrv bv, side_ready s i j drv v ∧ machine_ready s bdrv bv ∧ side_placed s v bv room.

Definition transcript (i j : nat) s : list byte :=
  match virtio_drivers s !! i with Some drv => received s drv j | None => [] end.

Lemma side_works_ready room i j s : side_works room i j s → blk_ready s.
Proof. intros (drv & v & bdrv & bv & _ & Hr & _). by exists bdrv, bv. Qed.

Definition answer_to (i j : nat) s (len : Z) : list byte :=
  match virtio_drivers s !! i with Some drv => answer (host drv) (Z.of_nat j) (dev s) len | None => [] end.

(** The chain that carries [n] bytes at [addr]. *)
Abbreviation chain i j addr n flags k :=
  (next ← vring_add_to_descr (i, j) addr n flags 0 true;
   vring_post_descr (i, j) 0;;
   signal_virtio_device i (Z.of_nat j);;
   vring_wait_completion (i, j);;
   _ ← vring_unuse_descr (i, j) 0;
   k next).

(** One request with the buffer in a frame of [n] bytes that first holds
    [bytes]: [body] is any program that comes down to the chain. *)
Lemma side_request {A} room i j s bytes flags (body : Z → prog (machine D) A) (k : Z → prog (machine D) A)
    (f : memory → A) :
  let n := zlen bytes in let addr := sp s - n in
  side_works room i j s → n <= room → flags = 0 ∨ flags = 2 →
  (∀ v s1, descr_next (bookeeping v) = 0 → get_vring (i, j) s1 = (Done v, s1) →
     body addr s1 = chain i j addr n flags k s1) →
  (∀ next s1, k next s1 = (Done (f (mem s1)), s1)) →
  ∃ m' data s',
    with_frame n (λ a, modify (λ s, set_mem (store s.(mem) a bytes) s);; body a) s = (Done (f m'), s') ∧
    side_works room i j s' ∧ bv_image (view (dev s')) = bv_image (view (dev s)) ∧
    transcript i j s' = transcript i j s ++ (if flags =? 0 then bytes else []) ∧
    data = (if flags =? 0 then [] else answer_to i j s n) ∧ zlen data <= n ∧
    load m' addr n = splice bytes 0 data ∧ beside i j n s s'.
Proof.
  intros n addr (drv & v & bdrv & bv & [[Hdrv Hne] Hvr Hup Hhas Hq] & Hblk & [[Hrm Hsp] Hpq Hpd Hpa])
    Hroom Hfl Hbody Hk.
  assert (0 <= n) by apply zlen_nonneg.
  assert (queue_apart (desc v) (num v) addr n) as Hpq' by (unfold queue_apart, addr in *; lia).
  set (m0 := store (mem s) addr bytes).
  assert (queue_idle (side (host drv) (Z.of_nat j) (dev s)) m0 v) as Hq0 by (by apply queue_idle_store).
  destruct (chain_spec i j s drv v Hdrv Hvr m0 (dev s) v addr addr n flags k Hq0 Hhas)
    as (m' & d' & data & id & Hrun & Hq' & Hhas' & Hview & Htook & Hlen & Hload & Hdata & Hothers & Hrest);
    [unfold addr; split_and!; (lia || done)|done|].
  assert (load m0 addr n = bytes) as Hb by apply load_store_same. rewrite Hb in Htook, Hload.
  set (v' := vring_after v id) in *.
  exists m', data, (st i j s drv m' d' v' (sp s)).
  assert (length (virtio_drivers s) > i)%nat as Hi by (apply lookup_lt_Some in Hdrv; lia).
  assert (length (vrings drv) > j)%nat as Hj by (apply lookup_lt_Some in Hvr; lia).
  split_and!; try done.
  - rewrite (st_init i j s drv v Hdrv Hvr) at 1. apply (with_frame_st i j s drv). run. cbn [mem st].
    change (set_mem _ _) with (st i j s drv m0 (dev s) v addr). rewrite (Hbody v), Hrun, Hk; [done| |].
    + apply (idle_next _ _ _ Hq).
    + apply (get_vring_st i j s drv v Hdrv Hvr).
  - exists (drv_with j drv v'), v', bdrv, bv. split_and!; [| |split; cbn; (done || lia)].
    + split; cbn; [split; [by apply list_lookup_insert_eq|done]|by apply list_lookup_insert_eq|done|done|done].
    + destruct Hblk as [Hbdrv Hbvr Hhost Him Hbq Hstk].
      split; cbn; rewrite ?Hview; try done; [by rewrite list_lookup_insert_ne by done|].
      apply (queue_idle_same _ (mem s)); [done|]. intros a len Ha Hend.
      destruct Hq as [_ [_ Hd0] _ _ _ _ _ _].
      destruct (queue_places (desc bv) (num bv)) as (_ & _ & Hbe); [destruct Hbq; lia|].
      rewrite Hrest by (unfold queue_apart, addr in *; lia). apply load_store_other. fold n.
      unfold queue_apart, addr in *. lia.
  - cbn. by rewrite Hview.
  - unfold transcript. cbn [virtio_drivers st]. rewrite list_lookup_insert_eq by done. by rewrite Hdrv.
  - unfold answer_to. by rewrite Hdrv.
  - split; [done|]. split; [done|]. split; [intros k0 ?; cbn; by rewrite list_lookup_insert_ne|].
    intros drv1 v1 Hdrv1 Hv1. rewrite Hdrv in Hdrv1. injection Hdrv1 as <-. rewrite Hvr in Hv1. injection Hv1 as <-.
    split; [exists (drv_with j drv v'), v'; split_and!; try done; cbn; by apply list_lookup_insert_eq|].
    split; [done|]. split; [done|]. intros a len Ha Hfr. cbn [mem st]. rewrite Hrest by (done || (unfold addr; lia)).
    apply load_store_other. fold n. unfold addr in *. lia.
Qed.
(** *** The console *)

Lemma use_descr i j v s1 :
  descr_next (bookeeping v) = 0 → get_vring (i, j) s1 = (Done v, s1) →
  vring_use_descr (i, j) s1 = (Done 0, s1).
Proof. intros Hn Hv. unfold vring_use_descr. run_with Hv. by rewrite Hn. Qed.

Lemma console_transmit_spec room s buf :
  side_works room CONSOLE_DRIVER 1 s → zlen buf <= room →
  ∃ s', console_transmit buf s = (Done tt, s') ∧ side_works room CONSOLE_DRIVER 1 s' ∧
    image s' = image s ∧ transcript CONSOLE_DRIVER 1 s' = transcript CONSOLE_DRIVER 1 s ++ buf ∧
    beside CONSOLE_DRIVER 1 (zlen buf) s s'.
Proof.
  intros Hs Hroom. pose proof (zlen_nonneg buf).
  assert (room < 2 ^ 32) as Hr32 by (destruct Hs as (? & ? & ? & ? & _ & _ & [[[_ ?] _] _ _ _]); done).
  destruct (side_request room CONSOLE_DRIVER 1 s buf 0 (λ addr, stdout_transmit addr (zlen buf)) (λ _, mret tt)
    (λ _, tt)) as (m' & data & s' & Hrun & Hs' & Him & Htr & _ & _ & _ & Hbeside); [done|done|by left| |done|].
  - intros v s1 Hn Hv. unfold stdout_transmit. run_with (use_descr CONSOLE_DRIVER 1 v s1 Hn Hv).
    rewrite (wrap_small 32) by lia. done.
  - exists s'. split; [exact Hrun|]. done.
Qed.

(** The standard output: descriptor 1 is the console's. *)
Record stdout_open (s : io_state (machine D)) (d : io_descriptor) : Prop := {
  stdout_slot : fds s !! 1%nat = Some d;
  stdout_handler : open d = true ∧ write_handler d = Some stdout_write_handler_f;
}.

Lemma console_write `{!Uninit} room (s : io_state (machine D)) d buf size :
  stdout_open s d → side_works room CONSOLE_DRIVER 1 (below s) →
  0 <= size <= room → size <= zlen buf → size < 2 ^ 31 →
  ∃ b, write_s 1 buf size s = (Done size, set_below b s) ∧
    console_transmit (slice buf 0 size) (below s) = (Done tt, b) ∧ side_works room CONSOLE_DRIVER 1 b ∧
    image b = image (below s) ∧
    transcript CONSOLE_DRIVER 1 b = transcript CONSOLE_DRIVER 1 (below s) ++ slice buf 0 size.
Proof.
  intros [Hslot [Hopen Hwr]] Hs Hsz Hbuf H31.
  assert (get_fd 1 s = (Done d, s)) as Hget.
  { unfold get_fd. run. rewrite bind_defined by lia. change (Z.to_nat 1) with 1%nat. by rewrite Hslot. }
  assert (driver_up 3 (below s) = (Done true, below s)) as Hup.
  { destruct Hs as (drv & v & bdrv & bv & [[Hdrv _] _ Hini _ _] & _).
    unfold driver_up, machine_board, driver_is_up. change (find_virtio_driver 3) with (Some CONSOLE_DRIVER).
    unfold get_driver. run. rewrite Hdrv. run. unfold mret, prog_ret. by rewrite Hini. }
  destruct (console_transmit_spec room (below s) (slice buf 0 size)) as (b & Hrun & Hb & Him & Htr & _); [done| |].
  { rewrite zlen_slice; lia. }
  exists b. split; [|split; [exact Hrun|done]]. unfold write_s, is_fd_open. change (is_fd_valid 1) with true. cbv iota.
  rewrite bind_assoc. run_with Hget. rewrite Hopen. run. cbn [negb]. run_with Hget. rewrite Hwr.
  unfold stdout_write_handler. rewrite !bind_assoc. run_with (lift_done _ s _ _ Hup). cbn [negb].
  rewrite set_below_self, bind_assoc, bind_defined by lia. rewrite bind_assoc.
  run_with (lift_done _ s _ _ Hrun). run. rewrite swrap_small, wrap_small by lia. done.
Qed.

(** *** Randomness *)

Definition ENTROPY_DRIVER : nat := 5.

(** At most one chunk of 8 bytes. *)
Lemma randomness_spec room s n :
  side_works room ENTROPY_DRIVER 0 s → 8 <= room → 0 < n <= 8 →
  ∃ s', virtio_get_randomness n s
      = (Done (n, slice (splice (zeros 8) 0 (answer_to ENTROPY_DRIVER 0 s 8)) 0 n), s') ∧
    side_works room ENTROPY_DRIVER 0 s' ∧ image s' = image s ∧ zlen (answer_to ENTROPY_DRIVER 0 s 8) <= 8 ∧
    beside ENTROPY_DRIVER 0 8 s s'.
Proof.
  intros Hs Hroom Hn.
  set (fuel := Z.to_nat (n / CHUNK_SIZE)).
  assert (Z.to_nat (n / CHUNK_SIZE + 1) = Datatypes.S fuel) as Hfuel.
  { unfold fuel, CHUNK_SIZE. pose proof (Z.div_pos n 8). lia. }
  destruct (side_request room ENTROPY_DRIVER 0 s (zeros 8) 2
    (λ buf, next ← vring_use_descr (ENTROPY_DRIVER, 0%nat);
       out ← randomness_loop (Z.to_nat (n / CHUNK_SIZE + 1)) ENTROPY_DRIVER buf n 0 next [];
       mret (n, out))
    (λ next, chunk ← internal_memcpy (Z.to_nat n) (sp s - 8); mret (n, chunk))
    (λ m, (n, load m (sp s - 8) n))) as (m' & data & s' & Hrun & Hs' & Him & _ & Hdata & Hlen & Hload & Hbeside);
    [done|done|by right| |intros next s1; by run_with (internal_memcpy_loads n (sp s - 8) s1 ltac:(lia))|].
  - intros v s1 Hnx Hv. run_with (use_descr ENTROPY_DRIVER 0 v s1 Hnx Hv).
    rewrite Hfuel. cbn [randomness_loop]. replace (0 <? n) with true by lia.
    rewrite Z.sub_0_r, (wrap_small 64 n) by lia.
    replace (if n <? CHUNK_SIZE then n else CHUNK_SIZE) with n by (unfold CHUNK_SIZE; destruct (Z.ltb_spec n 8); lia).
    change (zlen (zeros 8)) with 8. repeat (rewrite bind_assoc; apply bind_ext; intros ? ?).
    cbn [app]. unfold CHUNK_SIZE. rewrite wrap_small by lia.
    destruct fuel; cbn [randomness_loop]; replace (0 + 8 <? n) with false by lia; done.
  - exists s'. unfold virtio_get_randomness. change (find_virtio_driver 5) with (Some ENTROPY_DRIVER).
    destruct Hs as (drv & v & bdrv & bv & [[Hdrv _] _ Hup _ _] & _).
    unfold get_driver. run. rewrite Hdrv. run. rewrite Hup. cbn [negb].
    change (zlen (zeros 8)) with 8 in *. rewrite Hdata in *. cbn [Z.eqb Pos.eqb] in *.
    split; [|done]. etransitivity; [exact Hrun|]. do 3 f_equal.
    rewrite <-Hload. symmetry. by apply slice_load_front; lia.
Qed.
(** The seed of the C library's start code ([dl_random_bytes]) is what
    the entropy device stored in the chunk, little-endian, on top of zeros:
    the length the device reports is not looked at, so a device that answers
    with fewer than 8 bytes leaves the rest of the seed 0. *)
Theorem dl_random_configured room s :
  side_works room ENTROPY_DRIVER 0 s → 8 <= room →
  ∃ s', configure_dl_random s = (Done (get_le (splice (zeros 8) 0 (answer_to ENTROPY_DRIVER 0 s 8)) 0 8), s') ∧
    side_works room ENTROPY_DRIVER 0 s' ∧ image s' = image s ∧ beside ENTROPY_DRIVER 0 8 s s'.
Proof.
  intros Hs Hroom. destruct (randomness_spec room s 8 Hs Hroom) as (s' & Hrun & Hs' & Him & Hlen & Hbeside); [lia|].
  exists s'. split; [|done]. unfold configure_dl_random. run_with Hrun. cbn [Z.eqb Pos.eqb negb].
  set (chunk := splice (zeros 8) 0 (answer_to ENTROPY_DRIVER 0 s 8)) in *.
  assert (zlen chunk = 8) as Hc. 
  { unfold chunk. rewrite zlen_splice by (rewrite ?zlen_zeros by lia; lia). by rewrite zlen_zeros by lia. }
  rewrite (slice_all chunk) by lia. rewrite splice_all; [done|]. by rewrite zlen_zeros by lia.
Qed.
End requests.
