(* ===== verification/Randomness.v ===== *)
(** * Randomness of any length (src/virtio.c, [virtio_get_randomness])

    A request is one chain per chunk of 8 bytes.  The descriptor of a chunk
    depends on where the chunk before it was, and the driver and the device
    disagree on where the available ring wraps around (modulo [num - 1] and
    modulo [num]); so from the [num]-th chunk on the device may find an entry
    that an earlier chunk left behind.  All that entries ever name is a
    descriptor of an 8-byte buffer that some chunk has used ([queue_open]): the
    request always ends, with the length asked for and the queues in order,
    and the bytes are those of the device when all chunks so far used the same
    buffer. *)

From S2P Require Import Prelude Layout Ecall Memory Machine Heap Vring QueueState Blk BlkVring Chain VirtioDriver Ext2 Ext2File Io IoTheorems Board ChainTheorems.

(** Descriptor [h] is one that a chunk in a buffer of [B] has filled in. *)
Definition filled_in (B : Z → Prop) (m : memory) (v : vring) (h : Z) : Prop :=
  ∃ buf, B buf ∧ desc_is m (desc v) h buf 8 2 0.

(** The queue between two chunks: [next] is the descriptor of the next one. *)
Record queue_open (B : Z → Prop) (w : blk_view) (m : memory) (v : vring) (next : Z) : Prop := {
  open_num : num v = bv_num w ∧ 4 <= num v <= 2 ^ 15;
  open_desc : desc v = bv_queue w ∧ 0 <= desc v;
  open_avail : avail v = queue_avail (desc v) (num v);
  open_used : used v = queue_used (desc v) (num v);
  open_next : 0 <= descr_next (bookeeping v) < num v - 1 ∧ 0 <= next < num v - 1;
  open_pos : avail_next (bookeeping v) = bv_last_avail w ∧ 0 <= avail_next (bookeeping v) < 2 ^ 16;
  open_last : used_last (bookeeping v) = load_le m (used v + 2) 2;
  open_ring : ∀ i, 0 <= i < num v → let h := load_le m (avail v + 4 + 2 * i) 2 in
    h < num v ∧ (h = next ∨ filled_in B m v h);
}.

Lemma idle_open B w m v : queue_idle w m v → queue_open B w m v (descr_next (bookeeping v)).
Proof.
  intros [Hn Hd Ha Hu Hnext Hpos Hlast Hring]. split; try done.
  - rewrite Hnext. lia.
  - intros i Hi. rewrite Hring, Hnext by done. split; [lia|by left].
Qed.

(** ** One chunk *)

Definition chunk_memory (m : memory) (v : vring) (next buf : Z) : memory :=
  store_le (store_le (write_desc m (desc v + 16 * next) buf 8 0 2 2)
    (avail v + 4 + 2 * (avail_next (bookeeping v) mod (num v - 1))) 2 next)
    (avail v + 2) 2 (u16 (avail_next (bookeeping v) + 1)).

Section chunk.
Context (B : Z → Prop) (w : blk_view) (m : memory) (v : vring) (next buf : Z).
Hypothesis Hopen : queue_open B w m v next.
Hypothesis HB : ∀ b, B b → 0 <= b ∧ b + 8 <= 2 ^ 64 ∧ queue_apart (desc v) (num v) b 8.
Hypothesis Hbuf : B buf.

(** Everything about the places of the rings and the slot, for [mem_simpl]. *)
Ltac places :=
  destruct Hopen as [[Hnw Hn] [Hqw Hq] Ha Hu [Hdn Hnx] [Hlast Hpos] _ Hring];
  destruct (queue_places (desc v) (num v)) as (Hav & Hus & Hend); [lia|];
  pose proof (HB buf Hbuf) as (Hb0 & Hb1 & Hap);
  unfold queue_apart in *; rewrite Hend in *; unfold chunk_memory, write_desc; rewrite Ha; rewrite ?Hu;
  set (A := queue_avail (desc v) (num v)) in *; set (U := queue_used (desc v) (num v)) in *;
  set (j := avail_next (bookeeping v) mod (num v - 1));
  assert (0 <= j < num v - 1) by (apply Z.mod_pos_bound; lia).

Lemma chunk_desc h b :
  0 <= h < num v → h ≠ next → desc_is m (desc v) h b 8 2 0 → desc_is (chunk_memory m v next buf) (desc v) h b 8 2 0.
Proof.
  intros Hh Hne Hd. places. unfold desc_is in *. destruct Hd as (H1 & H2 & H3 & H4).
  split_and!; (etransitivity; [|first [exact H1|exact H2|exact H3|exact H4]]); by mem_simpl.
Qed.

Lemma chunk_filled h :
  0 <= h < num v → h = next ∨ filled_in B m v h → filled_in B (chunk_memory m v next buf) v h.
Proof.
  intros Hh Hcase. destruct (decide (h = next)) as [->|Hne].
  - exists buf. split; [done|]. places. unfold desc_is. split_and!; mem_simpl; by rewrite Z.mod_small by lia.
  - destruct Hcase as [|(b & Hb & Hd)]; [done|]. exists b. split; [done|]. by apply chunk_desc.
Qed.

(** The entries of the ring that the driver does not write. *)
Lemma chunk_slot i :
  0 <= i < num v → i ≠ avail_next (bookeeping v) mod (num v - 1) →
  load_le (chunk_memory m v next buf) (avail v + 4 + 2 * i) 2 = load_le m (avail v + 4 + 2 * i) 2.
Proof. intros Hi Hne. places. fold j in Hne. by mem_simpl. Qed.

Lemma chunk_ring i :
  0 <= i < num v → let h := load_le (chunk_memory m v next buf) (avail v + 4 + 2 * i) 2 in
  0 <= h < num v ∧ filled_in B (chunk_memory m v next buf) v h.
Proof.
  intros Hi h. assert (0 <= h < num v ∧ (h = next ∨ filled_in B m v h)) as [Hh Hc].
  { unfold h. clear h. places. rewrite Ha in Hring. fold A in Hring. destruct (decide (i = j)) as [->|Hij]; mem_simpl.
    - rewrite Z.mod_small by lia. split; [lia|by left].
    - split; [|by apply Hring]. pose proof (load_le_range m (A + 4 + 2 * i) 2). destruct (Hring i Hi). lia. }
  split; [done|by apply chunk_filled].
Qed.

Lemma chunk_posted_at h b :
  load_le (chunk_memory m v next buf) (avail v + 4 + 2 * (bv_last_avail w mod num v)) 2 = h →
  desc_is (chunk_memory m v next buf) (desc v) h b 8 2 0 →
  one_posted w (chunk_memory m v next buf) h b 8 2.
Proof.
  intros Hh Hd. pose proof Hopen as [[Hnw Hn] [Hqw _] Ha _ _ [Hlast _] _ _].
  split; [|by rewrite <-Hqw, <-Hnw, <-Ha|by rewrite <-Hqw|by right].
  clear Hh Hd Hnw Hn Hqw Ha Hlast. places. rewrite <-Hqw, <-Hnw, <-Hlast. fold A. mem_simpl.
  rewrite (Z.mod_small (u16 _)); [done|]. apply (wrap_range 16); lia.
Qed.

(** Before the driver's place comes round, it is the one the device looks at. *)
Lemma chunk_posted_early :
  bv_last_avail w < num v - 1 → one_posted w (chunk_memory m v next buf) next buf 8 2.
Proof.
  intros Hearly. apply chunk_posted_at; places.
  - rewrite <-Hlast in *. rewrite (Z.mod_small _ (num v)) by lia.
    assert (j = avail_next (bookeeping v)) as Hj by (unfold j; apply Z.mod_small; lia). rewrite <-Hj.
    mem_simpl. by rewrite Z.mod_small by lia.
  - unfold desc_is. split_and!; mem_simpl; by rewrite Z.mod_small by lia.
Qed.

Lemma chunk_posted :
  ∃ h b, B b ∧ 0 <= h < num v ∧ one_posted w (chunk_memory m v next buf) h b 8 2 ∧
    (bv_last_avail w < num v - 1 → b = buf).
Proof.
  destruct (decide (bv_last_avail w < num v - 1)) as [Hearly|Hlate].
  - exists next, buf. split; [done|]. split; [destruct Hopen as [_ _ _ _ [_ ?] _ _ _]; lia|].
    split; [by apply chunk_posted_early|done].
  - destruct (chunk_ring (bv_last_avail w mod num v)) as [Hh (b & Hb & Hd)];
      [apply Z.mod_pos_bound; destruct Hopen as [[? ?] _ _ _ _ _ _ _]; lia|].
    eexists _, b. split; [done|]. split; [exact Hh|]. split; [by apply chunk_posted_at|done].
Qed.

Lemma chunk_used : load_le (chunk_memory m v next buf) (used v + 2) 2 = load_le m (used v + 2) 2.
Proof. places. by mem_simpl. Qed.

Lemma chunk_elsewhere a n :
  queue_apart (desc v) (num v) a n → load (chunk_memory m v next buf) a n = load m a n.
Proof. intros Hout. places. by mem_simpl. Qed.

(** After the device has stored [data] at [b] and completed the chain that
    started at [h]. *)
Context (h b len : Z) (data : list byte).
Hypothesis Hb : B b.
Hypothesis Hh : 0 <= h < num v.
Hypothesis Hdata : zlen data <= 8.

Definition chunk_after : memory := complete w (store (chunk_memory m v next buf) b data) h len.

Lemma open_complete a n :
  a + n <= used v + 2 ∨ queue_end (desc v) (num v) <= a → ∀ m', load (complete w m' h len) a n = load m' a n.
Proof.
  destruct Hopen as [[Hnw Hn] [Hqw Hq] _ Hu _ _ _ _].
  destruct (queue_places (desc v) (num v)) as (_ & _ & Hend); [lia|]. rewrite Hend in *.
  intros Ha m'. unfold complete. rewrite <-Hnw, <-Hqw. rewrite Hu in *. set (U := queue_used _ _) in *.
  pose proof (Z.mod_pos_bound (load_le m' (U + 2) 2) (num v) ltac:(lia)). by mem_simpl.
Qed.

Lemma chunk_after_elsewhere a n :
  queue_apart (desc v) (num v) a n → a + n <= b ∨ b + 8 <= a → load chunk_after a n = load m a n.
Proof.
  intros Hout Hab. pose proof Hopen as [[_ Hn] _ _ Hu _ _ _ _].
  destruct (queue_places (desc v) (num v)) as (Hav & Hus & Hend); [lia|].
  unfold chunk_after. rewrite open_complete by (unfold queue_apart in *; lia).
  rewrite load_store_other by (pose proof (zlen_nonneg data); lia). by apply chunk_elsewhere.
Qed.

Lemma chunk_after_buffer : load chunk_after b 8 = splice (load m b 8) 0 data.
Proof.
  destruct (HB b Hb) as (? & ? & Hap). pose proof Hopen as [[_ Hn] _ _ Hu _ _ _ _].
  destruct (queue_places (desc v) (num v)) as (Hav & Hus & Hend); [lia|].
  unfold chunk_after. rewrite open_complete by (unfold queue_apart in *; lia).
  rewrite <-(chunk_elsewhere b 8 Hap). by apply load_store_front.
Qed.

(** The driver's and the device's areas up to the used index are untouched. *)
Lemma chunk_after_queue a n :
  desc v <= a → a + n <= used v + 2 → load chunk_after a n = load (chunk_memory m v next buf) a n.
Proof.
  intros Ha Hn. destruct (HB b Hb) as (? & ? & Hap). pose proof Hopen as [[_ Hnum] _ _ Hu _ _ _ _].
  destruct (queue_places (desc v) (num v)) as (Hav & Hus & Hend); [lia|].
  unfold chunk_after. rewrite open_complete by lia.
  apply load_store_other. pose proof (zlen_nonneg data). unfold queue_apart in *. lia.
Qed.

Lemma chunk_after_idx : load_le chunk_after (used v + 2) 2 = u16 (load_le m (used v + 2) 2 + 1).
Proof.
  destruct (HB b Hb) as (? & ? & Hap). pose proof Hopen as [[Hnw Hn] [Hqw Hq] _ Hu _ _ _ _].
  destruct (queue_places (desc v) (num v)) as (Hav & Hus & Hend); [lia|].
  unfold chunk_after, complete. rewrite <-Hnw, <-Hqw, <-Hu.
  rewrite load_le_store_le_same, Z.mod_small by (apply (wrap_range 16); lia).
  do 2 f_equal. rewrite <-chunk_used. apply load_le_store_other. pose proof (zlen_nonneg data).
  unfold queue_apart in *. lia.
Qed.

Definition chunk_vring (id : Z) : vring := with_next next (with_used_last id (with_avail (u16 (avail_next (bookeeping v) + 1)) v)).

(** Any descriptor will do for the chunk that comes next. *)
Lemma chunk_after_open img next' :
  0 <= next' < num v - 1 →
  queue_open B (view_after w img) chunk_after (chunk_vring (load_le chunk_after (used v + 2) 2)) next'.
Proof.
  intros Hn'. pose proof Hopen as [[Hnw Hn] [Hqw Hq] Ha Hu [_ Hnext] [Hlast Hpos] _ _].
  destruct (queue_places (desc v) (num v)) as (Hav & Hus & Hend); [lia|].
  split; cbn; try done.
  - rewrite Hlast. split; [done|apply (wrap_range 16); lia].
  - intros i Hi.
    assert (load_le chunk_after (avail v + 4 + 2 * i) 2 = load_le (chunk_memory m v next buf) (avail v + 4 + 2 * i) 2)
      as -> by (unfold load_le; rewrite chunk_after_queue by lia; done).
    destruct (chunk_ring i Hi) as [Hr (x & Hx & Hd)]. split; [lia|]. right. exists x. split; [done|].
    unfold desc_is in *. cbn [desc chunk_vring with_next with_used_last with_avail set_bookeeping].
    set (e := load_le _ (avail v + 4 + 2 * i) 2) in *. clearbody e.
    destruct Hd as (H1 & H2 & H3 & H4).
    split_and!; (etransitivity; [|first [exact H1|exact H2|exact H3|exact H4]]); unfold load_le;
      rewrite chunk_after_queue by lia; done.
Qed.
End chunk.

(** What a caller of [length] bytes gets when the device answers the chunks
    with [answers]: every answer lies on top of the chunk before. *)
Fixpoint delivered (length : Z) (chunk : list byte) (answers : list (list byte)) : list byte :=
  match answers with
  | [] => []
  | a :: answers =>
      let chunk := splice chunk 0 a in
      slice chunk 0 (if length <? 8 then length else 8) ++ delivered (length - 8) chunk answers
  end.

(** The device takes one chain for a buffer of 8 bytes after the other from
    its queue 0, and stores [answers]; it goes from [d] to [d']. *)
Inductive chains_served {D} `{VirtioChain D} (host : Z) : D → list (list byte) → D → Prop :=
  | served_none d : chains_served host d [] d
  | served_one d d1 answers d' :
      side host 0 d1 = view_after (side host 0 d) (bv_image (side host 0 d)) →
      chains_served host d1 answers d' →
      chains_served host d (answer host 0 d 8 :: answers) d'.

Lemma served_single {D} `{VirtioChain D} host d answers d' :
  chains_served host d answers d' → zlen answers = 1 → answers = [answer host 0 d 8].
Proof. intros [|? ? [|? ?]] Hz; [done|done|unfold zlen in Hz; cbn in Hz; lia]. Qed.

(** The number of chunks for [n] bytes. *)
Definition chunks (n : Z) : Z := (Z.max 0 n + 7) / 8.

(** ** The driver's half *)

Section driver.
Context {D : Type} `{!Platform D} `{!VirtioBlk D} `{!VirtioChain D}.
Context (dn qn : nat) (s0 : machine D) (drv : virtio_driver) (vr0 : vring).
Hypothesis Hdrv : virtio_drivers s0 !! dn = Some drv.
Hypothesis Hvr : vrings drv !! qn = Some vr0.
Abbreviation st := (QueueState.st dn qn s0 drv).
Abbreviation host := (host drv).
Abbreviation q := (Z.of_nat qn).

(** The calls for one chunk, with what comes after them as [k], when the
    device finds descriptor [h], with the buffer [b]. *)
Lemma chunk_run B m d v p next buf h b {A} (k : Z → prog (machine D) A) :
  let w := side host q d in
  queue_open B w m v next → has_queue host q d → B buf →
  (∀ b, B b → 0 <= b ∧ b + 8 <= 2 ^ 64 ∧ queue_apart (desc v) (num v) b 8) →
  B b → 0 <= h < num v → one_posted w (chunk_memory m v next buf) h b 8 2 →
  ∃ m' d' id, let v' := chunk_vring v next id in let data := answer host q d 8 in
    (next' ← vring_add_to_descr (dn, qn) buf 8 2 next true;
     vring_post_descr (dn, qn) next;;
     signal_virtio_device dn q;;
     vring_wait_completion (dn, qn);;
     _ ← vring_unuse_descr (dn, qn) next;
     k next') (st m d v p) = k (next_after v) (st m' d' v' p) ∧
    (∀ next', 0 <= next' < num v - 1 → queue_open B (side host q d') m' v' next') ∧
    has_queue host q d' ∧ view d' = view d ∧ others_kept host q d d' ∧
    side host q d' = view_after w (bv_image w) ∧
    zlen data <= 8 ∧ load m' b 8 = splice (load m b 8) 0 data ∧
    ∀ a n, queue_apart (desc v) (num v) a n → a + n <= b ∨ b + 8 <= a → load m' a n = load m a n.
Proof using Hdrv Hvr.
  intros w Hopen Hhas Hbuf HB Hb Hh Hposted. pose proof Hopen as [[Hnw Hn] [Hqw _] _ Hu [_ Hnext] _ Hlast _].
  set (m1 := chunk_memory m v next buf) in *.
  destruct (serves_one d m1 host q h b 8 2 Hhas Hposted) as
    (n & d' & m' & data & Hk & Hsame & Hiter & Hlen & Hdata & Hm' & Hhas' & Hview & Hside & Hothers).
  fold w in Hsame, Hm', Hside. cbn [Z.eqb Pos.eqb] in Hdata, Hside.
  change (m' = chunk_after w m v next buf h b (zlen data) data) in Hm'.
  pose proof (chunk_after_idx B w m v next buf Hopen HB Hbuf h b (zlen data) data Hb Hlen) as Hidx.
  rewrite <-Hm' in Hidx.
  exists m', d', (load_le m' (used v + 2) 2). split.
  - erewrite bind_done by (apply (add_to_descr_st dn qn s0 drv vr0 Hdrv Hvr); lia).
    erewrite bind_done by (apply (post_descr_st dn qn s0 drv vr0 Hdrv Hvr); cbn; lia).
    erewrite bind_done by (apply (signal_st dn qn s0 drv Hdrv)).
    cbn [num desc avail used bookeeping avail_next with_next set_bookeeping set_descr_next].
    replace (store_le (store_le _ _ 2 next) _ 2 _) with m1 by done.
    assert (load_le m1 (used v + 2) 2 = used_last (bookeeping v)) as Hold
      by (rewrite Hlast; by eapply chunk_used).
    rewrite <-Hnw, <-Hqw, <-Hu in Hsame.
    change (after (S n) (mmio_store (Machine.host drv + 16) 2 q d) m1 = (d', m')) in Hiter.
    erewrite bind_done.
    2: { apply (wait_completion_st dn qn s0 drv vr0 Hdrv Hvr n); [done|..]; cbn [used bookeeping used_last
           with_avail with_next set_bookeeping set_descr_next set_avail_next].
         - intros i Hi. rewrite <-Hold. by apply Hsame.
         - rewrite Hiter. cbn [snd]. rewrite Hidx, Hlast. apply next_idx_differs. }
    rewrite Hiter. cbn [fst snd].
    unfold vring_unuse_descr. rewrite bind_assoc. run_with (get_vring_st dn qn s0 drv vr0 Hdrv Hvr _ _ _ _).
    rewrite bind_assoc. run_with (put_vring_st dn qn s0 drv vr0 Hdrv Hvr _ _ _ _ _). run. reflexivity.
  - cbn zeta. rewrite Hside. rewrite app_nil_r in *. subst data. split_and!; try done.
    + intros next' Hn'. rewrite Hm'. by apply (chunk_after_open B).
    + rewrite Hm'. by apply (chunk_after_buffer B w).
    + intros a l Ha Hab. rewrite Hm'. by apply (chunk_after_elsewhere B w).
Qed.

End driver.

(** ** A whole request *)

Section request.
Context {D : Type} `{!Platform D} `{!VirtioBlk D} `{!VirtioChain D}.
Context (dn : nat) (s0 : machine D) (drv : virtio_driver) (vr0 : vring).
Hypothesis Hdrv : virtio_drivers s0 !! dn = Some drv.
Hypothesis Hvr : vrings drv !! 0%nat = Some vr0.
Abbreviation st := (QueueState.st dn 0 s0 drv).
Abbreviation host := (host drv).

(** What a request leaves alone. *)
Record request_kept (B : Z → Prop) (v : vring) (m m' : memory) (d d' : D) : Prop := {
  kept_view : view d' = view d;
  kept_others : others_kept host 0 d d';
  kept_image : bv_image (side host 0 d') = bv_image (side host 0 d);
  kept_memory : ∀ a n, queue_apart (desc v) (num v) a n → (∀ b, B b → a + n <= b ∨ b + 8 <= a) →
    load m' a n = load m a n;
}.

Lemma request_kept_refl B v m d : request_kept B v m m d d.
Proof. by split. Qed.

Lemma request_kept_trans B v v' m m' m'' d d' d'' :
  desc v' = desc v → num v' = num v →
  request_kept B v m m' d d' → request_kept B v' m' m'' d' d'' → request_kept B v m m'' d d''.
Proof.
  intros Hd Hn [H1 H2 H3 H4] [H5 H6 H7 H8]. split; try congruence.
  - intros h x Hne Hhas. destruct (H2 h x Hne Hhas) as [<- Hhas']. by apply H6.
  - intros a n Ha HB. rewrite H8 by (rewrite ?Hd, ?Hn; done). by apply H4.
Qed.

(** The device fills the buffer the driver has just named: all chunks so far
    used the same buffer, or the [n] bytes are there before the driver's place
    in the ring comes round. *)
Definition one_place (B : Z → Prop) (w : blk_view) (buf n : Z) : Prop :=
  (∀ b, B b → b = buf) ∨ bv_last_avail w + chunks n <= bv_num w - 1.

Lemma one_place_here B w buf n b :
  one_place B w buf n → 0 < n → B b → (bv_last_avail w < bv_num w - 1 → b = buf) → b = buf.
Proof. intros [HB|Hroom] Hn Hb Hearly; [by apply HB|]. apply Hearly. unfold chunks in Hroom. zlia. Qed.

Lemma one_place_after B w buf n img :
  0 <= bv_last_avail w → bv_num w <= 2 ^ 15 → 0 < n →
  one_place B w buf n → one_place B (view_after w img) buf (n - 8).
Proof.
  intros Hlast Hnum Hn [HB|Hroom]; [by left|right]. unfold chunks in *. cbn.
  rewrite wrap_small by zlia. zlia.
Qed.

(** The rest of a request, from [filled] on: it runs out of fuel or delivers
    what is missing, and does the latter when the fuel is enough. *)
Definition loop_outcome (B : Z → Prop) (buf length filled : Z) (fuel : nat) (out : list byte) (m : memory) (d d' : D)
    (r : outcome (list byte)) : Prop :=
  (r = Stop Hang ∧ (length <= 2 ^ 64 - 8 → filled + 8 * Z.of_nat fuel < length)) ∨
  ∃ rest answers, r = Done (out ++ rest) ∧ zlen rest = Z.max 0 (length - filled) ∧
    chains_served host d answers d' ∧ Forall (λ a, zlen a <= 8) answers ∧
    zlen answers = chunks (length - filled) ∧
    (one_place B (side host 0 d) buf (length - filled) → rest = delivered (length - filled) (load m buf 8) answers).

(** Either nothing has been done or every entry of the ring names a
    descriptor that has been filled in. *)
Definition loop_queue (B : Z → Prop) (m m' : memory) (d d' : D) (v v' : vring) : Prop :=
  (m' = m ∧ d' = d ∧ v' = v) ∨
  (desc v' = desc v ∧ num v' = num v ∧
   ∀ next, 0 <= next < num v - 1 → queue_open B (side host 0 d') m' v' next).

Lemma loop_outcome_step B buf length filled fuel out m d m1 d1 d' b r :
  0 <= filled < length → filled + 8 < 2 ^ 64 → B b → 0 <= bv_last_avail (side host 0 d) → bv_num (side host 0 d) <= 2 ^ 15 →
  (bv_last_avail (side host 0 d) < bv_num (side host 0 d) - 1 → b = buf) →
  side host 0 d1 = view_after (side host 0 d) (bv_image (side host 0 d)) →
  zlen (answer host 0 d 8) <= 8 → load m1 b 8 = splice (load m b 8) 0 (answer host 0 d 8) →
  let amt := if length - filled <? 8 then length - filled else 8 in
  loop_outcome B buf length (filled + 8) fuel (out ++ load m1 buf amt) m1 d1 d' r →
  loop_outcome B buf length filled (S fuel) out m d d' r.
Proof.
  intros Hfilled Hwrap Hb Hlast Hnum Hearly Hside Hans Hload amt
    [[-> Hfuel]|(rest & answers & -> & Hz & Hserved & Hall & Hlen & Hrest)].
  { left. split; [done|]. intros Hl. specialize (Hfuel Hl). lia. }
  right. exists (load m1 buf amt ++ rest), (answer host 0 d 8 :: answers). split; [by rewrite app_assoc|].
  assert (0 <= amt <= 8) by (unfold amt; destruct (Z.ltb_spec (length - filled) 8); lia). split; [|split; [|split; [|split]]].
  - rewrite zlen_app, zlen_load, Hz by lia. unfold amt. destruct (Z.ltb_spec (length - filled) 8); lia.
  - by eapply served_one.
  - by constructor.
  - change (Z.of_nat (S (List.length answers)) = chunks (length - filled)). unfold zlen, chunks in *. zlia.
  - intros Hplace. cbn [delivered]. fold amt. rewrite (one_place_here B (side host 0 d) buf (length - filled) b) in Hload; try done; [|lia].
    rewrite <-Hload, slice_load_front by lia. f_equal.
    rewrite Hrest; [f_equal; lia|]. rewrite Hside. replace (length - (filled + 8)) with (length - filled - 8) by lia.
    apply one_place_after; (done || lia).
Qed.

Lemma randomness_loop_spec B buf length fuel m d v p next filled out :
  0 <= length < 2 ^ 64 → 0 <= filled → filled mod 8 = 0 → filled + 8 * Z.of_nat fuel <= 2 ^ 64 →
  queue_open B (side host 0 d) m v next → has_queue host 0 d → B buf →
  (∀ b, B b → 0 <= b ∧ b + 8 <= 2 ^ 64 ∧ queue_apart (desc v) (num v) b 8) →
  ∃ r m' d' v', randomness_loop fuel dn buf length filled next out (st m d v p) = (r, st m' d' v' p) ∧
    loop_queue B m m' d d' v v' ∧ has_queue host 0 d' ∧
    request_kept B v m m' d d' ∧ loop_outcome B buf length filled fuel out m d d' r.
Proof using Hdrv Hvr.
  intros Hlen Hfilled Hmod Hfuel Hopen Hhas Hbuf HB.
  revert m d v next filled out Hfilled Hmod Hfuel Hopen Hhas HB.
  induction fuel as [|fuel IH]; intros m d v next filled out Hfilled Hmod Hfuel Hopen Hhas HB;
    cbn [randomness_loop]; destruct (Z.ltb_spec filled length) as [Hless|Hdone].
  1: { exists (Stop Hang), m, d, v. split_and!; [done|by left|done|apply request_kept_refl|].
       left. split; [done|]. lia. }
  1, 3: exists (Done out), m, d, v; split_and!; [done|by left|done|apply request_kept_refl|];
      right; exists [], []; (split; [by rewrite app_nil_r|]); (split; [rewrite zlen_nil; lia|]);
      (split; [constructor|]); (split; [done|]); (split; [|done]); unfold chunks; rewrite zlen_nil; zlia.
  set (amt := if u64 (length - filled) <? CHUNK_SIZE then u64 (length - filled) else CHUNK_SIZE).
  assert (amt = if length - filled <? 8 then length - filled else 8) as Hamt
    by (unfold amt, CHUNK_SIZE; by rewrite wrap_small by lia).
  destruct (chunk_posted B (side host 0 d) m v next buf Hopen HB Hbuf) as (h & b & Hb & Hh & Hposted & Hearly).
  destruct (chunk_run dn 0 s0 drv vr0 Hdrv Hvr B m d v p next buf h b
    (λ next', chunk ← internal_memcpy (Z.to_nat amt) buf;
       randomness_loop fuel dn buf length (u64 (filled + CHUNK_SIZE)) next' (out ++ chunk)) Hopen Hhas Hbuf HB
    Hb Hh Hposted) as (m1 & d1 & id & Hrun & Hopen1 & Hhas1 & Hview1 & Hoth1 & Hside1 & Hans & Hload & Hmem1).
  change (Z.of_nat 0) with 0 in *. set (v1 := chunk_vring v next id) in *.
  assert (request_kept B v m m1 d d1) as Hkept1.
  { split; try done; [by rewrite Hside1|]. intros a n Ha Hbs. apply Hmem1; [done|by apply Hbs]. }
  unfold CHUNK_SIZE in Hrun |- *. rewrite Hrun. clear Hrun.
  assert (0 <= amt) as Hamt0 by (rewrite Hamt; destruct (Z.ltb_spec (length - filled) 8); lia).
  erewrite bind_done by (by apply internal_memcpy_loads). cbn [mem QueueState.st].
  assert (0 <= next_after v < num v - 1) as Hnext
    by (destruct Hopen as [[_ ?] _ _ _ _ _ _ _]; apply Z.mod_pos_bound; lia).
  destruct (decide (filled + 8 = 2 ^ 64)) as [Hwrap|Hwrap].
  - assert (fuel = 0%nat) as -> by lia. cbn [randomness_loop]. rewrite Hwrap. change (u64 (2 ^ 64)) with 0.
    replace (0 <? length) with true by lia. exists (Stop Hang), m1, d1, v1.
    split_and!; [done|right; split_and!; done|done|done|]. left. split; [done|]. lia.
  - assert (filled + 8 < 2 ^ 64) as Hlt by zlia. rewrite wrap_small by lia.
    destruct (IH m1 d1 v1 (next_after v) (filled + 8) (out ++ load m1 buf amt))
      as (r & m2 & d2 & v2 & Hrun2 & Hq2 & Hhas2 & Hkept2 & Hout2); [lia|zlia|lia|by apply Hopen1|done|done|].
    exists r, m2, d2, v2. split_and!; [done| |done|by apply (request_kept_trans B v v1 m m1 m2 d d1 d2)|].
    + right. destruct Hq2 as [(-> & -> & ->)|(Hd2 & Hn2 & Hq2)]; split_and!; done.
    + rewrite Hamt in Hout2. destruct Hopen as [[Hnw Hn] _ _ _ _ [Hlast Hpos] _ _].
      rewrite Hnw in Hearly, Hn. eapply loop_outcome_step; try done; [lia|apply Hn].
Qed.
End request.

Section randomness.
Context {D : Type} `{!Platform D} `{!VirtioBlk D} `{!VirtioChain D}.
Implicit Types s : machine D.

(** The entropy driver is up; its queue may have served any number of chunks
    in buffers of [B]. *)
Record entropy_ready (B : Z → Prop) s (drv : virtio_driver) (v : vring) : Prop := {
  ent_drv : virtio_drivers s !! ENTROPY_DRIVER = Some drv;
  ent_vr : vrings drv !! 0%nat = Some v;
  ent_up : initialized drv = true;
  ent_has : has_queue (host drv) 0 (dev s);
  ent_queue : queue_open B (side (host drv) 0 (dev s)) (mem s) v (descr_next (bookeeping v));
  ent_buffers : ∀ b, B b → 0 <= b ∧ b + 8 <= 2 ^ 64 ∧ queue_apart (desc v) (num v) b 8;
}.

(** What a request returns. *)
Definition random_outcome (B : Z → Prop) s s' (drv : virtio_driver) (n : Z) (bytes : list byte) : Prop :=
  zlen bytes = n ∧ ∃ answers,
    chains_served (host drv) (dev s) answers (dev s') ∧ Forall (λ a, zlen a <= 8) answers ∧ zlen answers = chunks n ∧
    (one_place B (side (host drv) 0 (dev s)) (sp s - 8) n → bytes = delivered n (zeros 8) answers).

Lemma queue_open_store B w m v next a bs :
  queue_open B w m v next → queue_apart (desc v) (num v) a (zlen bs) → queue_open B w (store m a bs) v next.
Proof.
  intros [[? Hn] [? Hq] Ha Hu Hnx [? ?] Hlast Hring] Hap.
  destruct (queue_places (desc v) (num v)) as (Hav & Hus & Hend); [lia|].
  assert (∀ x k, desc v <= x → x + Z.of_nat k <= queue_end (desc v) (num v) →
    load_le (store m a bs) x k = load_le m x k) as Hsame.
  { intros x k Hx Hk. unfold queue_apart in Hap. apply load_le_store_other. lia. }
  split; try done.
  - rewrite Hlast, Hsame by lia. done.
  - intros i Hi. rewrite Hsame by lia. destruct (Hring i Hi) as [Hh Hcase]. split; [done|].
    destruct Hcase as [Heq|(b & Hb & Hd)]; [by left|]. right. exists b. split; [done|].
    pose proof (load_le_range m (avail v + 4 + 2 * i) 2). unfold desc_is in *. rewrite !Hsame by lia. done.
Qed.

Lemma randomness_request B s drv v n :
  entropy_ready B s drv v → B (sp s - 8) → 0 <= n <= 2 ^ 64 - 8 →
  ∃ bytes m' d' v', let s' := QueueState.st ENTROPY_DRIVER 0 s drv m' d' v' (sp s) in
    virtio_get_randomness n s = (Done (n, bytes), s') ∧
    random_outcome B s s' drv n bytes ∧
    desc v' = desc v ∧ num v' = num v ∧ has_queue (host drv) 0 d' ∧
    queue_open B (side (host drv) 0 d') m' v' (descr_next (bookeeping v')) ∧
    request_kept drv B v (mem s) m' (dev s) d'.
Proof.
  intros [Hdrv Hvr Hup Hhas Hq HB] Hbuf Hn. set (buf := sp s - 8) in *.
  destruct (HB buf Hbuf) as (? & ? & Hap).
  set (m0 := store (mem s) buf (zeros 8)).
  assert (load m0 buf 8 = zeros 8) as Hzero by apply (load_store_same (mem s) buf (zeros 8)).
  destruct (randomness_loop_spec ENTROPY_DRIVER s drv v Hdrv Hvr B buf n (Z.to_nat (n / CHUNK_SIZE + 1)) m0 (dev s) v
    buf (descr_next (bookeeping v)) 0 []) as (r & m' & d' & v' & Hrun & Hloop & Hhas' & Hkept & Hout);
    [lia|done|done|unfold CHUNK_SIZE; zlia|by apply queue_open_store|done|done|done|].
  destruct Hout as [[_ Hfuel]|(rest & answers & -> & Hz & Hserved & Hall & Hcount & Hrest)]; [unfold CHUNK_SIZE in Hfuel; zlia|].
  exists rest, m', d', v'. split; [|split; [|split; [|split; [|split; [done|split]]]]].
  - unfold virtio_get_randomness. change (find_virtio_driver 5) with (Some ENTROPY_DRIVER).
    unfold get_driver. rewrite bind_assoc. run. rewrite Hdrv. run. rewrite Hup. cbn [negb].
    rewrite (st_init ENTROPY_DRIVER 0 s drv v Hdrv Hvr) at 1. apply (with_frame_st ENTROPY_DRIVER 0 s drv).
    change (sp s - CHUNK_SIZE) with buf. run. change (set_mem _ _) with (QueueState.st ENTROPY_DRIVER 0 s drv m0 (dev s) v buf).
    unfold vring_use_descr. rewrite bind_assoc. run_with (get_vring_st ENTROPY_DRIVER 0 s drv v Hdrv Hvr m0 (dev s) v buf).
    run. run_with Hrun. done.
  - split; [rewrite Hz; lia|]. rewrite Z.sub_0_r, Hzero in *. exists answers. split_and!; done.
  - by destruct Hloop as [(_ & _ & ->)|(? & ? & _)].
  - by destruct Hloop as [(_ & _ & ->)|(? & ? & _)].
  - destruct Hloop as [(-> & -> & ->)|(Hd & Hnum & Hopen)]; [by apply queue_open_store|].
    assert (0 <= descr_next (bookeeping v') < num v - 1) as Hr.
    { destruct (Hopen 0) as [? ? ? ? [? _] _ _ _]; [destruct Hq as [[? ?] _ _ _ _ _ _ _]; lia|]. lia. }
    by apply Hopen.
  - destruct Hkept as [H1 H2 H3 H4]. split; try done. intros a l Ha Hl. rewrite H4 by done.
    apply load_store_other. change (zlen (zeros 8)) with 8. specialize (Hl buf Hbuf). lia.
Qed.

(** C33.  Where the driver's place in the ring (modulo [num - 1]) is not the one the
    device looks at (modulo [num]), the device finds an entry of an earlier
    request and fills the buffer of that request, which its owner has long
    given up: the caller is told that 8 bytes have been delivered, and they
    are zeros whatever the device had to say. *)
Theorem randomness_misdelivered B s drv v h b :
  entropy_ready B s drv v → B (sp s - 8) → B b → b + 8 <= sp s - 8 ∨ sp s <= b →
  let i := avail_next (bookeeping v) in
  i mod num v ≠ i mod (num v - 1) →
  load_le (mem s) (avail v + 4 + 2 * (i mod num v)) 2 = h → h ≠ descr_next (bookeeping v) →
  desc_is (mem s) (desc v) h b 8 2 0 →
  ∃ s', virtio_get_randomness 8 s = (Done (8, zeros 8), s') ∧
    load (mem s') b 8 = splice (load (mem s) b 8) 0 (answer (host drv) 0 (dev s) 8).
Proof.
  intros [Hdrv Hvr Hup Hhas Hq HB] Hbuf Hb Hap i Hi Hh Hne Hdesc. set (buf := sp s - 8) in *.
  destruct (HB buf Hbuf) as (? & ? & Hbap), (HB b Hb) as (? & ? & Hoap).
  set (m0 := store (mem s) buf (zeros 8)).
  assert (∀ a n, queue_end (desc v) (num v) <= buf ∨ buf + 8 <= desc v → desc v <= a →
    a + Z.of_nat n <= queue_end (desc v) (num v) → load_le m0 a n = load_le (mem s) a n) as Hm0.
  { intros a n Hbq Ha Hn. apply load_le_store_other. change (zlen (zeros 8)) with 8. lia. }
  assert (queue_open B (side (host drv) 0 (dev s)) m0 v (descr_next (bookeeping v))) as Hq0
    by (by apply queue_open_store).
  pose proof Hq as [[Hnw Hn] [_ Hqz] Hav _ [_ Hnext] [Hlast _] _ Hring].
  destruct (queue_places (desc v) (num v)) as (Hplace & Hus & Hend); [lia|].
  assert (0 <= i mod num v < num v) as Him by (apply Z.mod_pos_bound; lia).
  assert (0 <= h < num v) as Hhn.
  { pose proof (load_le_range (mem s) (avail v + 4 + 2 * (i mod num v)) 2). destruct (Hring _ Him). lia. }
  destruct (chunk_run ENTROPY_DRIVER 0 s drv v Hdrv Hvr B m0 (dev s) v buf (descr_next (bookeeping v)) buf h b
    (λ next', chunk ← internal_memcpy 8 buf; randomness_loop 1 ENTROPY_DRIVER buf 8 8 next' chunk) Hq0 Hhas Hbuf HB Hb Hhn)
    as (m1 & d1 & id & Hrun & _ & _ & _ & _ & _ & Hz & Hload & Hmem).
  { change (Z.of_nat 0) with 0. apply (chunk_posted_at B); [done..| |].
    - rewrite <-Hlast. rewrite (chunk_slot B (side (host drv) 0 (dev s))) by done. fold i.
      rewrite Hm0; [done|unfold queue_apart in Hbap; lia|lia|lia].
    - apply (chunk_desc B (side (host drv) 0 (dev s))); try done. unfold desc_is in *.
      unfold queue_apart in Hbap. rewrite !Hm0 by lia. done. }
  change (Z.of_nat 0) with 0 in *. exists (QueueState.st ENTROPY_DRIVER 0 s drv m1 d1 (chunk_vring v (descr_next (bookeeping v)) id) (sp s)).
  split.
  - unfold virtio_get_randomness. change (find_virtio_driver 5) with (Some ENTROPY_DRIVER).
    unfold get_driver. rewrite bind_assoc. run. rewrite Hdrv. run. rewrite Hup. cbn [negb].
    rewrite (st_init ENTROPY_DRIVER 0 s drv v Hdrv Hvr) at 1. apply (with_frame_st ENTROPY_DRIVER 0 s drv).
    change (sp s - CHUNK_SIZE) with buf. run. change (set_mem _ _) with (QueueState.st ENTROPY_DRIVER 0 s drv m0 (dev s) v buf).
    unfold vring_use_descr. rewrite bind_assoc. run_with (get_vring_st ENTROPY_DRIVER 0 s drv v Hdrv Hvr m0 (dev s) v buf).
    run. change (Z.to_nat (8 / CHUNK_SIZE + 1)) with 2%nat.
    erewrite bind_done; [reflexivity|]. etransitivity; [exact Hrun|]. erewrite bind_done by (apply (internal_memcpy_loads 8); lia).
    cbn [randomness_loop Z.ltb Z.compare Pos.compare Pos.compare_cont]. run.
    cbn [mem QueueState.st]. rewrite Hmem by (done || lia). by rewrite (load_store_same (mem s) buf (zeros 8) : load m0 buf 8 = _).
  - cbn [mem QueueState.st]. rewrite Hload. f_equal. apply load_store_other. change (zlen (zeros 8)) with 8. lia.
Qed.
End randomness.
