(* ===== verification/MachineWorks.v ===== *)
(** * The whole machine: disk, console and source of randomness

    [machine_works] is what the drivers establish at boot and every operation
    on the machine keeps: all three queues are in order and apart from each
    other, from the heap and from [room] bytes of stack.  With it the machine
    satisfies the contract of a block device and the laws on which the
    invariant of the system rests. *)

From S2P Require Import Prelude Programs Layout Ecall Memory Machine Heap HeapTheorems Vring QueueState Blk BlkVring Chain VirtioDriver Ext2 Ext2File Invariants Io IoTheorems Board ChainTheorems Randomness.

Section works.
Context {D : Type} `{!Platform D} `{!VirtioBlk D} `{!VirtioChain D} `{!Linker}.
Implicit Types s : machine D.

Definition queues_apart (v v' : vring) : Prop :=
  queue_end (desc v) (num v) <= desc v' ∨ queue_end (desc v') (num v') <= desc v.

(** Queue [v] is apart from the heap and from the stack. *)
Definition queue_placed (room : Z) s (v : vring) : Prop :=
  queue_apart (desc v) (num v) (sp s - room) room ∧
  queue_apart (desc v) (num v) (heap_start (the_heap s)) (heap_end (the_heap s) - heap_start (the_heap s)).

(** The queues are in the forever storage; an area for a chunk, the [room]
    bytes of stack below [p], and the heap are no part of it. *)
Definition in_storage (v : vring) : Prop :=
  _forever_storage_start <= desc v ∧ queue_end (desc v) (num v) <= _forever_storage_stop.
Definition off_storage (b : Z) : Prop :=
  0 <= b ∧ b + 8 <= 2 ^ 64 ∧ (b + 8 <= _forever_storage_start ∨ _forever_storage_stop <= b).
Definition storage_apart (a n : Z) : Prop := a + n <= _forever_storage_start ∨ _forever_storage_stop <= a.
Definition stack_ok (room p : Z) : Prop :=
  1024 <= room < 2 ^ 32 ∧ room <= p < 2 ^ 64 ∧ (p <= _forever_storage_start ∨ _forever_storage_stop <= p - room).
Definition heap_ok (h : heap) : Prop :=
  heap_laid_out h ∧ (heap_end h <= _forever_storage_start ∨ _forever_storage_stop <= heap_start h).

(** [B]: where the chunks of the requests for randomness have been. *)
Record machine_up (B : Z → Prop) (room : Z) s (bdrv : virtio_driver) (bv : vring)
    (cdrv : virtio_driver) (cv : vring) (edrv : virtio_driver) (ev : vring) : Prop := {
  mu_disk : machine_ready s bdrv bv;
  mu_console : side_ready s CONSOLE_DRIVER 1 cdrv cv;
  mu_entropy : entropy_ready B s edrv ev;
  mu_room : stack_ok room (sp s) ∧ heap_ok (the_heap s);
  mu_placed : in_storage bv ∧ in_storage cv ∧ in_storage ev;
  mu_apart : queues_apart cv bv ∧ queues_apart ev bv ∧ queues_apart ev cv;
  mu_buffers : B (sp s - 8) ∧ ∀ b, B b → off_storage b;
}.

Definition machine_works (B : Z → Prop) (room : Z) s : Prop :=
  ∃ bdrv bv cdrv cv edrv ev, machine_up B room s bdrv bv cdrv cv edrv ev.

Lemma storage_placed room s v :
  stack_ok room (sp s) → heap_ok (the_heap s) → in_storage v → queue_placed room s v.
Proof. intros (? & ? & ?) [_ ?] [? ?]. split; unfold queue_apart; lia. Qed.

Lemma off_storage_apart v b : in_storage v → off_storage b → queue_apart (desc v) (num v) b 8.
Proof. unfold in_storage, off_storage, queue_apart. lia. Qed.

Lemma placed_side room s v bv :
  stack_ok room (sp s) → queue_placed room s v → queue_placed room s bv →
  queues_apart v bv → side_placed s v bv room.
Proof. intros (Hr & Hsp & _) [Hv _] [Hb _] Hap. split; (done || lia). Qed.

(** Where everything is. *)
Lemma machine_up_places B room s bdrv bv cdrv cv edrv ev :
  machine_up B room s bdrv bv cdrv cv edrv ev →
  queue_placed room s bv ∧ queue_placed room s cv ∧ queue_placed room s ev ∧
  ∀ b, B b → queue_apart (desc bv) (num bv) b 8 ∧ queue_apart (desc cv) (num cv) b 8.
Proof.
  intros [_ _ _ [Hst Hh] (Hb & Hc & He) _ [_ HB]]. split_and!; try by apply storage_placed.
  intros b Hoff%HB. split; by apply off_storage_apart.
Qed.

Lemma machine_up_works B room s bdrv bv cdrv cv edrv ev :
  machine_up B room s bdrv bv cdrv cv edrv ev → side_works room CONSOLE_DRIVER 1 s.
Proof.
  intros Hup. destruct (machine_up_places _ _ _ _ _ _ _ _ _ Hup) as (Hb & Hcv & _).
  destruct Hup as [Hd Hc _ [Hst _] _ (Hap & _) _]. exists cdrv, cv, bdrv, bv. split_and!; try done. by apply placed_side.
Qed.

(** More buffers may be allowed for. *)
Lemma works_mono (B B' : Z → Prop) room s :
  (∀ b, B b → B' b) → (∀ b, B' b → off_storage b) → machine_works B room s → machine_works B' room s.
Proof.
  intros HBB HB' (bdrv & bv & cdrv & cv & edrv & ev & [Hd Hc He Hst (Hpb & Hpc & Hpe) Hap [HB _]]).
  exists bdrv, bv, cdrv, cv, edrv, ev. split; try done; [|by auto].
  destruct He as [H1 H2 H3 H4 [Hn Hq Ha Hu Hnx Hpos Hlast Hring] _]. split; try done.
  - split; try done. intros i Hi. destruct (Hring i Hi) as [Hh Hcase]. split; [done|].
    destruct Hcase as [Heq|(b & Hb & Hdesc)]; [by left|]. right. exists b. by auto.
  - intros b Hb%HB'. split_and!; [apply Hb..|]. by apply off_storage_apart.
Qed.

(** *** What a request leaves alone stays in order *)

Section kept.
Context (B : Z → Prop) (s s' : machine D).

Lemma side_kept i j drv v :
  side_ready s i j drv v → virtio_drivers s' !! i = virtio_drivers s !! i →
  (has_queue (host drv) (Z.of_nat j) (dev s) →
     side (host drv) (Z.of_nat j) (dev s') = side (host drv) (Z.of_nat j) (dev s) ∧
     has_queue (host drv) (Z.of_nat j) (dev s')) →
  (∀ a n, desc v <= a → a + n <= queue_end (desc v) (num v) → load (mem s') a n = load (mem s) a n) →
  side_ready s' i j drv v.
Proof.
  intros [[Hdrv Hi] Hv Hup Hhas Hq] Hd Hs Hm. destruct (Hs Hhas) as [Hside Hhas'].
  split; rewrite ?Hd, ?Hside; try done. by apply (queue_idle_same _ (mem s)).
Qed.

Lemma queue_open_same w m m' v next :
  queue_open B w m v next →
  (∀ a n, desc v <= a → a + n <= queue_end (desc v) (num v) → load m' a n = load m a n) →
  queue_open B w m' v next.
Proof.
  intros [[? Hn] [? Hq] Ha Hu Hnx [? ?] Hlast Hring] Hm.
  destruct (queue_places (desc v) (num v)) as (Hav & Hus & Hend); [lia|].
  assert (∀ x k, desc v <= x → x + Z.of_nat k <= queue_end (desc v) (num v) → load_le m' x k = load_le m x k) as Hsame
    by (intros x k Hx Hk; unfold load_le; by rewrite Hm).
  split; try done.
  - rewrite Hlast, Hsame by lia. done.
  - intros i Hi. rewrite Hsame by lia. destruct (Hring i Hi) as [Hh Hcase]. split; [done|].
    destruct Hcase as [Heq|(b & Hb & Hd)]; [by left|]. right. exists b. split; [done|].
    pose proof (load_le_range m (avail v + 4 + 2 * i) 2). unfold desc_is in *. rewrite !Hsame by lia. done.
Qed.

Lemma entropy_kept drv v :
  entropy_ready B s drv v → virtio_drivers s' !! ENTROPY_DRIVER = virtio_drivers s !! ENTROPY_DRIVER →
  (has_queue (host drv) 0 (dev s) →
     side (host drv) 0 (dev s') = side (host drv) 0 (dev s) ∧ has_queue (host drv) 0 (dev s')) →
  (∀ a n, desc v <= a → a + n <= queue_end (desc v) (num v) → load (mem s') a n = load (mem s) a n) →
  entropy_ready B s' drv v.
Proof.
  intros [Hdrv Hv Hup Hhas Hq HB] Hd Hs Hm. destruct (Hs Hhas) as [Hside Hhas'].
  split; rewrite ?Hd, ?Hside; try done. by apply (queue_open_same _ (mem s)).
Qed.

Lemma disk_kept drv v :
  machine_ready s drv v → virtio_drivers s' !! BLK_DRIVER = virtio_drivers s !! BLK_DRIVER →
  view (dev s') = view (dev s) → sp s' = sp s →
  (∀ a n, desc v <= a → a + n <= queue_end (desc v) (num v) → load (mem s') a n = load (mem s) a n) →
  machine_ready s' drv v.
Proof.
  intros [Hdrv Hv Hh Him Hq Hsp] Hd Hview Hs Hm. split; rewrite ?Hd, ?Hview, ?Hs; try done.
  by apply (queue_idle_same _ (mem s)).
Qed.
End kept.

(** The bytes of a queue are apart from an area that is apart from the queue,
    and so is every part of it. *)
Lemma part_apart q n a len a' len' :
  queue_apart q n a len → a <= a' → a' + len' <= a + len → queue_apart q n a' len'.
Proof. unfold queue_apart. lia. Qed.

Lemma inside_apart v v' a n :
  queues_apart v v' → desc v <= a → a + n <= queue_end (desc v) (num v) → queue_apart (desc v') (num v') a n.
Proof. unfold queues_apart, queue_apart. lia. Qed.

Lemma queues_apart_sym v v' : queues_apart v v' → queues_apart v' v.
Proof. unfold queues_apart. tauto. Qed.

(** The geometry does not depend on where the rings stand. *)
Lemma in_storage_same v v' : desc v' = desc v → num v' = num v → in_storage v → in_storage v'.
Proof. unfold in_storage. intros -> ->. done. Qed.

Lemma queues_apart_same v v' w w' :
  desc v' = desc v → num v' = num v → desc w' = desc w → num w' = num w →
  queues_apart v w → queues_apart v' w'.
Proof. unfold queues_apart. intros -> -> -> ->. done. Qed.

Lemma lookup_vring s i j drv v drv' v' :
  virtio_drivers s !! i = Some drv → vrings drv !! j = Some v →
  virtio_drivers s !! i = Some drv' → vrings drv' !! j = Some v' → drv' = drv ∧ v' = v.
Proof. intros -> Hv [= <-] Hv'. rewrite Hv in Hv'. by injection Hv'. Qed.

(** ** The operations *)

(** Output on the console. *)
Lemma works_transmit B room s buf :
  machine_works B room s → zlen buf <= room →
  ∃ s', console_transmit buf s = (Done tt, s') ∧ machine_works B room s' ∧ image s' = image s ∧
    transcript CONSOLE_DRIVER 1 s' = transcript CONSOLE_DRIVER 1 s ++ buf ∧ sp s' = sp s ∧
    the_heap s' = the_heap s ∧
    ∀ a l, storage_apart a l → a + l <= sp s - room ∨ sp s <= a → load (mem s') a l = load (mem s) a l.
Proof.
  intros (bdrv & bv & cdrv & cv & edrv & ev & Hup) Hbuf.
  destruct (console_transmit_spec room s buf (machine_up_works _ _ _ _ _ _ _ _ _ Hup) Hbuf)
    as (s' & Hrun & Hs' & Him & Htr & Hsp & Hheap & Hothers & Hown).
  exists s'. split; [done|]. pose proof (zlen_nonneg buf).
  destruct (machine_up_places _ _ _ _ _ _ _ _ _ Hup) as (Hqb & Hqc & Hqe & Hbufs).
  destruct Hup as [Hd Hc He [Hst Hh] (Hpb & Hpc & Hpe) (Hcb & Heb & Hec) [HB HBs]].
  destruct Hc as [[Hcd Hne] Hcv Hcup Hchas Hcq].
  destruct (Hown cdrv cv Hcd Hcv) as ((drv' & v' & Hd' & Hv' & Hdesc & Hnum & Hhost) & Hkept & Hview & Hmem).
  destruct Hs' as (cdrv' & cv' & bdrv' & bv' & Hc' & _ & _).
  destruct (lookup_vring _ _ _ _ _ _ _ (proj1 (side_drv _ _ _ _ _ Hc')) (side_vr _ _ _ _ _ Hc') Hd' Hv') as [-> ->].
  assert (∀ v a n, queues_apart v cv → queue_placed room s v →
    desc v <= a → a + n <= queue_end (desc v) (num v) → load (mem s') a n = load (mem s) a n) as Hq.
  { intros v a n Hap [Hstk _] Ha Hn. apply Hmem; [by apply (inside_apart v)|]. unfold queue_apart in Hstk. lia. }
  split; [|do 4 (split; [done|]); intros a l Ha ?; apply Hmem; [|lia];
    unfold queue_apart, in_storage, storage_apart in *; lia].
  exists bdrv, bv, cdrv', cv', edrv, ev. split.
  - apply (disk_kept s); try done; [by apply Hothers|]. intros a n. apply Hq; [by apply queues_apart_sym|done].
  - done.
  - apply (entropy_kept _ s); try done; [by apply Hothers|by apply Hkept|]. intros a n. by apply Hq.
  - by rewrite Hsp, Hheap.
  - split_and!; (done || by eapply in_storage_same).
  - split_and!; (done || by eapply queues_apart_same).
  - by rewrite Hsp.
Qed.

(** A request for randomness. *)
Lemma works_randomness B room s n :
  machine_works B room s → 0 <= n <= 2 ^ 64 - 8 →
  ∃ drv bytes s', virtio_drivers s !! ENTROPY_DRIVER = Some drv ∧
    virtio_get_randomness n s = (Done (n, bytes), s') ∧ random_outcome B s s' drv n bytes ∧
    machine_works B room s' ∧ image s' = image s ∧
    transcript CONSOLE_DRIVER 1 s' = transcript CONSOLE_DRIVER 1 s ∧ sp s' = sp s ∧
    the_heap s' = the_heap s ∧
    ∀ a l, storage_apart a l → (∀ b, B b → a + l <= b ∨ b + 8 <= a) → load (mem s') a l = load (mem s) a l.
Proof.
  intros (bdrv & bv & cdrv & cv & edrv & ev & Hup) Hn.
  destruct (machine_up_places _ _ _ _ _ _ _ _ _ Hup) as (Hqb & Hqc & Hqe & Hbufs).
  destruct Hup as [Hd Hc He [Hst Hh] (Hpb & Hpc & Hpe) (Hcb & Heb & Hec) [HB HBs]].
  destruct (randomness_request B s edrv ev n He HB Hn)
    as (bytes & m' & d' & v' & Hrun & Hout & Hdesc & Hnum & Hhas & Hq & [Hview Hoth Himg Hmem]).
  set (s' := QueueState.st _ _ _ _ _ _ _ _) in Hrun.
  destruct He as [Hed Hev Heup Hehas Heq HeB].
  assert (∀ k, k ≠ ENTROPY_DRIVER → virtio_drivers s' !! k = virtio_drivers s !! k) as Hothers
    by (intros k ?; by apply list_lookup_insert_ne).
  assert (virtio_drivers s' !! ENTROPY_DRIVER = Some (drv_with 0 edrv v')) as Hed'
    by (apply list_lookup_insert_eq; by apply lookup_lt_Some in Hed).
  assert (∀ v a n, queues_apart v ev → (∀ b, B b → queue_apart (desc v) (num v) b 8) →
    desc v <= a → a + n <= queue_end (desc v) (num v) → load m' a n = load (mem s) a n) as Hkeep.
  { intros v a l Hap HBv Ha Hl. apply Hmem; [by apply (inside_apart v)|]. intros b Hb.
    specialize (HBv b Hb). unfold queue_apart in HBv. lia. }
  destruct (Hoth (host cdrv) 1 ltac:(congruence) (side_has _ _ _ _ _ Hc)) as [Hcside _].
  exists edrv, bytes, s'. split_and!; try done.
  - exists bdrv, bv, cdrv, cv, (drv_with 0 edrv v'), v'. split.
    + apply (disk_kept s); try done; [by apply Hothers|]. intros a l. apply Hkeep; [by apply queues_apart_sym|].
      intros b Hb. by apply Hbufs.
    + apply (side_kept s); try done; [by apply Hothers|by apply Hoth|]. intros a l.
      apply Hkeep; [by apply queues_apart_sym|]. intros b Hb. by apply Hbufs.
    + split; try done; [cbn; apply list_lookup_insert_eq; by apply lookup_lt_Some in Hev|by rewrite Hdesc, Hnum].
    + done.
    + split_and!; (done || by eapply in_storage_same).
    + split_and!; (done || by eapply queues_apart_same).
    + done.
  - cbn. by rewrite Hview.
  - unfold transcript. rewrite Hothers by done. rewrite (proj1 (side_drv _ _ _ _ _ Hc)).
    unfold received. cbn [dev QueueState.st s']. change (Z.of_nat 1) with 1. by rewrite Hcside.
  - intros a l Ha Hbs. apply Hmem; [|done]. unfold queue_apart, in_storage, storage_apart in *. lia.
Qed.

(** A request to the disk, of either kind. *)
Lemma works_request B room s s' :
  machine_works B room s → blk_ready s' → disk_beside s s' →
  machine_works B room s' ∧ transcript CONSOLE_DRIVER 1 s' = transcript CONSOLE_DRIVER 1 s.
Proof.
  intros (bdrv & bv & cdrv & cv & edrv & ev & Hup) (bdrv' & bv' & Hd')
    (Hsp & Hheap & Hothers & (m & op & sector & hdr & data & status & head & k & Hposted & Hdev) & Hview & Hown).
  destruct (machine_up_places _ _ _ _ _ _ _ _ _ Hup) as (Hqb & Hqc & Hqe & Hbufs).
  destruct Hup as [Hd Hc He [Hst Hh] (Hpb & Hpc & Hpe) (Hcb & Heb & Hec) [HB HBs]].
  destruct (Hown bdrv bv (ready_drv _ _ _ Hd) (ready_vr _ _ _ Hd)) as ((drv & v & Hdrv & Hv & Hdesc & Hnum) & Hmem).
  destruct (lookup_vring _ _ _ _ _ _ _ (ready_drv _ _ _ Hd') (ready_vr _ _ _ Hd') Hdrv Hv) as [-> ->].
  rewrite Hdev in Hview.
  pose proof (serves_beside (dev s) m op sector hdr data status head k Hposted Hview) as Hside.
  cbn zeta in Hside. rewrite <-Hdev in Hside.
  assert (∀ v a n, queues_apart v bv → queue_placed room s v →
    desc v <= a → a + n <= queue_end (desc v) (num v) → load (mem s') a n = load (mem s) a n) as Hkeep.
  { intros w a n Hap [Hstk _] Ha Hn. apply Hmem; [by apply (inside_apart w)|]. unfold queue_apart, stack_ok in *. lia. }
  split.
  - exists bdrv', bv', cdrv, cv, edrv, ev. split.
    + done.
    + apply (side_kept s); try done; [by apply Hothers|by apply Hside|]. intros a n. by apply Hkeep.
    + apply (entropy_kept _ s); try done; [by apply Hothers|by apply Hside|]. intros a n. by apply Hkeep.
    + by rewrite Hsp, Hheap.
    + split_and!; (done || by eapply in_storage_same).
    + split_and!; (done || by eapply queues_apart_same).
    + by rewrite Hsp.
  - unfold transcript. rewrite Hothers by done. rewrite (proj1 (side_drv _ _ _ _ _ Hc)).
    unfold received. by rewrite (proj1 (Hside _ _ (side_has _ _ _ _ _ Hc))).
Qed.

(** What is done outside of the storage, to the firmware's console, or by a
    look at a register. *)
Lemma works_elsewhere B room s s' :
  machine_works B room s → virtio_drivers s' = virtio_drivers s → sp s' = sp s → the_heap s' = the_heap s →
  view (dev s') = view (dev s) →
  (∀ h q, side h q (dev s') = side h q (dev s) ∧ (has_queue h q (dev s) → has_queue h q (dev s'))) →
  (∀ a n, _forever_storage_start <= a → a + n <= _forever_storage_stop → load (mem s') a n = load (mem s) a n) →
  machine_works B room s' ∧ image s' = image s ∧
    transcript CONSOLE_DRIVER 1 s' = transcript CONSOLE_DRIVER 1 s.
Proof.
  intros (bdrv & bv & cdrv & cv & edrv & ev & Hup) Hds Hsp Hheap Hview Hside Hmem.
  destruct Hup as [Hd Hc He [Hst Hh] (Hpb & Hpc & Hpe) (Hcb & Heb & Hec) [HB HBs]].
  assert (∀ v a n, in_storage v → desc v <= a → a + n <= queue_end (desc v) (num v) → load (mem s') a n = load (mem s) a n)
    as Hkeep by (intros v a n [? ?] ? ?; apply Hmem; lia).
  split; [exists bdrv, bv, cdrv, cv, edrv, ev; split|split].
  - apply (disk_kept s); rewrite ?Hds; try done. intros a n. by apply Hkeep.
  - apply (side_kept s); rewrite ?Hds; try done; [|intros a n; by apply Hkeep]. intros _. split; [apply Hside|].
    by apply Hside, (side_has _ _ _ _ _ Hc).
  - apply (entropy_kept _ s); rewrite ?Hds; try done; [|intros a n; by apply Hkeep]. intros _. split; [apply Hside|].
    by apply Hside, (ent_has _ _ _ _ He).
  - by rewrite Hsp, Hheap.
  - split_and!; (done || by eapply in_storage_same).
  - done.
  - by rewrite Hsp.
  - cbn. by rewrite Hview.
  - unfold transcript. rewrite Hds. destruct (_ !! _); [|done]. unfold received. by rewrite (proj1 (Hside _ _)).
Qed.

(** The stack may be anywhere off the forever storage. *)
Lemma works_move B room s p :
  machine_works B room s → stack_ok room p → B (p - 8) → machine_works B room (set_sp p s).
Proof.
  intros (bdrv & bv & cdrv & cv & edrv & ev & Hup) Hp HBp.
  destruct Hup as [Hd Hc He [Hst Hh] (Hpb & Hpc & Hpe) (Hcb & Heb & Hec) [HB HBs]].
  exists bdrv, bv, cdrv, cv, edrv, ev. split; [|by destruct Hc; split|by destruct He; split|done..].
  destruct Hd as [H1 H2 H3 H4 H5 _]. split; [exact H1|exact H2|exact H3|exact H4|exact H5|].
  unfold stack_ok, in_storage, queue_apart in *. cbn. lia.
Qed.

Lemma works_store B room s a bs :
  machine_works B room s → storage_apart a (zlen bs) →
  let s' := set_mem (store (mem s) a bs) s in
  machine_works B room s' ∧ image s' = image s ∧ transcript CONSOLE_DRIVER 1 s' = transcript CONSOLE_DRIVER 1 s.
Proof.
  intros Hs Ha. apply works_elsewhere; try done. intros a' n ? ?. apply load_store_other. unfold storage_apart in Ha. lia.
Qed.

Lemma works_malloc B room s n :
  machine_works B room s →
  let s' := (malloc n s).2 in
  machine_works B room s' ∧ image s' = image s ∧ transcript CONSOLE_DRIVER 1 s' = transcript CONSOLE_DRIVER 1 s.
Proof.
  intros Hs s'. assert (heap_ok (the_heap s)) as [Hh Hap] by (by destruct Hs as (? & ? & ? & ? & ? & ? & [_ _ _ [_ ?] _ _ _])).
  pose proof (malloc_spec n s) as Hok. unfold s'. unfold malloc_ok in Hok. destruct (malloc n s) as [[p|f] s''].
  - destruct Hok as (x & _ & Hb & _ & ->). pose proof (block_inside _ _ _ Hh Hb). pose proof (laid_end _ Hh).
    pose proof (block_positive _ _ _ Hb). apply works_store; [done|]. rewrite zlen_le_split. unfold storage_apart. lia.
  - destruct Hok as (_ & [o ->] & _). by apply (works_elsewhere B room s).
Qed.

(** One of the largest blocks of the heap is free and apart from the stack:
    there is memory for the kernel. *)
Definition spare_block room s : Prop :=
  ∃ p, block (the_heap s) p 512 ∧ ¬ in_use (mem s) p ∧ (p <= sp s - room ∨ sp s < p).

Lemma spare_malloc room s n : spare_block room s → n < 512 → ∃ p, (malloc n s).1 = Done p.
Proof.
  intros (p & Hb & Hfree & _) Hn. pose proof (malloc_spec n s) as Hok. unfold malloc_ok in Hok.
  destruct (malloc n s) as [[q|f] s']; [by exists q|]. destruct Hok as (_ & _ & Hall). destruct Hfree. by apply (Hall p 512).
Qed.

Lemma spare_kept room s s' :
  spare_block room s → heap_laid_out (the_heap s) → the_heap s' = the_heap s → sp s' = sp s →
  (∀ a, heap_start (the_heap s) <= a < heap_end (the_heap s) → a + 1 <= sp s - room ∨ sp s <= a →
     load (mem s') a 1 = load (mem s) a 1) →
  spare_block room s'.
Proof.
  intros (p & Hb & Hfree & Hp) Hh Hheap Hsp Hm. exists p. rewrite Hheap, Hsp. split; [done|]. split; [|done].
  pose proof (block_inside _ _ _ Hh Hb). pose proof (laid_end _ Hh).
  unfold in_use, load_le in *. change (Z.of_nat 1) with 1 in *. by rewrite Hm by lia.
Qed.

Lemma works_heap_ok B room s : machine_works B room s → heap_ok (the_heap s).
Proof. by intros (? & ? & ? & ? & ? & ? & [_ _ _ [_ ?] _ _ _]). Qed.

(** *** The seed of the C library *)

(** A single chunk. *)
Lemma delivered_chunk (a : list byte) answers :
  zlen a <= 8 → zlen (delivered 8 (zeros 8) (a :: answers)) = 8 →
  delivered 8 (zeros 8) (a :: answers) = splice (zeros 8) 0 a.
Proof.
  intros Ha Hz. cbn [delivered Z.ltb Z.compare Pos.compare Pos.compare_cont] in *.
  pose proof (zlen_nonneg a). assert (zlen (splice (zeros 8) 0 a) = 8) as Hc by (rewrite zlen_splice; rewrite ?zlen_zeros; lia).
  rewrite (slice_all _) in * by lia. rewrite zlen_app, Hc in Hz. destruct (delivered _ _ _) as [|b l]; [apply app_nil_r|].
  unfold zlen in Hz. cbn in Hz. lia.
Qed.

Lemma works_dl_random B room s :
  machine_works B room s →
  ∃ drv seed s', virtio_drivers s !! ENTROPY_DRIVER = Some drv ∧ configure_dl_random s = (Done seed, s') ∧
    0 <= seed < 2 ^ 64 ∧
    ((∀ b, B b → b = sp s - 8) → zlen (answer (host drv) 0 (dev s) 8) <= 8 ∧
       seed = get_le (splice (zeros 8) 0 (answer (host drv) 0 (dev s) 8)) 0 8) ∧
    machine_works B room s' ∧ image s' = image s ∧
    transcript CONSOLE_DRIVER 1 s' = transcript CONSOLE_DRIVER 1 s ∧ sp s' = sp s ∧
    the_heap s' = the_heap s ∧
    ∀ a l, storage_apart a l → (∀ b, B b → a + l <= b ∨ b + 8 <= a) → load (mem s') a l = load (mem s) a l.
Proof.
  intros Hs. destruct (works_randomness B room s 8 Hs) as (drv & bytes & s' & Hdrv & Hrun & [Hz (answers & Hserved & Hall & Hcount & Hout)] & Hs'); [lia|].
  exists drv, (get_le bytes 0 8), s'. split; [done|]. split; [|split; [|split; [|done]]].
  - unfold configure_dl_random. run_with Hrun. cbn [Z.eqb Pos.eqb negb].
    rewrite splice_all; [done|]. by rewrite zlen_zeros.
  - apply get_le_range.
  - intros HB. rewrite Hout in * by by left. rewrite (served_single _ _ _ _ Hserved Hcount) in *.
    apply Forall_cons in Hall as [Ha _]. split; [done|]. by rewrite delivered_chunk.
Qed.
End works.
