(* ===== verification/DeviceBoot.v ===== *)
(** * Every device comes up ready, and stays so

    A device is up when its driver's queue is idle in the state of the
    device ([unit_up]).  Each initialiser brings its own device up and leaves
    those of the others up ([extends]); with [blk_boot_ready] this is what the
    scan of the bus needs. *)

From stdpp Require Import functions.
From S2P Require Import Prelude Layout Ecall Memory Machine Heap HeapTheorems Vring QueueState Blk BlkVring Chain VirtioDriver LegacyBus BringUp BlkBoot Ext2 Ext2File Io IoTheorems Board ChainTheorems.

Section units.
Context {D : Type} `{!Platform D} `{!VirtioBlk D} `{!VirtioChain D} `{!LegacyBus D} `{!Linker} `{!StaleVring}.
Implicit Types s : machine D.

Definition queue_view (c : Z) (j : nat) (d : D) : blk_view :=
  if decide (c = disk_function) then view d else side (host_of c d) (Z.of_nat j) d.

(** Queue [j] of driver [i] is up, on the function at [c]. *)
Record unit_up s (i j : nat) (c : Z) (drv : virtio_driver) (v : vring) : Prop := {
  up_driver : virtio_drivers s !! i = Some drv;
  up_vring : vrings drv !! j = Some v;
  up_init : initialized drv = true;
  up_host : host drv = host_of c (dev s);
  up_bus : c ∈ functions ∧ clear c (dev s);
  up_place : _forever_storage_start <= desc v ∧ queue_end (desc v) (num v) <= forever_storage_frontier s;
  up_queue : queue_idle (queue_view c j (dev s)) (mem s) v;
  up_has : c ≠ disk_function → has_queue (host_of c (dev s)) (Z.of_nat j) (dev s);
}.

(** What an initialiser changes. *)
Record extends (i : nat) (c pci need : Z) s s' : Prop := {
  ext_drivers : ∀ k, k ≠ i → virtio_drivers s' !! k = virtio_drivers s !! k;
  ext_same : sp s' = sp s ∧ the_heap s' = the_heap s ∧ pci_base s' = pci_base s;
  ext_frontier : forever_storage_frontier s <= forever_storage_frontier s' ∧
    forever_storage_frontier s' <= forever_storage_frontier s + need ∧
    forever_storage_frontier s' <= _forever_storage_stop;
  ext_mem : ∃ p, took s (mem s) p ∧ ∀ a, a ≠ p - 1 →
    a < forever_storage_frontier s ∨ forever_storage_frontier s' <= a → mem s' !! a = mem s !! a;
  ext_bus : accesses c pci (dev s) (dev s') ∧ host_of c (dev s') = io_window + pci;
}.

Lemma extends_boot_machine i c pci need s s' :
  boot_machine s → extends i c pci need s s' → boot_machine s'.
Proof.
  intros Hs [_ (Hsp & Hheap & _) Hf (p & Hp & Hmem) _]. destruct (took_apart _ _ _ Hs Hp) as [Hap|Hap];
    destruct Hs as [Hh Hfr Hz Ha Hstk]; (split; rewrite ?Hsp, ?Hheap; try done; [lia|]);
    intros a Hra; rewrite Hmem by lia; apply Hz; lia.
Qed.

(** The bytes of the storage below the frontier stay. *)
Lemma extends_load i c pci need s s' a n :
  boot_machine s → extends i c pci need s s' →
  _forever_storage_start <= a → a + n <= forever_storage_frontier s →
  load (mem s') a n = load (mem s) a n.
Proof.
  intros Hs [_ _ Hf (p & Hp & Hmem) _] Ha Hn. pose proof (boot_frontier _ Hs).
  destruct (took_apart _ _ _ Hs Hp) as [Hap|Hap]; apply load_ext; intros k Hk; apply Hmem; lia.
Qed.

Lemma extends_unit i c pci need s s' i' j c' drv v :
  boot_machine s → bus_ready c pci (dev s) → extends i c pci need s s' → i' ≠ i → c' ≠ c →
  unit_up s i' j c' drv v →
  unit_up s' i' j c' drv v ∧ queue_view c' j (dev s') = queue_view c' j (dev s).
Proof.
  intros Hs Hb Hext Hi Hc [Hdrv Hv Hini Hhost [Hc' Hclear] Hplace Hq Hhas].
  pose proof (ext_bus _ _ _ _ _ _ Hext) as [Hacc _]. pose proof (ext_frontier _ _ _ _ _ _ Hext) as Hf.
  destruct (same_bus_clear c pci c' (dev s) (dev s') Hb (accesses_bus _ _ _ _ Hacc Hb)) as [Hh Hcl]; [done|].
  assert (queue_view c' j (dev s') = queue_view c' j (dev s)) as Hview.
  { unfold queue_view. case_decide as Hd.
    - apply (accesses_view c pci); [done..|]. by rewrite <-Hd.
    - rewrite Hh. by apply (accesses_side c pci c' _ _ _ Hacc Hb); [|apply Hhas]. }
  split; [|done]. split; rewrite ?Hh, ?Hview; try done.
  - rewrite (ext_drivers _ _ _ _ _ _ Hext) by done. done.
  - lia.
  - apply (queue_idle_same _ (mem s)); [done|]. intros a n Ha Hn.
    apply (extends_load i c pci need); [done..|lia|lia].
  - intros Hd. by apply (accesses_side c pci c' _ _ _ Hacc Hb); [|apply Hhas].
Qed.

(** [k] of the largest blocks of the heap are free. *)
Definition free_blocks s (k : nat) : Prop :=
  ∃ l, NoDup l ∧ length l = k ∧
    Forall (λ p, block (the_heap s) p 512 ∧ ¬ in_use (mem s) p) l.

(** In a heap that nobody has used, the elements of the arena of 512 bytes. *)
Lemma fresh_free_blocks s k :
  heap_laid_out (the_heap s) →
  (∀ a, heap_start (the_heap s) <= a < heap_end (the_heap s) → default Byte.x00 (mem s !! a) = Byte.x00) →
  (k <= 10)%nat → free_blocks s k.
Proof.
  intros Hh Hz Hk. set (p (i : nat) := arena_start_512 (the_heap s) + 513 * Z.of_nat i + 1).
  assert (Inj eq eq p) by (intros i j; unfold p; lia).
  exists (p <$> seq 0 k). split; [apply NoDup_fmap_2, NoDup_seq; done|]. split; [by rewrite length_fmap, length_seq|].
  apply Forall_fmap, Forall_forall. intros i [_ Hi]%elem_of_seq.
  assert (block (the_heap s) (p i) 512) as Hb.
  { exists (arena_start_512 (the_heap s)), (Z.of_nat i). split; [|unfold p, arena_element; lia]. unfold arenas. set_solver. }
  split; [done|]. intros Hused. apply Hused, load_zero. intros j Hj. apply Hz.
  pose proof (block_inside _ _ _ Hh Hb). pose proof (laid_end _ Hh). lia.
Qed.

Lemma free_blocks_one s k : free_blocks s (S k) → ∃ p x, 128 < x ∧ block (the_heap s) p x ∧ ¬ in_use (mem s) p.
Proof.
  intros ([|p l] & _ & Hl & Hall); [done|]. apply Forall_cons in Hall as [[Hb Hfree] _]. by exists p, 512.
Qed.

Lemma extends_free_blocks i c pci need s s' k :
  boot_machine s → extends i c pci need s s' → free_blocks s (S k) → free_blocks s' k.
Proof.
  intros Hs [_ (_ & Hheap & _) Hf (p & Hp & Hmem) _] (l & Hnd & Hl & Hall).
  assert (∃ l', NoDup l' ∧ length l' = k ∧ p ∉ l' ∧ ∀ x, x ∈ l' → x ∈ l) as (l' & Hnd' & Hl' & Hp' & Hsub).
  { destruct (decide (p ∈ l)) as [Hin|Hin].
    - destruct (list_elem_of_split _ _ Hin) as (l1 & l2 & ->). exists (l1 ++ l2).
      rewrite length_app in *. cbn in Hl. apply NoDup_app in Hnd as (H1 & H2 & H3). apply NoDup_cons in H3 as [H3 H4].
      split; [|split; [lia|split]].
      + apply NoDup_app. split; [done|]. split; [|done]. intros x Hx ?. apply (H2 x Hx). by right.
      + intros [Hx|Hx]%elem_of_app; [|done]. apply (H2 p Hx). by left.
      + intros x [?|?]%elem_of_app; apply elem_of_app; [by left|by right; right].
    - destruct l as [|x l]; [done|]. exists l. apply NoDup_cons in Hnd as [_ Hnd]. cbn in Hl.
      apply not_elem_of_cons in Hin as [_ Hin]. split_and!; [done|lia|done|]. intros y ?. by right. }
  exists l'. split_and!; [done..|]. apply Forall_forall. intros x Hx.
  rewrite Forall_forall in Hall. destruct (Hall x (Hsub x Hx)) as [Hb Hfree]. rewrite Hheap.
  split; [done|]. unfold in_use, load_le in *. rewrite (load_ext _ (mem s)); [done|].
  intros z Hz. assert (took s (mem s) x) as Htx by (split; [exists 512; split; [lia|done]|done]).
  assert (x ≠ p) by (intros ->; done). pose proof (boot_frontier _ Hs).
  destruct (took_apart _ _ _ Hs Htx); apply Hmem; lia.
Qed.

(** The store to the rings is inside the new queue. *)
Lemma store_in_queue m q n a :
  0 < n <= 2 ^ 15 → 0 <= q → q mod 4096 = 0 → a < q ∨ q + virtq_size n <= a →
  store_le m (queue_avail q n) 2 1 !! a = m !! a.
Proof.
  intros Hn Hq Hmod Ha. pose proof (queue_fits q n Hn ltac:(lia)).
  destruct (queue_places q n) as (Hav & Hus & Hend); [lia|].
  unfold store_le. apply lookup_store_other. rewrite zlen_le_split. lia.
Qed.

(** Where the initialisers leave the machine. *)
Lemma brought_up_extends i c pci need s drv m d vs f o pfn p :
  virtio_drivers s !! i = Some drv →
  forever_storage_frontier s <= f <= forever_storage_frontier s + need → f <= _forever_storage_stop →
  took s (mem s) p →
  (∀ a, a ≠ p - 1 → a < forever_storage_frontier s ∨ f <= a → m !! a = mem s !! a) →
  device_started c pci s d pfn →
  extends i c pci need s (brought_up i c pci s drv m d vs f o).
Proof.
  intros Hdrv Hf Hstop Hp Hm (Hacc & Hhost & _). split; cbn; try done.
  - intros k Hk. by rewrite list_lookup_insert_ne.
  - lia.
  - by exists p.
Qed.

(** The queue at [q] of a device just started, in a memory that agrees with
    zeros there. *)
Lemma brought_up_unit i j c pci s drv m d vs f o pfn p q n v0 :
  boot_machine s → virtio_drivers s !! i = Some drv → bus_ready c pci (dev s) → took s (mem s) p →
  device_started c pci s d pfn → 4 <= n <= 2 ^ 15 → (c = disk_function → j = 0%nat) →
  f_size (fn c (dev s)) (Z.of_nat j) = n → pfn (Z.of_nat j) = q / 4096 → q mod 4096 = 0 →
  forever_storage_frontier s <= q → q + virtq_size n <= f → f <= _forever_storage_stop →
  vs !! j = Some (set_num n (fresh_vring q n v0)) →
  (∀ a, q <= a < queue_end q n → a < queue_avail q n ∨ queue_avail q n + 2 <= a →
     m !! a = store_le (mem s) (p - 1) 1 1 !! a) →
  let s' := brought_up i c pci s drv m d vs f o in
  let drv' := set_initialized (placed_driver c pci drv vs) in
  unit_up s' i j c drv' (set_num n (fresh_vring q n v0)) ∧
  bv_image (queue_view c j (dev s')) = if decide (c = disk_function) then image s else [].
Proof.
  intros Hs Hdrv Hb Hp (Hacc & Hhost & Hdisk & Hside) Hn Hj Hsize Hpfn Hmod Hq Hf Hstop Hvs Hm s' drv'.
  pose proof (queue_fits q n ltac:(lia) ltac:(destruct (boot_frontier _ Hs); lia)) as Hfit.
  assert (queue_view c j d = started_view c pci s (if decide (c = disk_function) then image s else []) pfn (Z.of_nat j))
    as Hview.
  { unfold queue_view. case_decide as Hd; [rewrite Hdisk, Hj by done; done|]. rewrite Hhost. apply Hside; [done|lia]. }
  split; [|cbn; by rewrite Hview]. split.
  - cbn. apply list_lookup_insert_eq. by apply lookup_lt_Some in Hdrv.
  - done.
  - done.
  - cbn. by rewrite Hhost.
  - destruct Hb as (Hc & Hown & Hnew & Hother). split; [done|]. cbn. intros c' Hc'. rewrite Hhost.
    destruct (decide (c' = c)) as [->|Hne]; [done|]. destruct (Hother c' Hc' Hne) as (_ & ? & _ & ?).
    split; [done|]. intros _. unfold host_of at 1.
    destruct (accesses_bus _ _ _ _ Hacc (conj Hc (conj Hown (conj Hnew Hother)))) as [_ Hfn]. by rewrite Hfn.
  - cbn. pose proof (boot_frontier _ Hs). lia.
  - cbn [dev mem s' brought_up]. rewrite Hview. apply (boot_queue_idle s p); try done; [lia|].
    cbn. rewrite Hpfn. zlia.
  - cbn. intros Hd. rewrite Hhost. apply Hside; [done|lia].
Qed.

(** *** The initialisers *)

Definition entropy_need (n : Z) : Z := 4096 + virtq_size n.
Definition console_need (n : Z) : Z := 2 * (4096 + virtq_size n).
Definition disk_need : Z := 4096 + virtq_size 256.

(** The entropy device comes up with a queue of any size from 4 on. *)
Lemma entropy_boot_up i c pci s :
  let n := f_size (fn c (dev s)) 0 in
  boot_state s i c pci (entropy_need n) → c ≠ disk_function → 4 <= n <= 2 ^ 15 →
  ∃ s' drv v, init_entropy_virtio i c (io_window + pci) pci s = (Done true, s') ∧
    extends i c pci (entropy_need n) s s' ∧ unit_up s' i 0 c drv v ∧ bv_image (queue_view c 0 (dev s')) = [] ∧
    forever_storage_frontier s <= desc v.
Proof.
  intros n Hboot Hc Hn. pose proof (boot_storage _ _ _ _ _ Hboot) as Hst.
  destruct Hboot as [Hs [drv Hdrv] Hb _ Hneed]. pose proof (boot_frontier _ Hs). unfold entropy_need in *.
  destruct (init_entropy_up i c pci s drv Hdrv Hb Hst) as (p & q & d & pfn & Hrun & Hp & Hmod & Hq & Hd & Hpfn);
    [fold n; lia|]. fold n in Hrun.
  destruct (virtq_size_bounds n ltac:(lia)) as [? _].
  pose proof (queue_fits q n ltac:(lia) ltac:(lia)).
  set (m := store_le _ (queue_avail q n) 2 1) in Hrun.
  destruct (brought_up_unit i 0 c pci s drv m d [set_num n (fresh_vring q n stale_vring)] (q + virtq_size n)
    (console_out s) pfn p q n stale_vring) as [Hup Himg]; try done; try lia.
  { intros a Ha Hfl. unfold m, store_le at 1. apply lookup_store_other. rewrite zlen_le_split. lia. }
  do 3 eexists. split; [exact Hrun|]. split; [|split; [exact Hup|split; [by rewrite decide_False in Himg by done|cbn; lia]]].
  apply (brought_up_extends _ _ _ _ _ _ _ _ _ _ _ pfn p); try done; try lia.
  intros a Ha Hout. unfold m. rewrite store_in_queue by lia.
  unfold store_le. apply lookup_store_other. rewrite zlen_le_split. lia.
Qed.

(** The console comes up with its transmit queue when both of its queues have
    the same size. *)
Lemma console_boot_up i c pci s :
  let n := f_size (fn c (dev s)) 0 in
  boot_state s i c pci (console_need n) → c ≠ disk_function → 4 <= n <= 2 ^ 15 →
  f_size (fn c (dev s)) 1 = n →
  ∃ s' drv v, init_console_virtio i c (io_window + pci) pci s = (Done true, s') ∧
    extends i c pci (console_need n) s s' ∧ unit_up s' i 1 c drv v ∧ bv_image (queue_view c 1 (dev s')) = [] ∧
    forever_storage_frontier s <= desc v.
Proof.
  intros n Hboot Hc Hn Hsize1. pose proof (boot_storage _ _ _ _ _ Hboot) as Hst.
  destruct Hboot as [Hs [drv Hdrv] Hb _ Hneed]. pose proof (boot_frontier _ Hs). unfold console_need in *.
  destruct (init_console_up i c pci s drv Hdrv Hb Hst)
    as (p & q0 & q1 & d & pfn & Hrun & Hp & Hmod0 & Hq0 & Hmod1 & Hq1 & Hd & Hpfn0 & Hpfn1); [fold n; lia|].
  fold n in Hrun, Hq1. destruct (virtq_size_bounds n ltac:(lia)) as [? _].
  pose proof (queue_fits q0 n ltac:(lia) ltac:(lia)). pose proof (queue_fits q1 n ltac:(lia) ltac:(lia)).
  set (m := store_le _ (queue_avail q1 n) 2 1) in Hrun.
  set (v q := set_num n (fresh_vring q n stale_vring)) in Hrun.
  destruct (brought_up_unit i 1 c pci s drv m d [v q0; v q1] (q1 + virtq_size n)
    (console_out s) pfn p q1 n stale_vring) as [Hup Himg]; try done; try lia.
  { intros a Ha Hfl. unfold m, store_le at 1. rewrite lookup_store_other by (rewrite zlen_le_split; lia).
    apply store_in_queue; lia. }
  do 3 eexists. split; [exact Hrun|]. split; [|split; [exact Hup|split; [by rewrite decide_False in Himg by done|cbn; lia]]].
  apply (brought_up_extends _ _ _ _ _ _ _ _ _ _ _ pfn p); try done; try lia.
  intros a Ha Hout. unfold m. rewrite !store_in_queue by lia.
  unfold store_le. apply lookup_store_other. rewrite zlen_le_split. lia.
Qed.

(** C34.  The initialiser reads the size of the transmit queue and does not use it:
    it lays that queue out with the size of the receive queue.  When the two
    differ the console comes up as if nothing were wrong, and its queue is
    never in the state in which output works. *)
Theorem console_boot_unequal i c pci s :
  let n := f_size (fn c (dev s)) 0 in
  boot_state s i c pci (console_need n) → c ≠ disk_function → 0 < n <= 2 ^ 15 →
  0 < f_size (fn c (dev s)) 1 → f_size (fn c (dev s)) 1 ≠ n →
  ∃ s', init_console_virtio i c (io_window + pci) pci s = (Done true, s') ∧
    ∀ room, ¬ side_works room i 1 s'.
Proof.
  intros n Hboot Hc Hn Hpos Hne. pose proof (boot_storage _ _ _ _ _ Hboot) as Hst.
  destruct Hboot as [_ [drv Hdrv] Hb _ _].
  destruct (init_console_up i c pci s drv Hdrv Hb Hst)
    as (p & q0 & q1 & d & pfn & Hrun & _ & _ & _ & _ & _ & Hd & _); [done|].
  eexists. split; [exact Hrun|]. intros room (drv' & v & _ & _ & [[Hdrv' _] Hv _ _ Hidle] & _).
  cbn in Hdrv'. rewrite list_lookup_insert_eq in Hdrv' by (by apply lookup_lt_Some in Hdrv).
  injection Hdrv' as <-. injection Hv as <-. destruct Hd as (_ & _ & _ & Hside).
  destruct (Hside Hc 1 Hpos) as [Hw _]. apply idle_num in Hidle as [Hidle _].
  cbn [host set_initialized placed_driver dev brought_up] in Hidle. change (Z.of_nat 1) with 1 in Hidle.
  change (host _) with (io_window + pci) in Hidle. rewrite Hw in Hidle. cbn in Hidle. done.
Qed.

(** The disk, with its queue of 256 entries. *)
Lemma disk_boot_up i pci s :
  boot_state s i disk_function pci disk_need → f_size (fn disk_function (dev s)) 0 = 256 →
  ∃ s' drv v, init_blk_virtio i disk_function (io_window + pci) pci s = (Done true, s') ∧
    extends i disk_function pci disk_need s s' ∧ unit_up s' i 0 disk_function drv v ∧ image s' = image s ∧
    forever_storage_frontier s <= desc v.
Proof.
  intros Hboot Hsize. pose proof (boot_storage _ _ _ _ _ Hboot) as Hst. unfold disk_need in *.
  destruct Hboot as [Hs [drv Hdrv] Hb _ Hneed]. pose proof (boot_frontier _ Hs).
  destruct (init_blk_up i disk_function pci s drv Hdrv Hb Hst)
    as (p & q & d & pfn & o & Hrun & Hp & Hmod & Hq & Hd & Hpfn). rewrite Hsize in Hrun.
  pose proof (queue_fits q 256 ltac:(lia) ltac:(lia)). change (virtq_size 256) with 12288 in *.
  set (m := store_le _ (queue_avail q 256) 2 1) in Hrun.
  destruct (brought_up_unit i 0 disk_function pci s drv m d [set_num 256 (fresh_vring q 256 stale_vring)] (q + 12288)
    o pfn p q 256 stale_vring) as [Hup Himg]; try done; try (change (virtq_size 256) with 12288; lia).
  { intros a Ha Hfl. unfold m, store_le at 1. apply lookup_store_other. rewrite zlen_le_split. lia. }
  do 3 eexists. split; [exact Hrun|]. split; [|split; [exact Hup|split; [|cbn; lia]]].
  - apply (brought_up_extends _ _ _ _ _ _ _ _ _ _ _ pfn p); try done; try lia.
    intros a Ha Hout. unfold m. rewrite store_in_queue by (change (virtq_size 256) with 12288; lia).
    unfold store_le. apply lookup_store_other. rewrite zlen_le_split. lia.
  - rewrite decide_True in Himg by done. unfold queue_view in Himg. by rewrite decide_True in Himg by done.
Qed.

(** *** From the boot to the interfaces of the drivers *)

Lemma unit_disk_ready s drv v :
  boot_machine s → unit_up s BLK_DRIVER 0 disk_function drv v →
  zlen (image s) mod 512 = 0 → zlen (image s) <= 2 ^ 64 → machine_ready s drv v.
Proof.
  intros Hs [Hdrv Hv Hini Hhost [_ _] Hplace Hq _] Hmod Hmax.
  pose proof (boot_frontier _ Hs). destruct (boot_stack _ Hs).
  unfold queue_view in Hq. rewrite decide_True in Hq by done.
  split; try done; [by rewrite view_host|]. split; [lia|]. unfold queue_apart. lia.
Qed.

Lemma unit_side_ready s i j c drv v :
  unit_up s i j c drv v → c ≠ disk_function → i ≠ BLK_DRIVER → side_ready s i j drv v.
Proof.
  intros [Hdrv Hv Hini Hhost _ _ Hq Hhas] Hc Hi. unfold queue_view in Hq. rewrite decide_False in Hq by done.
  split; rewrite ?Hhost; try done. by apply Hhas.
Qed.

(** A stack with [room] bytes for a buffer. *)
Definition stack_room s (room : Z) : Prop :=
  0 <= room < 2 ^ 32 ∧ room <= sp s < 2 ^ 64 ∧
  (sp s <= _forever_storage_start ∨ _forever_storage_stop <= sp s - room).

Lemma unit_side_placed s i j c drv v bdrv bv room :
  boot_machine s → unit_up s i j c drv v → unit_up s BLK_DRIVER 0 disk_function bdrv bv → stack_room s room →
  queue_end (desc v) (num v) <= desc bv ∨ queue_end (desc bv) (num bv) <= desc v →
  side_placed s v bv room.
Proof.
  intros Hs [_ _ _ _ _ Hp _ _] [_ _ _ _ _ Hbp _ _] (Hr & Hsp & Hst) Hap. pose proof (boot_frontier _ Hs).
  split; unfold queue_apart; try done; lia.
Qed.

(** C14.  Booting establishes the driver's invariant: with a disk whose queue
    has 256 entries, [init_blk_virtio] succeeds and leaves the machine in the
    state from which every sector request is correct -- queue, rings,
    registers and driver table agree with the device -- and the disk has the
    content it had. *)
Theorem blk_boot_ready s pci :
  boot_state s BLK_DRIVER disk_function pci (4096 + virtq_size 256) →
  f_size (fn disk_function (dev s)) 0 = 256 → zlen (image s) mod 512 = 0 → zlen (image s) <= 2 ^ 64 →
  ∃ s', init_blk_virtio BLK_DRIVER disk_function (io_window + pci) pci s = (Done true, s') ∧
    ready s' ∧ image s' = image s.
Proof.
  intros Hboot Hsize Hmod Hmax. destruct (disk_boot_up BLK_DRIVER pci s Hboot Hsize)
    as (s' & drv & v & Hrun & Hext & Hup & Himg & _).
  exists s'. split; [exact Hrun|]. split; [|done]. exists drv, v.
  apply unit_disk_ready; rewrite ?Himg; try done. eapply extends_boot_machine; [apply Hboot|done].
Qed.
End units.
