(* ===== verification/BusScan.v ===== *)
(** * The scan of the bus brings all devices up (src/pci.c)

    [configure_pci] reads the vendor of every function, gives each virtio
    device a window and calls its driver's initialiser.  For a board with
    any number of disks, consoles and sources of randomness, at most one of
    each, in any order, all of them are up afterwards, each with a queue of
    its own. *)

From stdpp Require Import functions sorting.
From S2P Require Import Prelude Layout Ecall Memory Machine Heap HeapTheorems Vring QueueState Blk BlkVring Chain VirtioDriver Pci LegacyBus BringUp BlkBoot Ext2 Ext2File Io IoTheorems Board ChainTheorems DeviceBoot.

(** The entry of the driver table for a PCI device id, as
    [configure_pci_device] computes it. *)
Definition driver_index (id : Z) : nat :=
  Z.to_nat (if 4105 <? id then u16 (id - 4160) else u16 (id - 4096)).

(** The queue of a driver that is used: the console's is its second. *)
Definition used_queue (i : nat) : nat := if decide (i = CONSOLE_DRIVER) then 1%nat else 0%nat.

Definition init_of (i : nat) : option driver_init_f :=
  if decide (i = BLK_DRIVER) then Some init_blk_virtio_f
  else if decide (i = CONSOLE_DRIVER) then Some init_console_virtio_f
  else if decide (i = ENTROPY_DRIVER) then Some init_entropy_virtio_f else None.

Section scan.
Context {D : Type} `{!Platform D} `{!VirtioBlk D} `{!VirtioChain D} `{!LegacyBus D} `{!Linker} `{!StaleVring}.
Implicit Types s : machine D.

Definition kind (c : Z) : nat := driver_index (pci_id c).

Definition need (d : D) (c : Z) : Z :=
  if decide (kind c = BLK_DRIVER) then disk_need
  else if decide (kind c = CONSOLE_DRIVER) then console_need (f_size (fn c d) 0)
  else entropy_need (f_size (fn c d) 0).
Definition total_need (d : D) (l : list Z) : Z := foldr (λ c z, need d c + z) 0 l.

(** The queues that the drivers can work with: 256 entries for the disk, the
    same size for both queues of the console. *)
Inductive good_function (d : D) (c : Z) : Prop :=
  | good_disk : c = disk_function → kind c = BLK_DRIVER → f_size (fn c d) 0 = 256 → good_function d c
  | good_console : c ≠ disk_function → kind c = CONSOLE_DRIVER → 4 <= f_size (fn c d) 0 <= 2 ^ 15 →
      f_size (fn c d) 1 = f_size (fn c d) 0 → good_function d c
  | good_entropy : c ≠ disk_function → kind c = ENTROPY_DRIVER → 4 <= f_size (fn c d) 0 <= 2 ^ 15 →
      good_function d c.

(** A board that the code can scan.  The function number of a device has to
    be a multiple of 4 ([pci_function_confused]). *)
Record good_board (d : D) : Prop := {
  board_order : StronglySorted Z.lt functions;
  board_place : ∀ c, c ∈ functions → scanned (c - PCI_BASE) ∧ (c - PCI_BASE) / 4096 mod 4 = 0;
  board_window : io_window = HOST_CONF_BASE - PCI_CONF_BASE ∧ (length functions <= 100)%nat;
  board_kinds : ∀ c c', c ∈ functions → c' ∈ functions → kind c = kind c' → c = c';
  board_good : ∀ c, c ∈ functions → good_function d c;
}.

Lemma sorted_NoDup l : StronglySorted Z.lt l → NoDup l.
Proof.
  induction 1 as [|x l _ IH Hx]; [constructor|]. constructor; [|done]. intros Hin.
  rewrite Forall_forall in Hx. specialize (Hx x Hin). lia.
Qed.

(** There are only three kinds. *)
Lemma board_size d : good_board d → (length functions <= 3)%nat.
Proof.
  intros Hg. assert (NoDup functions) as Hnd by apply sorted_NoDup, (board_order _ Hg).
  rewrite <-(length_fmap kind functions). apply (submseteq_length _ [BLK_DRIVER; CONSOLE_DRIVER; ENTROPY_DRIVER]).
  apply NoDup_submseteq; [apply NoDup_fmap_2_strong; [by apply (board_kinds _ Hg)|done]|].
  intros k (c & -> & Hc)%list_elem_of_fmap. destruct (board_good _ Hg c Hc) as [_ -> _|_ -> _|_ -> _]; set_solver.
Qed.

(** ** The state of the scan

    [up] are the functions configured so far, [todo] those to come; [s0] is
    the machine before the scan. *)
Record scan_state s0 (up todo : list Z) s : Prop := {
  scan_boot : boot_machine s;
  scan_split : functions = up ++ todo;
  scan_base : pci_base s = 4096 * Z.of_nat (length up);
  scan_hosts : ∀ c, c ∈ functions →
    ∃ k, host_of c (dev s) = io_window + 4096 * k ∧ 0 <= k <= Z.of_nat (length up);
  scan_todo : ∀ c, c ∈ todo → fn c (dev s) = fn c (dev s0) ∧
    ∃ drv, virtio_drivers s !! kind c = Some drv ∧ init_f drv = init_of (kind c);
  scan_up : ∀ c, c ∈ up → ∃ drv v, unit_up s (kind c) (used_queue (kind c)) c drv v ∧
    (c ≠ disk_function → bv_image (queue_view c (used_queue (kind c)) (dev s)) = []);
  scan_apart : ∀ c c' drv v drv' v', c ∈ up → c' ∈ up → c ≠ c' →
    unit_up s (kind c) (used_queue (kind c)) c drv v → unit_up s (kind c') (used_queue (kind c')) c' drv' v' →
    queue_end (desc v) (num v) <= desc v' ∨ queue_end (desc v') (num v') <= desc v;
  scan_need : forever_storage_frontier s + total_need (dev s0) todo <= _forever_storage_stop;
  scan_free : free_blocks s (S (length todo));
  scan_image : image s = image s0;
  scan_same : sp s = sp s0 ∧ the_heap s = the_heap s0;
  scan_mem : ∀ a, a < heap_start (the_heap s0) ∨ heap_end (the_heap s0) <= a →
    a < _forever_storage_start ∨ _forever_storage_stop <= a → mem s !! a = mem s0 !! a;
}.

Lemma unit_up_unique s i j c c' drv v drv' v' :
  unit_up s i j c drv v → unit_up s i j c' drv' v' → drv = drv' ∧ v = v'.
Proof.
  intros [H1 H2 _ _ _ _ _ _] [H3 H4 _ _ _ _ _ _]. rewrite H1 in H3. injection H3 as <-.
  rewrite H2 in H4. by injection H4.
Qed.

(** Looking at a register changes nothing of this. *)
Lemma unit_up_load s i j c drv v a n :
  unit_up s i j c drv v →
  unit_up (set_dev (mmio_load a n (dev s)).2 s) i j c drv v ∧
  queue_view c j (mmio_load a n (dev s)).2 = queue_view c j (dev s).
Proof.
  intros [Hdrv Hv Hini Hhost [Hc Hclear] Hplace Hq Hhas].
  destruct (quiet_load a n (dev s)) as [Hview Hside].
  assert (∀ c, host_of c (mmio_load a n (dev s)).2 = host_of c (dev s)) as Hh
    by (intros ?; unfold host_of; by rewrite fn_load).
  assert (queue_view c j (mmio_load a n (dev s)).2 = queue_view c j (dev s)) as Hqv.
  { unfold queue_view. rewrite Hview, Hh. case_decide; [done|]. apply Hside. }
  split; [|done]. split; cbn; rewrite ?Hh, ?Hqv; try done.
  - split; [done|]. intros c' Hc'. rewrite !Hh. by apply Hclear.
  - intros Hd. by apply Hside, Hhas.
Qed.

Lemma scan_load s0 up todo s a n :
  scan_state s0 up todo s → scan_state s0 up todo (set_dev (mmio_load a n (dev s)).2 s).
Proof.
  intros [Hb Hsplit Hbase Hhosts Htodo Hup Hap Hneed Hfree Him Hsame Hmem]. split; try done.
  - destruct Hb. by split.
  - intros c Hc. cbn. unfold host_of. rewrite fn_load. by apply Hhosts.
  - intros c Hc. cbn. rewrite fn_load. by apply Htodo.
  - intros c Hc. destruct (Hup c Hc) as (drv & v & Hu & Hnil). exists drv, v.
    destruct (unit_up_load _ _ _ _ _ _ a n Hu) as [Hu' Hq]. split; [done|]. intros Hd. cbn. rewrite Hq. by apply Hnil.
  - intros c c' drv v drv' v' Hc Hc' Hne H1 H2.
    destruct (Hup c Hc) as (drv1 & v1 & Hu1 & _), (Hup c' Hc') as (drv2 & v2 & Hu2 & _).
    destruct (unit_up_unique _ _ _ _ _ _ _ _ _ H1 (proj1 (unit_up_load _ _ _ _ _ _ a n Hu1))) as [_ ->].
    destruct (unit_up_unique _ _ _ _ _ _ _ _ _ H2 (proj1 (unit_up_load _ _ _ _ _ _ a n Hu2))) as [_ ->].
    by apply (Hap c c' drv1 v1 drv2 v2).
  - cbn. destruct (quiet_load a n (dev s)) as [-> _]. done.
Qed.

(** ** One function *)

Lemma scan_bus s0 up c todo s :
  good_board (dev s0) → scan_state s0 up (c :: todo) s → bus_ready c (4096 * (Z.of_nat (length up) + 1)) (dev s).
Proof.
  intros Hg Hs. destruct (board_window _ Hg) as [Hwin Hlen]. unfold HOST_CONF_BASE, PCI_CONF_BASE in Hwin.
  assert (c ∈ functions) as Hc by (rewrite (scan_split _ _ _ _ Hs); set_solver).
  assert (length up <= 100)%nat by (rewrite (scan_split _ _ _ _ Hs), length_app in Hlen; lia).
  assert (∀ x, x ∈ functions → 805306368 <= x ∧ x mod 4096 = 0) as Hplace.
  { intros x Hx. destruct (board_place _ Hg x Hx) as [[Hr Hm] _]. unfold PCI_BASE in *.
    change MAX_PCI_OFF with 3178496 in Hr. zlia. }
  pose proof (scan_hosts _ _ _ _ Hs) as Hh. unfold bus_ready, blocks_apart.
  destruct (Hh c Hc) as (k & -> & Hk). destruct (Hplace c Hc) as [Hc1 Hc2].
  split_and!; [done|zlia|zlia|]. intros c' Hc' Hne.
  destruct (Hh c' Hc') as (k' & -> & Hk'). destruct (Hplace c' Hc') as [Hc1' Hc2']. split_and!; zlia.
Qed.

(** The initialiser of the driver brings the function up, whichever of the
    three it is. *)
Lemma init_up d c s pci drv0 :
  good_function d c → fn c (dev s) = fn c d → virtio_drivers s !! kind c = Some drv0 → init_f drv0 = init_of (kind c) →
  boot_state s (kind c) c pci (need d c) →
  ∃ s' drv v, call_init (kind c) c (io_window + pci) pci s = (Done true, s') ∧
    extends (kind c) c pci (need d c) s s' ∧ unit_up s' (kind c) (used_queue (kind c)) c drv v ∧
    (c ≠ disk_function → bv_image (queue_view c (used_queue (kind c)) (dev s')) = []) ∧
    forever_storage_frontier s <= desc v.
Proof.
  intros Hgood Hfn Hdrv Hinit Hboot.
  assert (∀ A (k : virtio_driver → prog (machine D) A), (x ← get_driver (kind c); k x) s = k drv0 s) as Hget.
  { intros A k. unfold get_driver. rewrite bind_assoc. run. by rewrite Hdrv. }
  unfold call_init. rewrite Hget, Hinit. clear Hget. unfold need in *. rewrite <-Hfn in *.
  destruct Hgood as [-> Hk Hsz|Hne Hk Hsz Hsz1|Hne Hk Hsz]; rewrite Hk, <-?Hfn in *.
  - destruct (disk_boot_up BLK_DRIVER pci s Hboot Hsz) as (s' & drv & v & Hrun & Hext & Hup & _ & Hd).
    exists s', drv, v. by split_and!.
  - destruct (console_boot_up CONSOLE_DRIVER c pci s Hboot Hne Hsz Hsz1)
      as (s' & drv & v & Hrun & Hext & Hup & Hnil & Hd). exists s', drv, v. by split_and!.
  - destruct (entropy_boot_up ENTROPY_DRIVER c pci s Hboot Hne Hsz)
      as (s' & drv & v & Hrun & Hext & Hup & Hnil & Hd). exists s', drv, v. by split_and!.
Qed.

Lemma total_need_nonneg d l : (∀ c, c ∈ l → good_function d c) → 0 <= total_need d l.
Proof.
  induction l as [|c l IH]; intros Hl; [done|].
  change (total_need d (c :: l)) with (need d c + total_need d l).
  assert (0 <= total_need d l) by (apply IH; intros; apply Hl; by right).
  assert (0 <= need d c); [|lia]. unfold need, disk_need, console_need, entropy_need.
  destruct (Hl c) as [_ Hk _|_ Hk Hsz _|_ Hk Hsz]; [by left|..]; rewrite Hk.
  - done.
  - change (0 <= console_need (f_size (fn c d) 0)). unfold console_need.
    destruct (virtq_size_bounds (f_size (fn c d) 0)); lia.
  - change (0 <= entropy_need (f_size (fn c d) 0)). unfold entropy_need.
    destruct (virtq_size_bounds (f_size (fn c d) 0)); lia.
Qed.

(** What remains to be shown of the state when a function has come up. *)
Lemma scan_extend s0 up c todo s s' drv v :
  good_board (dev s0) → scan_state s0 up (c :: todo) s →
  let n := Z.of_nat (length up) + 1 in
  extends (kind c) c (4096 * n) (need (dev s0) c) (set_pci_base (4096 * n) s) s' →
  unit_up s' (kind c) (used_queue (kind c)) c drv v →
  (c ≠ disk_function → bv_image (queue_view c (used_queue (kind c)) (dev s')) = []) →
  forever_storage_frontier s <= desc v →
  scan_state s0 (up ++ [c]) todo s'.
Proof.
  intros Hg Hs n Hext Hup Hnil Hdesc. pose proof (scan_bus _ _ _ _ _ Hg Hs) as Hbus. fold n in Hbus.
  set (s1 := set_pci_base (4096 * n) s) in *. pose proof Hs as [Hb Hsplit Hbase Hhosts Htodo Hups Hap Hneed Hfree Him Hsame Hmem].
  assert (boot_machine s1) as Hb1 by (by destruct Hb; split).
  pose proof (ext_bus _ _ _ _ _ _ Hext) as [Hacc Hhost].
  destruct (accesses_bus _ _ _ _ Hacc Hbus) as [_ Hfns]. change (dev s1) with (dev s) in *.
  assert (NoDup functions) as Hnd.
  { apply sorted_NoDup, (board_order _ Hg). }
  assert (∀ x, x ∈ up ∨ x ∈ todo → x ∈ functions ∧ x ≠ c ∧ kind x ≠ kind c) as Hother.
  { rewrite Hsplit in Hnd. apply NoDup_app in Hnd as (_ & Hdis & Hnd). apply NoDup_cons in Hnd as [Hc Hnd].
    intros x Hx. assert (x ∈ functions ∧ x ≠ c) as [Hf Hne].
    { split; [rewrite Hsplit; set_solver|]. intros ->. destruct Hx; [by apply (Hdis c); [|left]|done]. }
    split_and!; [done..|]. intros Hk. destruct Hne. apply (board_kinds _ Hg); [done| |done].
    rewrite Hsplit. set_solver. }
  assert (∀ x drv v, x ∈ up → unit_up s (kind x) (used_queue (kind x)) x drv v →
    unit_up s' (kind x) (used_queue (kind x)) x drv v ∧
    queue_view x (used_queue (kind x)) (dev s') = queue_view x (used_queue (kind x)) (dev s)) as Hkept.
  { intros x drv1 v1 Hx Hu. destruct (Hother x (or_introl Hx)) as (_ & Hne & Hk).
    apply (extends_unit (kind c) c (4096 * n) (need (dev s0) c) s1 s'); try done. by destruct Hu. }
  pose proof (ext_frontier _ _ _ _ _ _ Hext) as Hf. change (forever_storage_frontier s1) with (forever_storage_frontier s) in Hf.
  assert (∀ x drv1 v1, x ∈ up → unit_up s' (kind x) (used_queue (kind x)) x drv1 v1 →
    queue_end (desc v1) (num v1) <= desc v) as Hbelow.
  { intros x drv1 v1 Hx Hu. destruct (Hups x Hx) as (drv2 & v2 & Hu2 & _).
    destruct (unit_up_unique _ _ _ _ _ _ _ _ _ Hu (proj1 (Hkept _ _ _ Hx Hu2))) as [_ ->].
    destruct (up_place _ _ _ _ _ _ Hu2). lia. }
  split.
  - by eapply extends_boot_machine.
  - by rewrite <-app_assoc.
  - destruct (ext_same _ _ _ _ _ _ Hext) as (_ & _ & ->). cbn. rewrite length_app. cbn. lia.
  - intros x Hx. rewrite length_app. cbn [length]. destruct (decide (x = c)) as [->|Hne].
    + exists n. split; [done|lia].
    + unfold host_of. rewrite Hfns by done. destruct (Hhosts x Hx) as (k & Hk & ?). exists k. split; [done|lia].
  - intros x Hx. destruct (Hother x (or_intror Hx)) as (Hxf & Hne & Hk).
    destruct (Htodo x) as (Hfx & drvx & Hdx & Hix); [by right|]. rewrite Hfns by done. split; [done|].
    exists drvx. rewrite (ext_drivers _ _ _ _ _ _ Hext) by done. done.
  - intros x Hx. apply elem_of_app in Hx as [Hx|Hx%list_elem_of_singleton]; [|subst x; by exists drv, v].
    destruct (Hups x Hx) as (drvx & vx & Hux & Hnx). destruct (Hkept _ _ _ Hx Hux) as [Hux' Hqx].
    exists drvx, vx. split; [done|]. rewrite Hqx. exact Hnx.
  - intros x y drvx vx drvy vy Hx Hy Hxy Hux Huy.
    apply elem_of_app in Hx as [Hx|Hx%list_elem_of_singleton], Hy as [Hy|Hy%list_elem_of_singleton]; subst; try done.
    + destruct (Hups x Hx) as (drv1 & v1 & Hu1 & _), (Hups y Hy) as (drv2 & v2 & Hu2 & _).
      destruct (unit_up_unique _ _ _ _ _ _ _ _ _ Hux (proj1 (Hkept _ _ _ Hx Hu1))) as [_ ->].
      destruct (unit_up_unique _ _ _ _ _ _ _ _ _ Huy (proj1 (Hkept _ _ _ Hy Hu2))) as [_ ->].
      by apply (Hap x y drv1 v1 drv2 v2).
    + left. destruct (unit_up_unique _ _ _ _ _ _ _ _ _ Huy Hup) as [_ ->]. by apply (Hbelow x drvx).
    + right. destruct (unit_up_unique _ _ _ _ _ _ _ _ _ Hux Hup) as [_ ->]. by apply (Hbelow y drvy).
  - change (total_need (dev s0) (c :: todo)) with (need (dev s0) c + total_need (dev s0) todo) in Hneed. lia.
  - by apply (extends_free_blocks (kind c) c (4096 * n) (need (dev s0) c) s1).
  - rewrite <-Him. cbn. by apply (accesses_image c (4096 * n)).
  - destruct (ext_same _ _ _ _ _ _ Hext) as (-> & -> & _). done.
  - intros a Hheap Hst. rewrite <-Hmem by done. destruct (ext_mem _ _ _ _ _ _ Hext) as (p & Hp & Ha).
    pose proof (boot_frontier _ Hb). pose proof (took_inside _ _ Hb1 Hp) as Hin. cbn in Hin.
    rewrite (proj2 Hsame) in Hin. apply Ha; cbn; lia.
Qed.

Lemma good_index d c : good_function d c →
  find_virtio_driver (if 4105 <? pci_id c then u16 (pci_id c - 4160) else u16 (pci_id c - 4096)) = Some (kind c).
Proof.
  intros Hg. assert (kind c = BLK_DRIVER ∨ kind c = CONSOLE_DRIVER ∨ kind c = ENTROPY_DRIVER) as Hk
    by (destruct Hg; auto).
  unfold kind, driver_index, BLK_DRIVER, CONSOLE_DRIVER, ENTROPY_DRIVER, find_virtio_driver in *.
  destruct (Z.ltb_spec 4105 (pci_id c)); case_match; (lia || done).
Qed.

Lemma scan_function s0 up c todo s :
  good_board (dev s0) → scan_state s0 up (c :: todo) s →
  let i := c - PCI_BASE in
  ∃ s', (allocd ← pci_config_space_alloc;
         configure_pci_device PCI_BASE (PCI_BUS i) (PCI_DEV i) (PCI_FUN i)
           (HOST_CONF_BASE + allocd) (u32 (PCI_CONF_BASE + allocd))) s = (Done tt, s') ∧
    scan_state s0 (up ++ [c]) todo s'.
Proof.
  intros Hg Hs i. set (n := Z.of_nat (length up) + 1).
  assert (c ∈ functions) as Hc by (rewrite (scan_split _ _ _ _ Hs); set_solver).
  destruct (board_place _ Hg c Hc) as [Hscanned Hfun]. destruct (board_window _ Hg) as [Hwin Hlen].
  assert (length up <= 100)%nat by (rewrite (scan_split _ _ _ _ Hs), length_app in Hlen; lia).
  pose proof (board_good _ Hg c Hc) as Hgood.
  set (s1 := set_dev (mmio_load (c + 2) 2 (dev s)).2 s). pose proof (scan_load _ _ _ _ (c + 2) 2 Hs) as Hs1. fold s1 in Hs1.
  set (s2 := set_pci_base (4096 * n) s1).
  destruct (scan_todo _ _ _ _ Hs1 c) as (Hfn & drv0 & Hdrv & Hinit); [by left|].
  pose proof (scan_bus _ _ _ _ _ Hg Hs1) as Hbus. fold n in Hbus.
  assert (boot_state s2 (kind c) c (4096 * n) (need (dev s0) c)) as Hboot.
  { pose proof (scan_boot _ _ _ _ Hs1) as []. split; [by split|by exists drv0|done| |].
    - exact (free_blocks_one _ _ (scan_free _ _ _ _ Hs1)).
    - pose proof (scan_need _ _ _ _ Hs1) as Hneed. change (total_need (dev s0) (c :: todo)) with (need (dev s0) c + total_need (dev s0) todo) in Hneed.
      assert (0 <= total_need (dev s0) todo) as Htotal.
      { apply total_need_nonneg. intros x Hx. apply (board_good _ Hg). rewrite (scan_split _ _ _ _ Hs). set_solver. }
      cbn in *. lia. }
  destruct (init_up (dev s0) c s2 (4096 * n) drv0 Hgood Hfn Hdrv Hinit Hboot) as (s' & drv & v & Hrun & Hext & Hup & Hnil & Hdesc).
  exists s'. split; [|by apply (scan_extend s0 up c todo s1 s' drv v)].
  unfold pci_config_space_alloc. rewrite bind_assoc. run. rewrite (scan_base _ _ _ _ Hs).
  rewrite (wrap_small 32 (4096 * Z.of_nat (length up) + 4096)) by lia.
  replace (4096 * Z.of_nat (length up) + 4096) with (4096 * n) by lia.
  unfold configure_pci_device. rewrite pci_function_confused by done. fold i in Hfun. rewrite Hfun.
  replace (PCI_BASE + (i - 0 * 4096)) with c by (unfold i; lia).
  rewrite (bind_done _ _ _ _ _ (load_reg_run (c + 2) 2 (set_pci_base (4096 * n) s))). cbn [dev set_pci_base].
  destruct (function_load c (dev s) Hc) as [_ ->]. rewrite good_index with (d := dev s0) by done.
  change (set_dev _ _) with s2. unfold PCI_CONF_BASE, HOST_CONF_BASE in *.
  rewrite (wrap_small 32) by lia. replace (4096 + 4096 * Z.of_nat (length up)) with (4096 * n) by lia.
  replace (50335744 + 4096 * Z.of_nat (length up)) with (io_window + 4096 * n) by lia.
  run_with Hrun. done.
Qed.

(** ** The scan *)

Lemma scan_loop_up s0 n i up todo s :
  good_board (dev s0) → scan_state s0 up todo s → 0 <= i → i mod 4096 = 0 → i + 4096 * Z.of_nat n = MAX_PCI_OFF →
  (∀ c, c ∈ up → c < PCI_BASE + i) → (∀ c, c ∈ todo → PCI_BASE + i <= c) →
  ∃ s', scan_loop n i s = (Done tt, s') ∧ scan_state s0 functions [] s'.
Proof.
  intros Hg. change MAX_PCI_OFF with 3178496. revert i up todo s.
  assert (∀ c, c ∈ functions → c < PCI_BASE + 3178496 ∧ c mod 4096 = 0) as Hplace.
  { intros c Hc. destruct (board_place _ Hg c Hc) as [[Hr Hm] _]. change MAX_PCI_OFF with 3178496 in Hr.
    unfold PCI_BASE in *. zlia. }
  induction n as [|n IH]; intros i up todo s Hs Hi Hmod Hend Hbelow Habove; cbn [scan_loop].
  { destruct todo as [|c todo].
    - exists s. split; [done|]. pose proof (scan_split _ _ _ _ Hs) as Hsp. rewrite app_nil_r in Hsp. by subst up.
    - specialize (Habove c ltac:(by left)). destruct (Hplace c); [|lia]. rewrite (scan_split _ _ _ _ Hs). set_solver. }
  pose proof (scan_split _ _ _ _ Hs) as Hsplit. pose proof (scan_load _ _ _ _ (PCI_BASE + i) 2 Hs) as Hs1.
  set (s1 := set_dev _ _) in Hs1.
  rewrite (bind_done _ _ _ _ _ (load_reg_run (PCI_BASE + i) 2 s)). fold s1.
  change (PCI_OFF 0 0 1) with 4096.
  assert (StronglySorted Z.lt (up ++ todo)) as Hsorted by (rewrite <-Hsplit; apply (board_order _ Hg)).
  apply StronglySorted_app_1_r in Hsorted.
  destruct (decide (PCI_BASE + i ∈ todo)) as [Hin|Hout].
  - assert (PCI_BASE + i ∈ functions) as Hf by (rewrite Hsplit; set_solver).
    destruct (function_load _ (dev s) Hf) as [-> _]. cbn [Z.eqb Pos.eqb].
    destruct todo as [|c todo]; [by apply not_elem_of_nil in Hin|].
    apply StronglySorted_inv in Hsorted as [Hsorted Hc]. rewrite Forall_forall in Hc.
    assert (c = PCI_BASE + i) as ->.
    { apply elem_of_cons in Hin as [->|Hin]; [done|]. specialize (Hc _ Hin). specialize (Habove c ltac:(by left)). lia. }
    destruct (scan_function s0 up _ todo s1 Hg Hs1) as (s2 & Hrun & Hs2).
    replace (PCI_BASE + i - PCI_BASE) with i in Hrun by lia. run_with Hrun.
    apply (IH (i + 4096) (up ++ [PCI_BASE + i]) todo); [done|lia|zlia|lia|..].
    + intros x [Hx|Hx%list_elem_of_singleton]%elem_of_app; [specialize (Hbelow x Hx)|]; lia.
    + intros x Hx. specialize (Hc x Hx). destruct (Hplace x); [rewrite Hsplit; set_solver|].
      unfold PCI_BASE in *. zlia.
  - assert ((mmio_load (PCI_BASE + i) 2 (dev s)).1 ≠ 6900) as Hv.
    { intros Hv. apply vendor_load in Hv.
      - rewrite Hsplit in Hv. apply elem_of_app in Hv as [Hv|Hv]; [specialize (Hbelow _ Hv); lia|done].
      - intros c Hc. destruct (Hplace c Hc) as [_ Hcm]. destruct (scan_hosts _ _ _ _ Hs c Hc) as (k & -> & _).
        destruct (board_window _ Hg) as [-> _]. unfold PCI_BASE, HOST_CONF_BASE, PCI_CONF_BASE. split; zlia. }
    apply Z.eqb_neq in Hv. rewrite Hv. run. apply (IH (i + 4096) up todo); [done|lia|zlia|lia|..].
    + intros x Hx. specialize (Hbelow x Hx). lia.
    + intros x Hx. specialize (Habove x Hx). destruct (Hplace x) as [_ Hxm]; [rewrite Hsplit; set_solver|].
      assert (x ≠ PCI_BASE + i) by (intros ->; done). unfold PCI_BASE in *. zlia.
Qed.

(** What the scan starts from: nothing configured yet, storage and blocks for
    all functions. *)
Record reset_state s : Prop := {
  reset_boot : boot_machine s;
  reset_base : pci_base s = 0;
  reset_table : zlen (virtio_drivers s) = MAX_VIRTIO_DEVICE_ID;
  reset_windows : ∀ c, c ∈ functions → f_bar0 (fn c (dev s)) = 0;
  reset_need : forever_storage_frontier s + total_need (dev s) functions <= _forever_storage_stop;
  reset_free : free_blocks s (S (length functions));
}.

Lemma configure_pci_up s :
  reset_state s → good_board (dev s) →
  ∃ s', configure_pci declared_drivers s = (Done tt, s') ∧ scan_state s functions [] s'.
Proof.
  intros [Hb Hbase Htable Hwin Hneed Hfree] Hg.
  destruct (drivers_loaded s Htable) as (ds & Hload & H5 & H3 & H1 & _).
  unfold configure_pci. run_with Hload.
  apply (scan_loop_up s _ 0 [] functions); [done| |lia|done|done|by intros c ?%not_elem_of_nil|].
  - split; try done.
    + by destruct Hb; split.
    + intros c Hc. exists 0. unfold host_of. cbn. rewrite Hwin by done. split; [lia|done].
    + intros c Hc. split; [done|].
      destruct (board_good _ Hg c Hc) as [_ Hk _|_ Hk _|_ Hk _]; rewrite Hk; cbn [virtio_drivers set_drivers] in *;
        [destruct (ds !! 1%nat) as [drv|] eqn:E|destruct (ds !! 3%nat) as [drv|] eqn:E|destruct (ds !! 5%nat) as [drv|] eqn:E];
        try done; exists drv; (split; [done|]); by simplify_eq/=.
    + by intros c ?%not_elem_of_nil.
    + by intros ? ? ? ? ? ? ?%not_elem_of_nil.
  - intros c Hc. destruct (board_place _ Hg c Hc) as [[? _] _]. lia.
Qed.

(** C4.  [configure_pci] brings up every device of the bus: on any good board
    -- any of a disk, a console and a source of randomness, on any device
    numbers, in any order -- the scan ends, the driver of every function is
    initialised and has a queue that is laid out in the forever storage, apart
    from those of the others, and idle in the state of the device, which has
    started on it; the content of the disk and the stack are as they were. *)
Theorem configure_pci_brings_up s :
  reset_state s → good_board (dev s) →
  ∃ s', configure_pci declared_drivers s = (Done tt, s') ∧ image s' = image s ∧ sp s' = sp s ∧
    (∀ c, c ∈ functions → ∃ drv v, unit_up s' (kind c) (used_queue (kind c)) c drv v) ∧
    (∀ c c' drv v drv' v', c ∈ functions → c' ∈ functions → c ≠ c' →
       unit_up s' (kind c) (used_queue (kind c)) c drv v → unit_up s' (kind c') (used_queue (kind c')) c' drv' v' →
       queue_end (desc v) (num v) <= desc v' ∨ queue_end (desc v') (num v') <= desc v).
Proof.
  intros Hs Hg. destruct (configure_pci_up s Hs Hg) as (s' & Hrun & Hs'). exists s'.
  destruct (scan_same _ _ _ _ Hs') as [Hsp _]. split_and!; try done; [apply Hs'| |apply Hs'].
  intros c Hc. destruct (scan_up _ _ _ _ Hs' c Hc) as (drv & v & Hup & _). by exists drv, v.
Qed.
End scan.
