(* ===== verification/MachineBoot.v ===== *)
(** * After the scan of the bus the machine works

    What [configure_pci] leaves behind on a board with a console and a source
    of randomness beside the disk is the invariant of MachineWorks.v. *)

From S2P Require Import Prelude Programs Layout Ecall Memory Machine Heap HeapTheorems Vring QueueState Blk BlkVring Chain VirtioDriver Pci LegacyBus BringUp BlkBoot Ext2 Ext2File Io IoTheorems Board ChainTheorems Randomness MachineWorks DeviceBoot BusScan.

Section works.
Context {D : Type} `{!Platform D} `{!VirtioBlk D} `{!VirtioChain D} `{!LegacyBus D} `{!Linker} `{!StaleVring}.
Implicit Types s : machine D.

(** There is a function for each of the three drivers (the disk's always is). *)
Record complete_board : Prop := {
  board_console : ∃ c, c ∈ functions ∧ kind c = CONSOLE_DRIVER;
  board_entropy : ∃ c, c ∈ functions ∧ kind c = ENTROPY_DRIVER;
}.

Lemma stack_off_storage room s : stack_ok room (sp s) → 0 <= _forever_storage_start → off_storage (sp s - 8).
Proof. unfold stack_ok, off_storage. lia. Qed.

Lemma unit_in_storage s i j c drv v : boot_machine s → unit_up s i j c drv v → in_storage v.
Proof.
  intros Hs Hu. pose proof (up_place _ _ _ _ _ _ Hu). pose proof (boot_frontier _ Hs). unfold in_storage. lia.
Qed.

(** The disk is where the disk is. *)
Lemma disk_kind d : good_board d → kind disk_function = BLK_DRIVER.
Proof.
  intros Hg. destruct (board_good _ Hg disk_function disk_on_bus); done.
Qed.

Lemma other_function d c : good_board d → kind c ≠ BLK_DRIVER → c ≠ disk_function.
Proof. intros Hg Hk ->. by rewrite (disk_kind d Hg) in Hk. Qed.

Lemma scan_works (B : Z → Prop) s0 room s :
  (∀ b, B b → off_storage b) → B (sp s - 8) →
  good_board (dev s0) → complete_board → scan_state s0 functions [] s → stack_ok room (sp s) →
  zlen (image s) mod 512 = 0 → zlen (image s) <= 2 ^ 64 →
  machine_works B room s ∧ transcript CONSOLE_DRIVER 1 s = [].
Proof.
  intros HB Hfirst Hg [(cc & Hcc & Hck) (ce & Hce & Hek)] Hs Hroom Hmod Hmax.
  pose proof (scan_boot _ _ _ _ Hs) as Hb. pose proof (disk_kind (dev s0) Hg) as Hdk.
  assert (cc ≠ disk_function) as Hcd by (apply (other_function (dev s0)); [done|by rewrite Hck]).
  assert (ce ≠ disk_function) as Hed by (apply (other_function (dev s0)); [done|by rewrite Hek]).
  destruct (scan_up _ _ _ _ Hs disk_function disk_on_bus) as (bdrv & bv & Hbu & _).
  destruct (scan_up _ _ _ _ Hs cc Hcc) as (cdrv & cv & Hcu & Hcn).
  destruct (scan_up _ _ _ _ Hs ce Hce) as (edrv & ev & Heu & _).
  pose proof (scan_apart _ _ _ _ Hs) as Hap.
  assert (queues_apart cv bv) as Hcb by by apply (Hap cc disk_function cdrv cv bdrv bv Hcc disk_on_bus).
  assert (queues_apart ev bv) as Heb by by apply (Hap ce disk_function edrv ev bdrv bv Hce disk_on_bus).
  assert (queues_apart ev cv) as Hec.
  { apply (Hap ce cc edrv ev cdrv cv); [done..|intros ->; by rewrite Hck in Hek|done|done]. }
  rewrite Hdk in Hbu. rewrite Hck in Hcu, Hcn. rewrite Hek in Heu.
  pose proof (unit_side_ready s CONSOLE_DRIVER 1 cc cdrv cv Hcu Hcd ltac:(done)) as Hc.
  pose proof (unit_side_ready s ENTROPY_DRIVER 0 ce edrv ev Heu Hed ltac:(done)) as [[He1 _] He2 He3 He4 He5].
  pose proof (unit_in_storage _ _ _ _ _ _ Hb Hbu). pose proof (unit_in_storage _ _ _ _ _ _ Hb Hcu).
  pose proof (unit_in_storage _ _ _ _ _ _ Hb Heu) as Hin. split.
  - exists bdrv, bv, cdrv, cv, edrv, ev. split; try done.
    + by apply unit_disk_ready.
    + split; try done; [by apply idle_open|]. intros b Hoff%HB. pose proof Hoff as (? & ? & _).
      split_and!; [done..|]. by apply off_storage_apart.
    + split; [done|]. split; apply Hb.
  - unfold transcript. rewrite (proj1 (side_drv _ _ _ _ _ Hc)). unfold received. rewrite (up_host _ _ _ _ _ _ Hcu).
    specialize (Hcn Hcd). unfold queue_view in Hcn. by rewrite decide_False in Hcn.
Qed.
End works.
