(* ===== verification/RefChain.v ===== *)
(** * A concrete device with a second queue

    The reference disk with one more virtio queue beside it, of another
    device: what it reads from a chain it appends to what it has received,
    and a chain it is to fill gets the front of its data.  It satisfies
    [VirtioChain] and models no code of the repository. *)

From S2P Require Import Prelude Layout Ecall Memory Machine Heap LinkerScript Vring QueueState Blk BlkVring Chain VirtioDriver RefDevice Ramdisk Ext2 Ext2File Ext2Theorems Io IoTheorems Board ChainTheorems Randomness.

Record side_device := SideDevice {
  sd_disk : ref_device;
  sd_view : blk_view;
  sd_index : Z;
  sd_data : list byte;
  sd_busy : option nat;
}.

(** The chain that the available ring of [w] names. *)
Definition serve_one (w : blk_view) (data : list byte) (m : memory) : blk_view * memory :=
  let ring := queue_avail (bv_queue w) (bv_num w) + 4 in
  let head := load_le m (ring + 2 * (bv_last_avail w mod bv_num w)) 2 in
  let item := bv_queue w + 16 * head in
  let buf := load_le m item 8 in
  let len := load_le m (item + 8) 4 in
  if load_le m (item + 12) 2 =? 0 then
    (view_after w (bv_image w ++ load m buf len), complete w (store m buf []) head 0)
  else
    let data := slice data 0 len in
    (view_after w (bv_image w ++ []), complete w (store m buf data) head (zlen data)).

(** The disk is told first, and the disk works first. *)
#[export] Instance side_platform : Platform side_device := {|
  mmio_store a n x d :=
    if decide (a = bv_host (rd_view (sd_disk d)) + 16) then
      SideDevice (mmio_store a n x (sd_disk d)) (sd_view d) (sd_index d) (sd_data d) (sd_busy d)
    else if decide (a = bv_host (sd_view d) + 16 ∧ x = sd_index d) then
      SideDevice (sd_disk d) (sd_view d) (sd_index d) (sd_data d) (Some latency)
    else d;
  mmio_load a n d := ((mmio_load a n (sd_disk d)).1, d);
  dma_step d m :=
    match rd_busy (sd_disk d), sd_busy d with
    | Some _, _ =>
        let '(e, m') := dma_step (sd_disk d) m in
        (SideDevice e (sd_view d) (sd_index d) (sd_data d) (sd_busy d), m')
    | None, None => (d, m)
    | None, Some (S n) => (SideDevice (sd_disk d) (sd_view d) (sd_index d) (sd_data d) (Some n), m)
    | None, Some O =>
        let '(w, m') := serve_one (sd_view d) (sd_data d) m in
        (SideDevice (sd_disk d) w (sd_index d) (sd_data d) None, m')
    end;
  patience := patience
|}.

#[export, refine] Instance side_virtio_blk : VirtioBlk side_device := {| view d := view (sd_disk d) |}.
Proof.
  - intros d. cbn. rewrite decide_True by done. cbn. exact (notify_view (sd_disk d)).
  - intros d m op sector hdr data status head v d0 Hposted.
    assert (d0 = SideDevice (RefDevice v (Some latency)) (sd_view d) (sd_index d) (sd_data d) (sd_busy d)) as ->
      by (unfold d0; cbn; by rewrite !decide_True by done).
    destruct (serve_chain_posted _ _ _ _ _ _ _ _ Hposted) as (img & m' & Hserved & Hchain).
    eexists latency, (SideDevice (RefDevice _ None) _ _ _ _), m', img. split_and!.
    + cbn. unfold latency. lia.
    + intros j Hj. unfold latency in Hj. assert (j = 1%nat ∨ j = 2%nat) as [->| ->] by lia; reflexivity.
    + change v with (rd_view (sd_disk d)) in Hchain |- *. cbn -[serve_chain]. by rewrite Hchain.
    + done.
    + done.
Defined.

Definition null_view : blk_view :=
  {| bv_image := []; bv_host := 0; bv_num := 0; bv_queue := 0; bv_last_avail := 0 |}.

(** Once nothing is to be done the devices rest. *)
Lemma iter_rest {D} `{!Platform D} (d : D) (m : memory) k :
  dma_step d m = (d, m) → Nat.iter k (λ '(d, m), dma_step d m) (d, m) = (d, m).
Proof. intros Hd. induction k as [|k IH]; [done|]. rewrite Nat.iter_succ, IH. exact Hd. Qed.

#[export, refine] Instance side_virtio_chain : VirtioChain side_device := {|
  side host q d := if decide (host = bv_host (sd_view d) ∧ q = sd_index d) then sd_view d else null_view;
  has_queue host q d := host = bv_host (sd_view d) ∧ q = sd_index d ∧
    bv_host (rd_view (sd_disk d)) ≠ host ∧ rd_busy (sd_disk d) = None ∧ sd_busy d = None;
  answer host q d len := slice (sd_data d) 0 len;
|}.
Proof.
  - intros [[v busy] w0 index stored own] m host q head buf len flags w d0 (-> & -> & Hne & Hbusy & Hown) Hposted.
    assert (w = w0) as Hw by (unfold w; by rewrite decide_True). clearbody w. subst w.
    destruct Hposted as [_ Hhead (Hb & Hl & Hf & _) Hfl]. cbn in Hne, Hbusy, Hown. subst busy own.
    assert (d0 = SideDevice (RefDevice v None) w0 index stored (Some latency)) as ->
      by (unfold d0; cbn in *; by rewrite decide_False, decide_True by (done || lia)).
    set (data := if flags =? 0 then [] else slice stored 0 len).
    set (w' := view_after w0 (bv_image w0 ++ if flags =? 0 then load m buf len else [])).
    assert (serve_one w0 stored m = (w', complete w0 (store m buf data) head (zlen data))) as Hserve.
    { unfold serve_one, data, w'. rewrite Hhead, Hb, Hl, Hf. by destruct Hfl as [-> | ->]. }
    exists latency, (SideDevice (RefDevice v None) w' index stored None), (complete w0 (store m buf data) head (zlen data)), data.
    split_and!; try done.
    + cbn. unfold latency. lia.
    + intros j Hj. unfold latency in Hj. assert (j = 1%nat ∨ j = 2%nat) as [->| ->] by lia; reflexivity.
    + cbn -[serve_one]. by rewrite Hserve.
    + assert (0 <= len) by (rewrite <-Hl; apply load_le_range). unfold data.
      destruct Hfl as [-> | ->]; cbn [Z.eqb]; [done|]. rewrite zlen_slice_min by lia. lia.
    + cbn. by rewrite decide_True.
    + intros host' q' Hother (-> & -> & _). by destruct Hother.
  - intros d m op sector hdr data status head k d0 d' Hposted Hview host q (-> & -> & Hne & Hbusy & Hown).
    destruct d as [[v busy] w0 index stored own]. cbn in Hposted, Hne, Hbusy, Hown. subst busy own.
    assert (d0 = SideDevice (RefDevice v (Some latency)) w0 index stored None) as Hd0
      by (unfold d0; cbn; by rewrite !decide_True by done).
    clearbody d0. subst d0. subst d'.
    destruct (serve_chain_posted _ _ _ _ _ _ _ _ Hposted) as (img & m' & _ & Hchain).
    destruct (decide (k < 3)%nat) as [Hk|Hk].
    { destruct Hview. assert (k = 0 ∨ k = 1 ∨ k = 2)%nat as [->|[->| ->]] by lia; reflexivity. }
    set (v' := {| bv_image := img; bv_host := bv_host v; bv_num := bv_num v; bv_queue := bv_queue v;
      bv_last_avail := u16 (bv_last_avail v + 1) |}).
    assert (Nat.iter k (λ '(d, m), dma_step d m) (SideDevice (RefDevice v (Some latency)) w0 index stored None, m)
      = (SideDevice (RefDevice v' None) w0 index stored None, m')) as ->; [|done].
    replace k with (k - 3 + 3)%nat by lia. rewrite Nat.iter_add.
    replace (Nat.iter 3 _ _) with (SideDevice (RefDevice v' None) w0 index stored None, m').
    + by apply iter_rest.
    + cbn -[serve_chain]. by rewrite Hchain.
Defined.

(** ** Machines with this device

    The disk of [ref_machine], and at 2 MiB a queue of 8 entries: the
    console's second or the entropy device's first. *)
Definition side_vring : vring :=
  {| num := 8; size := 4174; bouncebufs := 0;
     bookeeping := {| used_last := 0; avail_next := 0; avail_avail := 0; used_avail := 0;
                      descr_head := 0; descr_next := 0 |};
     desc := 2 ^ 21; avail := 2 ^ 21 + 128; used := 2 ^ 21 + 4096 |}.

Definition side_driver (id : Z) (f : driver_init_f) (queues : list vring) : virtio_driver :=
  {| device_id := id; initialized := true; init_f := Some f; host := 8192; pci := 0; conf := 0; vrings := queues |}.

Definition console_driver := side_driver 3 init_console_virtio_f [ref_vring; side_vring].
Definition entropy_driver := side_driver 4 init_entropy_virtio_f [side_vring].

Definition side_machine (index : Z) (stored img : list byte) (drivers : list virtio_driver) : machine side_device :=
  Machine ∅ (SideDevice (RefDevice (ref_view img) None)
      {| bv_image := []; bv_host := 8192; bv_num := 8; bv_queue := 2 ^ 21; bv_last_avail := 0 |} index stored None)
    drivers (2 ^ 31) ref_heap _forever_storage_start 0 [].

Definition console_machine img := side_machine 1 [] img [null_driver; ref_driver; null_driver; console_driver].
Definition entropy_machine stored :=
  side_machine 0 stored [] [null_driver; ref_driver; null_driver; null_driver; null_driver; entropy_driver].

Ltac side_machine_works :=
  split_and!; [split; [by split|done|done|split_and!; done|split; vm_compute; intuition congruence]
              |split; [done|done|by split|done|split; vm_compute; intuition congruence|]
              |split];
  vm_compute; intuition congruence.

Lemma console_machine_works img :
  zlen img mod 512 = 0 → zlen img <= 2 ^ 64 → side_works 4096 CONSOLE_DRIVER 1 (console_machine img).
Proof.
  intros. exists console_driver, side_vring, ref_driver, ref_vring. side_machine_works.
Defined.

Lemma entropy_machine_works stored : side_works 4096 ENTROPY_DRIVER 0 (entropy_machine stored).
Proof. exists entropy_driver, side_vring, ref_driver, ref_vring. side_machine_works. Defined.

#[export] Instance side_rtc : RtcLaw side_device.
Proof. intros a d. split; [done|]. apply (rtc_load a (sd_disk d)). Defined.

(** The sample volume is mounted, descriptor 0 open on its file. *)
Definition stdout_fd : io_descriptor := IoDescriptor true 0 0 (Some stdout_write_handler_f) None None.
Definition console_io : io_state (machine side_device) :=
  IoState (console_machine sample_image) [sample_fd; stdout_fd] sample_superblock true.

Lemma console_io_works : side_works 4096 CONSOLE_DRIVER 1 (below console_io).
Proof. apply console_machine_works; concrete. Defined.

(** The device has only three bytes to give. *)
Lemma dl_random_configured_witness :
  ∃ s', configure_dl_random (entropy_machine [Byte.x01; Byte.x02; Byte.x03]) = (Done 197121, s').
Proof.
  destruct (dl_random_configured 4096 (entropy_machine [Byte.x01; Byte.x02; Byte.x03])) as (s' & Hrun & _);
    [apply entropy_machine_works|lia|].
  exists s'. rewrite Hrun. reflexivity.
Defined.

(** Seven chunks with the stack at one place, then one more with the stack
    at another: the device fills the old chunk. *)
Definition eight_bytes : list byte := [Byte.x01; Byte.x02; Byte.x03; Byte.x04; Byte.x05; Byte.x06; Byte.x07; Byte.x08].
Definition moved_machine : machine side_device :=
  set_sp (2 ^ 31 - 4096) (virtio_get_randomness 56 (entropy_machine eight_bytes)).2.
Definition two_buffers (b : Z) : Prop := b = 2 ^ 31 - 8 ∨ b = 2 ^ 31 - 4104.

Lemma entropy_machine_ready stored : entropy_ready two_buffers (entropy_machine stored) entropy_driver side_vring.
Proof.
  split; try done; [apply idle_open; split; vm_compute; intuition congruence|].
  intros b [->| ->]; vm_compute; intuition congruence.
Qed.

Definition moved_driver : virtio_driver := default null_driver (virtio_drivers moved_machine !! ENTROPY_DRIVER).
Definition moved_vring : vring := default side_vring (vrings moved_driver !! 0%nat).

Lemma moved_ready : entropy_ready two_buffers moved_machine moved_driver moved_vring.
Proof.
  destruct (randomness_request two_buffers (entropy_machine eight_bytes) entropy_driver side_vring 56)
    as (bytes & m' & d' & v' & Hrun & _ & Hd & Hn & Hhas & Hq & _); [apply entropy_machine_ready|by left|lia|].
  assert (moved_machine = set_sp (2 ^ 31 - 4096)
    (QueueState.st ENTROPY_DRIVER 0 (entropy_machine eight_bytes) entropy_driver m' d' v' (2 ^ 31))) as Hm
    by (unfold moved_machine; rewrite Hrun; reflexivity).
  assert (moved_driver = drv_with 0 entropy_driver v') as Hdrv by (unfold moved_driver; rewrite Hm; reflexivity).
  assert (moved_vring = v') as Hv by (unfold moved_vring; rewrite Hdrv; reflexivity).
  clear Hrun. rewrite Hm, Hdrv, Hv. clear Hm Hdrv Hv. split; [done..|exact Hhas|exact Hq|].
  rewrite Hd, Hn. apply (ent_buffers _ _ _ _ (entropy_machine_ready eight_bytes)).
Qed.

Lemma randomness_misdelivered_witness :
  ∃ s', virtio_get_randomness 8 moved_machine = (Done (8, zeros 8), s') ∧
    load (mem s') (2 ^ 31 - 8) 8 = eight_bytes.
Proof.
  destruct (randomness_misdelivered two_buffers moved_machine moved_driver moved_vring 0 (2 ^ 31 - 8))
    as (s' & Hrun & Hload); [apply moved_ready|by right|by left|vm_compute; intuition congruence
    |vm_compute; congruence|vm_compute; reflexivity|vm_compute; congruence|vm_compute; intuition congruence|].
  exists s'. split; [exact Hrun|]. rewrite Hload. vm_compute. reflexivity.
Defined.
