(* ===== verification/BootDevice.v ===== *)
(** * A concrete board to boot, and the witnesses of BlkBoot.v and DeviceBoot.v

    A console, a disk and a source of randomness on a PCI bus, with legacy
    register windows.  The disk serves chains as the reference device of
    RefDevice.v does, the other two as the one of RefChain.v.  The board
    satisfies the laws of LegacyBus.v and models no code of the repository. *)

From stdpp Require Import functions.
From S2P Require Import Prelude Layout Ecall Memory Machine Heap LinkerScript HeapTheorems Vring QueueState Blk BlkVring Chain VirtioDriver Pci RefDevice LegacyBus BringUp BlkBoot Ext2 Ext2File Io IoTheorems Board ChainTheorems Randomness MachineWorks DeviceBoot BusScan MachineBoot RefChain.

(** Devices 1 to 3 of bus 0. *)
Definition board_console : Z := 805339136.
Definition board_disk : Z := 805371904.
Definition board_entropy : Z := 805404672.
Definition board_functions : list Z := [board_console; board_disk; board_entropy].
Definition board_window : Z := 50331648.
Definition board_id (c : Z) : Z :=
  if decide (c = board_disk) then 4097 else if decide (c = board_console) then 4099 else 4101.

(** [b_taken]: how many chains the disk has taken; [b_side]: the queues of the
    other devices, by the address of the window; [b_data]: what the source of
    randomness has to say; [b_busy]: who is at work, and for how long. *)
Record board := TheBoard {
  b_regs : Z → function_regs;
  b_image : list byte;
  b_taken : Z;
  b_side : Z → Z → option blk_view;
  b_data : list byte;
  b_busy : option (nat * option (Z * Z));
}.

(** Sizes are 16-bit registers. *)
Definition b_fn (c : Z) (d : board) : function_regs :=
  let r := b_regs d c in
  FunctionRegs (f_bar0 r) (f_sel r) (f_pfn r) (f_status r) (λ q, u16 (f_size r q)).
Definition b_host (c : Z) (d : board) : Z := board_window + f_bar0 (b_fn c d).

Definition b_view (d : board) : blk_view :=
  {| bv_image := b_image d; bv_host := b_host board_disk d; bv_num := f_size (b_fn board_disk d) 0;
     bv_queue := 4096 * f_pfn (b_fn board_disk d) 0; bv_last_avail := b_taken d |}.

Definition with_busy (b : option (nat * option (Z * Z))) (d : board) : board :=
  TheBoard (b_regs d) (b_image d) (b_taken d) (b_side d) (b_data d) b.

Definition starts (c a x : Z) (d : board) : bool :=
  (a =? b_host c d + 18) && negb (Z.testbit (f_status (b_fn c d)) 2) && Z.testbit x 2.

Definition start_queues (a x : Z) (d : board) (h q : Z) : option blk_view :=
  match find (λ c, negb (c =? board_disk) && starts c a x d && (h =? b_host c d)) board_functions with
  | Some c =>
      if 0 <? f_size (b_fn c d) q then
        Some {| bv_image := []; bv_host := h; bv_num := f_size (b_fn c d) q;
                bv_queue := 4096 * f_pfn (b_fn c d) q; bv_last_avail := 0 |}
      else b_side d h q
  | None => b_side d h q
  end.

Definition board_store (a x : Z) (d : board) : board :=
  if existsb (λ c, a =? b_host c d + 16) board_functions then
    if a =? b_host board_disk d + 16 then with_busy (Some (latency, None)) d
    else match b_side d (a - 16) x with
         | Some _ => with_busy (Some (latency, Some (a - 16, x))) d
         | None => d
         end
  else
    TheBoard (λ c, legacy_store board_window c a x (b_regs d c)) (b_image d)
      (if starts board_disk a x d then 0 else b_taken d) (start_queues a x d) (b_data d)
      (if existsb (λ c, starts c a x d) board_functions then None else b_busy d).

Definition board_load (a : Z) (d : board) : Z :=
  if decide (a ∈ board_functions) then 6900
  else if decide (a - 2 ∈ board_functions) then board_id (a - 2)
  else match find (λ c, a =? b_host c d + 12) board_functions with
       | Some c => f_size (b_fn c d) (f_sel (b_fn c d))
       | None => 0
       end.

Definition put_side (h q : Z) (w : blk_view) (f : Z → Z → option blk_view) : Z → Z → option blk_view :=
  λ h' q', if decide (h' = h ∧ q' = q) then Some w else f h' q'.

Definition board_step (d : board) (m : memory) : board * memory :=
  match b_busy d with
  | None => (d, m)
  | Some (S n, who) => (with_busy (Some (n, who)) d, m)
  | Some (O, None) =>
      let '(v, m') := serve_chain (b_view d) m in
      (TheBoard (b_regs d) (bv_image v) (bv_last_avail v) (b_side d) (b_data d) None, m')
  | Some (O, Some (h, q)) =>
      match b_side d h q with
      | Some w =>
          let '(w', m') := serve_one w (b_data d) m in
          (TheBoard (b_regs d) (b_image d) (b_taken d) (put_side h q w' (b_side d)) (b_data d) None, m')
      | None => (with_busy None d, m)
      end
  end.

#[export] Instance board_platform : Platform board := {|
  mmio_store a n x d := board_store a x d;
  mmio_load a n d := (board_load a d, d);
  dma_step := board_step;
  patience := patience
|}.

(** ** The laws *)

Definition b_clear (c : Z) (d : board) : Prop := ∀ c', c' ∈ board_functions →
  blocks_apart c' (b_host c d) ∧ (c' ≠ c → blocks_apart (b_host c' d) (b_host c d)).

Lemma find_unique {A} (f : A → bool) (l : list A) x :
  x ∈ l → f x = true → (∀ y, y ∈ l → f y = true → y = x) → find f l = Some x.
Proof.
  intros Hx Hf Huniq. destruct (find f l) as [y|] eqn:Hfind.
  - apply find_some in Hfind as [Hy Hfy]. f_equal. apply Huniq; [by apply list_elem_of_In|done].
  - apply list_elem_of_In in Hx. apply (find_none _ _ Hfind) in Hx. congruence.
Qed.

Lemma existsb_false {A} (f : A → bool) (l : list A) : (∀ x, x ∈ l → f x = false) → existsb f l = false.
Proof. intros Hf. induction l as [|x l IH]; [done|]. cbn. rewrite Hf by left. apply IH. intros. apply Hf. by right. Qed.

Lemma notified d c a : c ∈ board_functions → a = b_host c d + 16 →
  existsb (λ c, a =? b_host c d + 16) board_functions = true.
Proof. intros Hc ->. apply existsb_exists. exists c. split; [by apply list_elem_of_In|lia]. Qed.

Lemma notify_disk x d : board_store (bv_host (b_view d) + 16) x d = with_busy (Some (latency, None)) d.
Proof.
  unfold board_store. rewrite (notified d board_disk) by (done || (unfold board_functions; set_solver)).
  cbn [b_view bv_host]. by rewrite Z.eqb_refl.
Qed.

#[export, refine] Instance board_virtio_blk : VirtioBlk board := {| view := b_view |}.
Proof.
  - intros d. cbn [mmio_store board_platform]. by rewrite notify_disk.
  - intros d m op sector hdr data status head v d0 Hposted.
    assert (d0 = with_busy (Some (latency, None)) d) as -> by apply notify_disk.
    destruct (serve_chain_posted _ _ _ _ _ _ _ _ Hposted) as (img & m' & Hserved & Hchain).
    eexists latency, (TheBoard _ _ _ _ _ None), m', img. split_and!.
    + cbn. unfold latency. lia.
    + intros j Hj. unfold latency in Hj. assert (j = 1%nat ∨ j = 2%nat) as [->| ->] by lia; reflexivity.
    + cbn -[serve_chain b_view]. change (b_view _) with v. by rewrite Hchain.
    + done.
    + done.
Defined.

Definition b_has_queue (h q : Z) (d : board) : Prop :=
  is_Some (b_side d h q) ∧ b_busy d = None ∧
  ∃ c, c ∈ board_functions ∧ c ≠ board_disk ∧ h = b_host c d ∧ b_clear c d.

Lemma notify_side h q d : b_has_queue h q d →
  board_store (h + 16) q d = with_busy (Some (latency, Some (h, q))) d.
Proof.
  intros ((w & Hw) & _ & c & Hc & Hne & -> & Hclear). unfold board_store.
  rewrite (notified d c) by done.
  assert (board_disk ∈ board_functions) as Hd by (unfold board_functions; set_solver).
  destruct (Hclear board_disk Hd) as [_ Hap]. unfold blocks_apart in Hap.
  replace (_ =? b_host board_disk d + 16) with false by (specialize (Hap (not_eq_sym Hne)); lia).
  by rewrite Z.add_simpl_r, Hw.
Qed.

Definition side_of (h q : Z) (d : board) : blk_view := default null_view (b_side d h q).

#[export, refine] Instance board_virtio_chain : VirtioChain board :=
  {| side := side_of; has_queue := b_has_queue; answer host q d len := slice (b_data d) 0 len |}.
Proof.
  - intros d m host q head buf len flags w d0 Hhas Hposted.
    assert (d0 = with_busy (Some (latency, Some (host, q))) d) as -> by (by apply notify_side).
    pose proof Hhas as ((w0 & Hw0) & Hbusy & c & Hc & Hne & Hhost & Hclear).
    assert (w = w0) as Hw by (unfold w, side_of; by rewrite Hw0). clearbody w. subst w0.
    destruct Hposted as [_ Hhead (Hb & Hl & Hf & _) Hfl].
    set (data := if flags =? 0 then [] else slice (b_data d) 0 len).
    set (w' := view_after w (bv_image w ++ if flags =? 0 then load m buf len else [])).
    assert (serve_one w (b_data d) m = (w', complete w (store m buf data) head (zlen data))) as Hserve.
    { unfold serve_one, data, w'. rewrite Hhead, Hb, Hl, Hf. by destruct Hfl as [-> | ->]. }
    eexists latency, (TheBoard _ _ _ _ _ None), _, data. split_and!.
    + cbn. unfold latency. lia.
    + intros j Hj. unfold latency in Hj. assert (j = 1%nat ∨ j = 2%nat) as [->| ->] by lia; reflexivity.
    + cbn -[serve_one]. rewrite Hw0, Hserve. reflexivity.
    + assert (0 <= len) by (rewrite <-Hl; apply load_le_range). unfold data.
      destruct Hfl as [-> | ->]; cbn [Z.eqb]; [done|]. rewrite zlen_slice_min by lia. lia.
    + done.
    + done.
    + split; [|split; [done|by exists c]]. cbn. unfold put_side. by rewrite decide_True.
    + done.
    + unfold side_of. cbn. unfold put_side. by rewrite decide_True.
    + intros h' q' Hother ((w1 & Hw1) & _ & Hc'). unfold side_of. cbn. unfold put_side.
      rewrite decide_False by (intros [-> ->]; done). split; [done|]. split; [|split; [done|exact Hc']].
      cbn. unfold put_side. rewrite decide_False by (intros [-> ->]; done). by rewrite Hw1.
  - intros d m op sector hdr data status head k d0 d' Hposted Hview host q Hhas.
    assert (d0 = with_busy (Some (latency, None)) d) as Hd0 by apply notify_disk.
    clearbody d0. subst d0. subst d'.
    destruct (serve_chain_posted _ _ _ _ _ _ _ _ Hposted) as (img & m' & _ & Hchain).
    destruct (decide (k < 3)%nat) as [Hk|Hk].
    { destruct Hview. assert (k = 0 ∨ k = 1 ∨ k = 2)%nat as [->|[->| ->]] by lia; reflexivity. }
    set (d1 := TheBoard (b_regs d) img (u16 (b_taken d + 1)) (b_side d) (b_data d) None).
    assert (Nat.iter k (λ '(d, m), dma_step d m) (with_busy (Some (latency, None)) d, m) = (d1, m')) as ->.
    2: { split; [done|]. destruct Hhas as (? & _ & ?). by split_and!. }
    replace k with (k - 3 + 3)%nat by lia. rewrite Nat.iter_add.
    replace (Nat.iter 3 _ _) with (d1, m').
    + by apply iter_rest.
    + cbn -[serve_chain b_view]. change (b_view _) with (b_view d). change (view d) with (b_view d) in Hchain.
      by rewrite Hchain.
Defined.

Lemma board_fn_store c a x d :
  existsb (λ c, a =? b_host c d + 16) board_functions = false →
  b_fn c (board_store a x d) = legacy_store board_window c a x (b_fn c d).
Proof.
  intros Hn. unfold board_store. rewrite Hn. unfold b_fn, legacy_store, b_host. cbn.
  by repeat case_decide.
Qed.

Lemma not_notified d a :
  (∀ c, c ∈ board_functions → a ≠ b_host c d + 16) →
  existsb (λ c, a =? b_host c d + 16) board_functions = false.
Proof. intros Hn. apply existsb_false. intros c Hc. specialize (Hn c Hc). lia. Qed.

(** A register of a window that is clear belongs to no other function. *)
Lemma clear_register c d off :
  c ∈ board_functions → b_clear c d → 0 <= off < 64 →
  ∀ c', c' ∈ board_functions → ∀ off', 0 <= off' < 64 → b_host c d + off = b_host c' d + off' → c' = c ∧ off' = off.
Proof.
  intros Hc Hclear Hoff c' Hc' off' Hoff' Heq. destruct (Hclear c' Hc') as [_ Hap]. unfold blocks_apart in Hap.
  destruct (decide (c' = c)) as [->|Hne]; [split; [done|lia]|]. specialize (Hap Hne). lia.
Qed.

Lemma start_notified c d : c ∈ board_functions → b_clear c d →
  existsb (λ c', b_host c d + 18 =? b_host c' d + 16) board_functions = false.
Proof.
  intros Hc Hclear. apply not_notified. intros c' Hc' Heq.
  destruct (clear_register c d 18 Hc Hclear ltac:(lia) c' Hc' 16 ltac:(lia) Heq). lia.
Qed.

Lemma legacy_elsewhere c a x d :
  existsb (λ c, a =? b_host c d + 16) board_functions = false →
  ¬ in_block c a → ¬ in_block (b_host c d) a → b_fn c (board_store a x d) = b_fn c d.
Proof. intros Hn H1 H2. rewrite board_fn_store by done. by apply legacy_store_elsewhere. Qed.

(** The status register. *)
Lemma status_store c v d :
  c ∈ board_functions → b_clear c d →
  b_fn c (board_store (b_host c d + 18) v d)
  = FunctionRegs (f_bar0 (b_fn c d)) (f_sel (b_fn c d)) (f_pfn (b_fn c d)) v (f_size (b_fn c d)).
Proof.
  intros Hc Hclear. rewrite board_fn_store by (by apply start_notified).
  destruct (Hclear c Hc) as [Hap _]. unfold blocks_apart in Hap.
  unfold legacy_store. change (board_window + f_bar0 (b_fn c d)) with (b_host c d).
  rewrite !decide_False by lia. by rewrite decide_True.
Qed.

Lemma disk_in : board_disk ∈ board_functions.
Proof. unfold board_functions. set_solver. Qed.
#[local] Hint Resolve disk_in : core.

Lemma board_side_quiet c q a x d :
  c ∈ board_functions → existsb (λ c, a =? b_host c d + 16) board_functions = false →
  ¬ in_block c a ∧ ¬ in_block (b_host c d) a → b_clear c (board_store a x d) → b_has_queue (b_host c d) q d →
  side_of (b_host c d) q (board_store a x d) = side_of (b_host c d) q d ∧
  b_has_queue (b_host c d) q (board_store a x d).
Proof.
  intros Hc Hn [H1 H2] Hclear ((w & Hw) & Hbusy & c0 & Hc0 & Hne & Hh & Hcl0).
  assert (c0 = c) as ->.
  { destruct (clear_register c0 d 0 Hc0 Hcl0 ltac:(lia) c Hc 0 ltac:(lia)); [lia|done]. }
  assert (b_side (board_store a x d) (b_host c d) q = b_side d (b_host c d) q) as Hside.
  { unfold board_store. rewrite Hn. cbn. unfold start_queues.
    destruct (find _ _) as [c'|] eqn:Hfind; [|done]. apply find_some in Hfind as [_ Hf].
    unfold starts, in_block in *. lia. }
  split; [unfold side_of; by rewrite Hside|]. split; [rewrite Hside; by exists w|].
  split; [|exists c; split_and!; try done; unfold b_host; by rewrite legacy_elsewhere].
  unfold board_store. rewrite Hn. change ((if existsb (λ c, starts c a x d) board_functions then None else b_busy d) = None).
  rewrite Hbusy. by case_match.
Qed.

#[export, refine] Instance board_legacy : LegacyBus board := {|
  functions := board_functions; disk_function := board_disk; io_window := board_window; pci_id := board_id; fn := b_fn
|}.
Proof.
  - exact disk_in.
  - intros c a n v d _ Hn. apply board_fn_store. by apply not_notified.
  - done.
  - intros a d Hl Ha. cbn in Hl. unfold board_load in Hl. destruct (decide (a ∈ board_functions)); [done|].
    destruct (decide (a - 2 ∈ board_functions)) as [Hin|_]; [destruct (Ha _ Hin); lia|].
    destruct (find _ _) as [c|] eqn:Hfind; [|done]. apply find_some in Hfind as [Hc Hf].
    apply list_elem_of_In in Hc. destruct (Ha c Hc) as [_ Hne]. destruct Hne. unfold b_host, b_fn in Hf. cbn in *. lia.
  - intros c d Hc. cbn. unfold board_load. rewrite (decide_True _ _ Hc). split; [done|].
    rewrite decide_False, decide_True; rewrite ?Z.add_simpl_r; try done.
    unfold board_functions in *. set_unfold. unfold board_console, board_disk, board_entropy in *. lia.
  - intros c d Hc Hclear. change (∀ c', c' ∈ board_functions → blocks_apart c' (b_host c d) ∧
      (c' ≠ c → blocks_apart (b_host c' d) (b_host c d))) in Hclear.
    change (board_load (b_host c d + 12) d = f_size (b_fn c d) (f_sel (b_fn c d))). unfold board_load.
    rewrite decide_False by (intros Hin; destruct (Hclear _ Hin) as [Hap _]; unfold blocks_apart in Hap; lia).
    rewrite decide_False by (intros Hin; destruct (Hclear _ Hin) as [Hap _]; unfold blocks_apart in Hap; lia).
    rewrite (find_unique _ _ c); [done|done|lia|]. intros c' Hc' Heq.
    apply (clear_register c d 12 Hc Hclear ltac:(lia) c' Hc' 12 ltac:(lia)). lia.
  - done.
  - intros a n v d. cbn. unfold board_store. destruct (existsb _ _); [|done]. destruct (_ =? _); [done|].
    by destruct (b_side d _ _).
  - done.
  - intros a n v d Hn [H1 H2]. apply not_notified in Hn. change (¬ in_block (b_host board_disk d) a) in H2.
    change (b_view (board_store a v d) = b_view d). unfold b_view, b_host.
    rewrite (legacy_elsewhere board_disk) by done. unfold board_store. rewrite Hn. cbn.
    replace (starts board_disk a v d) with false; [done|]. unfold starts, in_block in *. lia.
  - intros c q a n v d Hc Hn Hel Hcl Hhas. by apply board_side_quiet; [|apply not_notified|..].
  - intros v d r Hclear Hst Hv. change (b_clear board_disk d) in Hclear.
    change (b_view (board_store (b_host board_disk d + 18) v d) = {| bv_image := b_image d;
      bv_host := b_host board_disk d; bv_num := f_size (b_fn board_disk d) 0;
      bv_queue := 4096 * f_pfn (b_fn board_disk d) 0; bv_last_avail := 0 |}).
    assert (b_host board_disk (board_store (b_host board_disk d + 18) v d) = b_host board_disk d) as Hhost
      by (unfold b_host at 1; by rewrite status_store).
    unfold b_view. rewrite Hhost, status_store by done.
    assert (starts board_disk (b_host board_disk d + 18) v d = true) as Hstarts.
    { unfold starts. change (f_status (b_fn board_disk d)) with (f_status r). by rewrite Z.eqb_refl, Hst, Hv. }
    unfold board_store. rewrite start_notified by done. cbn [b_image b_taken]. by rewrite Hstarts.
  - intros c q v d r d' Hc Hne Hclear Hq Hst Hv. change (b_clear c d) in Hclear.
    change (0 < f_size (b_fn c d) q) in Hq. change (Z.testbit (f_status (b_fn c d)) 2 = false) in Hst.
    assert (starts c (b_host c d + 18) v d = true) as Hstarts by (unfold starts; by rewrite Z.eqb_refl, Hst, Hv).
    assert (b_side d' (b_host c d) q = Some {| bv_image := []; bv_host := b_host c d; bv_num := f_size (b_fn c d) q;
      bv_queue := 4096 * f_pfn (b_fn c d) q; bv_last_avail := 0 |}) as Hside.
    { change d' with (board_store (b_host c d + 18) v d). unfold board_store. rewrite start_notified by done. cbn.
      unfold start_queues. rewrite (find_unique _ _ c); [by replace (0 <? _) with true by lia|done| |].
      - rewrite Hstarts, Z.eqb_refl. by replace (c =? board_disk) with false by lia.
      - intros c' Hc' Hf. apply (clear_register c d 0 Hc Hclear ltac:(lia) c' Hc' 0 ltac:(lia)). lia. }
    split; [change (side_of (b_host c d) q d' = {| bv_image := []; bv_host := b_host c d; bv_num := f_size (b_fn c d) q;
      bv_queue := 4096 * f_pfn (b_fn c d) q; bv_last_avail := 0 |}); unfold side_of; by rewrite Hside|].
    change (b_has_queue (b_host c d) q d'). split; [by rewrite Hside|]. split.
    + change d' with (board_store (b_host c d + 18) v d). unfold board_store. rewrite start_notified by done. change (b_busy _) with
        (if existsb (λ c', starts c' (b_host c d + 18) v d) board_functions then None else b_busy d).
      case_match eqn:He; [done|]. rewrite <-not_true_iff_false, existsb_exists in He. destruct He. exists c.
      split; [by apply list_elem_of_In|done].
    + exists c. assert (∀ x, x ∈ board_functions → b_host x d' = b_host x d) as Hhosts.
      { intros x Hx. change d' with (board_store (b_host c d + 18) v d). unfold b_host at 1.
        destruct (decide (x = c)) as [->|Hxc]; [by rewrite status_store|].
        destruct (Hclear x Hx) as [H1 H2]. specialize (H2 Hxc). unfold blocks_apart in *.
        rewrite legacy_elsewhere; [done|by apply start_notified|unfold in_block; lia..]. }
      split_and!; [done|done|by rewrite Hhosts|]. intros x Hx. rewrite !Hhosts by done. by apply Hclear.
Defined.

(** ** A board that has been reset

    [n]: the sizes of the queues of the disk, and of the console's two. *)
Definition reset_function (size : Z → Z) : function_regs := FunctionRegs 0 0 (λ _, 0) 0 size.

Definition reset_board (n n0 n1 : Z) (img data : list byte) : board :=
  TheBoard (λ c, reset_function (λ q,
      if decide (c = board_disk) then (if q =? 0 then n else 0)
      else if decide (c = board_console) then (if q =? 0 then n0 else if q =? 1 then n1 else 0)
      else if q =? 0 then 8 else 0))
    img 0 (λ _ _, None) data None.

(** A malloced [struct vring] holds what its memory held before. *)
#[export] Instance zero_vring : StaleVring := {| stale_vring :=
  {| num := 0; size := 0; bouncebufs := 0;
     bookeeping := {| used_last := 0; avail_next := 0; avail_avail := 0; used_avail := 0;
                      descr_head := 0; descr_next := 0 |};
     desc := 0; avail := 0; used := 0 |} |}.

(** The machine in front of it, with the memory layout of the linker script
    and an empty driver table. *)
Definition reset_machine (n n0 n1 : Z) (img data : list byte) : machine board :=
  Machine ∅ (reset_board n n0 n1 img data) (replicate 10 null_driver) _sp ref_heap _forever_storage_start 0 [].

Lemma reset_boot_machine n n0 n1 img data : boot_machine (reset_machine n n0 n1 img data).
Proof.
  split.
  - split; vm_compute; intuition congruence.
  - vm_compute. intuition congruence.
  - intros a _. cbn. by rewrite lookup_empty.
  - right. vm_compute. congruence.
  - vm_compute. intuition congruence.
Qed.

Lemma reset_host c n n0 n1 img data : host_of c (dev (reset_machine n n0 n1 img data)) = board_window.
Proof. done. Qed.

(** Nothing is where a first function's window of 4096 is to be. *)
Lemma reset_bus_ready c n n0 n1 img data :
  c ∈ board_functions → bus_ready c 4096 (dev (reset_machine n n0 n1 img data)).
Proof.
  intros Hc. unfold bus_ready, blocks_apart. change (functions (D := board)) with board_functions.
  change (io_window (D := board)) with board_window. change (host_of c _) with board_window.
  assert (∀ x, x ∈ board_functions → 805339136 <= x ∧ x mod 4096 = 0) as Hin.
  { intros x Hx. unfold board_functions, board_console, board_disk, board_entropy in Hx. set_unfold.
    destruct Hx as [->|[->|[->|[]]]]; done. }
  pose proof (Hin c Hc). unfold board_window in *. split; [done|]. split; [lia|]. split; [lia|].
  intros c' Hc' Hne. change (host_of c' _) with 50331648. pose proof (Hin c' Hc'). zlia.
Qed.

Lemma reset_free_blocks n n0 n1 img data k :
  (k <= 10)%nat → free_blocks (reset_machine n n0 n1 img data) k.
Proof.
  intros Hk. apply fresh_free_blocks; [|intros a _; cbn; by rewrite lookup_empty|done].
  apply (boot_heap _ (reset_boot_machine n n0 n1 img data)).
Qed.

Lemma reset_boot_state i c need n n0 n1 img data :
  (i < 10)%nat → c ∈ board_functions → need <= 81920 →
  boot_state (reset_machine n n0 n1 img data) i c 4096 need.
Proof.
  intros Hi Hc Hneed. split.
  - apply reset_boot_machine.
  - exists null_driver. by apply lookup_replicate_2.
  - by apply reset_bus_ready.
  - apply (free_blocks_one _ 0), reset_free_blocks. lia.
  - destruct standard_areas as (_ & _ & _ & <- & _). cbn. lia.
Qed.

(** ** The witnesses *)

Lemma blk_boot_ready_witness :
  ∃ s', init_blk_virtio BLK_DRIVER board_disk (board_window + 4096) 4096 (reset_machine 256 8 8 (zeros 1024) [])
    = (Done true, s') ∧ ready s' ∧ image s' = zeros 1024.
Proof.
  destruct (blk_boot_ready (reset_machine 256 8 8 (zeros 1024) []) 4096) as (s' & Hrun & Hs' & Him);
    [apply reset_boot_state; [unfold BLK_DRIVER; lia|apply disk_in|vm_compute; congruence]|vm_compute; reflexivity
    |vm_compute; reflexivity|vm_compute; congruence|].
  exists s'. split; [exact Hrun|]. split; [exact Hs'|]. rewrite Him. reflexivity.
Defined.

(** A queue of 128 entries, which is what QEMU's default was. *)
Lemma blk_boot_small_queue_witness :
  ∃ s', init_blk_virtio BLK_DRIVER board_disk (board_window + 4096) 4096 (reset_machine 128 8 8 (zeros 1024) [])
    = (Done true, s') ∧ ¬ ready s'.
Proof.
  destruct (blk_boot_small_queue (reset_machine 128 8 8 (zeros 1024) []) 4096) as (s' & Hrun & Hs');
    [apply reset_boot_state; [unfold BLK_DRIVER; lia|apply disk_in|vm_compute; congruence]|vm_compute; intuition congruence|].
  exists s'. split; [exact Hrun|exact Hs'].
Defined.

Lemma in_functions c : c ∈ functions (D := board) → c = board_console ∨ c = board_disk ∨ c = board_entropy.
Proof. change (functions (D := board)) with board_functions. unfold board_functions. set_solver. Qed.

Lemma reset_good_board img data : good_board (reset_board 256 8 8 img data).
Proof.
  split.
  - change (functions (D := board)) with board_functions. unfold board_functions. repeat constructor.
  - intros c [->|[->| ->]]%in_functions; unfold scanned; vm_compute; intuition congruence.
  - split; [done|]. cbn. lia.
  - intros c c' [->|[->| ->]]%in_functions [->|[->| ->]]%in_functions; done.
  - intros c [->|[->| ->]]%in_functions.
    + apply good_console; [done|reflexivity|vm_compute; intuition congruence|reflexivity].
    + by apply good_disk.
    + apply good_entropy; [done|reflexivity|vm_compute; intuition congruence].
Qed.

Lemma reset_reset_state img data : reset_state (reset_machine 256 8 8 img data).
Proof.
  split; try done.
  - apply reset_boot_machine.
  - apply reset_free_blocks. cbn. lia.
Qed.

(** The disk comes up between the two others. *)
Lemma configure_pci_brings_up_witness :
  ∃ s', configure_pci declared_drivers (reset_machine 256 8 8 (zeros 1024) []) = (Done tt, s') ∧
    image s' = zeros 1024 ∧ ∀ c, c ∈ board_functions → ∃ drv v, unit_up s' (kind c) (used_queue (kind c)) c drv v.
Proof.
  destruct (configure_pci_brings_up (reset_machine 256 8 8 (zeros 1024) [])) as (s' & Hrun & Him & _ & Hup & _);
    [apply reset_reset_state|apply reset_good_board|].
  exists s'. split; [exact Hrun|]. split; [exact Him|exact Hup].
Defined.

(** A receive queue of 8 entries and a transmit queue of 16. *)
Lemma console_boot_unequal_witness :
  ∃ s', init_console_virtio CONSOLE_DRIVER board_console (board_window + 4096) 4096
      (reset_machine 256 8 16 (zeros 1024) []) = (Done true, s') ∧ ¬ side_works 4096 CONSOLE_DRIVER 1 s'.
Proof.
  destruct (console_boot_unequal CONSOLE_DRIVER board_console 4096 (reset_machine 256 8 16 (zeros 1024) []))
    as (s' & Hrun & Hs');
    [apply reset_boot_state; [unfold CONSOLE_DRIVER; lia|unfold board_functions; set_solver|vm_compute; congruence]
    |done|vm_compute; intuition congruence|done|vm_compute; congruence|].
  exists s'. split; [exact Hrun|apply Hs'].
Defined.

(** The machine after the scan. *)
Lemma board_complete : complete_board (D := board).
Proof.
  split; [exists board_console|exists board_entropy]; (split; [|done]);
    change (functions (D := board)) with board_functions; unfold board_functions; set_solver.
Qed.

Lemma reset_stack_ok : stack_ok 4096 _sp.
Proof. vm_compute. intuition congruence. Qed.

Lemma reset_works B img data :
  (∀ b, B b → off_storage b) → B (_sp - 8) → zlen img mod 512 = 0 → zlen img <= 2 ^ 64 →
  ∃ s, configure_pci declared_drivers (reset_machine 256 8 8 img data) = (Done tt, s) ∧
    machine_works B 4096 s ∧ image s = img ∧ transcript CONSOLE_DRIVER 1 s = [] ∧ sp s = _sp.
Proof.
  intros HB Hfirst Hmod Hmax. pose (s0 := reset_machine 256 8 8 img data).
  destruct (configure_pci_up s0) as (s & Hrun & Hs); [apply reset_reset_state|apply reset_good_board|].
  exists s. pose proof (scan_image _ _ _ _ Hs) as Him. destruct (scan_same _ _ _ _ Hs) as [Hsp _].
  destruct (scan_works B s0 4096 s) as [Hw Htr]; [done|by rewrite Hsp|apply reset_good_board|apply board_complete|exact Hs| |by rewrite Him|by rewrite Him|].
  { rewrite Hsp. apply reset_stack_ok. }
  split_and!; done.
Qed.
