(* ===== verification/TimerTheorems.v ===== *)
(** * Sleeping and waiting end, and not early

    The hypotheses are about what is outside of the code: the clock advances
    at every look, and a deferred function returns and leaves the sleeping
    process and the shadow of the timer register alone. *)

From S2P Require Import Prelude Timer.

Section timers.
Context (clock : nat → Z) (call_deferred : Z → Z → prog os_state unit).
Hypothesis clock_advances : ∀ n, clock n < clock (S n).
Hypothesis deferred_returns : ∀ f c s, ∃ s', call_deferred f c s = (Done tt, s') ∧
  asleep (current s') = asleep (current s) ∧ (stimecmp s = shadow_stime s → stimecmp s' = shadow_stime s') ∧
  (readings s <= readings s')%nat.
Implicit Types s : os_state.

Abbreviation get_stime := (get_stime clock).
Abbreviation timer_interrupt_handler := (timer_interrupt_handler clock call_deferred).
Abbreviation yield := (yield clock call_deferred).
Abbreviation sleep_loop := (sleep_loop clock call_deferred).
Abbreviation nanosleep_s := (nanosleep_s clock call_deferred).
Abbreviation demand_loop := (demand_loop clock call_deferred).
Abbreviation demand_s := (demand_s clock call_deferred).

Lemma clock_mono n m : (n <= m)%nat → clock n + Z.of_nat (m - n) <= clock m.
Proof using clock_advances.
  induction 1 as [|m Hm IH]; [replace (n - n)%nat with 0%nat by lia; lia|].
  pose proof (clock_advances m). replace (S m - n)%nat with (S (m - n)) by lia. lia.
Qed.

(** The timer register and its shadow agree, and pending kernel work has a
    function. *)
Definition timers_ok s : Prop :=
  stimecmp s = shadow_stime s ∧ (wakeup_time (kernel_deferred s) ≠ 0 → deferred (kernel_deferred s) ≠ 0).

(** [armed s]: the timer goes off no later than the sleeper's time. *)
Definition armed s : Prop := shadow_stime s <= wakeup_time (asleep (current s)).

Lemma set_stimecmp_spec future s :
  ∃ s', set_stimecmp future s = (Done tt, s') ∧ (timers_ok s → timers_ok s') ∧
    current s' = current s ∧ kernel_deferred s' = kernel_deferred s ∧ readings s' = readings s ∧
    (future ≠ STIME_UNSET → shadow_stime s' <= future).
Proof.
  unfold set_stimecmp. run.
  destruct (negb (future =? STIME_UNSET) && negb (shadow_stime s =? STIME_UNSET) && (shadow_stime s <? future)) eqn:Hc.
  - exists s. split_and!; try done. lia.
  - exists (set_timer future s). split_and!; try done; by intros [_ ?].
Qed.

Lemma do_deferreds_spec now s :
  timers_ok s → wakeup_time (kernel_deferred s) ≠ 0 →
  ∃ s', do_timer_deferreds call_deferred now s = (Done tt, s') ∧ timers_ok s' ∧
    asleep (current s') = asleep (current s) ∧ (readings s <= readings s')%nat.
Proof using deferred_returns.
  intros [Ht Hd] Hw. unfold do_timer_deferreds. run. destruct (_ <? now); [|by exists s].
  rewrite bind_defined by (specialize (Hd Hw); lia).
  destruct (deferred_returns (deferred (kernel_deferred s)) (cookie (kernel_deferred s)) s)
    as (s1 & Hrun & Ha & Ht1 & Hr1).
  run_with Hrun. run. eexists. split; [done|]. split; [split; [by apply Ht1|done]|]. done.
Qed.

(** The handler looks at the clock once, wakes the sleeper if its time has
    passed, and otherwise leaves the timer armed for it. *)
Lemma handler_spec s :
  timers_ok s → wakeup_time (asleep (current s)) ≠ STIME_UNSET →
  let a := asleep (current s) in let stime := clock (readings s) in
  ∃ s', timer_interrupt_handler s = (Done tt, s') ∧ timers_ok s' ∧ (readings s < readings s')%nat ∧
    asleep (current s') = (if negb (wakeup_time a =? 0) && (wakeup_time a <? stime) then wake 1 a else a) ∧
    (wakeup_time a ≠ 0 → stime <= wakeup_time a → armed s').
Proof using deferred_returns.
  intros Hok Hun a stime. unfold timer_interrupt_handler, Timer.timer_interrupt_handler.
  unfold Timer.get_stime at 1. erewrite bind_done by reflexivity. fold stime. set (s1 := set_readings _ s).
  unfold unset_stimecmp. destruct (set_stimecmp_spec STIME_UNSET s1) as (s2 & H2 & Hok2 & Hc2 & _ & Hr2 & _).
  run_with H2. run. specialize (Hok2 Hok).
  assert (∃ s3, (if negb (wakeup_time (kernel_deferred s2) =? 0)
      then if wakeup_time (kernel_deferred s2) <? stime then do_timer_deferreds call_deferred stime
           else set_stimecmp (wakeup_time (kernel_deferred s2))
      else mret tt) s2 = (Done tt, s3) ∧ timers_ok s3 ∧ asleep (current s3) = a ∧ (readings s < readings s3)%nat)
    as (s3 & H3 & Hok3 & Ha3 & Hr3).
  { assert (asleep (current s2) = a) by (by rewrite Hc2).
    assert (readings s < readings s2)%nat by (rewrite Hr2; cbn; lia).
    destruct (Z.eqb_spec (wakeup_time (kernel_deferred s2)) 0) as [|Hw]; cbn [negb].
    { by exists s2. }
    destruct (_ <? stime).
    - destruct (do_deferreds_spec stime s2 Hok2 Hw) as (s3 & H3 & Hok3 & Ha3 & Hr3).
      exists s3. split_and!; [done..|congruence|lia].
    - destruct (set_stimecmp_spec (wakeup_time (kernel_deferred s2)) s2) as (s3 & H3 & Hok3 & Hc3 & _ & Hr3 & _).
      exists s3. split_and!; [done|by apply Hok3|congruence|lia]. }
  run_with H3. run. rewrite Ha3.
  destruct (Z.eqb_spec (wakeup_time a) 0) as [|Hw]; cbn [negb andb].
  { exists s3. by split_and!. }
  destruct (Z.ltb_spec (wakeup_time a) stime).
  - eexists. split; [done|]. split; [by destruct Hok3|]. split; [done|]. split; [done|lia].
  - destruct (set_stimecmp_spec (wakeup_time a) s3) as (s4 & H4 & Hok4 & Hc4 & _ & Hr4 & Hle).
    exists s4. split_and!; [done|by apply Hok4|lia|by rewrite Hc4|].
    intros _ _. unfold armed. rewrite Hc4, Ha3. apply Hle. done.
Qed.

(** One yield: the clock advances; the sleeper is woken only after its time,
    and is woken if its time had passed before. *)
Lemma yield_spec s :
  timers_ok s → wakeup_time (asleep (current s)) ≠ STIME_UNSET →
  let a := asleep (current s) in
  ∃ s', yield s = (Done tt, s') ∧ timers_ok s' ∧ (readings s < readings s')%nat ∧
    ((asleep (current s') = a ∧
      (wakeup_time a ≠ 0 → armed s → armed s' ∧ clock (readings s) <= wakeup_time a)) ∨
     (asleep (current s') = wake 1 a ∧ ∃ n, (n < readings s')%nat ∧ wakeup_time a < clock n)).
Proof using clock_advances deferred_returns.
  intros Hok Hun a. unfold yield, Timer.yield.
  unfold Timer.get_stime at 1. erewrite bind_done by reflexivity. run. set (s1 := set_readings _ s).
  destruct (Z.leb_spec (stimecmp s1) (clock (readings s))) as [Hdue|Hnot].
  - destruct (handler_spec s1 Hok Hun) as (s' & Hrun & Hok' & Hr & Ha & Harm).
    exists s'. split_and!; [done|done|cbn in Hr; lia|]. cbn [readings set_readings s1] in *.
    fold timer_interrupt_handler. change (asleep (current s1)) with a in *.
    pose proof (clock_advances (readings s)).
    destruct (Z.eqb_spec (wakeup_time a) 0) as [|Hw]; cbn [negb andb] in Ha; [left; split; [done|lia]|].
    destruct (Z.ltb_spec (wakeup_time a) (clock (S (readings s)))).
    + right. split; [done|]. by exists (S (readings s)).
    + left. split; [done|]. intros _ _. split; [by apply Harm|lia].
  - exists s1. split_and!; [done|done|cbn; lia|]. left. split; [done|].
    intros _ Harm. split; [done|]. unfold armed in Harm. fold a in Harm. destruct Hok as [Ht _]. cbn in Hnot. lia.
Qed.

Lemma sleep_loop_spec fuel s :
  timers_ok s → armed s → let a := asleep (current s) in
  wakeup_time a ≠ 0 → wakeup_time a < STIME_UNSET → should_wake a = 0 →
  Z.max 1 (wakeup_time a - clock (readings s) + 2) <= Z.of_nat fuel →
  ∃ s', sleep_loop fuel s = (Done tt, s') ∧ asleep (current s') = wake 1 a ∧
    ∃ n, (n < readings s')%nat ∧ wakeup_time a < clock n.
Proof using clock_advances deferred_returns.
  revert s. induction fuel as [|fuel IH]; intros s Hok Harm a Hw Hun Hsw Hfuel; [lia|]. cbn.
  destruct (yield_spec s Hok ltac:(unfold a in *; lia)) as (s1 & Hrun & Hok1 & Hr1 & Hcase).
  run_with Hrun. run. fold a in Hcase. destruct Hcase as [[Ha Hkeep]|[Ha Hn]].
  - destruct (Hkeep Hw Harm) as [Harm1 Hle]. rewrite Ha, Hsw. cbn [Z.eqb negb].
    pose proof (clock_mono (readings s) (readings s1) ltac:(lia)).
    destruct (IH s1 Hok1 Harm1) as (s2 & H2 & Ha2 & Hn2); rewrite ?Ha; try done; [lia|].
    rewrite Ha in Ha2, Hn2. by exists s2.
  - rewrite Ha. cbn. by exists s1.
Qed.

(** C28.  [nanosleep_s] sleeps long enough and wakes up: from any state with
    consistent timers, whatever else the timer is armed for, it leaves its
    loop after at most as many turns as the ticks asked for, only when the
    clock has shown more than the wakeup time, and clears the sleeper's
    record -- and then powers the machine off instead of returning.  The
    nanoseconds are added as ticks. *)
Theorem nanosleep_wakes fuel tv_sec tv_nsec s :
  timers_ok s → should_wake (asleep (current s)) = 0 → 0 <= tv_sec → 0 <= tv_nsec →
  0 < clock (readings s) →
  let ticks := tv_sec * 10000000 + tv_nsec in let wakeup := clock (readings s) + ticks in
  wakeup < 2 ^ 53 → ticks + 2 <= Z.of_nat fuel →
  ∃ s', nanosleep_s fuel tv_sec tv_nsec s = (Stop PowerOff, s') ∧
    (∃ n, (n < readings s')%nat ∧ wakeup < clock n) ∧
    wakeup_time (asleep (current s')) = 0 ∧ should_wake (asleep (current s')) = 0.
Proof using clock_advances deferred_returns.
  intros Hok Hsw Hsec Hnsec Hnow ticks wakeup Hmax Hfuel. unfold nanosleep_s, Timer.nanosleep_s.
  unfold Timer.get_stime at 1. erewrite bind_done by reflexivity. set (s1 := set_readings _ s).
  rewrite !(double_small tv_sec), !(double_small tv_nsec), (double_small (clock _)) by (unfold wakeup, ticks in *; lia).
  rewrite (double_small (tv_sec * 10000000)), (double_small (_ + tv_nsec)) by (unfold wakeup, ticks in *; lia).
  fold ticks. fold wakeup. rewrite double_small, bind_defined by (unfold wakeup, ticks in *; lia). run.
  set (s2 := set_asleep _ s1).
  destruct (set_stimecmp_spec wakeup s2) as (s3 & H3 & Hok3 & Hc3 & _ & Hr3 & Harm3). run_with H3.
  assert (asleep (current s3) = wake_at wakeup (asleep (current s))) as Ha3 by (by rewrite Hc3).
  assert (wakeup ≠ STIME_UNSET) as Hun by (unfold STIME_UNSET; lia).
  destruct (sleep_loop_spec fuel s3) as (s4 & H4 & Ha4 & n & Hn & Hlt); rewrite ?Ha3; cbn.
  - by apply Hok3.
  - unfold armed. rewrite Ha3. by apply Harm3.
  - unfold wakeup, ticks in *. lia.
  - unfold STIME_UNSET. lia.
  - done.
  - rewrite Hr3. cbn. pose proof (clock_advances (readings s)). unfold wakeup in *. lia.
  - run_with H4. run. eexists. split; [done|]. rewrite Ha3 in Hlt. split; [by exists n|done].
Qed.

Lemma demand_loop_spec fuel timeout s :
  timers_ok s → wakeup_time (asleep (current s)) ≠ STIME_UNSET →
  0 <= clock (readings s) → 0 <= timeout < 2 ^ 52 →
  Z.max 1 (timeout + 30000000 - clock (readings s) + 2) <= Z.of_nat fuel →
  ∃ s', demand_loop fuel timeout s = (Done WAIT_TIMEOUT, s') ∧
    ∃ n, (n < readings s')%nat ∧ timeout + 30000000 < clock n.
Proof using clock_advances deferred_returns.
  revert s. induction fuel as [|fuel IH]; intros s Hok Hun Hnow Hto Hfuel; [lia|]. cbn.
  destruct (yield_spec s Hok Hun) as (s1 & Hrun & Hok1 & Hr1 & Hcase). run_with Hrun.
  unfold Timer.get_stime at 1. erewrite bind_done by reflexivity. set (s2 := set_readings _ s1).
  pose proof (clock_mono (readings s) (readings s1) ltac:(lia)).
  rewrite !(double_small timeout), (double_small (timeout + 30000000)) by lia.
  rewrite double_ltb by lia. destruct (Z.ltb_spec (timeout + 30000000) (clock (readings s1))).
  - exists s2. split; [done|]. exists (readings s1). cbn. split; [lia|done].
  - pose proof (clock_advances (readings s1)). apply (IH s2); [done| |cbn; lia|done|cbn; lia].
    cbn. destruct Hcase as [[-> _]|[-> _]]; done.
Qed.

(** [demand_s] always times out: it returns WAIT_TIMEOUT, after at most
    [timeout + 3 * 10^7] turns and only when the clock has shown a time more
    than 3 * 10^7 ticks past the timeout that was asked for.  It never
    reports an event. *)
Lemma demand_times_out fuel timeout event s :
  timers_ok s → wakeup_time (asleep (current s)) ≠ STIME_UNSET →
  0 <= clock (readings s) → 0 <= timeout → clock (readings s) + timeout < 2 ^ 52 →
  timeout + 30000000 + 2 <= Z.of_nat fuel →
  ∃ s', demand_s fuel timeout event s = (Done WAIT_TIMEOUT, s') ∧
    ∃ n, (n < readings s')%nat ∧ clock (readings s) + timeout + 30000000 < clock n.
Proof using clock_advances deferred_returns.
  intros Hok Hun Hnow Hto Hmax Hfuel. unfold demand_s, Timer.demand_s.
  unfold Timer.get_stime at 1. erewrite bind_done by reflexivity. set (s1 := set_readings _ s).
  rewrite wrap_small by lia.
  destruct (set_stimecmp_spec (clock (readings s) + timeout) s1) as (s2 & H2 & Hok2 & Hc2 & _ & Hr2 & _).
  run_with H2. pose proof (clock_advances (readings s)).
  apply demand_loop_spec; [by apply Hok2|by rewrite Hc2|..]; rewrite ?Hr2; cbn; lia.
Qed.
(** *** Nothing else to do

    With no deferred work and nobody asleep, all that happens while a program
    waits is that the clock advances: at most three looks a turn. *)
Definition idle s : Prop := wakeup_time (kernel_deferred s) = 0 ∧ wakeup_time (asleep (current s)) = 0.

(** [s'] is [s] after at most [n] more looks at the clock, but for the timer. *)
Definition waited (n : nat) s s' : Prop :=
  current s' = current s ∧ kernel_deferred s' = kernel_deferred s ∧ (readings s < readings s' <= readings s + n)%nat.

Lemma waited_idle n s s' : waited n s s' → idle s → idle s'.
Proof. unfold idle. by intros (-> & -> & _). Qed.

Lemma set_stimecmp_kept future s s' :
  set_stimecmp future s = (Done tt, s') → current s' = current s ∧ kernel_deferred s' = kernel_deferred s ∧ readings s' = readings s.
Proof.
  intros Hrun. destruct (set_stimecmp_spec future s) as (s2 & Hrun2 & _ & ? & ? & ? & _). rewrite Hrun in Hrun2.
  by injection Hrun2 as <-.
Qed.

Lemma yield_idle s : idle s → ∃ s', yield s = (Done tt, s') ∧ waited 2 s s'.
Proof.
  intros [Hk Hp]. unfold yield, Timer.yield. unfold Timer.get_stime at 1. erewrite bind_done by reflexivity. run.
  set (s1 := set_readings _ s). destruct (stimecmp s1 <=? clock (readings s)); [|exists s1; split; [done|]; split_and!; cbn; (done || lia)].
  unfold Timer.timer_interrupt_handler, Timer.get_stime. erewrite bind_done by reflexivity. set (s2 := set_readings _ s1).
  unfold unset_stimecmp. destruct (set_stimecmp_spec STIME_UNSET s2) as (s3 & H3 & _).
  destruct (set_stimecmp_kept _ _ _ H3) as (Hc & Hd & Hr). run_with H3. run.
  rewrite Hd. change (kernel_deferred s2) with (kernel_deferred s). rewrite Hk. cbn [Z.eqb negb].
  run. rewrite Hc. change (current s2) with (current s). rewrite Hp. exists s3. split; [done|].
  split_and!; [by rewrite Hc|by rewrite Hd|rewrite Hr; cbn; lia..].
Qed.

Lemma demand_loop_idle gap fuel timeout s :
  (∀ n, clock (S n) <= clock n + gap) → idle s →
  0 <= clock (readings s) <= timeout + 30000000 + gap → 0 <= timeout < 2 ^ 52 →
  Z.max 1 (timeout + 30000000 - clock (readings s) + 2) <= Z.of_nat fuel →
  ∃ s', demand_loop fuel timeout s = (Done WAIT_TIMEOUT, s') ∧ current s' = current s ∧
    kernel_deferred s' = kernel_deferred s ∧ (readings s < readings s')%nat ∧
    timeout + 30000000 < clock (readings s') <= timeout + 30000000 + 4 * gap.
Proof using clock_advances.
  intros Hgap. revert s. induction fuel as [|fuel IH]; intros s Hi Hnow Hto Hfuel; [lia|]. cbn.
  destruct (yield_idle s Hi) as (s1 & Hrun & Hw). pose proof (waited_idle _ _ _ Hw Hi) as Hi1. run_with Hrun.
  destruct Hw as (Hc & Hd & Hr1). unfold Timer.get_stime at 1. erewrite bind_done by reflexivity. set (s2 := set_readings _ s1).
  pose proof (clock_mono (readings s) (readings s1) ltac:(lia)). pose proof (clock_advances (readings s1)).
  rewrite !(double_small timeout), (double_small (timeout + 30000000)) by lia.
  rewrite double_ltb by lia. destruct (Z.ltb_spec (timeout + 30000000) (clock (readings s1))).
  - exists s2. split_and!; [done..|cbn; lia|cbn; lia|]. cbn.
    pose proof (Hgap (readings s)). pose proof (Hgap (S (readings s))). pose proof (Hgap (readings s1)).
    assert (readings s1 = S (readings s) ∨ readings s1 = S (S (readings s))) as [Hr|Hr] by lia; rewrite Hr in *; lia.
  - pose proof (Hgap (readings s1)). destruct (IH s2) as (s' & Hrun' & Hc' & Hd' & Hr' & Hb); [done|cbn; lia|done|cbn; lia|].
    exists s'. cbn in Hr', Hc', Hd'. split_and!; [done|congruence..|lia|lia|lia].
Qed.

Lemma demand_idle gap fuel timeout event s :
  (∀ n, clock (S n) <= clock n + gap) → idle s →
  0 <= clock (readings s) → 0 <= timeout → clock (readings s) + timeout < 2 ^ 52 →
  timeout + 30000000 + 2 <= Z.of_nat fuel →
  let deadline := clock (readings s) + timeout + 30000000 in
  ∃ s', demand_s fuel timeout event s = (Done WAIT_TIMEOUT, s') ∧ current s' = current s ∧
    kernel_deferred s' = kernel_deferred s ∧ deadline < clock (readings s') <= deadline + 4 * gap.
Proof using clock_advances.
  intros Hgap Hi Hnow Hto Hmax Hfuel deadline. unfold demand_s, Timer.demand_s.
  unfold Timer.get_stime at 1. erewrite bind_done by reflexivity. set (s1 := set_readings _ s).
  rewrite wrap_small by lia.
  destruct (set_stimecmp_spec (clock (readings s) + timeout) s1) as (s2 & H2 & _).
  destruct (set_stimecmp_kept _ _ _ H2) as (Hc & Hd & Hr).
  run_with H2. pose proof (clock_advances (readings s)). pose proof (Hgap (readings s)).
  assert (readings s2 = S (readings s)) as Hr2 by (by rewrite Hr).
  destruct (demand_loop_idle gap fuel (clock (readings s) + timeout) s2) as (s' & Hrun & Hc' & Hd' & _ & Hb); rewrite ?Hr2; try lia.
  - done.
  - unfold idle. by rewrite Hc, Hd.
  - exists s'. split; [done|]. rewrite Hc', Hd', Hc, Hd. unfold deadline. done.
Qed.
End timers.

(** ** Witnesses *)

(** A clock that starts at 1000 and shows 700 more at every look; no deferred
    work. *)
Definition slow_clock (n : nat) : Z := 1000 + 700 * Z.of_nat n.
Definition no_deferred (f c : Z) : prog os_state unit := mret tt.

Lemma slow_clock_advances n : slow_clock n < slow_clock (S n).
Proof. unfold slow_clock. lia. Defined.
Lemma no_deferred_returns f c s : ∃ s', no_deferred f c s = (Done tt, s') ∧
  asleep (current s') = asleep (current s) ∧ (stimecmp s = shadow_stime s → stimecmp s' = shadow_stime s') ∧
  (readings s <= readings s')%nat.
Proof. by exists s. Defined.

(** At boot: no timer, nobody asleep. *)
Definition quiet : os_state :=
  Os 0 STIME_UNSET STIME_UNSET (Sleep 0 0 0 0) (Process 0 0 0 (Sleep 0 0 0 0)).

Lemma nanosleep_wakes_witness :
  ∃ s', nanosleep_s slow_clock no_deferred (Z.to_nat 5002) 0 5000 quiet = (Stop PowerOff, s') ∧
    wakeup_time (asleep (current s')) = 0.
Proof.
  destruct (nanosleep_wakes slow_clock no_deferred slow_clock_advances no_deferred_returns (Z.to_nat 5002) 0 5000 quiet)
    as (s' & Hrun & _ & Hw & _); [done|done|lia|lia|done|done|vm_compute; congruence|].
  exists s'. split; [exact Hrun|exact Hw].
Defined.
