(* ===== verification/SystemInvariant.v ===== *)
(** * The system stays well formed under every sequence of system calls

    The invariant: the block device is ready, the descriptor table is valid,
    the timer register and its shadow agree, and the handler table is the one
    set up at boot.  The laws used of what is outside are collected in
    [QuietBoard] and [QuietServices]: the board's and the drivers' operations
    leave the block device ready. *)

From S2P Require Import Prelude Programs Layout Ecall Memory Blk Ext2 Ext2File Ext2Dir SelfTest Invariants Io IoTheorems Timer Syscall.

Class QuietBoard (S : Type) `{!BlkDev S} `{!BlkSpec S} `{!Board S} := {
  (** The longest output that the board has room for. *)
  transmit_limit : Z;
  quiet_driver_up t : upholds ready (driver_up t) any;
  quiet_transmit buf : zlen buf <= transmit_limit → upholds ready (console_transmit buf) any;
  quiet_load_word a : upholds ready (load_word a) any;
}.

(** [get_randomness] returns the length asked for or an error, and at most
    that many bytes. *)
Class QuietServices (S : Type) `{!BlkDev S} `{!BlkSpec S} `{!Services S} := {
  (** The longest request that the source of randomness serves. *)
  random_limit : Z;
  quiet_malloc n : upholds ready (kernel_malloc n) any;
  quiet_randomness n : 0 <= n < 2 ^ 64 → n <= random_limit →
    upholds ready (get_randomness n) (λ r, (r.1 = n ∨ r.1 = 2 ^ 64 - 1) ∧ zlen r.2 <= n);
}.
#[export] Hint Resolve quiet_driver_up quiet_transmit quiet_load_word quiet_malloc quiet_randomness : uphold.

(** ** Timers *)

Section timers.
Context (clock : nat → Z) (call_deferred : Z → Z → prog os_state unit).

Definition os_ok (s : os_state) : Prop :=
  stimecmp s = shadow_stime s ∧
  (wakeup_time (kernel_deferred s) ≠ 0 → deferred (kernel_deferred s) ≠ 0) ∧
  0 <= brk (current s) < 2 ^ 64.

Hypothesis deferred_quiet : ∀ f c, upholds os_ok (call_deferred f c) any.

Ltac os_done := unfold os_ok in *; cbn; intuition (done || lia).

Lemma upholds_current : upholds os_ok (gets current) (λ p, 0 <= brk p < 2 ^ 64).
Proof. apply upholds_gets. by intros s (_ & _ & ?). Qed.
#[local] Hint Resolve upholds_current : uphold.
Lemma upholds_get_stime : upholds os_ok (get_stime clock) any.
Proof. done. Qed.
Lemma upholds_set_stimecmp t : upholds os_ok (set_stimecmp t) any.
Proof. unfold set_stimecmp. uphold; os_done. Qed.
#[local] Hint Resolve upholds_get_stime upholds_set_stimecmp : uphold.

Lemma upholds_deferreds now : upholds os_ok (do_timer_deferreds call_deferred now) any.
Proof. unfold do_timer_deferreds. uphold; os_done. Qed.
#[local] Hint Resolve upholds_deferreds : uphold.

Lemma upholds_interrupt : upholds os_ok (timer_interrupt_handler clock call_deferred) any.
Proof. unfold timer_interrupt_handler, unset_stimecmp. uphold; os_done. Qed.
#[local] Hint Resolve upholds_interrupt : uphold.
Lemma upholds_yield : upholds os_ok (yield clock call_deferred) any.
Proof. unfold yield. uphold. Qed.
#[local] Hint Resolve upholds_yield : uphold.

Lemma upholds_sleep_loop fuel : upholds os_ok (sleep_loop clock call_deferred fuel) any.
Proof. induction fuel as [|fuel IH]; cbn [sleep_loop]; uphold. Qed.
#[local] Hint Resolve upholds_sleep_loop : uphold.
Lemma upholds_nanosleep fuel sec nsec :
  upholds os_ok (nanosleep_s clock call_deferred fuel sec nsec) (λ _, False).
Proof. unfold nanosleep_s. uphold; os_done. Qed.
Lemma upholds_demand fuel t e :
  upholds os_ok (demand_s clock call_deferred fuel t e) (λ r, r = WAIT_TIMEOUT).
Proof.
  assert (∀ fuel t, upholds os_ok (demand_loop clock call_deferred fuel t) (λ r, r = WAIT_TIMEOUT)).
  { clear fuel t. intros fuel t. induction fuel as [|fuel IH]; cbn [demand_loop]; uphold. done. }
  unfold demand_s. uphold.
Qed.
Lemma upholds_set_brk b : 0 <= b < 2 ^ 64 → upholds os_ok (set_brk_s b) (λ r, 0 <= r < 2 ^ 64 ∧ (b ≠ 0 → r = b)).
Proof.
  intros Hb. unfold set_brk_s. intros s Hs. destruct (Z.eqb_spec b 0) as [->|]; run; cbn; os_done.
Qed.
Lemma upholds_child_tid t : upholds os_ok (set_child_tid_s t) (λ r, r = 1).
Proof. unfold set_child_tid_s. uphold; os_done. Qed.
End timers.
#[export] Hint Resolve upholds_nanosleep upholds_demand upholds_set_brk upholds_child_tid : uphold.

(** ** Descriptors *)

Section descriptors.
Context {S : Type} `{BlkSpec S} `{!Console S} `{!QuietConsole S} `{!Uninit} `{!Board S} `{!QuietBoard S}.

Definition disk_ready (s : io_state S) : Prop := ready (below s).

Lemma upholds_lift {A} (m : prog S A) Q : upholds ready m Q → upholds disk_ready (lift m) Q.
Proof. intros Hm. by apply (upholds_on below set_below disk_ready ready). Qed.
#[local] Hint Resolve upholds_lift : uphold.

Lemma upholds_get_fd fd : upholds disk_ready (get_fd (S := S) fd) any.
Proof. unfold get_fd. uphold. Qed.
Lemma upholds_put_fd fd d : upholds disk_ready (put_fd (S := S) fd d) any.
Proof. unfold put_fd. uphold. done. Qed.
#[local] Hint Resolve upholds_get_fd upholds_put_fd : uphold.
Lemma upholds_is_fd_open fd : upholds disk_ready (is_fd_open (S := S) fd) any.
Proof. unfold is_fd_open. uphold. Qed.
Lemma upholds_system_time c : upholds ready (system_time (S := S) c) (λ r, r.1.1 = true).
Proof. unfold system_time. uphold. done. Qed.
#[local] Hint Resolve upholds_is_fd_open upholds_system_time : uphold.

Lemma upholds_io_msg msg : upholds disk_ready (eprint_msg (St := io_state S) msg) any.
Proof.
  unfold eprint_msg. generalize (chars msg ++ [0]). intros l.
  induction l as [|c l IH]; cbn [eprint_str]; unfold eprint, io_console; uphold.
Qed.
#[local] Hint Resolve upholds_io_msg : uphold.

(** The [int] that a handler makes of a number of bytes up to [n]. *)
Definition int_count (n r : Z) : Prop := r = -1 ∨ ∃ k, 0 <= k <= n ∧ r = i32 k.
Lemma amount_count n r : amount n r → int_count n (i32 r).
Proof. intros [->|Hr]; [by left|right; by exists r]. Qed.
Lemma error_count n : int_count n (-1).
Proof. by left. Qed.
#[local] Hint Resolve amount_count error_count : core.

Lemma upholds_disk_read fd buf n :
  upholds disk_ready (disk_read_handler (S := S) fd buf n) (λ r, zlen r.2 = zlen buf ∧ (0 <= n → int_count n r.1)).
Proof.
  unfold disk_read_handler, superblock_for_ino, set_atime_for_ino.
  uphold; subst; cbn in *; split; try done; intros; try done; [right; exists 0; split; [lia|done]|..]; intuition.
Qed.
Lemma upholds_disk_write fd buf n : upholds disk_ready (disk_write_handler (S := S) fd buf n) (λ r, 0 <= n → int_count n r).
Proof. unfold disk_write_handler, superblock_for_ino, set_mtime_for_ino. uphold; cbn in *; intuition. Qed.
Lemma upholds_stdout fd buf n :
  zlen buf <= transmit_limit → upholds disk_ready (stdout_write_handler (S := S) fd buf n) (λ r, 0 <= n → int_count n r).
Proof.
  intros Hbuf. unfold stdout_write_handler. uphold; intros; try done.
  - apply upholds_lift, quiet_transmit. pose proof (zlen_slice_le buf 0 n). lia.
  - right. exists n. split; [lia|done].
Qed.
Definition is_int (r : Z) : Prop := - 2 ^ 31 <= r < 2 ^ 31.
Lemma i32_is_int z : is_int (i32 z).
Proof. unfold is_int, swrap. change (2 ^ (32 - 1)) with (2 ^ 31). pose proof (Z.mod_pos_bound (z + 2 ^ 31) (2 ^ 32)). lia. Qed.
Lemma upholds_disk_seek fd off wh : upholds disk_ready (disk_seek_handler (S := S) fd off wh) is_int.
Proof. unfold disk_seek_handler. uphold; try apply i32_is_int; unfold is_int; lia. Qed.
#[local] Hint Resolve upholds_disk_read upholds_disk_write upholds_stdout upholds_disk_seek : uphold.

Lemma next_fd_from_range t i : next_fd_from t i = -1 ∨ i <= next_fd_from t i < i + zlen t.
Proof.
  revert i. induction t as [|d t IH]; intros i; cbn [next_fd_from]; [by left|].
  unfold zlen in *. cbn [length]. destruct (negb _); [lia|]. specialize (IH (i + 1)). lia.
Qed.
Definition fd_or_error (r : Z) : Prop := r = -1 ∨ 0 <= r < max_fd.
Lemma upholds_next_fd : upholds disk_ready (next_fd (S := S)) fd_or_error.
Proof.
  unfold next_fd. uphold. unfold fd_or_error. pose proof (next_fd_from_range (take (Z.to_nat max_fd) a) 0).
  pose proof (length_take a (Z.to_nat max_fd)). unfold max_fd, zlen in *. lia.
Qed.
#[local] Hint Resolve upholds_next_fd : uphold.
Lemma upholds_open path : upholds disk_ready (open_fd (S := S) path) (λ r, fd_or_error r.1 ∧ zlen r.2 = zlen path).
Proof. unfold open_fd, superblock_for_pathname, assert_mounted. uphold; subst; cbn; try done; split; try done; by left. Qed.
Lemma upholds_close fd : upholds disk_ready (close_fd (S := S) fd) (λ r, r = 0 ∨ r = -1).
Proof. unfold close_fd. uphold; auto. Qed.
Lemma upholds_mount : upholds disk_ready (io_mount_hd (S := S)) (λ r, r = 0 ∨ r = 2 ^ 64 - 1).
Proof. unfold io_mount_hd. uphold; auto. Qed.
#[local] Hint Resolve upholds_open upholds_close : uphold.

(** The descriptor layer's own table, from [keeps]. *)
Lemma upholds_keeps {A} (m : prog (io_state S) A) : keeps m → upholds (λ s, table_ok (fds s)) m any.
Proof. intros Hm s Hs. split; [by apply Hm|]. by destruct (m s).1. Qed.

Definition io_ok (s : io_state S) : Prop := disk_ready s ∧ table_ok (fds s).

Lemma upholds_io {A} (m : prog (io_state S) A) Q : upholds disk_ready m Q → keeps m → upholds io_ok m Q.
Proof.
  intros H1 H2. eapply upholds_weaken; [apply upholds_and; [exact H1|by apply upholds_keeps]|]. by intros a [].
Qed.

Lemma u64_range z : 0 <= u64 z < 2 ^ 64.
Proof. by apply wrap_range. Qed.
Ltac in_u64 := cbn; first [apply u64_range|lia].

(** What [read] and [write] of [n] bytes return: -1, or the number of bytes,
    at most [n], which has been an [int] on its way. *)
Definition count_or_error (n r : Z) : Prop := r = 2 ^ 64 - 1 ∨ ∃ k, 0 <= k <= n ∧ r = u64 (i32 k).
Lemma count_result n r : int_count n r → count_or_error n (u64 r).
Proof. intros [->|(k & Hk & ->)]; [by left|right; by exists k]. Qed.

Lemma upholds_read_s fd buf n :
  upholds io_ok (read_s (S := S) fd buf n) (λ r, zlen r.2 = zlen buf ∧ (0 <= n → count_or_error n r.1)).
Proof.
  apply upholds_io; [|apply keeps_read_s]. unfold read_s.
  uphold; subst; cbn in *; (split; [intuition|]); intros; try (by left). apply count_result. intuition.
Qed.
Lemma upholds_write_s fd buf n :
  zlen buf <= transmit_limit → upholds io_ok (write_s (S := S) fd buf n) (λ r, 0 <= n → count_or_error n r).
Proof.
  intros Hbuf. apply upholds_io; [|apply keeps_write_s]. unfold write_s.
  uphold; intros; try (by left); apply count_result; intuition.
Qed.
Lemma upholds_seek_s fd off wh : upholds io_ok (seek_s (S := S) fd off wh) (λ r, ∃ z, is_int z ∧ r = u64 z).
Proof.
  apply upholds_io; [|apply keeps_seek_s]. unfold seek_s.
  uphold; [exists (-1); by split|]. by eexists.
Qed.
Lemma upholds_openat_s path :
  upholds io_ok (openat_s (S := S) path) (λ r, (r.1 = 2 ^ 64 - 1 ∨ 0 <= r.1 < max_fd) ∧ zlen r.2 = zlen path).
Proof.
  apply upholds_io; [unfold openat_s; uphold|apply keeps_openat_s]. subst. cbn in *.
  unfold fd_or_error, max_fd in *. destruct select (_ ∧ _) as [[->|] ?]; (split; [|done]); [by left|].
  right. rewrite wrap_small; lia.
Qed.
Lemma upholds_close_s fd : upholds io_ok (close_s (S := S) fd) (λ r, r = 0 ∨ r = 2 ^ 64 - 1).
Proof.
  apply upholds_io; [unfold close_s; uphold|apply keeps_close_s]. cbv beta in *.
  destruct select (_ ∨ _) as [-> | ->]; [by left|by right].
Qed.
Lemma upholds_io_mount : upholds io_ok (io_mount_hd (S := S)) (λ r, r = 0 ∨ r = 2 ^ 64 - 1).
Proof. apply upholds_io; [apply upholds_mount|apply keeps_mount]. Qed.
Lemma upholds_io_lift {A} (m : prog S A) Q : upholds ready m Q → upholds io_ok (lift m) Q.
Proof. intros Hm. apply upholds_io; [by apply upholds_lift|apply keeps_lift]. Qed.
End descriptors.
#[export] Hint Resolve upholds_read_s upholds_write_s upholds_seek_s upholds_openat_s upholds_close_s
  upholds_io_mount upholds_io_lift upholds_system_time : uphold.

(** ** The table of handlers *)

Definition handler_of (n : nat) : syscall_handler :=
  foldr (λ a h, if decide (a.1 = n) then a.2 else h) unimplemented_h (rev assignments).

Definition handler_table `{!Build} : list (option syscall_handler) :=
  foldl assign (replicate NR_syscalls (Some unimplemented_h)) assignments.

Lemma foldl_assign l t n :
  (n < length t)%nat →
  foldl assign t l !! n
  = foldr (λ a h, if decide (a.1 = n) then Some (Some a.2) else h) (t !! n) (rev l).
Proof.
  intros Hn. induction l as [|a l IH] using rev_ind; [done|].
  rewrite foldl_app, rev_app_distr. cbn [foldl foldr rev app]. unfold assign at 1.
  assert (length (foldl assign t l) = length t) as Hlen.
  { clear. revert t. induction l as [|a l IH]; intros t; [done|]. cbn. rewrite IH. apply length_insert. }
  destruct (decide (a.1 = n)) as [<-|Hne].
  - apply list_lookup_insert_eq. by rewrite Hlen.
  - by rewrite list_lookup_insert_ne by done.
Qed.

Lemma handler_table_lookup `{!Build} n :
  (n < NR_syscalls)%nat → handler_table !! n = Some (Some (handler_of n)).
Proof.
  intros Hn. unfold handler_table, handler_of. rewrite foldl_assign by (by rewrite length_replicate).
  rewrite lookup_replicate_2 by done. induction (rev assignments) as [|a l IH]; cbn; [done|].
  by destruct (decide (a.1 = n)).
Qed.

Lemma handler_table_past `{!Build} n : (NR_syscalls <= n)%nat → handler_table !! n = None.
Proof.
  intros Hn. apply lookup_ge_None. replace (length handler_table) with NR_syscalls; [done|].
  unfold handler_table. assert (∀ l t, length (foldl assign t l) = length t) as ->.
  { induction l as [|a l IH]; intros t; [done|]. cbn. rewrite IH. apply length_insert. }
  by rewrite length_replicate.
Qed.

(** ** The whole system *)

Section system.
Context {S : Type} `{BlkSpec S} `{!Console S} `{!QuietConsole S} `{!Uninit} `{!Board S} `{!QuietBoard S}.
Context `{!Services S} `{!QuietServices S} `{!Build}.
Context (clock : nat → Z) (call_deferred : Z → Z → prog os_state unit) (turns : nat).
Hypothesis deferred_quiet : ∀ f c, upholds os_ok (call_deferred f c) any.

Record system_ok (s : system S) : Prop := {
  sys_io : io_ok (io s);
  sys_os : os_ok (os s);
  sys_table : syscall_handlers s = handler_table;
}.

Lemma upholds_on_io {A} (m : prog (io_state S) A) Q : upholds io_ok m Q → upholds system_ok (on_io m) Q.
Proof.
  intros Hm. apply (upholds_on io set_io system_ok io_ok); [done|by intros s []|].
  intros s i [] ?. by split.
Qed.
Lemma upholds_on_os {A} (m : prog os_state A) Q : upholds os_ok m Q → upholds system_ok (on_os m) Q.
Proof.
  intros Hm. apply (upholds_on os set_os system_ok os_ok); [done|by intros s []|].
  intros s o [] ?. by split.
Qed.
Lemma upholds_kernel {A} (m : prog S A) Q : upholds ready m Q → upholds system_ok (kernel m) Q.
Proof. intros Hm. by apply upholds_on_io, upholds_io_lift. Qed.
Lemma upholds_user_load a n : upholds system_ok (user_load a n) any.
Proof. unfold user_load. uphold. Qed.
Lemma upholds_user_store a bs : upholds system_ok (user_store a bs) any.
Proof. unfold user_store. uphold. by split; cbn; destruct select (system_ok _). Qed.
Lemma upholds_store_field st p f x : upholds system_ok (store_field st p f x) any.
Proof. unfold store_field. uphold. by split; cbn; destruct select (system_ok _). Qed.
Lemma upholds_load_field st p f : upholds system_ok (load_field st p f) any.
Proof. unfold load_field. uphold. Qed.
#[local] Hint Resolve upholds_on_io upholds_on_os upholds_kernel upholds_user_load upholds_user_store
  upholds_store_field upholds_load_field : uphold.
Lemma upholds_system_msg msg : upholds system_ok (eprint_msg (St := system S) msg) any.
Proof.
  unfold eprint_msg. generalize (chars msg ++ [0]). intros l.
  induction l as [|c l IH]; cbn [eprint_str]; unfold eprint, system_console; uphold.
Qed.
#[local] Hint Resolve upholds_system_msg : uphold.

Definition u64_arg (a : Z) : Prop := 0 <= a < 2 ^ 64.

(** A [write] and a [getrandom] that the board has room for. *)
Definition small_enough (h : syscall_handler) (a1 a2 : Z) : Prop :=
  match h with write_s_h => a2 <= transmit_limit | get_random_s_h => a1 <= random_limit | _ => True end.

(** What each call can return. *)
Definition result_of (h : syscall_handler) (a0 a1 a2 r : Z) : Prop :=
  match h with
  | hardware_riscv_h | empty_h | mprotect_s_h | ioctl_s_h | fstat_s_h | sys_breakpoint_h
  | internal_unit_test_s_h => r = 0
  | set_child_tid_h | clock_gettime32_s_h => r = 1
  | readlinkat_s_h => r = 24
  | openat_s_h => 0 <= r < max_fd ∨ r = 2 ^ 64 - 1
  | close_s_h | mount_hd_s_h => r = 0 ∨ r = 2 ^ 64 - 1
  | demand_s_h => r = WAIT_TIMEOUT
  | nanosleep_s_h | poweroff_s_h | unimplemented_h => False
  | set_brk_s_h => u64_arg r ∧ (a0 ≠ 0 → r = a0)
  | get_random_s_h => r = a1 ∨ r = 2 ^ 64 - 1
  | read_s_h | write_s_h => count_or_error a2 r
  | seek_s_h => ∃ z, is_int z ∧ r = u64 z
  end.

Lemma upholds_handler h a0 a1 a2 a3 a4 a5 :
  Forall u64_arg [a0; a1; a2; a3; a4; a5] → small_enough h a1 a2 →
  upholds system_ok (run_handler clock call_deferred turns h a0 a1 a2 a3 a4 a5) (result_of h a0 a1 a2).
Proof using All.
  intros Hargs Hsmall. repeat (apply Forall_cons in Hargs as [? Hargs]). unfold u64_arg in *.
  destruct h; cbn [run_handler small_enough] in *;
    unfold hardware_riscv, empty, mprotect_s, ioctl_s, poweroff_s, unimplemented, sys_breakpoint, readlinkat_s,
      get_random_s, openat_h, read_h, clock_gettime32_s, fstat_s, nanosleep_h, mount_hd_s,
      internal_unit_test_s.
  3: { unfold write_h, user_load. apply (upholds_bind _ _ _ (λ buf, zlen buf <= transmit_limit)); [|intros buf Hbuf; uphold; cbn; auto with lia].
    apply upholds_gets. intros s _. rewrite zlen_load; lia. }
  all: uphold; cbn in *; subst; try done; intuition (done || lia).
Qed.

Lemma upholds_dispatcher cause location value sp a7 a0 a1 a2 a3 a4 a5 :
  Forall u64_arg [a0; a1; a2; a3; a4; a5] → small_enough (handler_of (Z.to_nat a7)) a1 a2 →
  upholds system_ok
    (system_call_dispatcher clock call_deferred turns cause location value sp a7 a0 a1 a2 a3 a4 a5)
    (result_of (handler_of (Z.to_nat a7)) a0 a1 a2).
Proof using All.
  intros Hargs Hsmall. unfold system_call_dispatcher.
  apply (upholds_bind _ _ _ (λ t, t = handler_table)); [apply upholds_gets; by intros s []|intros t ->].
  eapply upholds_bind; [apply upholds_defined|intros _ _].
  destruct (decide (Z.to_nat a7 < NR_syscalls)%nat).
  - rewrite handler_table_lookup by done. by apply upholds_handler.
  - rewrite handler_table_past by lia. apply upholds_stop.
Qed.

(** A system call of a program, with any number and any arguments, within the
    limits of the board. *)
Inductive system_step (s s' : system S) : Prop :=
  | step_call cause location value sp a7 a0 a1 a2 a3 a4 a5 :
      Forall u64_arg [a0; a1; a2; a3; a4; a5] → small_enough (handler_of (Z.to_nat a7)) a1 a2 →
      (system_call_dispatcher clock call_deferred turns cause location value sp a7 a0 a1 a2 a3 a4 a5 s).2 = s' →
      system_step s s'.

(** The system when [configure_io] and [configure_syscall_handlers] have run. *)
Definition configured (b : S) (o : os_state) (m : memory) : system S :=
  (configure_syscall_handlers
    (System (configure_io (initial_io b)).2 o m (replicate NR_syscalls None))).2.

Lemma configured_system_ok b o m : ready b → os_ok o → system_ok (configured b o m).
Proof. intros Hb Ho. split; [|done|done]. split; [exact Hb|apply (configured_ok b)]. Qed.

(** C5.  The system stays well formed: in every state that a program can
    reach from a configured system on a ready device, by any sequence of
    system calls with any numbers and arguments (within what the board has
    room for), on any volume however damaged and whether the calls return or stop, the block device is ready,
    the descriptor table is valid, the timer register agrees with its
    shadow, and the table of handlers is the one set up at boot. *)
Theorem system_always_ok b o m s :
  ready b → os_ok o → rtc system_step (configured b o m) s → system_ok s.
Proof using All.
  intros Hb Ho Hreach. pose proof (configured_system_ok b o m Hb Ho) as Hstart.
  induction Hreach as [|s s' s'' [? ? ? ? ? ? ? ? ? ? ? Hargs Hsmall <-] _ IH]; [done|].
  apply IH. by eapply upholds_dispatcher.
Qed.

(** C17.  The result of a system call has the type of the call.  For a
    [write] and a [getrandom] that the board has room for, and any other call,
    a well-formed system on any volume returns: from [openat] a descriptor
    below 100 or -1; from [close] and [mount] 0 or -1; from [read] and
    [write] -1 or a number of bytes up to the one asked for, as an [int];
    from [lseek] an [int]; from [getrandom] the length asked for or -1; from
    [brk] the new break, if one is given; from [clock_gettime] and
    [set_tid_address] 1; from [readlinkat] 24; from the demand call only the
    timeout; from the calls without a function 0; and it never returns from
    [nanosleep], the exit calls, or a number without a handler. *)
Theorem syscall_results s cause location value sp a7 a0 a1 a2 a3 a4 a5 r s' :
  system_ok s → Forall u64_arg [a0; a1; a2; a3; a4; a5] → small_enough (handler_of (Z.to_nat a7)) a1 a2 →
  system_call_dispatcher clock call_deferred turns cause location value sp a7 a0 a1 a2 a3 a4 a5 s = (Done r, s') →
  (Z.to_nat a7 < NR_syscalls)%nat ∧ result_of (handler_of (Z.to_nat a7)) a0 a1 a2 r.
Proof using All.
  intros Hs Hargs Hsmall Hrun. split.
  - revert Hrun. unfold system_call_dispatcher. run. rewrite (sys_table s Hs).
    destruct (0 <=? a7); [|done]. rewrite bind_defined by done.
    destruct (decide (Z.to_nat a7 < NR_syscalls)%nat); [done|].
    by rewrite handler_table_past by lia.
  - pose proof (upholds_dispatcher cause location value sp a7 a0 a1 a2 a3 a4 a5 Hargs Hsmall s Hs) as [_ Hr].
    by rewrite Hrun in Hr.
Qed.
End system.
