(* ===== verification/SyscallTheorems.v ===== *)
(** * The system calls do what they say

    What a call may write of the program's memory, what happens to a number
    without a handler, and how the calls on files look to the program. *)

From S2P Require Import Prelude Programs Layout Ecall Memory Blk Ext2 Ext2File Ext2Dir Ramdisk SelfTest Invariants SelfTestTheorems BlkTheorems Ext2Theorems Io IoTheorems Timer TimerTheorems Syscall SystemInvariant.

(** ** Strings of the program *)

Lemma c_bytes_none fuel m a :
  c_bytes fuel m a = None → ∀ i, 0 <= i <= Z.of_nat fuel → a + i ∈ dom m.
Proof.
  revert a. induction fuel as [|fuel IH]; intros a; cbn [c_bytes]; case_decide as Hb; try done; intros Hn i Hi.
  - replace (a + i) with a by lia. apply elem_of_dom. destruct (m !! a); [eauto|done].
  - destruct (decide (i = 0)) as [->|].
    + rewrite Z.add_0_r. apply elem_of_dom. destruct (m !! a); [eauto|done].
    + replace (a + i) with (a + 1 + (i - 1)) by lia. apply (IH (a + 1)); [|lia].
      by destruct (c_bytes fuel m (a + 1)).
Qed.

(** Memory holds finitely many bytes, so a string always ends. *)
Lemma user_string_found m a : ∃ str, user_string m a = Some str.
Proof.
  unfold user_string. destruct (c_bytes (size m) m a) as [str|] eqn:Hc; [by eexists|].
  pose proof (c_bytes_none _ _ _ Hc) as Hin. exfalso.
  set (l := (λ i, a + i) <$> seqZ 0 (Z.of_nat (size m) + 1)).
  assert (NoDup l) as Hnd by (apply NoDup_fmap_2; [intros ???; lia|apply NoDup_seqZ]).
  assert (list_to_set (C := gset Z) l ⊆ dom m) as Hsub.
  { intros x Hx. apply elem_of_list_to_set, list_elem_of_fmap in Hx as (i & -> & Hi).
    apply elem_of_seqZ in Hi. apply Hin. lia. }
  apply subseteq_size in Hsub. rewrite size_list_to_set, size_dom in Hsub by done.
  unfold l in Hsub. rewrite length_fmap, length_seqZ in Hsub. lia.
Qed.

(** It is what memory holds at [a], ends with its only NUL, and is not empty. *)
Lemma c_bytes_load fuel m a str :
  c_bytes fuel m a = Some str →
  str = load m a (zlen str) ∧ ∃ path, str = path ++ [Byte.x00] ∧ no_nul path.
Proof.
  revert a str. induction fuel as [|fuel IH]; intros a str; cbn [c_bytes]; case_decide as Hb; intros Hc; try done.
  - injection Hc as <-. split; [|exists []; rewrite Hb; split; [done|constructor]].
    unfold load. change (seqZ 0 _) with [0]. cbn. by rewrite Z.add_0_r.
  - injection Hc as <-. split; [|exists []; rewrite Hb; split; [done|constructor]].
    unfold load. change (seqZ 0 _) with [0]. cbn. by rewrite Z.add_0_r.
  - destruct (c_bytes fuel m (a + 1)) as [str'|] eqn:Hc'; [|done]. injection Hc as <-.
    destruct (IH _ _ Hc') as [Hl (path & -> & Hnn)]. split.
    + set (n := zlen (path ++ [Byte.x00])) in *. change (zlen (?b :: path ++ [Byte.x00])) with (zlen ([b] ++ path ++ [Byte.x00])).
      rewrite zlen_app. change (zlen [_]) with 1. fold n. unfold load. pose proof (zlen_nonneg (path ++ [Byte.x00])).
      rewrite seqZ_cons by lia. rewrite fmap_cons, Z.add_0_r. f_equal. rewrite Hl. unfold load.
      replace (Z.pred (1 + n)) with n by lia. rewrite <-(fmap_add_seqZ 1 0), <-list_fmap_compose.
      apply list_fmap_ext. intros k x _. cbn. by rewrite Z.add_assoc.
    + exists (default Byte.x00 (m !! a) :: path). split; [done|]. by constructor.
Qed.

(** ** What a call writes of the program's memory *)

Section system.
Context {S : Type} `{BlkSpec S} `{!Console S} `{!QuietConsole S} `{!Uninit} `{!Board S} `{!QuietBoard S}.
Context `{!Services S} `{!QuietServices S} `{!Build}.
Context (clock : nat → Z) (call_deferred : Z → Z → prog os_state unit) (turns : nat).
Hypothesis deferred_quiet : ∀ f c, upholds os_ok (call_deferred f c) any.

Abbreviation dispatch := (system_call_dispatcher clock call_deferred turns).

Lemma dispatch_handler s cause location value sp a7 a0 a1 a2 a3 a4 a5 :
  syscall_handlers s = handler_table → 0 <= a7 < 279 →
  dispatch cause location value sp a7 a0 a1 a2 a3 a4 a5 s
  = run_handler clock call_deferred turns (handler_of (Z.to_nat a7)) a0 a1 a2 a3 a4 a5 s.
Proof.
  intros Ht H7. unfold system_call_dispatcher. run. rewrite Ht, bind_defined by lia.
  rewrite handler_table_lookup; [done|]. pose proof NR_large. lia.
Qed.

(** The object a call is given to write to: address and size. *)
Definition out_object (h : syscall_handler) (m : memory) (a0 a1 a2 a3 : Z) : Z * Z :=
  match h with
  | read_s_h => (a1, a2)
  | get_random_s_h => (a0, a1)
  | openat_s_h => (a1, zlen (default [] (user_string m a1)))
  | fstat_s_h => (a1, sizeof stat)
  | clock_gettime32_s_h => (a1, sizeof timespec)
  | readlinkat_s_h => (a2, a3)
  | _ => (0, 0)
  end.

(** What the call does write. *)
Definition written (h : syscall_handler) (m : memory) (a0 a1 a2 a3 : Z) : Z * Z :=
  match h with readlinkat_s_h => (a2, 24) | _ => out_object h m a0 a1 a2 a3 end.

(** The memory [m0] outside of [o], and the system's invariant. *)
Definition same_outside (m0 : memory) (o : Z * Z) (s : system S) : Prop :=
  system_ok s ∧ ∀ x, x < o.1 ∨ o.1 + o.2 <= x → user s !! x = m0 !! x.

Section frame.
Context (m0 : memory) (o : Z * Z).

(** Code that does not touch the program's memory. *)
Lemma upholds_apart {A} (m : prog (system S) A) Q :
  upholds system_ok m Q → (∀ s, user (m s).2 = user s) → upholds (same_outside m0 o) m Q.
Proof. intros Hm Hu s [Hs Hx]. destruct (Hm s Hs). split; [|done]. split; [done|]. by rewrite Hu. Qed.

Lemma user_on_io {A} (m : prog (io_state S) A) s : user (on_io m s).2 = user s.
Proof. unfold on_io, on. by destruct (m (io s)). Qed.
Lemma user_on_os {A} (m : prog os_state A) s : user (on_os (S := S) m s).2 = user s.
Proof. unfold on_os, on. by destruct (m (os s)). Qed.

Lemma apart_on_io {A} (m : prog (io_state S) A) Q : upholds io_ok m Q → upholds (same_outside m0 o) (on_io m) Q.
Proof. intros Hm. apply upholds_apart; [by apply upholds_on_io|apply user_on_io]. Qed.
Lemma apart_on_os {A} (m : prog os_state A) Q : upholds os_ok m Q → upholds (same_outside m0 o) (on_os m) Q.
Proof. intros Hm. apply upholds_apart; [by apply upholds_on_os|apply user_on_os]. Qed.
Lemma apart_kernel {A} (m : prog S A) Q : upholds ready m Q → upholds (same_outside m0 o) (kernel m) Q.
Proof. intros Hm. by apply apart_on_io, upholds_io_lift. Qed.

Lemma apart_msg msg : upholds (same_outside m0 o) (eprint_msg (St := system S) msg) any.
Proof.
  unfold eprint_msg. generalize (chars msg ++ [0]). intros l. pose proof @apart_kernel.
  induction l as [|c l IH]; cbn [eprint_str]; unfold eprint, system_console; uphold.
Qed.

(** Stores into the object. *)
Lemma store_inside a bs :
  o.1 <= a → a + zlen bs <= o.1 + o.2 → upholds (same_outside m0 o) (user_store a bs) any.
Proof.
  intros Hlo Hhi s [Hs Hx]. split; [|exact I]. split; [by destruct Hs|]. intros x Hout. cbn.
  rewrite lookup_store_other by lia. by apply Hx.
Qed.
Lemma field_inside st p f x :
  o.1 <= p + offsetof st f → 0 <= fieldsize st f → p + offsetof st f + fieldsize st f <= o.1 + o.2 →
  upholds (same_outside m0 o) (store_field st p f x) any.
Proof.
  intros Hlo Hz Hhi s [Hs Hx]. split; [|exact I]. split; [by destruct Hs|]. intros y Hout. cbn.
  unfold store_le. rewrite lookup_store_other by (rewrite zlen_le_split; lia). by apply Hx.
Qed.
Lemma same_gets {A} (f : system S → A) : upholds (same_outside m0 o) (gets f) any.
Proof. by apply upholds_gets. Qed.
End frame.
#[local] Hint Resolve apart_on_io apart_on_os apart_kernel apart_msg same_gets : uphold.
#[local] Hint Extern 1 (upholds _ (store_field _ _ _ _) _) =>
  apply field_inside; [layout; cbn; lia|layout; lia|layout; cbn; lia] : uphold.
#[local] Hint Extern 1 (upholds _ (user_store _ _) _) =>
  apply store_inside; cbn; lia : uphold.

Lemma handler_frame h a0 a1 a2 a3 a4 a5 s :
  Forall u64_arg [a0; a1; a2; a3; a4; a5] → small_enough h a1 a2 → system_ok s →
  same_outside (user s) (written h (user s) a0 a1 a2 a3)
    (run_handler clock call_deferred turns h a0 a1 a2 a3 a4 a5 s).2.
Proof using All.
  intros Hargs Hsmall Hs. repeat (apply Forall_cons in Hargs as [? Hargs]). unfold u64_arg in *.
  assert (∀ o, same_outside (user s) o s) as Hstart by done.
  assert (∀ A o (m : prog (system S) A) Q, upholds (same_outside (user s) o) m Q → same_outside (user s) o (m s).2)
    as Hrun by (intros A o m Q Hm; apply Hm, Hstart).
  destruct h; cbn [run_handler written out_object small_enough] in *;
    try (eapply (Hrun _ _ _ any);
         unfold hardware_riscv, empty, mprotect_s, ioctl_s, poweroff_s, unimplemented, sys_breakpoint, readlinkat_s,
           get_random_s, clock_gettime32_s, fstat_s, nanosleep_h, mount_hd_s, internal_unit_test_s,
           user_load, load_field;
         by uphold).
  - unfold write_h, user_load. run. eapply (Hrun _ _ _ any), upholds_any, apart_on_io, upholds_write_s.
    rewrite zlen_load; lia.
  - eapply (Hrun _ _ _ any). unfold readlinkat_s. eapply upholds_bind; [|by uphold].
    apply store_inside; [done|]. change (zlen (slice actual_path 0 24)) with 24. cbn. lia.
  - eapply (Hrun _ _ _ any). unfold get_random_s. eapply upholds_bind; [by apply apart_kernel, quiet_randomness|].
    intros [r bytes] [_ Hb]. cbn in Hb. eapply upholds_bind; [apply store_inside; cbn; lia|by uphold].
  - unfold openat_h. run. destruct (user_string_found (user s) a1) as [str Hstr]. rewrite Hstr. cbn [default].
    eapply (Hrun _ _ _ any). eapply upholds_bind; [apply apart_on_io, upholds_openat_s|].
    intros [r path] [_ Hp]. cbn in Hp. eapply upholds_bind; [apply store_inside; cbn; lia|by uphold].
  - unfold read_h, user_load. run. eapply (Hrun _ _ _ any). eapply upholds_bind; [apply apart_on_io, upholds_read_s|].
    intros [r buf] [Hp _]. cbn in Hp. rewrite zlen_load in Hp by lia.
    eapply upholds_bind; [apply store_inside; cbn; lia|by uphold].
Qed.

(** C11.  A system call writes the program's memory only inside the object it
    was given for that: [read] the [size] bytes of its buffer, [getrandom]
    likewise, [openat] the bytes of the path (which strtok cuts up), [fstat]
    and [clock_gettime] their structures of 128 and 16 bytes, [readlinkat] a
    buffer of at least 24 bytes; every other call, and every call that stops,
    leaves all other memory as it was.  [readlinkat] with a smaller buffer
    overruns it: it stores all 24 bytes whatever size it is told, and it never
    writes past them. *)
Theorem syscall_writes_only_its_object s cause location value sp a7 a0 a1 a2 a3 a4 a5 :
  system_ok s → Forall u64_arg [a0; a1; a2; a3; a4; a5] → small_enough (handler_of (Z.to_nat a7)) a1 a2 →
  let h := handler_of (Z.to_nat a7) in let o := out_object h (user s) a0 a1 a2 a3 in
  let s' := (dispatch cause location value sp a7 a0 a1 a2 a3 a4 a5 s).2 in
  ((h = readlinkat_s_h → 24 <= a3) → ∀ x, x < o.1 ∨ o.1 + o.2 <= x → user s' !! x = user s !! x) ∧
  (a7 = 78 → load (user s') a2 24 = slice actual_path 0 24 ∧
     ∀ x, x < a2 ∨ a2 + 24 <= x → user s' !! x = user s !! x).
Proof using All.
  intros Hs Hargs Hsmall h o s'.
  assert (∀ x, let w := written h (user s) a0 a1 a2 a3 in
    x < w.1 ∨ w.1 + w.2 <= x → user s' !! x = user s !! x) as Hout.
  { intros x w Hx. unfold s', system_call_dispatcher. run. rewrite (sys_table s Hs).
    destruct (0 <=? a7); [|done]. rewrite bind_defined by done.
    destruct (decide (Z.to_nat a7 < NR_syscalls)%nat).
    - rewrite handler_table_lookup by done. by apply (handler_frame h a0 a1 a2 a3 a4 a5 s Hargs Hsmall Hs).
    - by rewrite handler_table_past by lia. }
  split.
  - intros Hfit x Hx. apply Hout. unfold o in Hx. destruct h; try exact Hx. specialize (Hfit eq_refl). cbn in *. lia.
  - intros ->. change h with readlinkat_s_h in Hout. split; [|exact Hout].
    unfold s'. rewrite dispatch_handler by (done || apply Hs). change (handler_of _) with readlinkat_s_h. cbn [run_handler]. unfold readlinkat_s. run. cbn [snd user set_user].
    apply (load_store_same _ _ (slice actual_path 0 24)).
Qed.

(** ** Numbers without a handler *)

Lemma eprint_on_io str s : eprint_str (St := system S) str s = on_io (eprint_str (St := io_state S) str) s.
Proof.
  revert s. induction str as [|c str IH]; intros s; cbn [eprint_str].
  - by destruct s.
  - destruct (c =? 0); [by destruct s|].
    transitivity (match lift (eprint c) (io s) with
      | (Done _, i) => eprint_str str (set_io i s) | (Stop e, i) => (Stop e, set_io i s) end).
    + unfold mbind, prog_bind, eprint at 1, system_console, kernel, on_io, on.
      by destruct (lift (eprint c) (io s)) as [[] i].
    + unfold on_io, on, mbind, prog_bind, eprint at 2, io_console.
      destruct (lift (eprint c) (io s)) as [[] i]; [|done]. rewrite IH.
      unfold on_io, on. cbn [io set_io]. by destruct (eprint_str str i).
Qed.

(** C36.  A number without a handler ends the system in an orderly way when it
    is in the table: the message is printed and the power goes off, with
    descriptors, timers and the program's memory as they were.  A number
    past the table is not caught: the call through it is undefined. *)
Theorem unknown_call_powers_off `{!ConsoleSpec S} s cause location value sp a7 a0 a1 a2 a3 a4 a5 :
  syscall_handlers s = handler_table → 0 <= a7 → Z.to_nat a7 ∉ assignments.*1 →
  if decide (Z.to_nat a7 < NR_syscalls)%nat then
    ∃ b, dispatch cause location value sp a7 a0 a1 a2 a3 a4 a5 s
         = (Stop PowerOff, set_io (set_below b (io s)) s) ∧
      serial b = serial (below (io s)) ++ chars "Unimplemented"
  else dispatch cause location value sp a7 a0 a1 a2 a3 a4 a5 s = (Stop Undefined, s).
Proof.
  intros Ht H7 Hno. unfold system_call_dispatcher. run. rewrite Ht, bind_defined by lia. case_decide.
  - rewrite handler_table_lookup by done.
    assert (handler_of (Z.to_nat a7) = unimplemented_h) as ->.
    { assert (∀ n, n ∉ assignments.*1 → handler_of n = unimplemented_h) as Hh; [|by apply Hh].
      intros n Hn. unfold handler_of. assert (∀ a, In a (rev assignments) → a.1 ≠ n) as Hne.
      { intros a Ha <-. apply Hn. apply in_rev, list_elem_of_In in Ha. apply list_elem_of_fmap. by exists a. }
      induction (rev assignments) as [|a l IH]; [done|]. cbn [foldr].
      rewrite decide_False by (apply Hne; by left). apply IH. intros a' Ha'. apply Hne. by right. }
    cbn [run_handler]. unfold unimplemented, eprint_msg.
    destruct (io_prints (chars "Unimplemented") (io s)) as (b & Hrun & Hser); [repeat constructor; done|].
    exists b. split; [|done]. erewrite bind_done; [reflexivity|].
    rewrite eprint_on_io. unfold on_io, on. by rewrite Hrun.
  - by rewrite handler_table_past by lia.
Qed.

(** ** Mounting *)

Lemma mount_spec `{!ConsoleSpec S} (s : io_state S) :
  (∀ b : S, ready b → ∃ b', driver_up 1 b = (Done true, b') ∧ ready b' ∧ image b' = image b) →
  ready (below s) → zlen (_superblock s) = 1024 → 2048 <= zlen (image (below s)) →
  let sb := slice (image (below s)) 1024 1024 in
  sb.[ext2_superblock, "s_log_block_size"%string] < 21 →
  ∃ r b, io_mount_hd s = (r, set_mounted (if r is Done _ then true else _superblock_mounted s)
                               (set_superblock sb (set_below b s))) ∧
    r = (if sb.[ext2_superblock, "s_blocks_per_group"%string] =? 0 then Stop Undefined else Done 0) ∧
    ready b ∧ image b = image (below s).
Proof.
  intros Hdisk Hr Hlen Hin sb Hlog. unfold io_mount_hd. run.
  set (sb0 := set_field _ _ (set_field _ _ _ _) _). set (s1 := set_superblock sb0 s).
  assert (zlen sb0 = 1024) as Hsb0 by (unfold sb0, set_field; layout; rewrite !zlen_put_le; rewrite ?zlen_put_le; lia).
  destruct (Hdisk (below s) Hr) as (b & Hup & Hrb & Himb).
  run_with (lift_done _ s1 _ _ Hup). cbn [negb]. run. cbn [_superblock set_below set_superblock s1].
  destruct (read_superblock_spec sb0 b) as (b1 & b2 & Hrd & _); [done|done|by rewrite Himb|by rewrite Himb|].
  destruct (upholds_read_superblock (λ b', ready b' ∧ image b' = image b) sb0 b) as [[Hr2 Him2] _]; [done|].
  rewrite Hrd in Hr2, Him2. cbn in Hr2, Him2. rewrite Himb in Hrd. fold sb in Hrd.
  erewrite bind_done by (apply lift_done; exact Hrd). cbv beta iota. run.
  pose proof (get_field_nonneg ext2_superblock "s_log_block_size" sb).
  destruct (shl_1024 sb.[ext2_superblock, "s_log_block_size"%string]
    (set_superblock sb (set_below b2 (set_below b s1)))) as [Hshl _]; [lia|].
  rewrite (bind_done _ _ _ _ _ Hshl).
  rewrite Himb in Him2. destruct (sb.[_, "s_blocks_per_group"%string] =? 0); cbn [negb].
  - exists (Stop Undefined), b2. split; [|done].
    unfold defined. rewrite (bind_stop _ _ _ Undefined _) by reflexivity. by destruct s.
  - exists (Done 0), b2. split; [|done]. by run.
Qed.

(** C35.  [io_mount_hd] reads the superblock and mounts the volume whatever
    [read_superblock] thinks of it: any block size the shift allows, any
    inode size and any revision are mounted with result 0, the superblock in
    memory is the one on the disk, and disk and descriptors are as before.
    A volume that claims 0 blocks per group makes the division undefined. *)
Theorem mount_accepts_anything `{!ConsoleSpec S} `{!BoardSpec S} (s : io_state S) :
  ready (below s) → zlen (_superblock s) = 1024 → 2048 <= zlen (image (below s)) →
  let sb := slice (image (below s)) 1024 1024 in
  sb.[ext2_superblock, "s_log_block_size"%string] < 21 →
  ∃ r b, io_mount_hd s = (r, set_mounted (if r is Done _ then true else _superblock_mounted s)
                               (set_superblock sb (set_below b s))) ∧
    r = (if sb.[ext2_superblock, "s_blocks_per_group"%string] =? 0 then Stop Undefined else Done 0) ∧
    ready b ∧ image b = image (below s).
Proof. apply mount_spec, disk_up. Qed.

(** ** The clock *)

(** A call with a number in the table is a run of its handler. *)

(** [clock_gettime] splits the nanoseconds that the two words of the
    clock show into seconds and a rest below 10^9, puts both where the
    program asked for them -- and returns 1, where success is 0. *)
Theorem clock_gettime_call `{!BoardSpec S} s cause location value sp clockid tp a2 a3 a4 a5 :
  syscall_handlers s = handler_table → ready (below (io s)) →
  ∃ hi lo s', let t := 2 ^ 32 * hi + lo in
    dispatch cause location value sp 113 clockid tp a2 a3 a4 a5 s = (Done 1, s') ∧
    0 <= hi < 2 ^ 32 ∧ 0 <= lo < 2 ^ 32 ∧
    load_le (user s') tp 8 = t / 1000000000 ∧ load_le (user s') (tp + 8) 8 = t mod 1000000000.
Proof.
  intros Ht Hr. destruct (system_time_spec clockid (below (io s)) Hr) as (hi & lo & b & Htime & Hhi & Hlo & _).
  exists hi, lo. rewrite dispatch_handler by (done || lia). change (handler_of _) with clock_gettime32_s_h.
  cbn [run_handler]. unfold clock_gettime32_s, kernel, on_io.
  erewrite bind_done by (unfold on; rewrite (lift_done _ (io s) _ _ Htime); reflexivity).
  unfold store_field. run. eexists. split; [reflexivity|]. split; [done|]. split; [done|].
  cbn [user set_user]. layout. change (Z.to_nat 8) with 8%nat. rewrite Z.add_0_r.
  split; mem_simpl; apply Z.mod_small; zlia.
Qed.
(** ** Files *)

(** C8.  A program that writes a part of a file and reads it back gets what
    it wrote: [write] (call 64) of [size] bytes at [src] returns [size], and
    [read] (call 63) of as many into [dst] returns [size] and makes the
    program's memory at [dst] what it was at [src], provided the blocks of the
    range are distinct and hold neither the inode nor its group descriptor. *)
Theorem file_calls_write_read `{!BoardSpec S} s fd d loc src dst size
    cause location value sp a3 a4 a5 cause' location' value' sp' a3' a4' a5' :
  syscall_handlers s = handler_table → file_fd (io s) fd d loc → 0 < size →
  call_ok (io s) d loc (load (user s) src size) size →
  blocks_distinct (fd_inode (io s) loc) (pos d) size →
  region_apart (fd_inode (io s) loc) (pos d) size loc 256 →
  region_apart (fd_inode (io s) loc) (pos d) size (bg_position (_superblock (io s)) (ino d)) 32 →
  loc + 256 <= bg_position (_superblock (io s)) (ino d) ∨ bg_position (_superblock (io s)) (ino d) + 32 <= loc →
  ∃ s' s'', dispatch cause location value sp 64 fd src size a3 a4 a5 s = (Done size, s') ∧
    dispatch cause' location' value' sp' 63 fd dst size a3' a4' a5' s' = (Done size, s'') ∧
    load (user s'') dst size = load (user s) src size.
Proof.
  intros Ht Hf Hpos Hc Hd1 Hd2 Hd3 Hd4. set (data := load (user s) src size) in *.
  assert (zlen data = size) as Hz by (apply zlen_load; lia). rewrite <-Hz in Hc, Hd1, Hd2, Hd3.
  destruct (write_read_spec (io s) fd d loc data (load (user s) dst size)) as (b & b' & Hw & Hr);
    [done|done|lia|rewrite zlen_load; lia|done..|].
  rewrite Hz in Hw, Hr.
  exists (set_io (set_below b (io s)) s).
  exists (set_user (store (user s) dst (splice (load (user s) dst size) 0 data)) (set_io (set_below b' (io s)) s)).
  rewrite !dispatch_handler by (done || lia). split_and!.
  - change (handler_of _) with write_s_h. cbn [run_handler]. unfold write_h, user_load. run.
    fold data. unfold on_io, on. by rewrite Hw.
  - change (handler_of _) with read_s_h. cbn [run_handler]. unfold read_h, user_load. run. cbn [user set_io].
    erewrite bind_done by (unfold on_io, on; cbn [io set_io]; rewrite Hr; reflexivity). done.
  - cbn [user set_user]. rewrite splice_all by (rewrite zlen_load; lia). rewrite <-Hz. apply load_store_same.
Qed.
End system.

(** ** Witnesses *)

(** The concrete system: the sample volume, a C library with 463 system
    calls, an allocator that has nothing, and randomness of up to 16 bytes. *)
#[export, refine] Instance ramdisk_quiet_board : QuietBoard ramdisk := {| transmit_limit := 2 ^ 64 |}.
Proof. all: by intros ? s Hs. Defined.
#[export] Instance ramdisk_services : Services ramdisk := {|
  kernel_malloc n := mret 0;
  get_randomness n := mret (n, replicate (Z.to_nat (Z.min n 16)) Byte.x2a)
|}.
#[export, refine] Instance ramdisk_quiet_services : QuietServices ramdisk := {| random_limit := 2 ^ 64 |}.
Proof.
  { by intros n s Hs. } intros n Hn _ s Hs. split; [done|]. split; [by left|].
  cbn. unfold zlen. rewrite length_replicate. lia.
Defined.
#[export, refine] Instance sample_build : Build := {| NR_syscalls := 463; ENABLE_TESTS := true |}.
Proof. lia. Defined.

Lemma quiet_ok : os_ok quiet.
Proof. split; [done|]. split; [done|]. concrete. Defined.
Lemma no_deferred_quiet f c : upholds os_ok (no_deferred f c) any.
Proof. by intros s Hs. Defined.

Definition sample_system : system ramdisk := configured sample quiet ∅.
Definition sample_call := system_call_dispatcher (S := ramdisk) slow_clock no_deferred 10 8 0 0 0.

Lemma args_0 : Forall u64_arg [0; 0; 0; 0; 0; 0].
Proof. repeat constructor; done. Defined.

(** A path is opened although no volume is mounted (the assertion fails),
    and the system is as well formed as before. *)
Lemma system_always_ok_witness :
  (sample_call 56 0 0 0 0 0 0 sample_system).1 = Stop AssertFailed ∧
  system_ok (sample_call 56 0 0 0 0 0 0 sample_system).2.
Proof.
  split; [vm_compute; reflexivity|].
  apply (system_always_ok slow_clock no_deferred 10 no_deferred_quiet sample quiet ∅); [apply sample_ready|apply quiet_ok|].
  apply rtc_once. by apply (step_call _ _ _ _ _ 8 0 0 0 56 0 0 0 0 0 0 args_0 I).
Defined.

Lemma sample_ok : system_ok sample_system.
Proof. apply configured_system_ok; [apply sample_ready|apply quiet_ok]. Qed.

Lemma syscall_results_witness : ∃ s', sample_call 78 0 0 0 0 0 0 sample_system = (Done 24, s') ∧ result_of readlinkat_s_h 0 0 0 24.
Proof.
  destruct (sample_call 78 0 0 0 0 0 0 sample_system) as [r s'] eqn:Hrun.
  assert (r = Done 24) as -> by (apply (f_equal fst) in Hrun; vm_compute in Hrun; by rewrite <-Hrun).
  exists s'. split; [reflexivity|].
  exact (proj2 (syscall_results slow_clock no_deferred 10 no_deferred_quiet sample_system 8 0 0 0 78 0 0 0 0 0 0 24 s'
    sample_ok args_0 I Hrun)).
Defined.

(** [fstat] with its structure at 0 leaves the byte at 128; [readlinkat] with a
    buffer of 10 bytes at 64 writes the byte behind it. *)
Lemma syscall_writes_only_its_object_witness :
  user (sample_call 80 0 0 0 0 0 0 sample_system).2 !! 128 = None ∧
  load (user (sample_call 78 0 0 64 10 0 0 sample_system).2) 64 24 = bytes_of "/home/hawkinsw/code/boot".
Proof.
  split.
  - destruct (syscall_writes_only_its_object slow_clock no_deferred 10 no_deferred_quiet sample_system 8 0 0 0 80 0 0 0 0 0 0)
      as [H _]; [apply sample_ok|apply args_0|exact I|].
    apply H; [intros Hh; vm_compute in Hh; congruence|right; vm_compute; congruence].
  - destruct (syscall_writes_only_its_object slow_clock no_deferred 10 no_deferred_quiet sample_system 8 0 0 0 78 0 0 64 10 0 0)
      as [_ H]; [apply sample_ok|by repeat constructor|exact I|].
    etransitivity; [exact (proj1 (H eq_refl))|reflexivity].
Defined.

Lemma unknown_call_powers_off_witness :
  (sample_call 1 0 0 0 0 0 0 sample_system).1 = Stop PowerOff ∧
  (sample_call 1000 0 0 0 0 0 0 sample_system).1 = Stop Undefined.
Proof.
  split.
  - pose proof (unknown_call_powers_off slow_clock no_deferred 10 sample_system 8 0 0 0 1 0 0 0 0 0 0
      (sys_table _ sample_ok) ltac:(lia) ltac:(apply (bool_decide_unpack _); vm_compute; exact I)) as H.
    rewrite decide_True in H by (cbn; lia). destruct H as (b & Hrun & _). unfold sample_call. by rewrite Hrun.
  - pose proof (unknown_call_powers_off slow_clock no_deferred 10 sample_system 8 0 0 0 1000 0 0 0 0 0 0
      (sys_table _ sample_ok) ltac:(lia) ltac:(apply (bool_decide_unpack _); vm_compute; exact I)) as H.
    rewrite decide_False in H by (cbn; lia). unfold sample_call. by rewrite H.
Defined.

(** The sample volume has no [s_blocks_per_group], so here the division is
    undefined; with the field set the volume is mounted. *)
Definition grouped_image : list byte := put_le sample_image (1024 + 32) 4 8192.
Lemma mount_accepts_anything_witness :
  ∃ s', io_mount_hd (initial_io (RamDisk grouped_image [])) = (Done 0, s').
Proof.
  destruct (mount_accepts_anything (initial_io (RamDisk grouped_image []))) as (r & b & Hrun & Hr & _);
    [split; vm_compute; congruence|reflexivity|vm_compute; congruence|vm_compute; reflexivity|].
  eexists. rewrite Hrun. f_equal. rewrite Hr. vm_compute. reflexivity.
Defined.

Lemma clock_gettime_call_witness :
  ∃ s', sample_call 113 1 64 0 0 0 0 sample_system = (Done 1, s').
Proof.
  destruct (clock_gettime_call slow_clock no_deferred 10 sample_system 8 0 0 0 1 64 0 0 0 0) as (hi & lo & s' & Hrun & _);
    [apply (sys_table _ sample_ok)|apply sample_ready|].
  exists s'. exact Hrun.
Defined.
