(* ===== verification/FsTestTheorems.v ===== *)
(** * What the file-system test finds

    [fs_test_main] on a volume that has a file testing.txt: the text that the
    program wrote at the start of the file is what it reads back at the end,
    although it has written random bytes behind it in between.  Every call
    goes through the dispatcher. *)

From S2P Require Import Prelude Programs Layout Ecall Memory Blk BlkTheorems Ext2 Ext2File Ext2Dir Ext2Theorems Ext2DirTheorems Invariants Io IoTheorems FileSpec Ramdisk Timer TimerTheorems Syscall SystemInvariant SyscallTheorems FsTest.

(** ** Strings in memory *)

Lemma slice_load m a n o k : 0 <= o → 0 <= k → o + k <= n → slice (load m a n) o k = load m (a + o) k.
Proof.
  intros Ho Hk Hn. replace n with (o + (n - o)) by lia. rewrite load_app by lia.
  unfold slice. rewrite drop_app_length' by (pose proof (zlen_load m a o); unfold zlen in *; lia).
  rewrite <-(slice_load_front m (a + o) k (n - o)) by lia. unfold slice. by rewrite drop_0.
Qed.

(** A string of the program's memory is determined by its bytes. *)
Lemma user_string_is m a path :
  no_nul path → load m a (zlen path + 1) = path ++ [Byte.x00] → user_string m a = Some (path ++ [Byte.x00]).
Proof.
  intros Hnn Hm. destruct (user_string_found m a) as [str Hstr]. rewrite Hstr. f_equal.
  unfold user_string in Hstr. destruct (c_bytes_load _ _ _ _ Hstr) as [Hl (path' & -> & Hnn')].
  rewrite zlen_app in Hl. change (zlen [Byte.x00]) with 1 in Hl.
  pose proof (zlen_nonneg path). pose proof (zlen_nonneg path').
  assert (∀ p q : list byte, no_nul q → zlen p < zlen q → load m a (zlen p + 1) = p ++ [Byte.x00] →
    load m a (zlen q + 1) = q ++ [Byte.x00] → False) as Hlt.
  { intros p q Hq Hpq Hp Hlq. pose proof (zlen_nonneg p).
    rewrite <-(slice_load_front m a _ (zlen q + 1)) in Hp by lia. rewrite Hlq in Hp.
    assert (slice (q ++ [Byte.x00]) 0 (zlen p + 1) !! Z.to_nat (zlen p) = Some Byte.x00) as Hx.
    { rewrite Hp. apply list_lookup_middle. unfold zlen. lia. }
    rewrite lookup_slice in Hx. case_decide; [|done]. change (Z.to_nat 0 + ?n)%nat with n in Hx.
    rewrite lookup_app_l in Hx by (unfold zlen in *; lia).
    by eapply Forall_lookup_1 in Hx; [|exact Hq]. }
  destruct (Z.lt_trichotomy (zlen path) (zlen path')) as [Hc|[Hc|Hc]].
  - exfalso. by apply (Hlt path path').
  - rewrite Hl, <-Hc. done.
  - exfalso. by apply (Hlt path' path).
Qed.

(** ** The wrappers of the C library *)

(** A result between -4095 and -1 is an error number: the wrapper returns -1
    (and sets [errno], which the program does not look at). *)
Definition syscall_result (r : Z) : Z := if 2 ^ 64 - 4096 <? r then -1 else i64 r.

Definition O_LARGEFILE : Z := 32768.

Section wrappers.
Context {S : Type} `{BlkSpec S} `{!Console S} `{!Uninit} `{!Board S} `{BoardSpec0 : !BoardSpec S} `{!Services S} `{!Build}.
Context `{!Posix S} `{!FsTestSymbols}.
Context (clock : nat → Z) (call_deferred : Z → Z → prog os_state unit) (turns : nat).
Implicit Types t : system S.

(** System call [n] from a wrapper. *)
Definition via (n a0 a1 a2 : Z) : prog (system S) Z :=
  r ← system_call_dispatcher clock call_deferred turns 8 0 0 0 n a0 a1 a2 0 0 0; mret (syscall_result r).

(** The wrappers make the calls they stand for; AT_FDCWD is -100. *)
Record posix_wrappers : Prop := {
  wrap_getrandom buf n flags : posix_getrandom buf n flags = via 278 buf n flags;
  wrap_open path flags : posix_open path flags = via 56 (2 ^ 64 - 100) path (Z.lor flags O_LARGEFILE);
  wrap_write fd buf n : posix_write fd buf n = via 64 (u64 fd) buf n;
  wrap_read fd buf n : posix_read fd buf n = via 63 (u64 fd) buf n;
  wrap_lseek fd off whence : posix_lseek fd off whence = via 62 (u64 fd) (u64 off) (u64 whence);
}.

Lemma via_call n a0 a1 a2 h t r t' :
  syscall_handlers t = handler_table → 0 <= n < 279 → handler_of (Z.to_nat n) = h →
  run_handler clock call_deferred turns h a0 a1 a2 0 0 0 t = (Done r, t') → 0 <= r < 2 ^ 63 →
  via n a0 a1 a2 t = (Done r, t').
Proof.
  intros Ht Hn Hh Hrun Hr. unfold via. erewrite bind_done by (rewrite dispatch_handler, Hh by done; exact Hrun).
  unfold syscall_result. replace (2 ^ 64 - 4096 <? r) with false by lia. by rewrite swrap_small by lia.
Qed.

(** *** Calls on an open file *)

Section calls.
Context (fd : Z) (d : io_descriptor) (loc : Z) (f : file) (t : system S).
Hypothesis Ht : syscall_handlers t = handler_table.
Hypothesis Hh : holds (io t) fd d loc f.

Lemma fd_small : 0 <= fd < 2 ^ 63.
Proof using Hh. pose proof (ff_range _ _ _ _ (hold_fd _ _ _ _ _ Hh)). unfold max_fd in *. lia. Qed.

Lemma file_small : zlen (contents f) <= 15360.
Proof using Hh. pose proof (small_size _ _ _ _ _ (hold_mapped _ _ _ _ _ Hh) (zlen_nonneg _)). lia. Qed.

Lemma via_write src n :
  0 <= n → offset f + n <= zlen (contents f) →
  ∃ b, via 64 (u64 fd) src n t = (Done n, set_io (set_below b (io t)) t) ∧
    holds (set_below b (io t)) fd d loc (file_step (Write (load (user t) src n)) f).2.
Proof using Ht Hh BoardSpec0.
  intros Hn Hfit. pose proof fd_small. pose proof file_small. pose proof (hold_offset _ _ _ _ _ Hh) as [_ Hoff].
  assert (zlen (load (user t) src n) = n) as Hz by (apply zlen_load; lia).
  destruct (write_holds (io t) fd d loc f (load (user t) src n) Hh) as (b & Hrun & Hh'); [cbn; lia|].
  exists b. split; [|done]. rewrite wrap_small by lia. apply (via_call _ _ _ _ write_s_h); try done; [|lia].
  cbn [run_handler]. unfold write_h, user_load. run. unfold on_io, on.
  cbn [io_op] in Hrun. rewrite Hz in Hrun. unfold mbind, prog_bind in Hrun.
  destruct (write_s fd (load (user t) src n) n (io t)) as [[r|] s'] eqn:Hw; [|done]. cbn [file_step fst] in Hrun. rewrite Hz in Hrun.
  by injection Hrun as -> ->.
Qed.

Lemma via_read dst n :
  0 < n → offset f + n <= zlen (contents f) →
  ∃ b, via 63 (u64 fd) dst n t
      = (Done n, set_user (store (user t) dst (slice (contents f) (offset f) n)) (set_io (set_below b (io t)) t)) ∧
    holds (set_below b (io t)) fd d loc f.
Proof using Ht Hh BoardSpec0.
  intros Hn Hfit. pose proof fd_small. pose proof file_small. pose proof (hold_offset _ _ _ _ _ Hh) as [_ Hoff].
  destruct (read_holds (io t) fd d loc f n (load (user t) dst n) Hh) as (b & Hrun & Hh'); [done|apply zlen_load; lia|].
  exists b. split; [|done]. rewrite wrap_small by lia. apply (via_call _ _ _ _ read_s_h); try done; [|lia].
  cbn [run_handler]. unfold read_h, user_load. run.
  erewrite bind_done by (unfold on_io, on; rewrite Hrun; reflexivity). done.
Qed.

Lemma via_seek off :
  0 <= off <= zlen (contents f) →
  ∃ i d', via 62 (u64 fd) (u64 off) (u64 SEEK_SET) t = (Done off, set_io i t) ∧
    holds i fd d' loc (File (contents f) off) ∧ fds i = <[Z.to_nat fd := d']> (fds (io t)).
Proof using Ht Hh BoardSpec0.
  intros Hoff. pose proof fd_small. pose proof file_small.
  destruct (seek_holds (io t) fd d loc f off SEEK_SET Hh) as (p & Hrun & Hh'); [split; [by left|cbn; lia]|].
  eexists _, _. split; [|split; [exact Hh'|done]]. rewrite (wrap_small 64 fd), (wrap_small 64 SEEK_SET) by (unfold SEEK_SET; lia).
  apply (via_call _ _ _ _ seek_s_h); try done; [|lia].
  cbn [run_handler]. unfold on_io, on. cbn [io_op] in Hrun. unfold mbind, prog_bind in Hrun.
  destruct (seek_s fd (u64 off) SEEK_SET (io t)) as [[r|] s'] eqn:Hs; [|done]. by injection Hrun as -> ->.
Qed.
End calls.

(** ** The program *)

Definition testing_txt : list byte := String.list_byte_of_string "testing.txt".

(** The program's objects do not overlap, and the literals are what the
    compiler put there. *)
Definition apart (a n b m : Z) : Prop := a + n <= b ∨ b + m <= a.
Record objects_ok (m : memory) : Prop := {
  obj_locals : apart at_buffer 8 at_what_read 20;
  obj_path : apart at_testing_txt 12 at_buffer 8 ∧ apart at_testing_txt 12 at_what_read 20 ∧ apart at_testing_txt 12 at_hello 13;
  obj_text : apart at_hello 13 at_buffer 8 ∧ apart at_hello 13 at_what_read 20;
  obj_literals : load m at_testing_txt 12 = testing_txt ++ [Byte.x00] ∧ load m at_hello 13 = hello;
}.

(** The volume is mounted, slot [i] is the lowest that is closed, and nobody
    has moved its position; the volume has the file, of at least [n] bytes. *)
Record has_testing_txt (s : io_state S) (i : nat) (rootloc loc n : Z) : Prop := {
  tst_mounted : _superblock_mounted s = true ∧ ready (below s);
  tst_slot : ∃ d, zlen (fds s) = max_fd ∧ first_closed (fds s) i d ∧ pos d = 0 ∧
    ∃ inode ino', resolves (image (below s)) (_superblock s) (slice (image (below s)) rootloc 256) (Some (ino d))
        (components testing_txt) true inode (Some ino') ∧
      inode_placed (image (below s)) (_superblock s) ino' loc ∧
      mapped (zlen (image (below s))) (fd_inode s loc) n loc (bg_position (_superblock s) ino');
  tst_root : inode_placed (image (below s)) (_superblock s) 2 rootloc;
  tst_size : 23 <= n;
}.

Lemma testing_txt_no_nul : no_nul testing_txt.
Proof. apply (bool_decide_unpack _). vm_compute. exact I. Qed.

Lemma via_open t i rootloc loc n flags :
  syscall_handlers t = handler_table → has_testing_txt (io t) i rootloc loc n →
  load (user t) at_testing_txt 12 = testing_txt ++ [Byte.x00] →
  ∃ io' d path, via 56 (2 ^ 64 - 100) at_testing_txt flags t
      = (Done (Z.of_nat i), set_user (store (user t) at_testing_txt path) (set_io io' t)) ∧ zlen path = 12 ∧
    holds io' (Z.of_nat i) d loc (File (file_bytes (image (below (io t))) (fd_inode (io t) loc) 0 n) 0).
Proof using BoardSpec0.
  intros Ht [[Hmnt Hr] (d & Hlen & Hfirst & Hpos & inode & ino' & Hres & Hp & Hm) Hroot Hn] Hpath.
  destruct (open_fd_run (io t) i d testing_txt [] rootloc true inode ino') as (path & b & Hrun & Hrb & Him & Hz);
    [done..|apply testing_txt_no_nul|done|done|].
  set (d' := set_ino ino' (opened d)) in *. set (io' := set_below b _) in Hrun.
  pose proof Hfirst as (Hi & _). assert (Z.of_nat i < max_fd) as Hi100 by (apply lookup_lt_Some in Hi; unfold zlen in Hlen; lia).
  exists io', d', path. split; [|split; [exact Hz|]].
  - apply (via_call _ _ _ _ openat_s_h); try done; [|unfold max_fd in Hi100; lia]. cbn [run_handler]. unfold openat_h. run.
    rewrite (user_string_is _ _ testing_txt testing_txt_no_nul Hpath).
    assert (openat_s (testing_txt ++ [Byte.x00]) (io t) = (Done (Z.of_nat i, path), io')) as Hopen.
    { unfold openat_s. run_with Hrun. run. by rewrite wrap_small by (unfold max_fd in Hi100; lia). }
    erewrite bind_done by (unfold on_io, on; rewrite Hopen; reflexivity). done.
  - assert (zlen (file_bytes (image (below (io t))) (fd_inode (io t) loc) 0 n) = n) as Hzn by (apply zlen_file_bytes; lia).
    split; cbn [contents offset]; rewrite ?Hzn; unfold fd_inode in *; cbn [io' below set_below _superblock set_fds]; rewrite ?Him; try done.
    + split; try done; cbn [io' fds set_below set_fds]; rewrite ?Nat2Z.id; rewrite ?Him; try done; [lia| | |].
      * apply list_lookup_insert_eq. by apply lookup_lt_Some in Hi.
      * cbn [d' pos set_ino opened]. lia.
      * cbn [below set_below io' _superblock set_fds ino set_ino d']. by rewrite Him.
    + cbn [d' pos set_ino opened]. lia.
Qed.

(** The state in which the program prints what it has read. *)
Record fs_test_done (f : file) (random : list byte) t' : Prop := {
  done_read : load (user t') at_what_read 14 = hello ++ [Byte.x00];
  done_file : ∃ fd d loc, holds (io t') fd d loc (File (splice (splice (contents f) 0 hello) 15 random) 0);
}.

Lemma getrandom_answered t random b :
  syscall_handlers t = handler_table → get_randomness 8 (below (io t)) = (Done (8, random), b) →
  via 278 at_buffer 8 GRND_RANDOM t = (Done 8, set_user (store (user t) at_buffer random) (set_io (set_below b (io t)) t)).
Proof.
  intros Ht Hrnd. apply (via_call _ _ _ _ get_random_s_h); try done. cbn [run_handler]. unfold get_random_s.
  erewrite bind_done by (unfold kernel, on_io, on, lift; rewrite Hrnd; reflexivity). done.
Qed.

(** The two writes, the seeks and the read on the open file. *)
Lemma fs_test_calls t fd d loc f random :
  posix_wrappers → syscall_handlers t = handler_table → holds (io t) fd d loc f → offset f = 0 → 23 <= zlen (contents f) →
  apart at_hello 13 at_what_read 20 → apart at_buffer 8 at_what_read 20 →
  load (user t) at_hello 13 = hello → load (user t) at_buffer 8 = random → load (user t) at_what_read 20 = zeros 20 →
  ∃ t', (∀ rest : prog (system S) Z,
      (_ ← posix_write fd at_hello (zlen hello); _ ← posix_lseek fd 15 SEEK_SET; _ ← posix_write fd at_buffer 8;
       _ ← posix_lseek fd 0 SEEK_SET; _ ← posix_read fd at_what_read (zlen hello); rest) t = rest t') ∧
    fs_test_done f random t'.
Proof using BoardSpec0.
  intros W Ht Hh Hoff Hn Ha1 Ha2 Hhello Hrandom Hwhat.
  assert (zlen random = 8) as Hz by (rewrite <-Hrandom; apply zlen_load; lia).
  change 13 with (zlen hello) in Hhello. assert (zlen hello = 13) as Hz13 by done.
  destruct (via_write fd d loc f t Ht Hh at_hello (zlen hello)) as (b1 & Hr1 & Hh1); [lia|lia|].
  rewrite Hhello in Hh1. cbn [file_step snd] in Hh1. rewrite Hoff in Hh1. set (c1 := splice (contents f) 0 hello) in *.
  assert (zlen c1 = zlen (contents f)) as Hzc1 by (apply zlen_splice; lia).
  set (t1 := set_io (set_below b1 (io t)) t) in *.
  destruct (via_seek fd d loc (File c1 0) t1 Ht Hh1 15) as (i2 & d2 & Hr2 & Hh2 & _); [cbn [offset contents]; lia|].
  set (t2 := set_io i2 t1) in *.
  destruct (via_write fd d2 loc (File c1 15) t2 Ht Hh2 at_buffer 8) as (b3 & Hr3 & Hh3); [lia|cbn [offset contents]; lia|].
  set (t3 := set_io (set_below b3 (io t2)) t2) in *. change (user t2) with (user t) in Hh3. rewrite Hrandom in Hh3.
  cbn [file_step snd contents offset] in Hh3. set (c3 := splice c1 15 random) in *.
  assert (zlen c3 = zlen c1) as Hzc3 by (apply zlen_splice; lia).
  destruct (via_seek fd d2 loc (File c3 15) t3 Ht Hh3 0) as (i4 & d4 & Hr4 & Hh4 & _); [cbn [offset contents]; lia|].
  set (t4 := set_io i4 t3) in *.
  destruct (via_read fd d4 loc (File c3 0) t4 Ht Hh4 at_what_read (zlen hello)) as (b5 & Hr5 & Hh5); [lia|cbn [offset contents]; lia|].
  cbn [contents offset] in Hr5.
  assert (slice c3 0 (zlen hello) = hello) as Hread.
  { unfold c3. rewrite slice_splice_other by lia. unfold c1. by rewrite slice_splice_same by lia. }
  rewrite Hread in Hr5. eexists. split.
  - intros rest. rewrite <-(wrap_write W) in Hr1, Hr3. rewrite <-(wrap_lseek W) in Hr2, Hr4. rewrite <-(wrap_read W) in Hr5.
    run_with Hr1. run_with Hr2. run_with Hr3. run_with Hr4. run_with Hr5. reflexivity.
  - split; [|by exists fd, d4, loc]. cbn [user set_user t4 t3 t2 t1 set_io].
    change 14 with (zlen hello + 1). rewrite load_app, load_store_same by lia. f_equal.
    rewrite load_store_other by lia. rewrite <-(slice_load _ _ 20) by lia. by rewrite Hwhat.
Qed.

(** C9.  The file-system test works.  On a mounted volume with a file
    testing.txt whose blocks hold 23 bytes, with a source of randomness that
    answers, the program comes to its [printf] with "Hello, World!" (and the
    NUL behind it) in [what_read]; the file on the disk begins with the text
    and has the random bytes at 15.  What the program does is the calls
    through the dispatcher: getrandom, openat, write, lseek, write, lseek,
    read. *)
Theorem fs_test_reads_back t i rootloc loc n random b :
  posix_wrappers → syscall_handlers t = handler_table → objects_ok (user t) →
  has_testing_txt (io t) i rootloc loc n →
  get_randomness 8 (below (io t)) = (Done (8, random), b) → zlen random = 8 → ready b → image b = image (below (io t)) →
  ∃ t', fs_test_main t
      = (_ ← posix_printf (String.list_byte_of_string ("what_read: -%s-" +:+ nl)) [at_what_read]; mret 0) t' ∧
    fs_test_done (File (file_bytes (image (below (io t))) (fd_inode (io t) loc) 0 n) 0) random t'.
Proof using BoardSpec0.
  intros W Ht Hobj Htst Hrnd Hz Hr Him. destruct Hobj as [Hloc (Hp1 & Hp2 & Hp3) (Ht1 & Ht2) [Hpath Htext]]. unfold apart in *.
  unfold fs_test_main. set (t0 := set_user (store (user t) at_buffer (zeros 8)) t).
  rewrite (bind_done _ _ _ tt t0) by done.
  pose proof (getrandom_answered t0 random b Ht Hrnd) as Hgr. rewrite <-(wrap_getrandom W) in Hgr. run_with Hgr.
  change (8 <? 0) with false. cbv iota. set (t1 := set_user _ _).
  set (t2 := set_user (store (user t1) at_what_read (zeros 20)) t1).
  rewrite (bind_done _ _ _ tt t2) by done.
  assert (has_testing_txt (io t2) i rootloc loc n) as Htst2.
  { destruct Htst as [[Hmnt _] Hslot Hroot Hn].
    split; unfold fd_inode in *; cbn [t2 t1 io set_user set_io set_below below fds _superblock _superblock_mounted]; rewrite ?Him; done. }
  assert (∀ a k, (a + k <= at_buffer ∨ at_buffer + 8 <= a) → (a + k <= at_what_read ∨ at_what_read + 20 <= a) →
    load (user t2) a k = load (user t) a k) as Hkeep.
  { intros a k ? ?. cbn [t2 t1 t0 user set_user set_io]. rewrite !load_store_other; rewrite ?zlen_zeros; (done || lia). }
  destruct (via_open t2 i rootloc loc n (Z.lor O_CREAT O_LARGEFILE) Ht Htst2) as (io3 & d & path & Hopen & Hzp & Hh);
    [by rewrite Hkeep by lia|].
  rewrite <-(wrap_open W) in Hopen. run_with Hopen. set (t3 := set_user _ _).
  assert (∀ a k, a + k <= at_testing_txt ∨ at_testing_txt + 12 <= a → load (user t3) a k = load (user t2) a k) as Hkeep3
    by (intros a k Ha; cbn [t3 user set_user]; apply load_store_other; lia).
  destruct (fs_test_calls t3 (Z.of_nat i) d loc _ random W Ht Hh) as (t' & Hrun & Hdone); try (done || (unfold apart; lia)).
  - cbn [contents]. rewrite zlen_file_bytes by (destruct Htst; lia). apply Htst.
  - rewrite Hkeep3, Hkeep by lia. done.
  - rewrite Hkeep3 by lia. cbn [t2 t1 user set_user set_io]. rewrite load_store_other by (rewrite zlen_zeros; lia).
    rewrite <-Hz. apply load_store_same.
  - rewrite Hkeep3 by lia. cbn [t2 user set_user]. apply (load_store_same _ _ (zeros 20)).
  - exists t'. split; [apply Hrun|].
    unfold fd_inode in *. cbn [t2 t1 io set_user set_io set_below below] in Hdone. rewrite Him in Hdone. exact Hdone.
Qed.
End wrappers.

(** ** Witness

    The sample volume with a second name for its file in the root directory:
    inode 4 is also testing.txt. *)
Definition testing_image : list byte :=
  splice (splice sample_image (5120 + 24) (entry 3 12 "lib")) (5120 + 36) (entry 4 988 "testing.txt").
#[global] Opaque testing_image.

Definition testing_root : list byte := slice testing_image 3328 256.
Definition testing_entries : list dirent :=
  [entry_at (slice testing_image 5120 1024) 0; entry_at (slice testing_image 5120 1024) 12;
   entry_at (slice testing_image 5120 1024) 24; entry_at (slice testing_image 5120 1024) 36].

Lemma testing_listing : dir_listing testing_image testing_root 0 testing_entries.
Proof.
  change testing_entries with (testing_entries ++ []). apply listing_block; [concrete|concrete| | |].
  - split_and!; concrete.
  - change (slice testing_image (i_block testing_root 0 * 1024) 1024) with (slice testing_image 5120 1024).
    unfold testing_entries. entry_here.
    replace (0 + _) with 12 by (vm_compute; reflexivity). entry_here.
    replace (12 + _) with 24 by (vm_compute; reflexivity). entry_here.
    replace (24 + _) with 36 by (vm_compute; reflexivity). entry_here.
    replace (36 + _) with 1024 by (vm_compute; reflexivity). constructor.
  - apply listing_end; concrete.
Defined.

Definition testing_io : io_state ramdisk :=
  set_mounted true (set_superblock sample_superblock (configure_io (initial_io (RamDisk testing_image []))).2).

(** The file's first block is 6, its second 8. *)
Lemma testing_mapped : mapped (zlen testing_image) (slice testing_image 3840 256) 2048 3840 2048.
Proof.
  assert (∀ k, 0 <= k < 2048 → k / 1024 = 0 ∨ k / 1024 = 1) as Hk by (intros; zlia).
  assert (∀ o m, o + m <= 6144 → region_apart (slice testing_image 3840 256) 0 2048 o m) as Hap.
  { intros o m Hm k Hk'. right. unfold file_pos. destruct (Hk (0 + k) ltac:(lia)) as [->| ->].
    - change (i_block (slice testing_image 3840 256) 0) with 6. zlia.
    - change (i_block (slice testing_image 3840 256) 1) with 8. zlia. }
  split.
  - intros k Hk'. destruct (Hk (0 + k) ltac:(lia)) as [->| ->]; concrete.
  - intros k k' Hk1 Hk2. destruct (Hk (0 + k) ltac:(lia)) as [->| ->], (Hk (0 + k') ltac:(lia)) as [->| ->]; concrete.
  - apply Hap. lia.
  - split; [apply Hap; lia|lia].
Defined.

#[export] Instance testing_symbols : FsTestSymbols :=
  {| at_buffer := 64; at_what_read := 128; at_testing_txt := 256; at_hello := 512; at_timev := 1024 |}.

Lemma testing_exists : has_testing_txt testing_io 0 3328 3840 2048.
Proof.
  split.
  - split; [reflexivity|]. split; concrete.
  - exists closed_descriptor. split; [reflexivity|]. split.
    { split; [reflexivity|]. split; [reflexivity|lia]. }
    split; [reflexivity|]. exists (slice testing_image 3840 256), 4. split_and!.
    + change (components testing_txt) with [testing_txt].
      eapply resolves_step; [apply testing_listing|vm_compute; reflexivity| |apply resolves_done].
      split; [split|]; concrete.
    + split; [split|]; concrete.
    + exact testing_mapped.
  - split; [split|]; concrete.
  - lia.
Defined.

(** Wrappers that do what they say, and a [printf] that counts. *)
#[export] Instance testing_posix : Posix ramdisk := let via := via slow_clock no_deferred 10 in {|
  posix_getrandom buf n flags := via 278 buf n flags;
  posix_open path flags := via 56 (2 ^ 64 - 100) path (Z.lor flags O_LARGEFILE);
  posix_write fd buf n := via 64 (u64 fd) buf n;
  posix_read fd buf n := via 63 (u64 fd) buf n;
  posix_lseek fd off whence := via 62 (u64 fd) (u64 off) (u64 whence);
  posix_gettimeofday tv tz := via 113 0 tv 0;
  posix_printf fmt args := mret (zlen fmt)
|}.

Definition testing_memory : memory := store (store ∅ 256 (testing_txt ++ [Byte.x00])) 512 hello.
Definition testing_system : system ramdisk := System testing_io quiet testing_memory handler_table.

Lemma fs_test_reads_back_witness :
  ∃ t', fs_test_main testing_system = (Done 0, t') ∧ load (user t') 128 14 = bytes_of "Hello, World!" ++ [Byte.x00].
Proof.
  destruct (fs_test_reads_back slow_clock no_deferred 10 testing_system 0 3328 3840 2048
    (replicate 8 Byte.x2a) (below testing_io)) as (t' & Hrun & [Hread _]).
  - by split.
  - reflexivity.
  - split; unfold apart; cbn; try lia. split; vm_compute; reflexivity.
  - exact testing_exists.
  - reflexivity.
  - reflexivity.
  - split; concrete.
  - reflexivity.
  - exists t'. split; [exact Hrun|exact Hread].
Defined.
