(* ===== verification/SyscallMachine.v ===== *)
(** * The system calls on the machine

    The last connection: the allocator and the entropy queue of the machine
    are what the handlers use, and a program's call reaches the devices. *)

From S2P Require Import Prelude Programs Layout Ecall Memory Machine Heap LinkerScript Vring QueueState Blk BlkVring Chain VirtioDriver Ext2 Ext2File Ext2Theorems Io IoTheorems RefDevice Ramdisk Board ChainTheorems Randomness MachineWorks DeviceBoot BusScan MachineBoot Pci RefChain BootDevice Timer TimerTheorems Syscall SystemInvariant SyscallTheorems.

#[export] Instance machine_services {D} `{!Platform D} `{!Linker} : Services (machine D) :=
  {| kernel_malloc := malloc; get_randomness := virtio_get_randomness |}.

Section machine.
Context {D : Type} `{!Platform D} `{!VirtioBlk D} `{!VirtioChain D} `{!Linker} `{!Uninit} `{!Build}.
Context (clock : nat → Z) (call_deferred : Z → Z → prog os_state unit) (turns : nat).

Abbreviation dispatch := (system_call_dispatcher (S := machine D) clock call_deferred turns).

(** C32.  [getrandom] (call 278) of [n] bytes returns [n] and puts [n] bytes
    into the program's buffer; the rest of the program's memory, the disk and
    the console are as before, and the machine is in order.  The device has
    taken one chain from its queue for every 8 bytes, [answers] is what it
    stored for them, and the bytes delivered are the answers cut to [n] bytes,
    each on top of the one before it and the first on top of zeros: the length
    the device reports is not looked at.  This holds as long as the device
    fills the buffer the driver has just named ([one_place]): until the
    driver's place in the ring comes round, which is the first [num - 1]
    chunks, and for ever if the stack has always been at the same place; what
    may happen otherwise is [randomness_misdelivered]. *)
Theorem getrandom_call B room s drv cause location value sp buf n a2 a3 a4 a5 :
  syscall_handlers s = handler_table → let m := below (io s) in
  machine_works B room m → 0 <= n <= 2 ^ 64 - 8 →
  virtio_drivers m !! ENTROPY_DRIVER = Some drv → one_place B (side (host drv) 0 (dev m)) (Machine.sp m - 8) n →
  ∃ answers m', let bytes := delivered n (zeros 8) answers in
    dispatch cause location value sp 278 buf n a2 a3 a4 a5 s
    = (Done n, set_user (store (user s) buf bytes) (set_io (set_below m' (io s)) s)) ∧
    zlen bytes = n ∧ chains_served (host drv) (dev m) answers (dev m') ∧ zlen answers = chunks n ∧
    machine_works B room m' ∧ image m' = image m ∧
    transcript CONSOLE_DRIVER 1 m' = transcript CONSOLE_DRIVER 1 m.
Proof.
  intros Ht m Hs Hn Hdrv Hplace.
  destruct (works_randomness B room m n Hs Hn) as (drv' & bytes & m' & Hdrv' & Hrun & [Hz (answers & Hserved & _ & Hcount & Hout)] & Hb & Him & Htr & _).
  rewrite Hdrv in Hdrv'. injection Hdrv' as <-. rewrite (Hout Hplace) in *.
  exists answers, m'. split; [|split_and!; done]. unfold m in *. rewrite dispatch_handler by (done || lia).
  change (handler_of _) with get_random_s_h. cbn [run_handler]. unfold get_random_s.
  erewrite bind_done by (unfold kernel, on_io, on, lift, get_randomness, machine_services; rewrite Hrun; reflexivity).
  done.
Qed.

(** A program's standard output: [write] (call 64) to descriptor 1 returns
    [size], and the console device has read the [size] bytes that the
    program's memory holds at [buf]. *)
Lemma stdout_call room d s cause location value sp buf size a3 a4 a5 :
  syscall_handlers s = handler_table → stdout_open (io s) d →
  side_works room CONSOLE_DRIVER 1 (below (io s)) → 0 <= size <= room → size < 2 ^ 31 →
  ∃ b, dispatch cause location value sp 64 1 buf size a3 a4 a5 s = (Done size, set_io (set_below b (io s)) s) ∧
    console_transmit (load (user s) buf size) (below (io s)) = (Done tt, b) ∧ side_works room CONSOLE_DRIVER 1 b ∧ image b = image (below (io s)) ∧
    transcript CONSOLE_DRIVER 1 b = transcript CONSOLE_DRIVER 1 (below (io s)) ++ load (user s) buf size.
Proof.
  intros Ht Hd Hs Hsz H31.
  destruct (console_write room (io s) d (load (user s) buf size) size Hd Hs Hsz) as (b & Hrun & Hput & Hb & Him & Htr);
    [rewrite zlen_load; lia|done|].
  exists b. rewrite dispatch_handler by (done || lia). change (handler_of _) with write_s_h.
  cbn [run_handler]. unfold write_h, user_load. run. unfold on_io, on. rewrite Hrun.
  rewrite slice_all in Htr, Hput by (rewrite zlen_load; lia). done.
Qed.

(** The calls of a program that writes the ranges [writes] of its memory. *)
Definition print_all (writes : list (Z * Z)) : prog (system (machine D)) (list Z) :=
  mapM (λ w, dispatch 8 0 0 0 64 1 w.1 w.2 0 0 0) writes.

(** C10.  What a program writes to its standard output reaches the console,
    all of it and in order: any number of [write] calls, each short enough
    for a buffer, return their sizes, and the console device has read the
    bytes of the program's memory, one range after the other, from its
    transmit queue.  Nothing else has changed: the disk, the descriptors,
    the timers and the program's memory are as before, and the console is
    ready for more. *)
Theorem stdout_reaches_console room d writes s :
  syscall_handlers s = handler_table → stdout_open (io s) d →
  side_works room CONSOLE_DRIVER 1 (below (io s)) → room < 2 ^ 31 →
  Forall (λ w, 0 <= w.2 <= room) writes →
  ∃ b, print_all writes s = (Done (snd <$> writes), set_io (set_below b (io s)) s) ∧
    side_works room CONSOLE_DRIVER 1 b ∧ image b = image (below (io s)) ∧
    transcript CONSOLE_DRIVER 1 b
    = transcript CONSOLE_DRIVER 1 (below (io s)) ++ concat ((λ w, load (user s) w.1 w.2) <$> writes).
Proof.
  intros Ht Hd Hs Hroom Hw. revert s Ht Hd Hs. induction Hw as [|[buf size] writes Hsz _ IH]; intros s Ht Hd Hs.
  - exists (below (io s)). cbn. rewrite app_nil_r. split; [|done]. by destruct s as [[]].
  - cbn in Hsz. destruct (stdout_call room d s 8 0 0 0 buf size 0 0 0 Ht Hd Hs) as (b & Hrun & _ & Hb & Him & Htr); [lia..|].
    destruct (IH (set_io (set_below b (io s)) s)) as (b' & Hrun' & Hb' & Him' & Htr'); [done|by destruct Hd|done|].
    exists b'. unfold print_all in *. cbn [mapM fmap list_fmap concat fst snd]. run_with Hrun. run_with Hrun'.
    split; [done|]. cbn [io user set_io below set_below] in *. rewrite Him', Him, Htr', Htr. by rewrite app_assoc.
Qed.
End machine.

(** ** Witnesses *)

Definition on_machine {D} (b : io_state (machine D)) (m : memory) : system (machine D) :=
  System b quiet m handler_table.
Definition machine_call := system_call_dispatcher (S := machine side_device) slow_clock no_deferred 10 8 0 0 0.

(** Five bytes, on the board of BootDevice.v after the scan of its bus; the
    device has three. *)
Definition scanned : machine board :=
  (configure_pci declared_drivers (reset_machine 256 8 8 (zeros 1024) [Byte.x01; Byte.x02; Byte.x03])).2.

Lemma getrandom_call_witness :
  ∃ s', system_call_dispatcher slow_clock no_deferred 10 8 0 0 0 278 64 5 0 0 0 0 (on_machine (initial_io scanned) ∅)
    = (Done 5, s') ∧ user s' = store ∅ 64 [Byte.x01; Byte.x02; Byte.x03; Byte.x00; Byte.x00].
Proof.
  destruct (reset_works (λ b, b = _sp - 8) (zeros 1024) [Byte.x01; Byte.x02; Byte.x03]) as (s & Hboot & Hs & _);
    [intros b ->; vm_compute; intuition congruence|done|done|vm_compute; congruence|].
  assert (s = scanned) as -> by (unfold scanned; by rewrite Hboot). clear Hboot.
  destruct (virtio_drivers scanned !! ENTROPY_DRIVER) as [drv|] eqn:Hdrv; [|vm_compute in Hdrv; congruence].
  assert (host drv = 50343936) as Hhost
    by (apply (f_equal (fmap host)) in Hdrv; vm_compute in Hdrv; by injection Hdrv).
  destruct (getrandom_call slow_clock no_deferred 10 (λ b, b = _sp - 8) 4096 (on_machine (initial_io scanned) ∅) drv
    8 0 0 0 64 5 0 0 0 0) as (answers & m' & Hrun & _ & Hserved & Hcount & _); [reflexivity|exact Hs|lia|exact Hdrv| |].
  { right. rewrite Hhost. vm_compute. congruence. }
  eexists. split; [exact Hrun|]. cbn [user set_user on_machine]. f_equal.
  rewrite (served_single _ _ _ _ Hserved Hcount).
  rewrite Hhost. vm_compute. reflexivity.
Defined.

Lemma stdout_reaches_console_witness :
  ∃ b, let s := on_machine console_io (store ∅ 64 (bytes_of "Hello, world")) in
    print_all slow_clock no_deferred 10 [(64, 7); (71, 5)] s = (Done [7; 5], set_io (set_below b console_io) s) ∧
    transcript CONSOLE_DRIVER 1 b = bytes_of "Hello, world".
Proof.
  destruct (stdout_reaches_console slow_clock no_deferred 10 4096 stdout_fd [(64, 7); (71, 5)]
    (on_machine console_io (store ∅ 64 (bytes_of "Hello, world"))))
    as (b & Hrun & _ & _ & Htr);
    [reflexivity|split; [reflexivity|by split]|apply console_io_works|lia|repeat constructor; cbn; lia|].
  exists b. split; [exact Hrun|]. rewrite Htr. vm_compute. reflexivity.
Defined.

(** Over the virtqueue, on the file of the sample volume. *)
Lemma file_calls_write_read_witness :
  ∃ s' s'', let s := on_machine machine_io (store ∅ 64 (bytes_of "boundary")) in
    let call := system_call_dispatcher (S := machine ref_device) slow_clock no_deferred 10 8 0 0 0 in
    call 64 0 64 8 0 0 0 s = (Done 8, s') ∧ call 63 0 128 8 0 0 0 s' = (Done 8, s'') ∧
    load (user s'') 128 8 = bytes_of "boundary".
Proof.
  destruct (file_calls_write_read (S := machine ref_device) slow_clock no_deferred 10
    (on_machine machine_io (store ∅ 64 (bytes_of "boundary"))) 0 sample_fd 3840 64 128 8
    8 0 0 0 0 0 0 8 0 0 0 0 0 0) as (s' & s'' & Hw & Hr & Hl);
    [reflexivity|apply machine_file_fd|lia| |apply sample_distinct|apply sample_apart; lia|apply sample_apart; concrete
    |right; concrete|].
  { split; [concrete|apply sample_range]. }
  exists s', s''. split; [exact Hw|]. split; [exact Hr|]. rewrite Hl. vm_compute. reflexivity.
Defined.
