(* ===== verification/MachineInvariant.v ===== *)
(** * The invariant of the system on the machine

    With [machine_works] for readiness the machine is a block device, a
    board and a source of randomness in the sense of the generic theorems:
    what SystemInvariant.v shows of a system on any such board holds of the
    system on the virtqueues. *)

From S2P Require Import Prelude Programs Layout Ecall Memory Machine Heap HeapTheorems Vring QueueState Blk BlkVring Chain VirtioDriver LegacyBus Ext2 Ext2File Invariants Io IoTheorems Board ChainTheorems Randomness MachineWorks Timer Syscall SystemInvariant SyscallMachine.

(** Looking at a register leaves the queues alone. *)
Class QuietRegs (D : Type) `{!Platform D} `{!VirtioBlk D} `{!VirtioChain D} :=
  quiet_regs a n d :
    view (mmio_load a n d).2 = view d ∧
    ∀ h q, side h q (mmio_load a n d).2 = side h q d ∧ (has_queue h q d → has_queue h q (mmio_load a n d).2).

#[export] Instance legacy_quiet_regs {D} `{LegacyBus D} : QuietRegs D := quiet_load.

Section works.
Context {D : Type} `{!Platform D} `{!VirtioBlk D} `{!VirtioChain D} `{!QuietRegs D} `{!Linker}.
Context (B : Z → Prop) (room : Z).
Implicit Types s : machine D.

Lemma works_disk_ready s : machine_works B room s → blk_ready s.
Proof. intros (bdrv & bv & ? & ? & ? & ? & [Hd _ _ _ _ _ _]). by exists bdrv, bv. Qed.

(** What the console has read so far; nothing is said of it with [None]. *)
Definition printed (T : option (list byte)) s : Prop :=
  match T with Some l => transcript CONSOLE_DRIVER 1 s = l | None => True end.

Lemma works_beside T s s' :
  machine_works B room s ∧ printed T s → blk_ready s' → disk_beside s s' → machine_works B room s' ∧ printed T s'.
Proof.
  intros [Hs HT] Hr Hbeside. destruct (works_request B room s s' Hs Hr Hbeside) as [Hw Htr]. split; [done|].
  destruct T; [|done]. cbn in *. by rewrite Htr.
Qed.

Definition works_spec (T : option (list byte)) : BlkSpec (machine D).
Proof.
  refine {| ready s := machine_works B room s ∧ printed T s; image s := bv_image (view (dev s)) |}.
  - intros s [Hs _]. by apply (@image_sectors _ _ machine_blk_spec), works_disk_ready.
  - intros s [Hs _]. by apply (@image_bound _ _ machine_blk_spec), works_disk_ready.
  - intros s sector blk Hs Hblk Hsec Hin. pose proof (works_disk_ready s (proj1 Hs)) as Hr.
    pose proof (@image_bound _ _ machine_blk_spec s Hr) as Hb. cbn in Hb.
    destruct (framed_read s sector blk) as (st & data & s' & Hrun & (Hr' & Hout) & Hbeside); [done..|lia|].
    rewrite decide_True in Hout by done. destruct Hout as (-> & Him & ->). exists s'.
    split; [done|]. split; [by apply (works_beside T s)|done].
  - intros s sector blk Hs Hblk Hsec Hout. pose proof (works_disk_ready s (proj1 Hs)) as Hr.
    destruct (framed_read s sector blk) as (st & data & s' & Hrun & (Hr' & Hres) & Hbeside); [done..|lia|].
    rewrite decide_False in Hres by lia. destruct Hres. exists st, data, s'.
    do 2 (split; [done|]). split; [by apply (works_beside T s)|done].
  - intros s sector blk Hs Hblk Hsec Hin. pose proof (works_disk_ready s (proj1 Hs)) as Hr.
    pose proof (@image_bound _ _ machine_blk_spec s Hr) as Hb. cbn in Hb.
    destruct (framed_write s sector blk) as (st & data & s' & Hrun & (Hr' & Hout) & Hbeside); [done..|lia|].
    rewrite decide_True in Hout by done. destruct Hout as (-> & Him). exists s'.
    split; [done|]. split; [by apply (works_beside T s)|done].
Defined.

Lemma works_console T : @QuietConsole (machine D) _ (works_spec T) _.
Proof.
  intros p s [Hs HT]. eexists. split; [reflexivity|]. split; [|done].
  destruct (works_elsewhere B room s (set_out (console_out s ++ [p]) s) Hs) as (Hw & _ & Htr); [done..|].
  split; [exact Hw|]. destruct T; [|done]. cbn [printed] in *. rewrite <-HT. exact Htr.
Qed.

#[local] Instance any_works_spec : BlkSpec (machine D) | 0 := works_spec None.
#[local] Existing Instance works_console.

Lemma upholds_driver_up t : upholds ready (driver_up (St := machine D) t) any.
Proof. cbn [driver_up machine_board]. unfold driver_is_up, get_driver. uphold. Qed.

Lemma upholds_load_word a : upholds ready (load_word (St := machine D) a) any.
Proof.
  intros s Hs. cbn [load_word machine_board]. unfold load_reg. destruct (quiet_regs a 4 (dev s)) as [Hview Hside].
  destruct (mmio_load a 4 (dev s)) as [w d]. cbn [fst snd] in *. split; [|done]. split; [|done].
  apply (works_elsewhere B room s); [exact (proj1 Hs)|done..].
Qed.

#[local, refine] Instance works_board : QuietBoard (machine D) := {| transmit_limit := room |}.
Proof.
  - apply upholds_driver_up.
  - intros buf Hbuf s Hs. destruct (works_transmit B room s buf (proj1 Hs) Hbuf) as (s' & -> & Hs' & _). done.
  - apply upholds_load_word.
Defined.

#[local, refine] Instance works_services : QuietServices (machine D) := {| random_limit := 2 ^ 64 - 8 |}.
Proof.
  - intros n s [Hs _]. split; [by split; [apply works_malloc|]|]. by destruct (kernel_malloc n s) as [[] ?].
  - intros n Hn Hlim s Hs.
    destruct (works_randomness B room s n (proj1 Hs)) as (drv & bytes & s' & _ & Hrun & [Hz _] & Hs' & _); [lia|].
    unfold get_randomness, machine_services. rewrite Hrun. split; [done|]. cbn. lia.
Defined.

(** ** The system *)

Section system.
Context `{!Uninit} `{!Build}.
Context (clock : nat → Z) (call_deferred : Z → Z → prog os_state unit) (turns : nat).
Hypothesis deferred_quiet : ∀ f c, upholds os_ok (call_deferred f c) any.

(** The system's invariant with [machine_works] for the machine. *)
Definition machine_ok (t : system (machine D)) : Prop := system_ok t.

Lemma configured_machine_ok (b : machine D) o m : machine_works B room b → os_ok o → machine_ok (configured b o m).
Proof. intros Hb Ho. by apply configured_system_ok; [split|]. Qed.

Lemma machine_ok_works (t : system (machine D)) : machine_ok t → machine_works B room (below (io t)).
Proof. intros [[[Hw _] _] _ _]. exact Hw. Qed.

(** What a program does: it computes in its memory, it moves its stack, on
    which the kernel runs, and it makes calls whose outputs fit into [room]
    bytes of stack. *)
Inductive program_step (t t' : system (machine D)) : Prop :=
  | program_computes m : t' = set_user m t → program_step t t'
  | program_moves p :
      stack_ok room p → B (p - 8) → t' = Syscall.set_io (set_below (set_sp p (below (io t))) (io t)) t → program_step t t'
  | program_calls : system_step clock call_deferred turns t t' → program_step t t'.

Lemma program_step_ok (t t' : system (machine D)) : machine_ok t → program_step t t' → machine_ok t'.
Proof using deferred_quiet.
  intros Hs [m ->|p Hp HB ->|[? ? ? ? ? ? ? ? ? ? ? Hargs Hsmall <-]].
  - destruct Hs. by split.
  - pose proof (machine_ok_works _ Hs) as Hw. destruct Hs as [[_ Ht] ? ?]. split; [|done|done].
    split; [by split; [apply works_move|]|exact Ht].
  - by eapply upholds_dispatcher.
Qed.

Lemma program_steps_ok (t t' : system (machine D)) : machine_ok t → rtc program_step t t' → machine_ok t'.
Proof using deferred_quiet. intros Hs Hsteps. induction Hsteps; eauto using program_step_ok. Qed.
End system.
End works.

Lemma machine_ok_mono {D} `{!Platform D} `{!VirtioBlk D} `{!VirtioChain D} `{!QuietRegs D} `{!Linker} `{!Build}
    (B B' : Z → Prop) room (t : system (machine D)) :
  (∀ b, B b → B' b) → (∀ b, B' b → off_storage b) → machine_ok B room t → machine_ok B' room t.
Proof.
  intros HBB HB' Hok. pose proof (machine_ok_works B room t Hok) as Hw. destruct Hok as [[_ Ht] Ho Hs].
  split; [|done|done]. split; [|exact Ht]. split; [|done]. by apply (works_mono B).
Qed.
