(* ===== verification/TrapTheorems.v ===== *)
(** * Traps keep the program's registers (properties of Trap.v)

    The frame holds every register the program had; a system call comes back
    with its result in [a0] behind the instruction that made it, and a timer
    interrupt leaves no trace. *)

From stdpp Require Import functions.
From S2P Require Import Prelude Programs Layout Ecall Memory Blk Ext2 Ext2File Ext2Dir Ramdisk SelfTest BlkTheorems Ext2Theorems Io IoTheorems Timer TimerTheorems Syscall SystemInvariant SyscallTheorems Trap.

(** ** The frame *)

(** The word in slot [n] of the frame at [f]. *)
Definition word (f : Z) (h : hart) (n : nat) : Z := load_le (ram h) (f + slot n) 8.


Lemma exec_app l1 l2 h : exec (l1 ++ l2) h = exec l2 (exec l1 h).
Proof. apply foldl_app. Qed.
Lemma exec_cons i l h : exec (i :: l) h = exec l (step i h).
Proof. done. Qed.
Lemma exec_nil h : exec [] h = h.
Proof. done. Qed.

(** The instructions keep the registers within 64 bits. *)
Definition small_instr (i : instr) : Prop := match i with Li _ v => in_u64 v | _ => True end.

Lemma wide_set_x r v h : in_u64 v → wide h → wide (set_x r v h).
Proof.
  intros Hv [Hx Hc]. split; [|intros []; [apply (Hc scause_r)|apply (Hc sepc_r)|apply (Hc stval_r)|apply (Hc sstatus_r)]].
  intros i. cbn. unfold insert, fn_insert. by case_decide.
Qed.

Lemma wide_step i h : small_instr i → wide h → wide (step i h).
Proof.
  intros Hi [Hx Hc]. pose proof (wrap_range 64).
  destruct i; cbn [step]; try apply wide_set_x; try done; unfold in_u64; auto with lia.
  - pose proof (load_le_range (ram h) (u64 (x h base + off)) 8). lia.
  - split; [done|]. intros []; try apply Hx; [apply (Hc scause_r)|apply (Hc stval_r)|apply (Hc sstatus_r)].
Qed.

Lemma wide_exec l h : Forall small_instr l → wide h → wide (exec l h).
Proof.
  intros Hl. revert h. induction Hl as [|i l Hi _ IH]; intros h Hh; [done|]. apply IH. by apply wide_step.
Qed.

Section frame.
Context (f : Z).
Hypothesis Hf : 0 <= f ∧ f + frame_size <= 2 ^ 64.

Lemma frame_address h n : x h sp = f → (n < 43)%nat → u64 (x h sp + slot n) = f + slot n.
Proof using Hf. intros -> Hn. unfold frame_size, slot in *. apply wrap_small. lia. Qed.

Lemma exec_save h r n : x h sp = f → (n < 43)%nat →
  step (save r n) h = set_ram (store_le (ram h) (f + slot n) 8 (x h r)) h.
Proof using Hf. intros Hsp Hn. cbn. by rewrite frame_address. Qed.

Lemma exec_restore h r n : x h sp = f → (n < 43)%nat → step (restore r n) h = set_x r (word f h n) h.
Proof using Hf. intros Hsp Hn. cbn. by rewrite frame_address. Qed.

Lemma word_store h n v k :
  in_u64 v → word f (set_ram (store_le (ram h) (f + slot n) 8 v) h) k = if decide (k = n) then v else word f h k.
Proof.
  intros Hv. unfold word, slot. cbn [ram set_ram]. destruct (decide (k = n)) as [->|].
  - rewrite load_le_store_le_same. by apply Z.mod_small.
  - rewrite load_le_store_le_other; [done|]. lia.
Qed.

(** Registers go to their slots; nothing else moves. *)
Lemma exec_saves l h :
  x h sp = f → Forall (λ p, (p.2 < 43)%nat ∧ in_u64 (x h p.1)) l → NoDup l.*2 →
  let h' := exec ((λ p, save p.1 p.2) <$> l) h in
  x h' = x h ∧ (∀ c, read_csr c h' = read_csr c h) ∧
  (∀ p, p ∈ l → word f h' p.2 = x h p.1) ∧ (∀ n, (n ∉ l.*2)%nat → word f h' n = word f h n).
Proof using Hf.
  intros Hsp Hl. revert h Hsp Hl. induction l as [|[r n] l IH]; intros h Hsp Hl Hnd.
  { split_and!; [done|done|by intros p ?%elem_of_nil|done]. }
  apply Forall_cons in Hl as [[Hn Hr] Hl]. cbn in Hn, Hr. apply NoDup_cons in Hnd as [Hni Hnd]. cbn [fst snd] in Hni.
  cbn [fmap list_fmap exec foldl fst snd]. rewrite (exec_save h r n Hsp Hn).
  set (h1 := set_ram _ h). change (foldl _ h1 _) with (exec ((λ p, save p.1 p.2) <$> l) h1).
  destruct (IH h1) as (Hx & Hc & Hin & Hout); [done|done|done|].
  assert (∀ k, word f h1 k = if decide (k = n) then x h r else word f h k) as Hw by (intros k; by apply word_store).
  split_and!; [done|intros c; rewrite Hc; by destruct c| |].
  - intros p [-> |Hp]%elem_of_cons; [|by apply Hin]. cbn. rewrite Hout, Hw by done. by rewrite decide_True.
  - intros k Hk. cbn in Hk. apply not_elem_of_cons in Hk as [Hkn Hk]. rewrite Hout, Hw by done. by rewrite decide_False.
Qed.

(** The three registers of the trap go to the frame through [t0] to [t2]. *)
Lemma trap_registers_spec h :
  x h sp = f → (∀ c, in_u64 (read_csr c h)) →
  let h' := exec (get_push_trap_registers t0 t1 t2) h in
  x h' = <[t2 := stval h]> (<[t1 := sepc h]> (<[t0 := scause h]> (x h))) ∧
  (∀ c, read_csr c h' = read_csr c h) ∧
  word f h' 32 = scause h ∧ word f h' 33 = sepc h ∧ word f h' 34 = stval h ∧
  ∀ n, (n < 32 ∨ 34 < n)%nat → word f h' n = word f h n.
Proof using Hf.
  intros Hsp Hc. pose proof (Hc scause_r) as H0. pose proof (Hc sepc_r) as H1. pose proof (Hc stval_r) as H2.
  cbn in H0, H1, H2. unfold get_push_trap_registers. rewrite !exec_cons, exec_nil.
  assert (∀ r v g, (r ≠ sp)%nat → x g sp = f → x (set_x r v g) sp = f) as Hkeep
    by (intros r v g Hr Hg; cbn; by rewrite fn_lookup_insert_ne).
  change (step (Csrr t0 scause_r) h) with (set_x t0 (scause h) h).
  rewrite (exec_save (set_x t0 (scause h) h)) by (try apply Hkeep; done || lia).
  set (g1 := set_ram _ (set_x t0 _ h)). assert (x g1 sp = f) as Hg1 by (by apply Hkeep).
  change (step (Csrr t1 sepc_r) g1) with (set_x t1 (sepc h) g1).
  rewrite (exec_save (set_x t1 (sepc h) g1)) by (try apply Hkeep; done || lia).
  set (g2 := set_ram _ (set_x t1 _ g1)). assert (x g2 sp = f) as Hg2 by (by apply Hkeep).
  change (step (Csrr t2 stval_r) g2) with (set_x t2 (stval h) g2).
  rewrite (exec_save (set_x t2 (stval h) g2)) by (try apply Hkeep; done || lia).
  assert (∀ g r v k, word f (set_x r v g) k = word f g k) as Hw by done.
  split; [done|]. split; [by intros []|].
  unfold g2, g1. cbn [x set_x set_ram]. rewrite !fn_lookup_insert.
  split_and!; repeat (rewrite word_store by done; cbn [decide]; rewrite ?Hw); try done.
  intros n Hn. repeat (rewrite word_store by done; rewrite decide_False by lia; rewrite ?Hw). done.
Qed.

(** Registers come back from their slots; the stack pointer's own slot holds
    the address of the frame. *)
Lemma exec_restores l h :
  x h sp = f → word f h 2 = f → Forall (λ i, (i < 43)%nat) l →
  let h' := exec ((λ i, restore i i) <$> l) h in
  (∀ i, x h' i = if decide (i ∈ l) then word f h i else x h i) ∧ ram h' = ram h ∧
  (∀ c, read_csr c h' = read_csr c h).
Proof using Hf.
  intros Hsp H2 Hl. revert h Hsp H2. induction Hl as [|r l Hr Hl IH]; intros h Hsp H2.
  { split_and!; [|done|done]. intros i. rewrite decide_False; [done|]. apply not_elem_of_nil. }
  cbn [fmap list_fmap exec foldl]. rewrite exec_restore by done.
  set (h1 := set_x r _ h). change (foldl _ h1 _) with (exec ((λ i, restore i i) <$> l) h1).
  assert (∀ i, x h1 i = if decide (i = r) then word f h r else x h i) as Hx1.
  { intros i. unfold h1. cbn [x set_x]. destruct (decide (i = r)) as [->|].
    - by rewrite fn_lookup_insert.
    - by rewrite fn_lookup_insert_ne. }
  destruct (IH h1) as (Hx & Hram & Hc).
  { rewrite Hx1. destruct (decide (sp = r)) as [<-|]; done. }
  { done. }
  split_and!; [|done|intros c; rewrite Hc; by destruct c].
  intros i. rewrite Hx, Hx1. change (word f h1 i) with (word f h i).
  destruct (decide (i ∈ l)).
  - rewrite decide_True; [done|]. by apply elem_of_cons; right.
  - destruct (decide (i = r)) as [->|Hir].
    + rewrite decide_True; [done|]. apply elem_of_cons. by left.
    + rewrite decide_False; [done|]. by rewrite elem_of_cons; intros [].
Qed.

(** Loads into other registers than the stack pointer. *)
Lemma exec_loads l h :
  x h sp = f → Forall (λ p, p.1 ≠ sp ∧ (p.2 < 43)%nat) l → NoDup l.*1 →
  let h' := exec ((λ p, restore p.1 p.2) <$> l) h in
  (∀ p, p ∈ l → x h' p.1 = word f h p.2) ∧ (∀ i, i ∉ l.*1 → x h' i = x h i) ∧ ram h' = ram h ∧
  (∀ c, read_csr c h' = read_csr c h).
Proof using Hf.
  intros Hsp Hl. revert h Hsp. induction Hl as [|[r n] l [Hr Hn] Hl IH]; intros h Hsp Hnd.
  { split_and!; [by intros p ?%elem_of_nil|done|done|done]. }
  apply NoDup_cons in Hnd as [Hni Hnd]. cbn [fst snd] in *.
  cbn [fmap list_fmap fst snd]. rewrite exec_cons, exec_restore by done.
  destruct (IH (set_x r (word f h n) h)) as (Hin & Hout & Hram & Hc); [|done|].
  { cbn. by rewrite fn_lookup_insert_ne. }
  split_and!; [|..|done|intros c; rewrite Hc; by destruct c].
  - intros p [->|Hp]%elem_of_cons; [|by apply Hin]. cbn [fst snd]. rewrite Hout by done. cbn. by rewrite fn_lookup_insert.
  - intros i Hi. cbn in Hi. apply not_elem_of_cons in Hi as [Hir Hi]. rewrite Hout by done. cbn. by rewrite fn_lookup_insert_ne.
Qed.

(** *** Leaving *)

Lemma return_address_spec h :
  x h sp = f →
  let cause := word f h 32 in let pc := word f h 33 in let h' := return_address h in
  sepc h' = (if cause =? 8 then u64 (pc + 4) else pc) ∧ x h' t5 = cause ∧ x h' t6 = 8 ∧ ram h' = ram h ∧
  ∀ i, i ≠ t1 → i ≠ t5 → i ≠ t6 → x h' i = x h i.
Proof using Hf.
  intros Hsp cause pc. unfold return_address.
  assert (exec [restore t1 33; Li t6 8; restore t5 32] h = set_x t5 cause (set_x t6 8 (set_x t1 pc h))) as ->.
  { rewrite !exec_cons, exec_nil, (exec_restore h) by (done || lia).
    change (step (Li t6 8) ?g) with (set_x t6 8 g). rewrite exec_restore; [done| |lia].
    cbn. by rewrite !fn_lookup_insert_ne. }
  set (h1 := set_x t5 cause _). assert (x h1 t5 = cause ∧ x h1 t6 = 8 ∧ x h1 t1 = pc) as (H30 & H31 & H6) by done.
  rewrite H30, H31. destruct (cause =? 8); (split_and!; [done..|]); intros i H1 H2 H3; cbn;
    by rewrite !fn_lookup_insert_ne by done.
Qed.

Lemma restore_registers_spec h :
  x h sp = f → word f h 2 = f →
  let ecall := x h t5 =? x h t6 in let h' := restore_registers h in
  sepc h' = sepc h ∧
  ∀ i, (1 <= i < 32)%nat → x h' i = if ecall && bool_decide (i = a 0 ∨ i = a 1)%nat then x h i else word f h i.
Proof using Hf.
  intros Hsp H2 ecall. unfold restore_registers.
  assert (∀ g n, ram g = ram h → word f g n = word f h n) as Hword by (intros g n Hg; unfold word; by rewrite Hg).
  destruct (exec_restores (seq 1 9) h) as (Hx4 & Er4 & Hc4); [done..| |].
  { apply Forall_forall. intros i Hi%elem_of_seq. lia. }
  set (h4 := exec ((λ i, restore i i) <$> seq 1 9) h) in *.
  assert (∀ i, (9 < i)%nat → x h4 i = x h i) as Hx4' by (intros i Hi; by rewrite Hx4, decide_False by (rewrite elem_of_seq; lia)).
  rewrite !Hx4' by lia. fold ecall. change [restore (a 0) 10; restore (a 1) 11] with ((λ i, restore i i) <$> [10; 11]%nat).
  assert (x h4 sp = f) as Hsp4 by (rewrite Hx4; exact H2).
  destruct (exec_restores [10; 11]%nat h4) as (Hx & Hr & Hc); [done|by rewrite Hword|repeat constructor; lia|].
  set (h5 := if ecall then h4 else exec ((λ i, restore i i) <$> [10; 11]%nat) h4).
  assert (x h5 sp = f ∧ ram h5 = ram h ∧ sepc h5 = sepc h4) as (Hsp5 & Er5 & Ec5).
  { unfold h5. destruct ecall; [done|]. split_and!; [by rewrite Hx|by rewrite Hr|apply (Hc sepc_r)]. }
  destruct (exec_restores (seq 12 20) h5) as (Hx6 & Hram6 & Hc6); [done|by rewrite Hword| |].
  { apply Forall_forall. intros i Hi%elem_of_seq. lia. }
  assert (∀ i, i ∈ [10; 11]%nat ↔ i = a 0 ∨ i = a 1)%nat as Hel by (intros i; rewrite !elem_of_cons, elem_of_nil; tauto).
  split; [etransitivity; [apply (Hc6 sepc_r)|]; etransitivity; [exact Ec5|apply (Hc4 sepc_r)]|].
  intros i Hi. rewrite Hx6. destruct (decide (i ∈ seq 12 20)) as [Hin|Hin]; rewrite elem_of_seq in Hin.
  { rewrite bool_decide_eq_false_2, andb_false_r by lia. by apply Hword. }
  case_bool_decide as H01; rewrite ?andb_true_r, ?andb_false_r; unfold h5; destruct ecall.
  - apply Hx4'. lia.
  - rewrite Hx, decide_True by (by apply Hel). by apply Hword.
  - rewrite Hx4, decide_True by (rewrite elem_of_seq; lia). done.
  - rewrite Hx, decide_False by (by rewrite Hel). rewrite Hx4, decide_True by (rewrite elem_of_seq; lia). done.
Qed.

Lemma deallocate_spec h :
  let h' := exec (deallocate_stack frame_size) h in
  sepc h' = sepc h ∧ ∀ i, x h' i = if decide (i = sp) then u64 (x h sp + frame_size) else x h i.
Proof using.
  split; [done|]. intros i. cbn. destruct (decide (i = sp)) as [->|]; [by rewrite fn_lookup_insert|].
  by rewrite fn_lookup_insert_ne.
Qed.

Lemma trap_exit_spec h :
  x h sp = f → word f h 2 = f →
  let cause := word f h 32 in let pc := word f h 33 in
  sepc (trap_exit h) = (if cause =? 8 then u64 (pc + 4) else pc) ∧
  ∀ i, (1 <= i < 32)%nat → x (trap_exit h) i =
    if decide (i = sp) then u64 (f + frame_size)
    else if (cause =? 8) && bool_decide (i = a 0 ∨ i = a 1)%nat then x h i else word f h i.
Proof using Hf.
  intros Hsp H2 cause pc. unfold trap_exit. destruct (return_address_spec h Hsp) as (Hpc & H30 & H31 & Hram & Hx1).
  assert (∀ n, word f (return_address h) n = word f h n) as Hw by (intros n; unfold word; by rewrite Hram).
  destruct (restore_registers_spec (return_address h)) as [Hc Hx]; [by rewrite Hx1|by rewrite Hw|].
  rewrite H30, H31 in Hx. destruct (deallocate_spec (restore_registers (return_address h))) as [Hc' Hx'].
  split; [by rewrite Hc', Hc|]. intros i Hi. rewrite Hx'. destruct (decide (i = sp)) as [->|Hisp].
  - rewrite Hx, bool_decide_eq_false_2, andb_false_r by lia. by rewrite Hw, H2.
  - rewrite Hx by done. fold cause. destruct (_ && _) eqn:Hb; [|apply Hw].
    apply andb_true_iff in Hb as [_ Hb%bool_decide_eq_true]. apply Hx1; lia.
Qed.
End frame.

(** A program that a trap may interrupt: its stack has room for the frame. *)
Record interruptible (h : hart) : Prop := {
  int_stack : frame_size <= x h sp < 2 ^ 64;
  int_regs : ∀ i, in_u64 (x h i);
  int_csrs : ∀ c, in_u64 (read_csr c h);
}.

Definition frame_of (h : hart) : Z := x h sp - frame_size.

(** What is in the frame when the handler is looked up. *)
Record entered (h h' : hart) : Prop := {
  ent_sp : x h' sp = frame_of h;
  ent_cause : x h' t0 = scause h;
  ent_csrs : ∀ c, read_csr c h' = read_csr c h;
  ent_regs : ∀ i, (1 <= i < 32)%nat → word (frame_of h) h' i = if decide (i = sp) then frame_of h else x h i;
  ent_trap : word (frame_of h) h' 32 = scause h ∧ word (frame_of h) h' 33 = sepc h ∧ word (frame_of h) h' 34 = stval h;
  ent_args : word (frame_of h) h' 35 = x h (a 7) ∧ word (frame_of h) h' 36 = x h (a 0) ∧
    word (frame_of h) h' 37 = x h (a 1) ∧ word (frame_of h) h' 38 = x h (a 2) ∧
    word (frame_of h) h' 42 = frame_of h;
  ent_unused : word (frame_of h) h' 0 = word (frame_of h) h 0;
}.

Definition pushed : list (nat * nat) := (λ i, (i, i)) <$> seq 1 31.
Definition passed : list (nat * nat) :=
  [(a 7, 35); (a 0, 36); (a 1, 37); (a 2, 38); (a 3, 39); (a 4, 40); (a 5, 41); (sp, 42)]%nat.

(** The registers of the program and those of the trap are in the frame. *)
Lemma registers_saved h :
  interruptible h →
  let f := frame_of h in
  ∃ h', exec (allocate_stack frame_size ++ push_registers ++ get_push_trap_registers t0 t1 t2) h = h' ∧
    (∀ i, i ∉ [t0; t1; t2] → x h' i = if decide (i = sp) then f else x h i) ∧ x h' t0 = scause h ∧
    (∀ c, read_csr c h' = read_csr c h) ∧
    (∀ i, (1 <= i < 32)%nat → word f h' i = if decide (i = sp) then f else x h i) ∧
    word f h' 32 = scause h ∧ word f h' 33 = sepc h ∧ word f h' 34 = stval h ∧ word f h' 0 = word f h 0.
Proof.
  intros [Hsp Hregs Hcsrs] f.
  assert (0 <= f ∧ f + frame_size <= 2 ^ 64) as Hf by (unfold f, frame_of; lia).
  assert (in_u64 f) as Hf64 by (unfold in_u64, frame_size in *; lia).
  set (h1 := set_x sp f h).
  assert (exec (allocate_stack frame_size) h = h1) as H1.
  { unfold h1, f, frame_of. cbn. f_equal. f_equal. unfold frame_size in *. rewrite wrap_small; lia. }
  assert (∀ i, x h1 i = if decide (i = sp) then f else x h i) as Hx1.
  { intros i. unfold h1. cbn [x set_x]. destruct (decide (i = sp)) as [->|];
      [by rewrite fn_lookup_insert|by rewrite fn_lookup_insert_ne]. }
  destruct (exec_saves f Hf pushed h1) as (Hx2 & Hc2 & Hin2 & Hout2).
  { by rewrite Hx1. }
  { apply Forall_forall. intros p (i & -> & Hi)%list_elem_of_fmap. apply elem_of_seq in Hi. cbn [fst snd].
    split; [lia|]. rewrite Hx1. destruct (decide _); auto. }
  { apply (bool_decide_unpack _). vm_compute. exact I. }
  set (h2 := exec ((λ p, save p.1 p.2) <$> pushed) h1) in *.
  destruct (trap_registers_spec f Hf h2) as (Hx3 & Hc3 & Hw32 & Hw33 & Hw34 & Hout3).
  { by rewrite Hx2, Hx1. }
  { intros c. rewrite Hc2. by destruct c; [apply (Hcsrs scause_r)|apply (Hcsrs sepc_r)|apply (Hcsrs stval_r)|apply (Hcsrs sstatus_r)]. }
  set (h3 := exec (get_push_trap_registers t0 t1 t2) h2) in *. exists h3.
  split_and!.
  - rewrite !exec_app, H1. reflexivity.
  - intros i Hi. rewrite !not_elem_of_cons in Hi. rewrite Hx3, <-Hx1, <-Hx2.
    by rewrite !fn_lookup_insert_ne by (destruct Hi as (? & ? & ? & _); congruence).
  - rewrite Hx3, !fn_lookup_insert_ne, fn_lookup_insert by done. apply (Hc2 scause_r).
  - intros c. rewrite Hc3, Hc2. by destruct c.
  - intros i Hi. rewrite Hout3 by lia. rewrite <-Hx1. apply (Hin2 (i, i)).
    apply list_elem_of_fmap. exists i. split; [done|]. apply elem_of_seq. lia.
  - rewrite Hw32. apply (Hc2 scause_r).
  - rewrite Hw33. apply (Hc2 sepc_r).
  - rewrite Hw34. apply (Hc2 stval_r).
  - rewrite Hout3, Hout2 by (try lia; by apply (bool_decide_unpack _); vm_compute). done.
Qed.

Lemma trap_entry_spec h : interruptible h → entered h (exec trap_entry h).
Proof.
  intros Hint. destruct (registers_saved h Hint) as (h3 & H3 & Hx3 & Ht0 & Hc3 & Hw3 & H32 & H33 & H34 & H0).
  destruct Hint as [Hsp Hregs _]. set (f := frame_of h) in *.
  assert (0 <= f ∧ f + frame_size <= 2 ^ 64) as Hf by (unfold f, frame_of; lia).
  assert (in_u64 f) as Hf64 by (unfold in_u64, frame_size in *; lia).
  assert (∀ p, p ∈ passed → p.1 ∉ [t0; t1; t2] ∧ (34 < p.2 < 43)%nat) as Hpassed.
  { apply Forall_forall. repeat constructor; cbn; try lia; by apply (bool_decide_unpack _); vm_compute. }
  destruct (exec_saves f Hf passed h3) as (Hx4 & Hc4 & Hin4 & Hout4).
  { by rewrite Hx3 by (by apply (bool_decide_unpack _); vm_compute). }
  { apply Forall_forall. intros p Hp. destruct (Hpassed p Hp). rewrite Hx3 by done. split; [lia|].
    by destruct (decide _). }
  { apply (bool_decide_unpack _). vm_compute. exact I. }
  replace (exec trap_entry h) with (exec ((λ p, save p.1 p.2) <$> passed) h3)
    by (rewrite <-H3, <-exec_app; reflexivity).
  set (h4 := exec ((λ p, save p.1 p.2) <$> passed) h3) in *.
  assert (∀ n, (n < 35)%nat → word f h4 n = word f h3 n) as Hlow.
  { intros n Hn. apply Hout4. intros (p & -> & Hp)%list_elem_of_fmap. destruct (Hpassed p Hp). lia. }
  assert (∀ p, p ∈ passed → word f h4 p.2 = if decide (p.1 = sp) then f else x h p.1) as Harg.
  { intros p Hp. rewrite Hin4 by done. by apply Hx3, Hpassed. }
  split.
  - by rewrite Hx4, Hx3 by (by apply (bool_decide_unpack _); vm_compute).
  - by rewrite Hx4.
  - intros c. by rewrite Hc4, Hc3.
  - intros i Hi. rewrite Hlow by lia. by apply Hw3.
  - by rewrite !Hlow by lia.
  - split_and!; [apply (Harg (a 7, 35%nat))|apply (Harg (a 0, 36%nat))|apply (Harg (a 1, 37%nat))
      |apply (Harg (a 2, 38%nat))|apply (Harg (sp, 42%nat))]; by apply (bool_decide_unpack _); vm_compute.
  - by rewrite Hlow by lia.
Qed.

(** What the handler is called with: its first eight arguments are where C
    expects them; the places of the ninth to the eleventh hold an unused
    slot, [ra] and the stack pointer. *)
Definition handler_args (h : hart) : list Z :=
  [sstatus h; sepc h; stval h; frame_of h; x h (a 7); x h (a 0); x h (a 1); x h (a 2);
   word (frame_of h) h 0; x h ra; frame_of h].

Definition loaded : list (nat * nat) :=
  [(a 1, 33); (a 2, 34); (a 3, 42); (a 4, 35); (a 5, 36); (a 6, 37); (a 7, 38)]%nat.

Definition called_with (g : hart) : hart := exec load_arguments (step (Slli t0 t0 3) g).

Lemma arguments_spec h g :
  interruptible h → entered h g →
  x (called_with g) sp = frame_of h ∧ ram (called_with g) = ram g ∧ arg (called_with g) <$> seq 0 11 = handler_args h.
Proof.
  intros [Hstack Hregs _] [Hsp _ Hcsrs Hwords (H32 & H33 & H34) (H35 & H36 & H37 & H38 & H42) H0].
  set (f := frame_of h) in *. assert (0 <= f ∧ f + frame_size <= 2 ^ 64) as Hf by (unfold f, frame_of; lia).
  set (g1 := step (Csrr (a 0) sstatus_r) (step (Slli t0 t0 3) g)).
  destruct (exec_loads f Hf loaded g1) as (Hin & Hout & Hram & Hc).
  { unfold g1. cbn. by rewrite !fn_lookup_insert_ne by lia. }
  { repeat constructor; cbn; lia. }
  { apply (bool_decide_unpack _). vm_compute. exact I. }
  change (called_with g) with (exec ((λ p, restore p.1 p.2) <$> loaded) g1).
  set (g2 := exec ((λ p, restore p.1 p.2) <$> loaded) g1) in *.
  assert (x g2 sp = f) as Hsp2.
  { rewrite Hout by (by apply (bool_decide_unpack _); vm_compute). unfold g1. cbn. by rewrite !fn_lookup_insert_ne by lia. }
  assert (∀ n, word f g2 n = word f g n) as Hw by (intros n; unfold word; by rewrite Hram).
  assert (∀ p, p ∈ loaded → x g2 p.1 = word f g p.2) as Hin' by (intros p Hp; by rewrite Hin).
  assert (x g2 (a 0) = sstatus h) as Ha0.
  { rewrite Hout by (by apply (bool_decide_unpack _); vm_compute).
    unfold g1. cbn [step x set_x]. rewrite fn_lookup_insert. apply (Hcsrs sstatus_r). }
  clearbody g2. split_and!; [done|done|].
  assert (∀ n, (n < 8)%nat → arg g2 n = x g2 (a n)) as Hreg by (intros n Hn; unfold arg; by rewrite decide_True).
  assert (∀ n, arg g2 (8 + n) = word f g n) as Hstk.
  { intros n. rewrite <-Hw. unfold arg, word, slot. rewrite decide_False by lia. rewrite Hsp2. do 2 f_equal. lia. }
  pose proof (Hstk 0%nat) as E8. pose proof (Hstk 1%nat) as E9. pose proof (Hstk 2%nat) as E10.
  rewrite H0 in E8. rewrite Hwords in E9, E10 by lia.
  apply Forall_forall with (P := λ p, x g2 p.1 = word f g p.2) in Hin'. unfold loaded in Hin'.
  repeat apply Forall_cons in Hin' as [? Hin']. cbn [fst snd] in *.
  rewrite decide_False in E9 by done. rewrite decide_True in E10 by done. cbn [Nat.add] in E8, E9, E10. unfold handler_args. fold f.
  cbn [seq fmap list_fmap]. rewrite E8, E9, E10, !Hreg by lia.
  congruence.
Qed.

(** *** The theorems *)

Section traps.
Context {S : Type} `{!BlkDev S} `{!Console S} `{!Uninit} `{!Board S} `{!Services S} `{!Build} `{!CallConvention}.
Context (clock : nat → Z) (call_deferred : Z → Z → prog os_state unit) (turns : nat).
Implicit Types c : core S.

Abbreviation trap := (_trap_dispatch clock call_deferred turns).

(** The number in the table that a cause selects. *)
Definition handler_index (cause : Z) : nat := Z.to_nat (u64 (Z.shiftl cause 3) / 8).

(** The shift drops three bits, and with them the one that tells interrupts
    from exceptions. *)
Lemma handler_index_mod cause : handler_index cause = Z.to_nat (cause mod 2 ^ 61).
Proof.
  unfold handler_index, wrap. f_equal. rewrite Z.shiftl_mul_pow2 by lia.
  change (2 ^ 64) with (2 ^ 61 * 8). change (2 ^ 3) with 8.
  rewrite Z.mul_mod_distr_r by lia. by apply Z.div_mul.
Qed.

Lemma cpu_bind {B} f (k : unit → prog (core S) B) c : (on_cpu f ≫= k) c = k tt (set_cpu (f (cpu c)) c).
Proof. done. Qed.

(** The way to the handler. *)
Lemma trap_entered c :
  interruptible (cpu c) →
  ∃ g, entered (cpu c) g ∧ wide g ∧
    trap c = match default None (_trap_handlers !! handler_index (scause (cpu c))) with
      | None => stop Undefined (set_cpu (step (Slli t0 t0 3) g) c)
      | Some t => (call_handler clock call_deferred turns t;; on_cpu trap_exit) (set_cpu (called_with g) c)
      end.
Proof.
  intros Hint. pose proof (trap_entry_spec (cpu c) Hint) as Hent. exists (exec trap_entry (cpu c)). split; [done|].
  split; [apply wide_exec; [repeat constructor; done|by destruct Hint]|].
  set (g := exec trap_entry (cpu c)) in *. unfold _trap_dispatch, load_trap_handler_address.
  rewrite cpu_bind, bind_assoc, cpu_bind, bind_assoc. run. cbn [cpu set_cpu]. fold g. change (x (exec [Slli t0 t0 3] g) t0) with (u64 (Z.shiftl (x g t0) 3)).
  rewrite (ent_cause _ _ Hent). fold (handler_index (scause (cpu c))).
  destruct (default None _) as [t|]; [|done]. by rewrite cpu_bind.
Qed.

(** The handler returns to the frame it was called from. *)
Lemma trap_left h g r :
  interruptible h → entered h g →
  let h' := trap_exit (after_call r (called_with g)) in
  sepc h' = (if scause h =? 8 then u64 (sepc h + 4) else sepc h) ∧
  ∀ i, (1 <= i < 32)%nat →
    x h' i = if (scause h =? 8) && bool_decide (i = a 0 ∨ i = a 1)%nat
             then x (after_call r (called_with g)) i else x h i.
Proof.
  intros Hint Hent. destruct (arguments_spec h g Hint Hent) as (Hsp & Hram & _).
  pose proof (int_stack h Hint) as Hstack. set (f := frame_of h) in *.
  assert (0 <= f ∧ f + frame_size <= 2 ^ 64) as Hf by (unfold f, frame_of; lia).
  set (g' := after_call r (called_with g)).
  assert (x g' sp = f) as Hsp' by (unfold g'; rewrite callee_saved; [done|by apply (bool_decide_unpack _); vm_compute]).
  assert (∀ n, (n < 43)%nat → word f g' n = word f g n) as Hw.
  { intros n Hn. unfold word, g'. rewrite <-Hsp, frame_kept by done. by rewrite Hsp, Hram. }
  destruct (ent_trap h g Hent) as (H32 & H33 & _). pose proof (ent_regs h g Hent) as Hregs. fold f in H32, H33, Hregs.
  destruct (trap_exit_spec f Hf g' Hsp') as [Hpc Hx]; [by rewrite Hw, Hregs by lia|].
  rewrite !Hw, H32, H33 in Hpc by lia. split; [done|]. intros i Hi. rewrite Hx, Hw, H32 by (done || lia).
  rewrite Hw, Hregs by lia. destruct (decide (i = sp)) as [->|]; [|done].
  rewrite bool_decide_eq_false_2, andb_false_r by lia. unfold f, frame_of. unfold frame_size in *.
  rewrite wrap_small; lia.
Qed.

Lemma trap_exit_wide h : wide h → wide (trap_exit h).
Proof.
  intros Hh. unfold trap_exit, restore_registers, return_address.
  repeat (case_match || apply wide_exec); try done; repeat constructor; done.
Qed.

Lemma called_wide g : wide g → wide (called_with g).
Proof. intros Hg. apply wide_exec; [repeat constructor; done|]. by apply wide_step. Qed.

(** The dispatcher's arguments, and where it leaves. *)
Lemma trap_calls c r s' :
  interruptible (cpu c) → handler_index (scause (cpu c)) = 8%nat →
  let h := cpu c in
  system_call_dispatcher clock call_deferred turns (sstatus h) (sepc h) (stval h) (frame_of h)
    (x h (a 7)) (x h (a 0)) (x h (a 1)) (x h (a 2)) (word (frame_of h) h 0) (x h ra) (frame_of h) (sys c) = (r, s') →
  ∃ g, entered h g ∧ wide g ∧
    trap c = match r with
      | Done v => (Done tt, Core (trap_exit (after_call (Some v) (called_with g))) s')
      | Stop e => (Stop e, Core (called_with g) s')
      end.
Proof.
  intros Hint Hc h Hrun. destruct (trap_entered c Hint) as (g & Hent & Hg & ->). exists g. rewrite Hc.
  change (default None _) with (Some system_call_dispatcher_h). split; [done|]. split; [done|].
  destruct (arguments_spec h g Hint Hent) as (_ & _ & Hargs).
  cbn [seq fmap list_fmap] in Hargs. unfold handler_args in Hargs.
  injection Hargs as E0 E1 E2 E3 E4 E5 E6 E7 E8 E9 E10.
  unfold call_handler. rewrite bind_assoc. run. cbn [cpu set_cpu].
  rewrite E0, E1, E2, E3, E4, E5, E6, E7, E8, E9, E10.
  assert (on_sys (system_call_dispatcher clock call_deferred turns (sstatus h) (sepc h) (stval h) (frame_of h)
    (x h (a 7)) (x h (a 0)) (x h (a 1)) (x h (a 2)) (word (frame_of h) h 0) (x h ra) (frame_of h))
    (set_cpu (called_with g) c) = (r, Core (called_with g) s')) as Hon.
  { unfold on_sys, on. cbn [sys set_cpu]. by rewrite Hrun. }
  destruct r as [v|e]; [|by rewrite (bind_stop _ _ _ _ _ Hon)]. by run_with Hon.
Qed.

Lemma trap_system_call c r s' :
  interruptible (cpu c) → scause (cpu c) = 8 →
  let h := cpu c in
  system_call_dispatcher clock call_deferred turns (sstatus h) (sepc h) (stval h) (frame_of h)
    (x h (a 7)) (x h (a 0)) (x h (a 1)) (x h (a 2)) (word (frame_of h) h 0) (x h ra) (frame_of h) (sys c) = (r, s') →
  match r with
  | Done v => ∃ h', trap c = (Done tt, Core h' s') ∧ x h' (a 0) = v ∧ sepc h' = u64 (sepc h + 4) ∧
      (∀ i, (1 <= i < 32)%nat → i ≠ a 0 → i ≠ a 1 → x h' i = x h i) ∧ (in_u64 v → wide h')
  | Stop e => ∃ h', trap c = (Stop e, Core h' s')
  end.
Proof.
  intros Hint Hc h Hrun. destruct (trap_calls c r s' Hint ltac:(by rewrite Hc) Hrun) as (g & Hent & Hg & ->).
  destruct r as [v|e]; [|by eexists].
  destruct (trap_left h g (Some v) Hint Hent) as [Hpc Hx]. fold h in Hc. rewrite Hc in Hpc, Hx. cbn [Z.eqb Pos.eqb andb] in Hpc, Hx.
  eexists. split; [reflexivity|]. split_and!; [|done| |].
  - rewrite Hx, bool_decide_eq_true_2 by (auto || lia). apply returns_value.
  - intros i Hi Hi0 Hi1. rewrite Hx, bool_decide_eq_false_2 by lia. done.
  - intros Hv. apply trap_exit_wide, wide_kept; [by intros ? [= <-]|by apply called_wide].
Qed.

(** C12.  A system call from the program's side: when it traps, the
    dispatcher runs on the number and the first three arguments in [a7] and
    [a0] to [a2]; when it is back, the program goes on behind the [ecall]
    with the result in [a0] and every other register but [a1] as it was.
    The fourth to the sixth argument are not the program's: they are an
    unused slot of the frame, the return address and the stack pointer. *)
Theorem system_call_trap c r s' :
  interruptible (cpu c) → scause (cpu c) = 8 →
  let h := cpu c in
  system_call_dispatcher clock call_deferred turns (sstatus h) (sepc h) (stval h) (frame_of h)
    (x h (a 7)) (x h (a 0)) (x h (a 1)) (x h (a 2)) (word (frame_of h) h 0) (x h ra) (frame_of h) (sys c) = (r, s') →
  match r with
  | Done v => ∃ h', trap c = (Done tt, Core h' s') ∧ x h' (a 0) = v ∧ sepc h' = u64 (sepc h + 4) ∧
      ∀ i, (1 <= i < 32)%nat → i ≠ a 0 → i ≠ a 1 → x h' i = x h i
  | Stop e => ∃ h', trap c = (Stop e, Core h' s')
  end.
Proof.
  intros Hint Hc h Hrun. pose proof (trap_system_call c r s' Hint Hc Hrun) as Htrap.
  destruct r; [|done]. destruct Htrap as (h' & ? & ? & ? & ? & _). by exists h'.
Qed.

(** Whatever selects the timer handler, the program goes on where it was. *)
Lemma trap_timer c o :
  interruptible (cpu c) → handler_index (scause (cpu c)) = 5%nat →
  timer_interrupt_handler clock call_deferred (os (sys c)) = (Done tt, o) →
  ∃ h', trap c = (Done tt, Core h' (set_os o (sys c))) ∧ sepc h' = sepc (cpu c) ∧
    ∀ i, (1 <= i < 32)%nat → x h' i = x (cpu c) i.
Proof.
  intros Hint Hc Hrun. destruct (trap_entered c Hint) as (g & Hent & Hg & ->).
  rewrite Hc. change (default None _) with (Some timer_interrupt_handler_h).
  unfold call_handler. rewrite bind_assoc. run.
  assert (on_sys (on_os (timer_interrupt_handler clock call_deferred)) (set_cpu (called_with g) c)
    = (Done tt, Core (called_with g) (set_os o (sys c)))) as Hon.
  { unfold on_sys, on_os, on. cbn [sys set_cpu]. by rewrite Hrun. }
  run_with Hon. rewrite cpu_bind. cbn [cpu set_cpu].
  destruct (trap_left (cpu c) g None Hint Hent) as [Hpc Hx].
  assert (scause (cpu c) =? 8 = false) as Hne.
  { destruct (Z.eqb_spec (scause (cpu c)) 8) as [E|]; [|done]. by rewrite E in Hc. }
  rewrite Hne in Hpc, Hx. eexists. split; [reflexivity|]. split; [done|]. intros i Hi. by rewrite Hx.
Qed.

(** C13.  A timer interrupt leaves no trace in the program: whatever it was
    doing, all its registers and the address where it goes on are as they
    were, and of the kernel only the timers have changed. *)
Theorem timer_interrupt_transparent c o :
  interruptible (cpu c) → scause (cpu c) = 2 ^ 63 + 5 →
  timer_interrupt_handler clock call_deferred (os (sys c)) = (Done tt, o) →
  ∃ h', trap c = (Done tt, Core h' (set_os o (sys c))) ∧ sepc h' = sepc (cpu c) ∧
    ∀ i, (1 <= i < 32)%nat → x h' i = x (cpu c) i.
Proof. intros Hint Hc. apply trap_timer; [done|]. by rewrite Hc. Qed.

(** C37.  Which handler a trap runs depends on the low 61 bits of its cause
    only.  8 is the dispatcher of the system calls.  5 is the timer handler:
    the timer interrupt, and a load access fault as well, after which the
    program goes back to the instruction that faulted, with nothing changed
    but the timers.  1 switches the machine off: the software interrupt, and
    an instruction access fault.  For every other exception or interrupt the
    table holds a null pointer or has no entry, and the call through it is
    undefined: a page fault or an illegal instruction of the program jumps to
    address 0. *)
Theorem traps_routed c :
  interruptible (cpu c) →
  let h := cpu c in let cause := scause h mod 2 ^ 61 in
  (cause = 8 → ∀ r s',
     system_call_dispatcher clock call_deferred turns (sstatus h) (sepc h) (stval h) (frame_of h)
       (x h (a 7)) (x h (a 0)) (x h (a 1)) (x h (a 2)) (word (frame_of h) h 0) (x h ra) (frame_of h) (sys c) = (r, s') →
     ∃ h', trap c = (match r with Done _ => Done tt | Stop e => Stop e end, Core h' s')) ∧
  (cause = 5 → ∀ o, timer_interrupt_handler clock call_deferred (os (sys c)) = (Done tt, o) →
     ∃ h', trap c = (Done tt, Core h' (set_os o (sys c))) ∧ sepc h' = sepc h ∧
       ∀ i, (1 <= i < 32)%nat → x h' i = x h i) ∧
  (cause = 1 → (trap c).1 = Stop PowerOff) ∧
  (cause ∉ [1; 5; 8] → (trap c).1 = Stop Undefined).
Proof.
  intros Hint h cause. pose proof (handler_index_mod (scause h)) as Hi. fold cause in Hi.
  pose proof (Z.mod_pos_bound (scause h) (2 ^ 61) ltac:(lia)) as Hpos. fold cause in Hpos. split_and!.
  - intros Hc r s' Hrun. rewrite Hc in Hi.
    destruct (trap_calls c r s' Hint Hi Hrun) as (g & _ & _ & ->). destruct r; by eexists.
  - intros Hc o Hrun. rewrite Hc in Hi. by apply trap_timer.
  - intros Hc. rewrite Hc in Hi. destruct (trap_entered c Hint) as (g & _ & _ & ->). fold h in Hi |- *. by rewrite Hi.
  - intros Hc. destruct (trap_entered c Hint) as (g & _ & _ & ->). fold h in Hi |- *. rewrite Hi.
    assert (∀ n, n ∉ [1; 5; 8]%nat → default None (_trap_handlers !! n) = None) as Hnone.
    { intros n Hn. do 9 (destruct n as [|n]; [try done; exfalso; apply Hn; by apply (bool_decide_unpack _); vm_compute|]). done. }
    rewrite Hnone; [done|]. intros Hn. apply Hc. revert Hn. rewrite !elem_of_cons, !elem_of_nil. lia.
Qed.

(** *** The calls of the program *)

Lemma taken_interruptible h pc n v0 v1 :
  interruptible h → in_u64 pc → in_u64 n → in_u64 v0 → in_u64 v1 →
  interruptible (taken 8 pc (set_x (a 1) v1 (set_x (a 0) v0 (set_x (a 7) n h)))).
Proof.
  intros [Hsp Hregs Hc] Hpc Hn Hv0 Hv1. split.
  - cbn. by rewrite !fn_lookup_insert_ne by lia.
  - intros i. cbn. unfold insert, fn_insert. by repeat case_decide.
  - intros []; [split; vm_compute; congruence|done|split; vm_compute; congruence|apply (Hc sstatus_r)].
Qed.

(** A call through the stub is a run of the handler. *)
Lemma scall_spec c pc n v0 v1 v s' :
  interruptible (cpu c) → in_u64 pc → 0 <= n < 279 → in_u64 v0 → in_u64 v1 →
  syscall_handlers (sys c) = handler_table →
  (∀ a2 a3 a4 a5, run_handler clock call_deferred turns (handler_of (Z.to_nat n)) v0 v1 a2 a3 a4 a5 (sys c) = (Done v, s')) →
  ∃ h', scall clock call_deferred turns pc n v0 v1 c = (Done v, Core h' s') ∧ sepc h' = u64 (pc + 4) ∧
    (∀ i, (1 <= i < 32)%nat → i ≠ a 0 → i ≠ a 1 → i ≠ a 7 → x h' i = x (cpu c) i) ∧
    (in_u64 v → interruptible h').
Proof.
  intros Hint Hpc Hn Hv0 Hv1 Ht Hrun.
  set (h := taken 8 pc (set_x (a 1) v1 (set_x (a 0) v0 (set_x (a 7) n (cpu c))))).
  assert (in_u64 n) as Hn64 by (unfold in_u64; lia).
  destruct (trap_system_call (set_cpu h c) (Done v) s') as (h' & Htrap & Hv & Hpc' & Hx & Hwide).
  - by apply taken_interruptible.
  - done.
  - cbn [cpu sys set_cpu]. rewrite dispatch_handler by done. apply Hrun.
  - exists h'. unfold scall. rewrite !cpu_bind. cbn [cpu set_cpu]. fold h.
    change (set_cpu _ _) with (set_cpu h c). run_with Htrap. run. cbn [cpu]. rewrite Hv. split; [done|].
    assert (∀ i, (1 <= i < 32)%nat → i ≠ a 0 → i ≠ a 1 → i ≠ a 7 → x h' i = x (cpu c) i) as Hkept
      by (intros i Hi Hi0 Hi1 Hi7; rewrite Hx by done; cbn; by rewrite !fn_lookup_insert_ne by lia).
    split; [exact Hpc'|]. split; [exact Hkept|]. intros Hv64. destruct (Hwide Hv64).
    split; [rewrite Hkept by lia; by apply int_stack|done..].
Qed.

(** C29.  [wait_for_event] as the program sees it: however the clock runs,
    the call comes back, always with WAIT_TIMEOUT (no event is ever
    reported), and not before 3*10^7 ticks after the timeout it was given.
    The program goes on behind the call with all registers but [a0], [a1]
    and [a7] as they were. *)
Theorem wait_for_event_times_out c pc timeout event :
  (∀ n, clock n < clock (Datatypes.S n)) →
  (∀ f cookie s, ∃ s', call_deferred f cookie s = (Done tt, s') ∧
     asleep (current s') = asleep (current s) ∧ (stimecmp s = shadow_stime s → stimecmp s' = shadow_stime s') ∧
     (readings s <= readings s')%nat) →
  interruptible (cpu c) → in_u64 pc → in_u64 event → syscall_handlers (sys c) = handler_table →
  let o := os (sys c) in
  timers_ok o → wakeup_time (asleep (current o)) ≠ STIME_UNSET →
  0 <= clock (readings o) → 0 <= timeout → clock (readings o) + timeout < 2 ^ 52 →
  timeout + 30000000 + 2 <= Z.of_nat turns →
  ∃ h' o' n, wait_for_event clock call_deferred turns pc timeout event c = (Done WAIT_TIMEOUT, Core h' (set_os o' (sys c))) ∧
    (n < readings o')%nat ∧ clock (readings o) + timeout + 30000000 < clock n ∧
    sepc h' = u64 (pc + 4) ∧ ∀ i, (1 <= i < 32)%nat → i ≠ a 0 → i ≠ a 1 → i ≠ a 7 → x h' i = x (cpu c) i.
Proof.
  intros Hclock Hdef Hint Hpc Hev Ht o Hok Hun Hnow Hto Hmax Hfuel.
  destruct (demand_times_out clock call_deferred Hclock Hdef turns timeout event o) as (o' & Hrun & n & Hn & Hlt); try done.
  destruct (scall_spec c pc 209 timeout event WAIT_TIMEOUT (set_os o' (sys c))) as (h' & Hcall & Hpc' & Hx & _); try done.
  { unfold in_u64. lia. }
  { intros a2 a3 a4 a5. change (handler_of _) with demand_s_h. cbn [run_handler]. unfold on_os, on. fold o. by rewrite Hrun. }
  by exists h', o', n.
Qed.
End traps.

(** ** Witnesses *)

(** A function that clears every register it may. *)
#[export, refine] Instance plain_call : CallConvention := {|
  after_call r h :=
    Hart (λ i, if decide (i ∈ [2; 3; 4; 8; 9] ++ seq 18 10)%nat then x h i
               else if decide (i = a 0) then default 0 r else 0)
      (scause h) (sepc h) (stval h) (sstatus h) (ram h)
|}.
Proof.
  - intros r h i Hi. cbn [x]. by rewrite decide_True.
  - done.
  - done.
  - done.
  - intros r h Hr [Hx Hc]. split; [|intros []; [apply (Hc scause_r)|apply (Hc sepc_r)|apply (Hc stval_r)|apply (Hc sstatus_r)]].
    intros i. cbn [x]. repeat case_decide; [done| |unfold in_u64; lia]. destruct r; [by apply Hr|unfold in_u64; cbn; lia].
Defined.

(** A program with 4096 in its registers and the call 113 in [a7]. *)
Definition sample_core (cause : Z) : core ramdisk :=
  Core (Hart (λ i, if decide (i = a 7) then 113 else 4096) cause 65536 0 0 ∅) sample_system.

Lemma sample_interruptible cause : in_u64 cause → interruptible (cpu (sample_core cause)).
Proof.
  intros Hc. split; [split; vm_compute; congruence| |].
  - intros i. unfold in_u64. cbn [x cpu sample_core]. destruct (decide _); lia.
  - intros []; cbn; [done|..]; split; vm_compute; congruence.
Defined.

Abbreviation sample_trap := (_trap_dispatch slow_clock no_deferred 10).

Lemma system_call_trap_witness :
  ∃ h' s', sample_trap (sample_core 8) = (Done tt, Core h' s') ∧ x h' (a 0) = 1 ∧ sepc h' = 65540 ∧ x h' (a 7) = 113.
Proof.
  set (h := cpu (sample_core 8)).
  destruct (system_call_dispatcher slow_clock no_deferred 10 (sstatus h) (sepc h) (stval h) (frame_of h)
    (x h (a 7)) (x h (a 0)) (x h (a 1)) (x h (a 2)) (word (frame_of h) h 0) (x h ra) (frame_of h) sample_system)
    as [r s'] eqn:Hrun.
  assert (r = Done 1) as -> by (apply (f_equal fst) in Hrun; vm_compute in Hrun; by rewrite <-Hrun).
  destruct (system_call_trap slow_clock no_deferred 10 (sample_core 8) (Done 1) s'
    (sample_interruptible 8 ltac:(split; lia)) eq_refl Hrun) as (h' & Htrap & H0 & Hpc & Hx).
  exists h', s'. split; [exact Htrap|]. split; [exact H0|]. split; [exact Hpc|].
  rewrite Hx by lia. reflexivity.
Defined.

Lemma timer_interrupt_transparent_witness :
  ∃ h' o, sample_trap (sample_core (2 ^ 63 + 5)) = (Done tt, Core h' (set_os o sample_system)) ∧
    x h' (a 0) = 4096 ∧ sepc h' = 65536.
Proof.
  destruct (timer_interrupt_handler slow_clock no_deferred quiet) as [r o] eqn:Hrun.
  assert (r = Done tt) as -> by (apply (f_equal fst) in Hrun; vm_compute in Hrun; by rewrite <-Hrun).
  destruct (timer_interrupt_transparent slow_clock no_deferred 10 (sample_core (2 ^ 63 + 5)) o
    (sample_interruptible (2 ^ 63 + 5) ltac:(split; lia)) eq_refl Hrun) as (h' & Htrap & Hpc & Hx).
  exists h', o. split; [exact Htrap|]. split; [rewrite Hx by lia; reflexivity|exact Hpc].
Defined.

(** A load page fault of the program. *)
(** A load page fault; a load access fault. *)
Lemma traps_routed_witness :
  (sample_trap (sample_core 13)).1 = Stop Undefined ∧
  ∃ h' o, sample_trap (sample_core 5) = (Done tt, Core h' (set_os o sample_system)) ∧ sepc h' = sepc (cpu (sample_core 5)).
Proof.
  split.
  - destruct (traps_routed slow_clock no_deferred 10 (sample_core 13)) as (_ & _ & _ & H).
    + apply sample_interruptible. split; lia.
    + apply H. apply (bool_decide_unpack _). vm_compute. exact I.
  - destruct (traps_routed slow_clock no_deferred 10 (sample_core 5)) as (_ & H & _).
    + apply sample_interruptible. split; lia.
    + destruct (timer_interrupt_handler slow_clock no_deferred (os sample_system)) as [[[]|e] o] eqn:Ho;
        [|vm_compute in Ho; congruence].
      destruct (H eq_refl o Ho) as (h' & Hrun & Hpc & _). exists h', o. split; [exact Hrun|exact Hpc].
Defined.

Lemma wait_for_event_times_out_witness :
  ∃ h' s', wait_for_event slow_clock no_deferred (Z.to_nat 30000102) 65536 100 0 (sample_core 0)
    = (Done WAIT_TIMEOUT, Core h' s') ∧ sepc h' = 65540.
Proof.
  destruct (wait_for_event_times_out slow_clock no_deferred (Z.to_nat 30000102) (sample_core 0) 65536 100 0
    slow_clock_advances no_deferred_returns (sample_interruptible 0 ltac:(split; lia)))
    as (h' & o' & n & Hrun & _ & _ & Hpc & _);
    [split; lia|split; lia|reflexivity|done|vm_compute; congruence|vm_compute; congruence|lia|vm_compute; reflexivity|lia|].
  exists h', (set_os o' sample_system). split; [exact Hrun|exact Hpc].
Defined.
