(* ===== verification/Boot.v ===== *)
(** * Booting (src/boot.S, src/argcv.c)

    The firmware jumps to [_boot] in supervisor mode.  The code fills the
    stack, calls the initialisers one after the other, puts what the C
    library's start code expects of a kernel above the stack pointer, and
    leaves for the program in user mode.  Instructions act on the registers,
    the control registers and the physical memory, which is the machine's. *)

From stdpp Require Import functions.
From S2P Require Import Prelude Programs Layout Ecall Memory Machine Heap Blk Vring VirtioDriver Pci Ext2 Ext2File Io Board Timer Syscall.

(** ** Data (src/argcv.c) *)

(** The value before [configure_dl_random] has run. *)
Definition dl_random_bytes : Z := 305419896. (* 0x12345678 *)
Definition _pgm : list byte := String.list_byte_of_string "./demandos" ++ [Byte.x00].

(** Addresses that the linker gives to code and data. *)
Class BootSymbols := {
  at_trap_dispatch : Z;
  at_start : Z;
  at_pgm : Z;
  at_dl_random_bytes : Z;
}.

(** What a compiled C function leaves in the registers: by the calling
    convention the stack pointer, [gp], [tp] and the saved registers are as
    before. *)
Class CalleeSaved := {
  after_c : (nat → Z) → (nat → Z);
  saved_kept r i : (i ∈ [2; 3; 4; 8; 9] ++ seq 18 10)%nat → after_c r i = r i;
}.

(** ** State *)

Inductive boot_csr := stvec | satp | sstatus | sie | sepc.
#[export] Instance boot_csr_eq_dec : EqDecision boot_csr.
Proof. solve_decision. Defined.

Record booting (D : Type) := Booting {
  regs : nat → Z;
  csrs : boot_csr → Z;
  kernel_of : system (machine D);
}.
Arguments Booting {D}.
Arguments regs {D}.
Arguments csrs {D}.
Arguments kernel_of {D}.

Definition machine_of {D} (s : booting D) : machine D := below (io (kernel_of s)).

Abbreviation r_sp := 2%nat.
Abbreviation r_t0 := 5%nat.
Abbreviation r_t1 := 6%nat.
Abbreviation r_t2 := 7%nat.
Abbreviation r_a n := (10 + n)%nat.
Abbreviation r_t3 := 28%nat.

Section boot.
Context {D : Type} `{!Platform D} `{!Linker} `{!StaleVring} `{!Uninit} `{!Build} `{!BootSymbols} `{!CalleeSaved}.

Definition set_reg (i : nat) (v : Z) (s : booting D) := Booting (<[i := v]> (regs s)) (csrs s) (kernel_of s).
Definition set_csr (c : boot_csr) (v : Z) (s : booting D) := Booting (regs s) (<[c := v]> (csrs s)) (kernel_of s).
Definition set_kernel (k : system (machine D)) (s : booting D) := Booting (regs s) (csrs s) k.

(** The machine's part of the kernel. *)
Definition put_machine (b : machine D) (k : system (machine D)) := Syscall.set_io (set_below b (io k)) k.

(** ** Instructions *)

Inductive boot_instr :=
  | La (rd : nat) (symbol : Z)
  | Li (rd : nat) (imm : Z)
  | Mv (rd rs : nat)
  | Addi (rd rs : nat) (imm : Z)
  | Sd (rs : nat) (off : Z) (base : nat)
  | Csrw (c : boot_csr) (rs : nat)
  | Csrc (c : boot_csr) (rs : nat)
  | Csrci (c : boot_csr) (imm : Z)
  | Csrs (c : boot_csr) (rs : nat).

(** A store may have any address: one that is not a multiple of 8 is done
    by the hardware or emulated by the firmware. *)
Definition boot_step (i : boot_instr) (s : booting D) : booting D :=
  let r i := if decide (i = 0%nat) then 0 else regs s i in
  match i with
  | La rd a => set_reg rd a s
  | Li rd v => set_reg rd (u64 v) s
  | Mv rd rs => set_reg rd (r rs) s
  | Addi rd rs imm => set_reg rd (u64 (r rs + imm)) s
  | Sd rs off base =>
      let b := machine_of s in
      set_kernel (put_machine (set_mem (store_le (mem b) (u64 (r base + off)) 8 (r rs)) b) (kernel_of s)) s
  | Csrw c rs => set_csr c (r rs) s
  | Csrc c rs => set_csr c (Z.ldiff (csrs s c) (r rs)) s
  | Csrci c imm => set_csr c (Z.ldiff (csrs s c) imm) s
  | Csrs c rs => set_csr c (Z.lor (csrs s c) (r rs)) s
  end.

Definition exec (l : list boot_instr) : prog (booting D) unit := modify (λ s, foldl (λ s i, boot_step i s) s l).

(** [one_stack_loop] and [clear_stack_loop]; the branch compares signed. *)
Fixpoint stack_loop (fuel : nat) : prog (booting D) unit :=
  match fuel with
  | O => stop Hang
  | S fuel =>
      exec [Sd r_t2 0 r_t3; Addi r_t3 r_t3 1];;
      r ← gets regs;
      if i64 (r r_t3) <? i64 (r r_sp) then stack_loop fuel else mret tt
  end.

(** ** Calls of C functions

    The function runs on the stack that [sp] points to. *)
Definition call {A} (m : prog (system (machine D)) A) : prog (booting D) A :=
  modify (λ s, set_kernel (put_machine (set_sp (regs s r_sp) (machine_of s)) (kernel_of s)) s);;
  r ← on kernel_of set_kernel m;
  modify (λ s, Booting (after_c (regs s)) (csrs s) (kernel_of s));;
  mret r.

(** The variable [dl_random_bytes] is one of the C library's: the program
    finds it through the auxiliary vector, in memory. *)
Definition call_configure_dl_random : prog (machine D) unit :=
  seed ← configure_dl_random;
  store_mem at_dl_random_bytes 8 seed.

(** ** [_boot] *)

Definition stack_turns : nat := Z.to_nat (Z.max 1 (_sp - _esp)).

Definition prepare_stack : prog (booting D) unit :=
  exec [La r_t0 at_trap_dispatch; Csrw stvec r_t0; La r_sp _sp; La r_t1 _esp; Li r_t2 (-1);
        Mv r_t2 0; Addi r_t2 r_t2 1; Mv r_t3 r_t1];;
  stack_loop stack_turns;;
  exec [Mv r_t2 0; Addi r_t2 r_t2 0; Mv r_t3 r_t1];;
  stack_loop stack_turns.

Definition call_machine_setup : prog (booting D) unit :=
  exec [La r_t0 at_trap_dispatch; Csrw stvec r_t0; Csrw satp 0; La (r_a 0) _brk_start];;
  r ← gets regs;
  _ ← call (on_os (set_brk_s (r (r_a 0))));
  call (Syscall.kernel initialize_heap);;
  call (Syscall.kernel (configure_pci declared_drivers)).

Definition call_system_setup : prog (booting D) unit :=
  call (on_io configure_io);;
  call configure_syscall_handlers;;
  call (Syscall.kernel call_configure_dl_random).

(** [argc], the one element of [argv], an empty [envp], and one entry of the
    auxiliary vector: AT_RANDOM. *)
Definition prepare_process : prog (booting D) unit :=
  exec [Li r_t2 1; Sd r_t2 0 r_sp; La r_t2 at_pgm; Sd r_t2 8 r_sp; Sd 0 16 r_sp; Sd 0 24 r_sp;
        Li r_t2 25; Sd r_t2 32 r_sp; La r_t2 at_dl_random_bytes; Sd r_t2 40 r_sp].

Definition prepare_mode : prog (booting D) unit :=
  exec ([Li (r_a 0) 256; Csrc sstatus (r_a 0); Csrci sstatus 2; Li r_t1 32; Csrs sie r_t1;
         La r_t0 at_start; Csrw sepc r_t0] ++ ((λ n, Li (r_a n) 0) <$> seq 0 8)).

(** [sret]: where the processor goes on, and in which mode.  The interrupt
    enable bit of supervisor mode (1) gets its previous value (5), which
    becomes 1, and the previous mode (8) becomes user mode. *)
Record running := Running {
  pc : Z;
  user_mode : bool;
  left : booting D;
}.

Definition sret (s : booting D) : running :=
  let st := csrs s sstatus in
  let sie_bit := if Z.testbit st 5 then 2 else 0 in
  Running (csrs s sepc) (negb (Z.testbit st 8))
    (set_csr sstatus (Z.lor (Z.lor (Z.ldiff st (2 + 32 + 256)) sie_bit) 32) s).

Definition _boot : prog (booting D) running :=
  prepare_stack;; call_machine_setup;; call_system_setup;; prepare_process;; prepare_mode;; gets sret.

(** The program's objects are in the memory that the kernel leaves. *)
Definition program_state (r : running) : system (machine D) :=
  let k := kernel_of (left r) in set_user (mem (machine_of (left r))) k.
End boot.
