(* ===== verification/BootTheorems.v ===== *)
(** * The boot establishes the invariant of the system

    From the state in which the firmware leaves the machine, [_boot] ends
    with the program about to start in user mode, on a system in which
    everything that SystemInvariant.v and MachineInvariant.v assume holds. *)

From stdpp Require Import functions.
From S2P Require Import Prelude Programs Layout Ecall Memory Machine Heap HeapTheorems LinkerScript Vring QueueState Blk BlkVring Chain VirtioDriver Pci LegacyBus BringUp BlkBoot Ext2 Ext2File Invariants Io IoTheorems Board ChainTheorems Randomness MachineWorks DeviceBoot BusScan MachineBoot RefDevice Ramdisk RefChain BootDevice Timer TimerTheorems Syscall SystemInvariant SyscallTheorems SyscallMachine MachineInvariant Boot.

(** ** The stack loops *)

(** [n] stores of 8 bytes, each one byte above the one before. *)
Fixpoint fill (n : nat) (m : memory) (a v : Z) : memory :=
  match n with O => m | S n => fill n (store_le m a 8 v) (a + 1) v end.

Lemma fill_other n m a v x : x < a ∨ a + Z.of_nat n + 7 <= x → fill n m a v !! x = m !! x.
Proof.
  revert m a. induction n as [|n IH]; intros m a Hx; cbn [fill]; [done|].
  rewrite IH by lia. unfold store_le. apply lookup_store_other. rewrite zlen_le_split. lia.
Qed.

(** Each store reaches 7 bytes above its address, so the last one ends 7
    bytes above the stack pointer. *)
Lemma fill_zero n m a x : a <= x < a + Z.of_nat n + 7 → n ≠ 0%nat → fill n m a 0 !! x = Some Byte.x00.
Proof.
  revert m a. induction n as [|n IH]; intros m a Hx Hn; [done|]. cbn [fill].
  destruct (decide (n = 0%nat ∨ x = a)) as [Hlast|Hmore]; [|apply IH; lia].
  assert (store_le m a 8 0 !! x = Some Byte.x00) as Hstore.
  { unfold store_le. replace x with (a + (x - a)) by lia. rewrite lookup_store by (rewrite zlen_le_split; lia).
    change (le_split 8 0) with (replicate 8 Byte.x00). apply lookup_replicate_2. lia. }
  destruct Hlast as [->| ->]; [done|]. rewrite fill_other by lia. done.
Qed.

Section boot.
Context {D : Type} `{!Platform D} `{!VirtioBlk D} `{!VirtioChain D} `{!LegacyBus D} `{!Linker} `{!StaleVring}.
Context `{!Uninit} `{!Build} `{!BootSymbols} `{!CalleeSaved}.
Implicit Types s : booting D.

(** A state that differs in the machine. *)
Definition with_machine (b : machine D) s : booting D := set_kernel (put_machine b (kernel_of s)) s.
Definition with_mem (m : memory) s : booting D := with_machine (set_mem m (machine_of s)) s.

Lemma stack_turn v a p s :
  regs s r_t2 = v → regs s r_t3 = a → regs s r_sp = p → 0 <= a < 2 ^ 63 - 1 →
  exec [Sd r_t2 0 r_t3; Addi r_t3 r_t3 1] s
  = (Done tt, set_reg r_t3 (a + 1) (with_mem (store_le (mem (machine_of s)) a 8 v) s)).
Proof.
  intros Hv Ha Hp Hr. unfold exec, modify. cbn [foldl boot_step].
  rewrite !decide_False by done. rewrite Hv, Ha, Z.add_0_r, (wrap_small 64 a) by lia.
  cbn [regs with_mem with_machine set_kernel]. rewrite Ha, (wrap_small 64) by lia. done.
Qed.

Lemma with_mem_twice m m' s : with_mem m' (with_mem m s) = with_mem m' s.
Proof. done. Qed.

(** [s'] is [s] with the machine [b]; registers other than those in [l] are
    as before. *)
Definition moved (l : list nat) (b : machine D) s s' : Prop :=
  csrs s' = csrs s ∧ kernel_of s' = put_machine b (kernel_of s) ∧ ∀ i, i ∉ l → regs s' i = regs s i.

Lemma stack_loop_spec fuel v a p s :
  regs s r_t2 = v → regs s r_t3 = a → regs s r_sp = p → 0 <= a → 0 <= p → Z.max a p < 2 ^ 62 →
  (Z.to_nat (Z.max 1 (p - a)) <= fuel)%nat →
  ∃ s', stack_loop fuel s = (Done tt, s') ∧
    moved [r_t3] (set_mem (fill (Z.to_nat (Z.max 1 (p - a))) (mem (machine_of s)) a v) (machine_of s)) s s'.
Proof.
  revert a s. induction fuel as [|fuel IH]; intros a s Hv Ha Hp Ha0 Hp0 Hmax Hfuel; [lia|].
  cbn [stack_loop]. run_with (stack_turn v a p s Hv Ha Hp ltac:(lia)). run.
  cbn [regs set_reg with_mem with_machine set_kernel]. rewrite fn_lookup_insert, fn_lookup_insert_ne by done.
  rewrite Hp, !swrap_small by lia. set (s1 := set_reg _ _ _).
  assert (∀ i, i ∉ [r_t3] → regs s1 i = regs s i) as Hs1
    by (intros i Hi; cbn; apply fn_lookup_insert_ne; set_solver).
  destruct (Z.ltb_spec (a + 1) p) as [Hmore|Hdone].
  - destruct (IH (a + 1) s1) as (s' & Hrun & Hc & Hk & Hr); try (rewrite Hs1 by set_solver; done); try lia.
    { cbn. apply fn_lookup_insert. }
    exists s'. split; [exact Hrun|]. split; [done|]. split; [|intros i Hi; by rewrite Hr, Hs1].
    rewrite Hk. replace (Z.to_nat (Z.max 1 (p - a))) with (S (Z.to_nat (Z.max 1 (p - (a + 1))))) by lia. done.
  - exists s1. split; [done|]. split; [done|]. split; [|done]. by rewrite (Z.max_l 1) by lia.
Qed.

(** Straight-line code: what is in a register afterwards. *)
Ltac reg_simpl :=
  cbn [exec modify snd foldl app boot_step regs csrs set_reg set_csr kernel_of set_kernel with_mem with_machine];
  repeat first [rewrite fn_lookup_insert | rewrite fn_lookup_insert_ne by done | rewrite decide_True by done
               | rewrite decide_False by done].

Lemma exec_moved l (k : list nat) s :
  let s' := (exec l s).2 in
  (∀ i, i ∉ k → regs s' i = regs s i) → csrs s' = csrs s → kernel_of s' = kernel_of s →
  exec l s = (Done tt, s') ∧ moved k (machine_of s) s s'.
Proof.
  intros s' Hr Hc Hk. split; [done|]. split; [done|]. split; [|done].
  rewrite Hk. unfold put_machine, machine_of, Syscall.set_io, set_below. by destruct (kernel_of s) as [[]].
Qed.

(** Addresses as the linker script lays them out: stack, storage, heap, all
    below [2^43]; the program's data is outside of them. *)
Definition outside (a n : Z) : Prop := 0 <= a ∧ a + n <= 2 ^ 63 ∧ (a + n <= _esp ∨ _heap_end <= a).
Record linked (room : Z) : Prop := {
  link_stack : 0 <= _esp < _sp ∧ _sp + 64 <= _forever_storage_start;
  link_storage : _forever_storage_start <= _forever_storage_stop <= _heap_start;
  link_heap : _heap_start + 9970 <= _heap_end ∧ _heap_end <= _brk_start < 2 ^ 43;
  link_room : 1024 <= room < 2 ^ 32 ∧ _esp + room <= _sp;
  link_data : outside at_pgm (zlen _pgm) ∧ outside at_dl_random_bytes 8 ∧
    (at_pgm + zlen _pgm <= at_dl_random_bytes ∨ at_dl_random_bytes + 8 <= at_pgm);
}.

Section prepare.
Context (room : Z) (Hlink : linked room).

(** The stack is filled with zeros in the end, up to 7 bytes above the stack
    pointer. *)
Lemma prepare_stack_spec s :
  ∃ s' m, prepare_stack s = (Done tt, s') ∧ regs s' r_sp = _sp ∧
    csrs s' = <[stvec := at_trap_dispatch]> (csrs s) ∧
    kernel_of s' = put_machine (set_mem m (machine_of s)) (kernel_of s) ∧
    (∀ x, _esp <= x < _sp + 7 → m !! x = Some Byte.x00) ∧
    ∀ x, x < _esp ∨ _sp + 7 <= x → m !! x = mem (machine_of s) !! x.
Proof using Hlink.
  pose proof (link_stack _ Hlink) as [Hesp Hsp]. pose proof (link_storage _ Hlink). pose proof (link_heap _ Hlink).
  unfold prepare_stack.
  set (s1 := (exec [La r_t0 at_trap_dispatch; Csrw stvec r_t0; La r_sp _sp; La r_t1 _esp; Li r_t2 (-1);
        Mv r_t2 0; Addi r_t2 r_t2 1; Mv r_t3 r_t1] s).2).
  rewrite (bind_done _ _ _ tt s1) by done.
  destruct (stack_loop_spec stack_turns 1 _esp _sp s1) as (s2 & Hrun2 & Hc2 & Hk2 & Hr2);
    [by unfold s1; reg_simpl..|lia|lia|lia|unfold stack_turns; lia|].
  run_with Hrun2.
  set (s3 := (exec [Mv r_t2 0; Addi r_t2 r_t2 0; Mv r_t3 r_t1] s2).2).
  rewrite (bind_done _ _ _ tt s3) by done.
  destruct (stack_loop_spec stack_turns 0 _esp _sp s3) as (s4 & Hrun4 & Hc4 & Hk4 & Hr4);
    [by unfold s3; reg_simpl..| | |lia|lia|lia|unfold stack_turns; lia|].
  1-2: unfold s3; reg_simpl; rewrite Hr2 by set_solver; unfold s1; by reg_simpl.
  set (n := Z.to_nat (Z.max 1 (_sp - _esp))) in *.
  change (kernel_of s1) with (kernel_of s) in Hk2. change (machine_of s1) with (machine_of s) in Hk2.
  assert (machine_of s3 = set_mem (fill n (mem (machine_of s)) _esp 1) (machine_of s)) as Hm3
    by (unfold machine_of at 1; change (kernel_of s3) with (kernel_of s2); by rewrite Hk2).
  exists s4, (fill n (mem (machine_of s3)) _esp 0). split_and!.
  - done.
  - rewrite Hr4 by set_solver. unfold s3. reg_simpl. rewrite Hr2 by set_solver. unfold s1. by reg_simpl.
  - rewrite Hc4. change (csrs s3) with (csrs s2). by rewrite Hc2.
  - rewrite Hk4. change (kernel_of s3) with (kernel_of s2). by rewrite Hk2, Hm3.
  - intros x Hx. apply fill_zero; unfold n; lia.
  - intros x Hx. rewrite fill_other by (unfold n; lia). rewrite Hm3. apply fill_other. unfold n. lia.
Qed.

(** *** The calls

    [called_as s k s']: the kernel is [k], and the caller's stack and control
    registers are as before. *)
Definition called_as s (k : system (machine D)) s' : Prop :=
  regs s' r_sp = regs s r_sp ∧ csrs s' = csrs s ∧ kernel_of s' = k.

Lemma call_spec {A} (f : prog (system (machine D)) A) s a k :
  f (put_machine (set_sp (regs s r_sp) (machine_of s)) (kernel_of s)) = (Done a, k) →
  ∃ s', call f s = (Done a, s') ∧ called_as s k s'.
Proof.
  intros Hf. exists (Booting (after_c (regs s)) (csrs s) k). split.
  - unfold call. run. erewrite bind_done by (unfold on; cbn [kernel_of set_kernel]; rewrite Hf; reflexivity).
    reflexivity.
  - split; [|done]. apply saved_kept. set_solver.
Qed.

Lemma call_kernel {A} (f : prog (machine D) A) s a b :
  f (set_sp (regs s r_sp) (machine_of s)) = (Done a, b) →
  ∃ s', call (Syscall.kernel f) s = (Done a, s') ∧ called_as s (put_machine b (kernel_of s)) s'.
Proof.
  intros Hf. apply call_spec. unfold Syscall.kernel, on_io, on, lift. cbn.
  change (below (io (kernel_of s))) with (machine_of s). by rewrite Hf.
Qed.

Lemma called_machine s s' b k :
  called_as s (put_machine b k) s' → machine_of s' = b ∧ regs s' r_sp = regs s r_sp ∧ csrs s' = csrs s.
Proof. intros (? & ? & Hk). unfold machine_of. by rewrite Hk. Qed.

Lemma same_sp p (b : machine D) : sp b = p → set_sp p b = b.
Proof. intros <-. by destruct b. Qed.

Lemma same_stack s p :
  regs s r_sp = p → sp (machine_of s) = p →
  put_machine (set_sp (regs s r_sp) (machine_of s)) (kernel_of s) = kernel_of s ∧
  set_sp (regs s r_sp) (machine_of s) = machine_of s.
Proof.
  intros -> Hp. rewrite same_sp by done. split; [|done].
  unfold put_machine, machine_of, Syscall.set_io, set_below. by destruct (kernel_of s) as [[]].
Qed.

Lemma set_brk_done n o : set_brk_s n o = (Done (brk (current (set_brk_s n o).2)), (set_brk_s n o).2).
Proof. unfold set_brk_s. run. by destruct (n =? 0). Qed.

(** *** What the firmware leaves behind

    Statics have their initial values, nothing of the bus is configured, and
    the memory from the forever storage to the end of the heap is zero. *)
Record left_by_firmware s : Prop := {
  fw_io : io (kernel_of s) = initial_io (machine_of s);
  fw_os : os_ok (os (kernel_of s));
  fw_frontier : forever_storage_frontier (machine_of s) = _forever_storage_start;
  fw_bus : pci_base (machine_of s) = 0 ∧ ∀ c, c ∈ functions → f_bar0 (fn c (dev (machine_of s))) = 0;
  fw_table : zlen (virtio_drivers (machine_of s)) = MAX_VIRTIO_DEVICE_ID;
  fw_board : good_board (dev (machine_of s)) ∧ complete_board (D := D);
  fw_fits : _forever_storage_start + total_need (dev (machine_of s)) functions <= _forever_storage_stop;
  fw_ram : ∀ a, _forever_storage_start <= a < _heap_end → default Byte.x00 (mem (machine_of s) !! a) = Byte.x00;
  fw_disk : zlen (image (machine_of s)) mod 512 = 0 ∧ zlen (image (machine_of s)) <= 2 ^ 64;
  fw_pgm : load (mem (machine_of s)) at_pgm (zlen _pgm) = _pgm;
}.

(** The machine when [configure_pci] is called. *)
Definition scan_start (h : heap) (m : memory) s : machine D := set_heap h (set_sp _sp (set_mem m (machine_of s))).

Lemma scan_start_ready h m s :
  left_by_firmware s → heap_laid_out h → heap_start h = _heap_start → heap_end h = _heap_end →
  (∀ x, _sp + 7 <= x → m !! x = mem (machine_of s) !! x) →
  reset_state (scan_start h m s) ∧ stack_ok room _sp.
Proof using Hlink.
  intros Hfw Hh Hs He Hm. pose proof (link_stack _ Hlink) as [Hesp Hsp].
  pose proof (link_storage _ Hlink). pose proof (link_heap _ Hlink). pose proof (link_room _ Hlink) as [Hr1 Hr2].
  assert (∀ a, _forever_storage_start <= a < _heap_end → default Byte.x00 (m !! a) = Byte.x00) as Hz
    by (intros a Ha; rewrite Hm by lia; by apply (fw_ram _ Hfw)).
  destruct (fw_board _ Hfw) as [Hg _]. pose proof (board_size _ Hg).
  split; [|unfold stack_ok; lia]. split; try apply Hfw.
  - split; cbn; rewrite ?Hs, ?He, ?(fw_frontier _ Hfw); try lia; [done|]. intros a Ha. apply Hz. lia.
  - cbn. rewrite (fw_frontier _ Hfw). apply (fw_fits _ Hfw).
  - apply fresh_free_blocks; [done| |lia]. intros a Ha. cbn in Ha. rewrite Hs, He in Ha. apply Hz. lia.
Qed.

(** Where the chunk of the seed was on the stack. *)
Definition seed_place (b : Z) : Prop := b = _sp - 8.
Lemma seed_off_storage b : seed_place b → off_storage b.
Proof using Hlink.
  intros ->. pose proof (link_stack _ Hlink). pose proof (link_room _ Hlink). pose proof (link_storage _ Hlink).
  pose proof (link_heap _ Hlink). unfold off_storage. lia.
Qed.

(** What the three initialisers of the machine leave: [b] when the bus has
    been scanned, [b'] when the seed has been fetched. *)
Record initialised s (m : memory) (b b' : machine D) (drv : virtio_driver) (seed : Z) : Prop := {
  init_drv : virtio_drivers b !! ENTROPY_DRIVER = Some drv;
  init_seed : zlen (answer (host drv) 0 (dev b) 8) <= 8 ∧ seed = get_le (splice (zeros 8) 0 (answer (host drv) 0 (dev b) 8)) 0 8;
  init_works : machine_works seed_place room b';
  init_image : image b' = image (machine_of s);
  init_lines : transcript CONSOLE_DRIVER 1 b' = [];
  init_sp : sp b' = _sp;
  init_mem : ∀ a n, outside a n ∨ (_sp <= a ∧ a + n <= _forever_storage_start) → load (mem b') a n = load m a n;
  init_heap : heap_start (the_heap b') = _heap_start ∧ heap_end (the_heap b') = _heap_end ∧ spare_block room b';
}.

Lemma machine_initialised m s :
  left_by_firmware s → (∀ x, _sp + 7 <= x → m !! x = mem (machine_of s) !! x) →
  ∃ h b b' drv seed,
    initialize_heap (set_sp _sp (set_mem m (machine_of s))) = (Done tt, scan_start h m s) ∧
    configure_pci declared_drivers (scan_start h m s) = (Done tt, b) ∧ sp b = _sp ∧
    configure_dl_random b = (Done seed, b') ∧ initialised s m b b' drv seed.
Proof using Hlink.
  intros Hfw Hm. pose proof (link_stack _ Hlink) as [Hesp Hsp].
  pose proof (link_storage _ Hlink). pose proof (link_heap _ Hlink) as [Hroom Hend]. pose proof (link_room _ Hlink).
  pose proof (initialize_heap_layout (set_sp _sp (set_mem m (machine_of s)))) as Hinit.
  rewrite (proj2 (Z.leb_le _ _)) in Hinit by lia. destruct Hinit as (h & Hheap & Hh & Hs & He).
  destruct (scan_start_ready h m s Hfw Hh Hs He Hm) as [Hreset Hst].
  destruct (fw_board _ Hfw) as [Hg Hc]. destruct (fw_disk _ Hfw) as [Hmod Hmax].
  destruct (configure_pci_up (scan_start h m s) Hreset Hg) as (b & Hpci & Hb).
  destruct (scan_same _ _ _ _ Hb) as [Hbsp Hbheap]. cbn in Hbsp, Hbheap. pose proof (scan_image _ _ _ _ Hb) as Him.
  assert (machine_works seed_place room b ∧ transcript CONSOLE_DRIVER 1 b = []) as [Hw1 Htr].
  { apply (scan_works seed_place (scan_start h m s)); rewrite ?Hbsp, ?Him; try done. apply seed_off_storage. }
  destruct (works_dl_random _ _ _ Hw1) as (drv & seed & b' & Hdrv & Hrun & Hrange & Hseed & Hw' & Him' & Htr' & Hsp' & Hheap' & Hmem').
  exists h, b, b', drv, seed. split_and!; try done. split; try done.
  - apply Hseed. intros z ->. by rewrite Hbsp.
  - rewrite Him', Him. done.
  - by rewrite Htr', Htr.
  - by rewrite Hsp', Hbsp.
  - intros a n Ha. unfold outside in Ha. rewrite Hmem'; [|unfold storage_apart; lia|intros x ->; lia].
    apply load_ext. intros i Hi. apply (scan_mem _ _ _ _ Hb); cbn; rewrite ?Hs, ?He; lia.
  - rewrite Hheap', Hbheap. split_and!; [done..|]. pose proof (works_heap_ok _ _ _ Hw1) as [Hlaid Hapart].
    apply (spare_kept room b b'); try done.
    + destruct (scan_free _ _ _ _ Hb) as ([|p l] & _ & Hl & Hall); [done|].
      apply Forall_cons in Hall as [[Hblk Hfree] _]. exists p. split_and!; [done..|].
      pose proof (block_inside _ _ _ Hlaid Hblk). rewrite Hbheap, Hs in *. lia.
    + intros a ? ?. apply Hmem'; [unfold storage_apart; lia|intros x ->; lia].
Qed.

(** The system after the calls; [b'] is the machine with the seed fetched. *)
Definition with_seed (seed : Z) (b' : machine D) : machine D :=
  set_mem (store_le (mem b') at_dl_random_bytes 8 seed) b'.
Definition called (seed : Z) (b' : machine D) s : system (machine D) :=
  configured (with_seed seed b') (set_brk_s _brk_start (os (kernel_of s))).2 (user (kernel_of s)).

(** The kernel between the two groups of calls. *)
Definition half_way (b : machine D) s : system (machine D) :=
  System (initial_io b) (set_brk_s _brk_start (os (kernel_of s))).2 (user (kernel_of s)) (syscall_handlers (kernel_of s)).

Lemma call_machine_setup_spec h m b s s1 :
  left_by_firmware s → regs s1 r_sp = _sp → kernel_of s1 = put_machine (set_mem m (machine_of s)) (kernel_of s) →
  initialize_heap (set_sp _sp (set_mem m (machine_of s))) = (Done tt, scan_start h m s) →
  configure_pci declared_drivers (scan_start h m s) = (Done tt, b) →
  ∃ s', call_machine_setup s1 = (Done tt, s') ∧ regs s' r_sp = _sp ∧
    csrs s' = <[satp := 0]> (<[stvec := at_trap_dispatch]> (csrs s1)) ∧ kernel_of s' = half_way b s.
Proof.
  intros Hfw Hr Hk Hheap Hpci. unfold call_machine_setup.
  set (s2 := (exec [La r_t0 at_trap_dispatch; Csrw stvec r_t0; Csrw satp 0; La (r_a 0) _brk_start] s1).2).
  rewrite (bind_done _ _ _ tt s2) by done. run.
  assert (regs s2 r_sp = _sp) as Hr2 by (unfold s2; by reg_simpl).
  assert (regs s2 (r_a 0) = _brk_start) as -> by (unfold s2; by reg_simpl).
  assert (kernel_of s2 = put_machine (set_mem m (machine_of s)) (kernel_of s)) as Hk2 by exact Hk.
  set (o := (set_brk_s _brk_start (os (kernel_of s))).2).
  destruct (call_spec (on_os (set_brk_s _brk_start)) s2 (brk (current o))
    (Syscall.set_os o (put_machine (set_sp _sp (set_mem m (machine_of s))) (kernel_of s))))
    as (s3 & Hrun3 & Hr3 & Hc3 & Hk3).
  { unfold machine_of at 1. rewrite Hr2, Hk2. unfold on_os, on. cbn [os put_machine Syscall.set_io].
    rewrite set_brk_done. reflexivity. }
  run_with Hrun3. rewrite Hr2 in Hr3.
  destruct (call_kernel initialize_heap s3 tt (scan_start h m s)) as (s4 & Hrun4 & Hr4 & Hc4 & Hk4).
  { unfold machine_of at 1. rewrite Hr3, Hk3. exact Hheap. }
  run_with Hrun4. rewrite Hr3 in Hr4.
  destruct (call_kernel (configure_pci declared_drivers) s4 tt b) as (s5 & Hrun5 & Hr5 & Hc5 & Hk5).
  { unfold machine_of at 1. rewrite Hr4, Hk4. cbn [io put_machine Syscall.set_io below set_below]. exact Hpci. }
  exists s5. split; [exact Hrun5|]. split; [by rewrite Hr5|]. split.
  - rewrite Hc5, Hc4, Hc3. unfold s2. by reg_simpl.
  - rewrite Hk5, Hk4, Hk3. unfold put_machine, Syscall.set_io, Syscall.set_os. cbn. by rewrite (fw_io _ Hfw).
Qed.

Lemma call_system_setup_spec b b' seed s s1 :
  regs s1 r_sp = _sp → kernel_of s1 = half_way b s → sp b = _sp → configure_dl_random b = (Done seed, b') →
  ∃ s', call_system_setup s1 = (Done tt, s') ∧ regs s' r_sp = _sp ∧ csrs s' = csrs s1 ∧ kernel_of s' = called seed b' s.
Proof.
  intros Hr Hk Hb Hseed. unfold call_system_setup.
  assert (∀ s2 k, kernel_of s2 = k → below (io k) = b → sp (machine_of s2) = _sp) as Hsp
    by (intros s2 k Hk2 Hbk; unfold machine_of; by rewrite Hk2, Hbk).
  destruct (call_spec (on_io configure_io) s1 tt (System (configure_io (initial_io b)).2 (os (half_way b s))
    (user (kernel_of s)) (syscall_handlers (kernel_of s)))) as (s2 & Hrun2 & Hr2 & Hc2 & Hk2).
  { destruct (same_stack s1 _sp Hr (Hsp s1 _ Hk eq_refl)) as [-> _]. rewrite Hk. reflexivity. }
  run_with Hrun2. rewrite Hr in Hr2.
  destruct (call_spec configure_syscall_handlers s2 tt
    (System (configure_io (initial_io b)).2 (os (half_way b s)) (user (kernel_of s)) handler_table))
    as (s3 & Hrun3 & Hr3 & Hc3 & Hk3).
  { destruct (same_stack s2 _sp Hr2 (Hsp s2 _ Hk2 eq_refl)) as [-> _]. rewrite Hk2. reflexivity. }
  run_with Hrun3. rewrite Hr2 in Hr3.
  destruct (call_kernel call_configure_dl_random s3 tt (with_seed seed b')) as (s4 & Hrun4 & Hr4 & Hc4 & Hk4).
  { destruct (same_stack s3 _sp Hr3 (Hsp s3 _ Hk3 eq_refl)) as [_ ->]. unfold call_configure_dl_random, machine_of.
    rewrite Hk3. run_with Hseed. done. }
  exists s4. split; [exact Hrun4|]. split; [by rewrite Hr4|]. split; [congruence|]. rewrite Hk4, Hk3. reflexivity.
Qed.

(** *** The last steps *)

Definition process_memory (m : memory) (p : Z) : memory :=
  store_le (store_le (store_le (store_le (store_le (store_le m p 8 1) (p + 8) 8 at_pgm) (p + 16) 8 0) (p + 24) 8 0)
    (p + 32) 8 25) (p + 40) 8 at_dl_random_bytes.

Lemma prepare_process_spec s p :
  regs s r_sp = p → 0 <= p → p + 48 <= 2 ^ 63 →
  ∃ s', prepare_process s = (Done tt, s') ∧ regs s' r_sp = p ∧ csrs s' = csrs s ∧
    kernel_of s' = put_machine (set_mem (process_memory (mem (machine_of s)) p) (machine_of s)) (kernel_of s).
Proof.
  intros Hr Hp0 Hp. eexists. split; [reflexivity|]. reg_simpl. rewrite Hr, Z.add_0_r.
  rewrite !wrap_small by lia. done.
Qed.

(** What [sret] finds and leaves. *)
Lemma prepare_mode_spec s :
  ∃ s', prepare_mode s = (Done tt, s') ∧ regs s' r_sp = regs s r_sp ∧ kernel_of s' = kernel_of s ∧
    csrs s' sepc = at_start ∧ Z.testbit (csrs s' sstatus) 8 = false ∧ Z.testbit (csrs s' sie) 5 = true ∧
    csrs s' satp = csrs s satp ∧ csrs s' stvec = csrs s stvec ∧ ∀ n, (n < 8)%nat → regs s' (r_a n) = 0.
Proof.
  eexists. split; [reflexivity|].
  cbn [fmap list_fmap seq]. reg_simpl. split_and!; try done.
  - rewrite !Z.ldiff_spec. change (Z.testbit (u64 256) 8) with true. by rewrite andb_false_r.
  - rewrite Z.lor_spec. change (Z.testbit (u64 32) 5) with true. apply orb_true_r.
  - intros n Hn. do 8 (destruct n as [|n]; [by reg_simpl|]). lia.
Qed.

(** ** The boot *)

(** What the processor and the memory are like when the program starts. *)
Record started (r : running (D := D)) : Prop := {
  start_pc : pc r = at_start ∧ user_mode r = true;
  start_csrs : csrs (left r) satp = 0 ∧ csrs (left r) stvec = at_trap_dispatch ∧ Z.testbit (csrs (left r) sie) 5 = true;
  start_regs : regs (left r) r_sp = _sp ∧ ∀ n, (n < 8)%nat → regs (left r) (r_a n) = 0;
}.

(** The process as the C library's start code reads it from the stack. *)
Record process_laid_out (m : memory) (p : Z) (random : list byte) : Prop := {
  process_argc : load_le m p 8 = 1;
  process_argv : load m (load_le m (p + 8) 8) (zlen _pgm) = _pgm ∧ load_le m (p + 16) 8 = 0;
  process_envp : load_le m (p + 24) 8 = 0;
  process_auxv : load_le m (p + 32) 8 = 25 ∧ load m (load_le m (p + 40) 8) 8 = random;
}.

Lemma process_spec m random :
  load m at_pgm (zlen _pgm) = _pgm → load m at_dl_random_bytes 8 = random →
  process_laid_out (process_memory m _sp) _sp random.
Proof using Hlink.
  intros Hpgm Hrandom. pose proof (link_stack _ Hlink) as [Hesp Hsp]. pose proof (link_storage _ Hlink).
  pose proof (link_heap _ Hlink). destruct (link_data _ Hlink) as ((? & ? & ?) & (? & ? & ?) & _).
  assert (0 < zlen _pgm < 20) by done.
  unfold process_memory. split.
  - by mem_simpl.
  - split; [|by mem_simpl]. rewrite !load_le_store_le_other by lia.
    rewrite load_le_store_le_same, Z.mod_small by lia. by rewrite !load_store_le_other by lia.
  - by mem_simpl.
  - split; [by mem_simpl|]. rewrite load_le_store_le_same, Z.mod_small by lia.
    by rewrite !load_store_le_other by lia.
Qed.

Lemma process_works (b : machine D) :
  machine_works seed_place room b → let b' := set_mem (process_memory (mem b) _sp) b in
  machine_works seed_place room b' ∧ image b' = image b ∧ transcript CONSOLE_DRIVER 1 b' = transcript CONSOLE_DRIVER 1 b.
Proof using Hlink.
  intros Hb b'. pose proof (link_stack _ Hlink). apply works_elsewhere; try done.
  intros a n ? ?. cbn [mem set_mem b']. unfold process_memory. by rewrite !load_store_le_other by lia.
Qed.

Lemma brk_placed o : os_ok o → os_ok (set_brk_s _brk_start o).2 ∧ brk (current (set_brk_s _brk_start o).2) = _brk_start.
Proof using Hlink.
  intros Ho. pose proof (link_stack _ Hlink). pose proof (link_storage _ Hlink). pose proof (link_heap _ Hlink).
  split; [by apply upholds_set_brk; [lia|]|].
  unfold set_brk_s. run. by replace (_brk_start =? 0) with false by lia.
Qed.

(** The machine with the seed in memory. *)
Lemma with_seed_works s m b b' drv seed :
  initialised s m b b' drv seed → load (mem (machine_of s)) at_pgm (zlen _pgm) = _pgm →
  (∀ x, x < _esp ∨ _sp + 7 <= x → m !! x = mem (machine_of s) !! x) →
  let bd := with_seed seed b' in
  machine_works seed_place room bd ∧ image bd = image (machine_of s) ∧ transcript CONSOLE_DRIVER 1 bd = [] ∧
  spare_block room (set_mem (process_memory (mem bd) _sp) bd) ∧ load (mem bd) at_pgm (zlen _pgm) = _pgm ∧
  load (mem bd) at_dl_random_bytes 8 = splice (zeros 8) 0 (answer (host drv) 0 (dev b) 8) ∧
  load (mem bd) (_sp + 48) 16 = load (mem (machine_of s)) (_sp + 48) 16.
Proof using Hlink.
  intros [Hdrv [Hlen Hseed] Hw Him Htr Hsp Hmem (Hhs & Hhe & Hspare)] Hpgm Hm bd.
  pose proof (link_stack _ Hlink) as [Hesp Hsps]. pose proof (link_storage _ Hlink). pose proof (link_heap _ Hlink).
  destruct (link_data _ Hlink) as (Hopgm & Hodl & Hap). pose proof Hopgm as (? & ? & ?). pose proof Hodl as (? & ? & ?).
  assert (0 < zlen _pgm < 20) by done.
  destruct (works_store seed_place room b' at_dl_random_bytes (le_split 8 seed) Hw) as (Hw' & Him' & Htr');
    [rewrite zlen_le_split; unfold storage_apart; lia|].
  split_and!; [exact Hw'|by rewrite <-Him|by rewrite <-Htr| | | |].
  - apply (spare_kept room b'); try done; [by apply (works_heap_ok _ _ _ Hw)|]. intros a Ha _.
    cbn [mem set_mem with_seed bd]. unfold process_memory. by rewrite !load_store_le_other by lia.
  - cbn [mem set_mem with_seed bd]. rewrite load_store_le_other, Hmem by (lia || by left).
    rewrite <-Hpgm. apply load_ext. intros i Hi. apply Hm. lia.
  - cbn [mem set_mem with_seed bd]. unfold store_le.
    pose proof (load_store_same (mem b') at_dl_random_bytes (le_split 8 seed)) as Hload.
    rewrite zlen_le_split in Hload. change (Z.of_nat 8) with 8 in Hload. rewrite Hload, Hseed.
    pose proof (zlen_nonneg (answer (host drv) 0 (dev b) 8)).
    assert (zlen (splice (zeros 8) 0 (answer (host drv) 0 (dev b) 8)) = 8) as Hz
      by (rewrite zlen_splice; rewrite ?zlen_zeros; lia).
    unfold get_le. rewrite slice_all by lia. apply split_le_combine'. unfold zlen in Hz. lia.
  - cbn [mem set_mem with_seed bd]. rewrite load_store_le_other, Hmem by lia.
    apply load_ext. intros i Hi. apply Hm. lia.
Qed.

(** Everything that the boot leaves behind. *)
Lemma boot_runs s :
  left_by_firmware s →
  ∃ r s' m b drv, _boot s = (Done r, s') ∧ started r ∧
    let t := program_state r in
    machine_ok seed_place room t ∧ brk (current (os t)) = _brk_start ∧ Machine.sp (below (io t)) = _sp ∧
    fds (io t) !! 1%nat = Some (IoDescriptor true 0 0 (Some stdout_write_handler_f) None None) ∧
    image (below (io t)) = image (machine_of s) ∧ transcript CONSOLE_DRIVER 1 (below (io t)) = [] ∧
    virtio_drivers b !! ENTROPY_DRIVER = Some drv ∧
    (∃ h, configure_pci declared_drivers (scan_start h m s) = (Done tt, b)) ∧
    load (user t) (_sp + 48) 16 = load (mem (machine_of s)) (_sp + 48) 16 ∧
    os t = (set_brk_s _brk_start (os (kernel_of s))).2 ∧ zlen (_superblock (io t)) = 1024 ∧
    spare_block room (below (io t)) ∧
    (heap_start (the_heap (below (io t))) = _heap_start ∧ heap_end (the_heap (below (io t))) = _heap_end) ∧
    process_laid_out (user t) _sp (splice (zeros 8) 0 (answer (host drv) 0 (dev b) 8)).
Proof using Hlink.
  intros Hfw. pose proof (link_stack _ Hlink) as [Hesp Hsps]. pose proof (link_storage _ Hlink).
  pose proof (link_heap _ Hlink) as [Hstart [Hend Hbrk]]. pose proof (link_room _ Hlink).
  destruct (prepare_stack_spec s) as (s1 & m & Hrun1 & Hr1 & Hc1 & Hk1 & _ & Hm).
  destruct (machine_initialised m s Hfw) as (h & b & b' & drv & seed & Hheap & Hpci & Hb & Hseed & Hinit);
    [intros x Hx; apply Hm; lia|].
  destruct (call_machine_setup_spec h m b s s1 Hfw Hr1 Hk1 Hheap Hpci) as (s2 & Hrun2 & Hr2 & Hc2 & Hk2).
  destruct (call_system_setup_spec b b' seed s s2 Hr2 Hk2 Hb Hseed) as (s3 & Hrun3 & Hr3 & Hc3 & Hk3).
  destruct (with_seed_works s m b b' drv seed Hinit (fw_pgm _ Hfw) Hm) as (Hw & Him & Htr & Hspare & Hpgm & Hrandom & Hend16).
  destruct (prepare_process_spec s3 _sp Hr3) as (s4 & Hrun4 & Hr4 & Hc4 & Hk4); [lia|lia|].
  destruct (prepare_mode_spec s4) as (s5 & Hrun5 & Hr5 & Hk5 & Hpc & Hspp & Hsie & Hsatp & Hstvec & Ha).
  assert (machine_of s3 = with_seed seed b') as Hm3 by (unfold machine_of; by rewrite Hk3).
  set (bl := set_mem (process_memory (mem (with_seed seed b')) _sp) (with_seed seed b')).
  set (o := (set_brk_s _brk_start (os (kernel_of s))).2).
  assert (program_state (sret s5) = configured bl o (mem bl)) as Ht.
  { unfold program_state, machine_of. cbn [sret left kernel_of set_csr]. rewrite Hk5, Hk4, Hm3, Hk3. reflexivity. }
  exists (sret s5), s5, m, b, drv. cbn zeta. rewrite Ht. split_and!.
  - unfold _boot. run_with Hrun1. run_with Hrun2. run_with Hrun3. run_with Hrun4. run_with Hrun5. done.
  - split; cbn [pc user_mode left sret csrs set_csr regs]; rewrite ?fn_lookup_insert_ne by done.
    + rewrite Hpc, Hspp. done.
    + rewrite Hsatp, Hstvec, Hsie, Hc4, Hc3, Hc2. done.
    + by rewrite Hr5, Hr4.
  - apply configured_machine_ok; [by apply process_works|]. apply brk_placed, (fw_os _ Hfw).
  - apply brk_placed, (fw_os _ Hfw).
  - exact (init_sp _ _ _ _ _ _ Hinit).
  - done.
  - rewrite <-Him. by apply process_works.
  - rewrite <-Htr. by apply process_works.
  - apply Hinit.
  - by exists h.
  - rewrite <-Hend16. change (user _) with (process_memory (mem (with_seed seed b')) _sp).
    unfold process_memory. by rewrite !load_store_le_other by lia.
  - done.
  - done.
  - exact Hspare.
  - exact (proj1 (init_heap _ _ _ _ _ _ Hinit)).
  - exact (proj1 (proj2 (init_heap _ _ _ _ _ _ Hinit))).
  - by apply process_spec.
Qed.

(** C3.  The boot starts the program.  From what the firmware leaves, on any
    good board with a disk, a console and a source of randomness, [_boot] ends
    with the processor about to run [_start] in user mode: paging off, the trap
    vector set, the timer interrupt enabled, the argument registers zero, the
    stack pointer at the top of the stack and the program break behind the
    heap.  Descriptor 1 is the console, on which nothing has been written; the
    disk is as it was.  The stack describes a process with one argument, no
    environment and, at AT_RANDOM, what the entropy device had to say when the
    bus had been scanned, on top of zeros.  Behind that entry of the auxiliary
    vector, where its end should be marked, is what the memory held before. *)
Theorem boot_starts_program s :
  left_by_firmware s →
  ∃ r s' m b drv, _boot s = (Done r, s') ∧ started r ∧
    let t := program_state r in
    brk (current (os t)) = _brk_start ∧ Machine.sp (below (io t)) = _sp ∧ stdout_open (io t) (IoDescriptor true 0 0 (Some stdout_write_handler_f) None None) ∧
    image (below (io t)) = image (machine_of s) ∧ transcript CONSOLE_DRIVER 1 (below (io t)) = [] ∧
    virtio_drivers b !! ENTROPY_DRIVER = Some drv ∧
    (∃ h, configure_pci declared_drivers (scan_start h m s) = (Done tt, b)) ∧
    process_laid_out (user t) _sp (splice (zeros 8) 0 (answer (host drv) 0 (dev b) 8)) ∧
    load (user t) (_sp + 48) 16 = load (mem (machine_of s)) (_sp + 48) 16.
Proof using Hlink.
  intros Hfw. destruct (boot_runs s Hfw) as (r & s' & m & b & drv & Hrun & Hst & Hok & Hbrk & Hsp & Hfd & Him & Htr & Hd & Hp & Hend & _ & _ & _ & _ & Hproc).
  exists r, s', m, b, drv. cbn zeta. split_and!; try done.
Qed.

(** C1.  From reset to any point of any program's run: the boot ends, and in
    every state that the program it starts can reach -- by computing, moving
    its stack about outside of the forever storage, and making any system
    calls with any arguments (outputs of at most [room] bytes) -- all queues
    are in order, the devices can serve the next request, the descriptor table
    is valid, the timer register agrees with its shadow, and the table of
    handlers is the one set up at boot. *)
Theorem booted_system_always_ok clock call_deferred turns s :
  (∀ f c, upholds os_ok (call_deferred f c) any) → left_by_firmware s →
  ∃ r s', _boot s = (Done r, s') ∧
    ∀ t, rtc (program_step off_storage room clock call_deferred turns) (program_state r) t →
      machine_ok off_storage room t.
Proof using Hlink.
  intros Hdef Hfw. destruct (boot_runs s Hfw) as (r & s' & m & b & drv & Hrun & _ & Hok & _).
  exists r, s'. split; [done|]. intros t. apply program_steps_ok; [done|].
  apply (machine_ok_mono seed_place); [by apply seed_off_storage|done|exact Hok].
Qed.
End prepare.
End boot.

(** ** A concrete boot

    The board of BootDevice.v, the layout of the linker script, and functions
    that clear every register they may change. *)
#[export] Instance sample_symbols : BootSymbols :=
  {| at_trap_dispatch := 2149580800; at_start := 2149584896; at_pgm := 2149588992; at_dl_random_bytes := 2149589008 |}.
#[export, refine] Instance clearing_functions : CalleeSaved :=
  {| after_c r i := if decide (i ∈ [2; 3; 4; 8; 9] ++ seq 18 10)%nat then r i else 0 |}.
Proof. intros r i Hi. by rewrite decide_True. Defined.

Definition firmware_machine (img data : list byte) : machine board :=
  set_mem (store ∅ at_pgm _pgm) (reset_machine 256 8 8 img data).
Definition firmware_state (img data : list byte) : booting board :=
  Booting (λ _, 0) (λ _, 0) (System (initial_io (firmware_machine img data)) quiet ∅ []).

Lemma sample_linked : linked 4096.
Proof. split; vm_compute; intuition congruence. Qed.

Lemma firmware_ready img data :
  zlen img mod 512 = 0 → zlen img <= 2 ^ 64 → left_by_firmware (firmware_state img data).
Proof.
  intros Hmod Hmax. destruct (reset_reset_state img data) as [_ Hbase Htable Hwin Hneed _].
  split; try done.
  - split; [apply reset_good_board|apply board_complete].
  - intros a Ha. cbn [mem machine_of firmware_state kernel_of io initial_io below firmware_machine set_mem].
    rewrite lookup_store_other, lookup_empty; [done|]. right. revert Ha.
    change (zlen _pgm) with 11. change _forever_storage_start with 2150653952. unfold at_pgm, sample_symbols. lia.
Qed.

Lemma boot_starts_program_witness :
  ∃ r s', _boot (firmware_state (zeros 1024) [Byte.x01; Byte.x02; Byte.x03]) = (Done r, s') ∧ pc r = at_start ∧ user_mode r = true.
Proof.
  destruct (boot_starts_program 4096 sample_linked (firmware_state (zeros 1024) [Byte.x01; Byte.x02; Byte.x03]))
    as (r & s' & m & b & drv & Hrun & [[Hpc Hmode] _ _] & _); [by apply firmware_ready|].
  exists r, s'. split; [exact Hrun|]. by split.
Defined.

Lemma booted_system_always_ok_witness :
  ∃ r s', _boot (firmware_state (zeros 1024) []) = (Done r, s') ∧
    machine_ok off_storage 4096 (system_call_dispatcher slow_clock no_deferred 10 8 0 0 0 278 64 20 0 0 0 0 (program_state r)).2.
Proof.
  destruct (booted_system_always_ok 4096 sample_linked slow_clock no_deferred 10 (firmware_state (zeros 1024) []))
    as (r & s' & Hrun & Hok); [apply no_deferred_quiet|by apply firmware_ready|].
  exists r, s'. split; [exact Hrun|]. apply Hok, rtc_once, program_calls.
  refine (step_call _ _ _ _ _ 8 0 0 0 278 64 20 0 0 0 0 _ _ eq_refl).
  - repeat constructor; unfold u64_arg; lia.
  - change (20 <= 2 ^ 64 - 8). lia.
Defined.
