(* ===== verification/StartCode.v ===== *)
(** * Between [_start] and [main]

    The C library's start code is outside of the repository.  It computes, has
    its stack somewhere outside of what the kernel keeps, and makes system
    calls of the kinds it needs: the break, the thread's identity, randomness,
    the clock, the path of the program, the state of its descriptors.  Whatever
    it does of this, and in whatever order, [main] finds the devices, the
    descriptors, the console, the disk and the timers as the boot left them. *)

From S2P Require Import Prelude Programs Layout Ecall Memory Machine Heap HeapTheorems Vring QueueState Blk BlkVring Chain VirtioDriver LegacyBus Ext2 Ext2File Invariants Io IoTheorems Board ChainTheorems Randomness MachineWorks Timer TimerTheorems Syscall SystemInvariant SyscallTheorems SyscallMachine MachineInvariant.

Section start.
Context {D : Type} `{!Platform D} `{!VirtioBlk D} `{!VirtioChain D} `{QuietRegs0 : !QuietRegs D} `{!Linker} `{!Uninit} `{!Build}.
Context (clock : nat → Z) (call_deferred : Z → Z → prog os_state unit) (turns : nat).
Hypothesis deferred_quiet : ∀ f c, upholds os_ok (call_deferred f c) any.
Context (room : Z).
Implicit Types t : system (machine D).
Implicit Types s : machine D.

Abbreviation dispatch := (system_call_dispatcher (S := machine D) clock call_deferred turns).

(** Buffers of the entropy device that are neither in the forever storage nor
    in the heap. *)
Definition off_heap (b : Z) : Prop := off_storage b ∧ (b + 8 <= _heap_start ∨ _heap_end <= b).

(** The calls that neither touch a descriptor nor sleep. *)
Definition start_calls : list syscall_handler :=
  [hardware_riscv_h; empty_h; set_child_tid_h; set_brk_s_h; readlinkat_s_h; get_random_s_h; clock_gettime32_s_h;
   mprotect_s_h; fstat_s_h; ioctl_s_h].

Inductive start_step t t' : Prop :=
  | start_computes m : t' = set_user m t → start_step t t'
  | start_moves p :
      stack_ok room p → p < _heap_start ∨ _heap_end <= p - room →
      t' = Syscall.set_io (set_below (set_sp p (below (io t))) (io t)) t → start_step t t'
  | start_call cause location value sp a7 a0 a1 a2 a3 a4 a5 :
      0 <= a7 < 279 → handler_of (Z.to_nat a7) ∈ start_calls → Forall u64_arg [a0; a1; a2; a3; a4; a5] →
      a1 <= 2 ^ 64 - 8 → (dispatch cause location value sp a7 a0 a1 a2 a3 a4 a5 t).2 = t' → start_step t t'.

Lemma start_step_program t t' : start_step t t' → program_step off_heap room clock call_deferred turns t t'.
Proof.
  intros [m ->|p Hp Hh ->|cause location value sp a7 a0 a1 a2 a3 a4 a5 H7 Hin Hargs Ha1 <-].
  - by eapply program_computes.
  - apply (program_moves _ _ _ _ _ _ _ p); try done. unfold stack_ok, off_heap, off_storage in *. lia.
  - apply program_calls. refine (step_call _ _ _ _ _ cause location value sp a7 a0 a1 a2 a3 a4 a5 Hargs _ eq_refl).
    unfold start_calls in Hin. rewrite !elem_of_cons, elem_of_nil in Hin.
    destruct (handler_of _); try exact I; [|exact Ha1]. intuition congruence.
Qed.

(** What stays of the machine [s]. *)
Record calm s s' : Prop := {
  calm_works : machine_works off_heap room s';
  calm_disk : image s' = image s;
  calm_console : transcript CONSOLE_DRIVER 1 s' = transcript CONSOLE_DRIVER 1 s;
  calm_heap : the_heap s' = the_heap s;
  calm_stack : Machine.sp s' = Machine.sp s;
  calm_mem a : _heap_start <= a < _heap_end → load (mem s') a 1 = load (mem s) a 1;
}.

Lemma calm_refl s : machine_works off_heap room s → calm s s.
Proof. by split. Qed.
Lemma calm_trans s s' s'' : calm s s' → calm s' s'' → calm s s''.
Proof.
  intros [_ Da Ca Ha Sa Ma] [Wb Db Cb Hb Sb Mb]. split; [done|congruence..|]. intros a ?. by rewrite Mb, Ma.
Qed.

Lemma calm_load_word a s :
  machine_works off_heap room s → ∃ x s', load_word a s = (Done x, s') ∧ calm s s'.
Proof.
  intros Hs. cbn [load_word machine_board]. unfold load_reg. destruct (quiet_regs a 4 (dev s)) as [Hview Hside].
  destruct (mmio_load a 4 (dev s)) as [w d]. cbn [fst snd] in *. do 2 eexists. split; [reflexivity|].
  destruct (works_elsewhere off_heap room s (set_dev d s) Hs) as (Hw & Him & Htr); try done.
Qed.

Lemma calm_system_time c s :
  machine_works off_heap room s → ∃ r s', system_time c s = (Done r, s') ∧ calm s s'.
Proof.
  intros Hs. unfold system_time. destruct (calm_load_word 1052672 s Hs) as (x & s1 & Hx & Hc1). run_with Hx.
  destruct (calm_load_word (1052672 + 4) s1 (calm_works _ _ Hc1)) as (y & s2 & Hy & Hc2). run_with Hy.
  eexists _, s2. split; [reflexivity|]. by eapply calm_trans.
Qed.

Lemma calm_randomness n s :
  machine_works off_heap room s → heap_start (the_heap s) = _heap_start → heap_end (the_heap s) = _heap_end →
  0 <= n <= 2 ^ 64 - 8 → ∃ r s', virtio_get_randomness n s = (Done r, s') ∧ calm s s'.
Proof.
  intros Hs Hst Hen Hn. destruct (works_randomness off_heap room s n Hs Hn)
    as (drv & bytes & s' & _ & Hrun & _ & Hs' & Him & Htr & Hsp & Hheap & Hmem).
  eexists _, s'. split; [exact Hrun|]. split; try done. intros a Ha.
  destruct (works_heap_ok _ _ _ Hs) as [_ Hap]. rewrite Hst, Hen in Hap.
  apply Hmem; [unfold storage_apart; lia|]. intros b [_ Hb]. lia.
Qed.

(** ** The invariant *)

(** [t] as [main] may find it when the boot has left [t0]. *)
Record resting t0 t : Prop := {
  rest_ok : machine_ok off_heap room t;
  rest_io : fds (io t) = fds (io t0) ∧ _superblock (io t) = _superblock (io t0);
  rest_disk : image (below (io t)) = image (below (io t0));
  rest_console : transcript CONSOLE_DRIVER 1 (below (io t)) = transcript CONSOLE_DRIVER 1 (below (io t0));
  rest_os : readings (os t) = readings (os t0) ∧ (idle (os t0) → idle (os t));
  rest_heap : the_heap (below (io t)) = the_heap (below (io t0));
  rest_mem a : _heap_start <= a < _heap_end → load (mem (below (io t))) a 1 = load (mem (below (io t0))) a 1;
  rest_stack : Machine.sp (below (io t)) < _heap_start ∨ _heap_end <= Machine.sp (below (io t)) - room;
}.

(** Nothing happens below the system calls. *)
Lemma resting_above t0 t t' :
  resting t0 t → machine_ok off_heap room t' → io t' = io t →
  readings (os t') = readings (os t) → (idle (os t) → idle (os t')) → resting t0 t'.
Proof. intros [R1 R2 R3 R4 [R5 R6] R7 R8 R9] Hok Hio Hr Hi. split; rewrite ?Hio; try done. split; [congruence|auto]. Qed.

Lemma resting_calm t0 t t' b :
  resting t0 t → machine_ok off_heap room t' → io t' = set_below b (io t) → os t' = os t →
  calm (below (io t)) b → resting t0 t'.
Proof.
  intros [R1 R2 R3 R4 R5 R6 R7 R8] Hok Hio Hos [C1 C2 C3 C4 C5 C6].
  split; rewrite ?Hio, ?Hos; cbn [fds _superblock below set_below]; try done; try congruence.
  intros a Ha. by rewrite C6, R7.
Qed.

Lemma start_step_rests t0 t t' :
  heap_start (the_heap (below (io t0))) = _heap_start → heap_end (the_heap (below (io t0))) = _heap_end →
  resting t0 t → start_step t t' → resting t0 t'.
Proof using deferred_quiet QuietRegs0.
  intros Hst Hen Hr Hstep. pose proof (rest_ok _ _ Hr) as Hok.
  pose proof (program_step_ok off_heap room clock call_deferred turns deferred_quiet _ _ Hok (start_step_program _ _ Hstep)) as Hok'.
  destruct Hstep as [m ->|p Hp Hh ->|cause location value sp a7 a0 a1 a2 a3 a4 a5 H7 Hin Hargs Ha1 <-].
  { by apply (resting_above t0 t). }
  { destruct Hr. split; done. }
  rewrite dispatch_handler in * by (done || apply Hok). pose proof (machine_ok_works _ _ _ Hok) as Hw.
  repeat (apply Forall_cons in Hargs as [? Hargs]). unfold u64_arg in *.
  unfold start_calls in Hin. rewrite !elem_of_cons, elem_of_nil in Hin.
  destruct_or! Hin; rewrite Hin in *; cbn [run_handler] in *;
    try (apply (resting_above t0 t); done).
  - apply (resting_above t0 t); try done; unfold set_brk_s, on_os, on; cbn; by destruct (a0 =? 0).
  - destruct (calm_randomness a1 _ Hw) as ([r bytes] & b & Hrun & Hc); [by rewrite (rest_heap _ _ Hr)..|lia|].
    apply (resting_calm t0 t _ b); try done; unfold get_random_s, kernel, on_io, on, lift, get_randomness, machine_services;
      unfold mbind, prog_bind; by rewrite Hrun.
  - destruct (calm_system_time a0 _ Hw) as ([[ok tv_sec] tv_nsec] & b & Hrun & Hc).
    apply (resting_calm t0 t _ b); try done; unfold clock_gettime32_s, kernel, on_io, on, lift;
      unfold mbind, prog_bind; by rewrite Hrun.
Qed.

Lemma start_steps_rest t0 t :
  machine_ok off_heap room t0 →
  heap_start (the_heap (below (io t0))) = _heap_start → heap_end (the_heap (below (io t0))) = _heap_end →
  Machine.sp (below (io t0)) < _heap_start →
  rtc start_step t0 t → resting t0 t.
Proof using deferred_quiet QuietRegs0.
  intros Hok Hst Hen Hsp Hsteps.
  assert (resting t0 t0) as Hr by (split; try done; by left).
  assert (∀ t1 t2, rtc start_step t1 t2 → resting t0 t1 → resting t0 t2) as Hrtc.
  { intros t1 t2 Hs. induction Hs; eauto using start_step_rests. }
  by eapply Hrtc.
Qed.

(** The spare block is still there. *)
Lemma resting_spare t0 t :
  heap_start (the_heap (below (io t0))) = _heap_start → heap_end (the_heap (below (io t0))) = _heap_end →
  resting t0 t → spare_block room (below (io t0)) → spare_block room (below (io t)).
Proof.
  intros Hst Hen [Hok _ _ _ _ Hheap Hmem Hsp] (p & Hb & Hfree & _).
  destruct (works_heap_ok _ _ _ (machine_ok_works _ _ _ Hok)) as [Hlaid _]. rewrite Hheap in Hlaid.
  pose proof (block_inside _ _ _ Hlaid Hb) as Hin. pose proof (laid_end _ Hlaid).
  exists p. rewrite Hheap. split; [done|]. rewrite Hst, Hen in *. split; [|lia].
  unfold in_use, load_le in *. change (Z.of_nat 1) with 1 in *. by rewrite Hmem by lia.
Qed.
End start.
