(* ===== verification/Runtime.v ===== *)
(** * The runtime's program (src/runtime.c)

    The program that the kernel is linked with by default.  It runs in user
    mode, on the stubs of src/demandos.c; the C library's [printf] is outside
    of the repository, and where the compiler puts the local variable [evt]
    and the two [scall] instructions is an argument. *)

From S2P Require Import Prelude Programs Layout Ecall Memory Blk Ext2 Io Timer Syscall Trap.

(** [struct event] of include/event.h *)
Definition event : struct := [("id", U64); ("data", U64)].

(** The C library's [printf]: the format and the arguments. *)
Class Stdio (S : Type) := printf : list byte → list Z → prog (core S) Z.

Class RuntimeSymbols := {
  at_evt : Z;
  at_wait_for_event : Z;
  at_mount_hd : Z;
  symbols_in_memory : 0 <= at_evt < 2 ^ 64 - 16 ∧ 0 <= at_wait_for_event < 2 ^ 64 ∧ 0 <= at_mount_hd < 2 ^ 64;
}.

Definition line (msg : string) : list byte := String.list_byte_of_string (msg +:+ nl).

Section program.
Context {S : Type} `{!BlkDev S} `{!Console S} `{!Uninit} `{!Board S} `{!Services S} `{!Build} `{!CallConvention}.
Context `{!Stdio S} `{!RuntimeSymbols}.
Context (clock : nat → Z) (call_deferred : Z → Z → prog os_state unit) (turns : nat).

(** [for (;;)]: the fuel is the number of turns to look at. *)
Fixpoint event_loop (fuel : nat) : prog (core S) Z :=
  match fuel with
  | O => stop Hang
  | Datatypes.S fuel =>
      wait_result ← wait_for_event clock call_deferred turns at_wait_for_event 50000000 (* 5 * 1e7 *) at_evt;
      (if wait_result =? WAIT_TIMEOUT then
         _ ← printf (line "There was a timeout!") []; mret tt
       else if wait_result =? WAIT_EVENT_OCCURRED then
         _ ← printf (line "An event occurred!") [];
         id ← on_sys (load_field event at_evt "id");
         _ ← printf (line "Wait result? %llu (event id: %llu)") [wait_result; id]; mret tt
       else mret tt);;
      event_loop fuel
  end.

(** The locals [ctr] and [buffer] are never read. *)
Definition main (fuel : nat) : prog (core S) Z :=
  on_sys (store_field event at_evt "id" 0);;
  _ ← printf (line "Starting up the runtime") [];
  _ ← mount_hd clock call_deferred turns at_mount_hd;
  event_loop fuel.
End program.
