(* ===== verification/Stdio.v ===== *)
(** * The standard output of the C library

    The C library is outside of the repository.  This file says what is
    assumed of its [printf]: it is a routine that computes in the program's
    memory and makes system calls, and against a kernel that answers these
    calls as their documentation says ([converse]) it behaves as the C standard
    says of a stream: the characters come out in order, possibly later, through
    a buffer of bounded size ([pending]); with line buffering nothing is held
    back behind a newline.  That the kernel of the repository gives those
    answers is a theorem, [routine_serves] of RuntimeTheorems.v. *)

From S2P Require Import Prelude Programs Layout Ecall Memory Blk Ext2 Io Timer Syscall SystemInvariant Trap Runtime.

(** ** Routines of the library *)

(** A routine returns [n], computes in memory, or makes a call and goes on
    with its result. *)
Inductive routine :=
  | Back (n : Z)
  | Local (f : memory → memory) (next : memory → routine)
  | Call (a7 a0 a1 a2 : Z) (next : Z → memory → routine).

(** What the fields that [fstat] fills in do to the structure at [p]. *)
Definition stat_stored (m : memory) (p : Z) : memory :=
  foldl (λ m fx, store_le m (p + offsetof stat fx.1) (Z.to_nat (fieldsize stat fx.1)) fx.2) m
    [("st_size", 0); ("st_mode", 8592); ("st_blksize", 1024); ("st_blocks", 0); ("st_dev", 26); ("st_ino", 7);
     ("st_nlink", 1); ("st_uid", 1)]%string.

(** The calls of stdio and their documented answers, for a process with the
    memory [m] and the break [b]: the result, what is written to descriptor 1
    (in pieces of at most [room] bytes), the memory and the break. *)
Definition answers (room a7 a0 a1 a2 : Z) (m : memory) (b : Z) : option (Z * list byte * memory * Z) :=
  if negb (forallb (λ a, (0 <=? a) && (a <? 2 ^ 64)) [a0; a1; a2]) then None
  else if (a7 =? 64 (* write *)) && (a0 =? 1) && (a2 <=? room) then Some (a2, load m a1 a2, m, b)
  else if a7 =? 214 (* brk *) then let b := if a0 =? 0 then b else a0 in Some (b, [], m, b)
  else if a7 =? 80 (* fstat: a character device *) then Some (0, [], stat_stored m a1, b)
  else if a7 =? 29 (* ioctl: a terminal *) then Some (0, [], m, b)
  else None.

(** The routine in conversation with that kernel: what it returns, all it has
    written, the memory and the break; [None] when it makes another call. *)
Fixpoint converse (room : Z) (p : routine) (m : memory) (b : Z) : option (Z * list byte * memory * Z) :=
  match p with
  | Back n => Some (n, [], m, b)
  | Local f next => converse room (next (f m)) (f m) b
  | Call a7 a0 a1 a2 next =>
      '(r, out, m, b) ← answers room a7 a0 a1 a2 m b;
      '(n, rest, m, b) ← converse room (next r m) m b;
      Some (n, out ++ rest, m, b)
  end.

(** ** The stream *)

Definition newline : byte := Byte.x0a.

(** [routine_of]: what [printf] does for a text without conversions.
    [library_ok]: the library's own objects, at the addresses [in_library], are
    in order, for the break the program has.  [pending]: what waits in the
    buffer of the standard output.  [line_buffered] is for the library to
    decide; it asks [fstat] and [ioctl], which say that descriptor 1 is a
    terminal. *)
Class Stream (room : Z) := {
  routine_of : list byte → routine;
  library_ok : memory → Z → Prop;
  in_library : Z → Prop;
  pending : memory → list byte;
  buffer_size : Z;
  line_buffered : Prop;
  pending_fits m b : library_ok m b → zlen (pending m) <= buffer_size;
  library_own m m' b :
    (∀ x, in_library x → m' !! x = m !! x) → library_ok m b → library_ok m' b ∧ pending m' = pending m;
  printf_text text m b :
    Byte.x25 ∉ text → zlen text <= room → library_ok m b →
    ∃ n out m' b', converse room (routine_of text) m b = Some (n, out, m', b') ∧ library_ok m' b' ∧
      pending m ++ text = out ++ pending m' ∧
      (line_buffered → last text = Some newline → pending m' = []);
}.

(** ** The routine on the kernel of the repository *)

Section kernel.
Context {S : Type} `{!BlkDev S} `{!Console S} `{!Uninit} `{!Board S} `{!Services S} `{!Build}.
Context (clock : nat → Z) (call_deferred : Z → Z → prog os_state unit) (turns : nat).

(** A call is a run of the dispatcher ([system_call_trap] in TrapTheorems.v). *)
Fixpoint run_routine (p : routine) : prog (system S) Z :=
  match p with
  | Back n => mret n
  | Local f next => modify (λ t, set_user (f (user t)) t);; m ← gets user; run_routine (next m)
  | Call a7 a0 a1 a2 next =>
      r ← system_call_dispatcher clock call_deferred turns 8 0 0 0 a7 a0 a1 a2 0 0 0;
      m ← gets user;
      run_routine (next r m)
  end.

(** [printf] is its routine, and leaves the processor with a stack. *)
Class StreamRuns (room : Z) `{!Stream room} `{!Stdio S} (fit : hart → Prop) :=
  printf_runs text c : Byte.x25 ∉ text → fit (cpu c) →
    ∃ h', fit h' ∧ ∀ n t', run_routine (routine_of text) (sys c) = (Done n, t') → printf text [] c = (Done n, Core h' t').
End kernel.
