(* ===== verification/BufferedStdio.v ===== *)
(** * A small standard output

    An implementation of what Stdio.v assumes of the C library: a [printf]
    with a buffer of [cap] bytes that looks at its descriptor and at the break
    before it writes, and writes the buffer out when a text does not fit.  With
    no buffer at all it never holds back a character.  It shows that the
    assumptions can hold, for a library that buffers and for one that does
    not. *)

From S2P Require Import Prelude Programs Layout Ecall Memory Blk Ext2 Io Timer Syscall SystemInvariant Trap Runtime Stdio.

(** The library's memory: what [fstat] says at 2048, the number of characters
    that wait at 4088, the characters at 4096, and the text to be written at
    4160. *)
Definition waiting (m : memory) : list byte := load m 4096 (load_le m 4088 8).

Definition keep (bytes : list byte) (m : memory) : memory := store_le (store m 4096 bytes) 4088 8 (zlen bytes).

Definition put_out (cap : Z) (text : list byte) (m : memory) : routine :=
  if zlen (waiting m) + zlen text <=? cap then
    Local (keep (waiting m ++ text)) (λ _, Back (zlen text))
  else
    Call 64 1 4096 (zlen (waiting m)) (λ _ _,
    Local (λ m, keep [] (store m 4160 text)) (λ _,
    Call 64 1 4160 (zlen text) (λ _ _,
    Back (zlen text)))).

Definition print_text (cap : Z) (text : list byte) : routine :=
  Call 80 1 2048 0 (λ _ _, Call 214 0 0 0 (λ _ m, put_out cap text m)).

Lemma keep_waiting bytes m : zlen bytes <= 64 → waiting (keep bytes m) = bytes ∧ load_le (keep bytes m) 4088 8 = zlen bytes.
Proof.
  intros Hlen. pose proof (zlen_nonneg bytes). unfold waiting, keep.
  rewrite load_le_store_le_same. change (8 * Z.of_nat 8) with 64. rewrite Z.mod_small by lia. split; [|done].
  rewrite load_store_le_other by lia. apply load_store_same.
Qed.

Lemma stat_apart m a n : 2304 <= a → load (stat_stored m 2048) a n = load m a n.
Proof.
  intros Ha. unfold stat_stored. cbn [foldl fst snd].
  rewrite !load_store_le_other; [done|right; refine (Z.le_trans _ _ _ _ Ha); by vm_compute..].
Qed.

Lemma answers_write a n m b :
  0 <= a < 2 ^ 64 → 0 <= n <= 4096 → answers 4096 64 1 a n m b = Some (n, load m a n, m, b).
Proof.
  intros Ha Hn. unfold answers. cbn [forallb].
  rewrite !(proj2 (Z.leb_le _ _)), !(proj2 (Z.ltb_lt _ _)) by lia. reflexivity.
Qed.

Lemma converse_call room a7 a0 a1 a2 next m b r out m1 b1 n rest m2 b2 :
  answers room a7 a0 a1 a2 m b = Some (r, out, m1, b1) → converse room (next r m1) m1 b1 = Some (n, rest, m2, b2) →
  converse room (Call a7 a0 a1 a2 next) m b = Some (n, out ++ rest, m2, b2).
Proof. intros Ha Hc. cbn [converse]. rewrite Ha. cbn. by rewrite Hc. Qed.

Lemma waiting_length m : zlen (waiting m) = load_le m 4088 8.
Proof. apply zlen_load, load_le_range. Qed.

Lemma put_out_converses cap text m b :
  0 <= cap <= 64 → load_le m 4088 8 <= cap → zlen text <= 4096 →
  ∃ out m', converse 4096 (put_out cap text m) m b = Some (zlen text, out, m', b) ∧ load_le m' 4088 8 <= cap ∧
    waiting m ++ text = out ++ waiting m' ∧ (cap = 0 → waiting m' = []).
Proof.
  intros Hcap Hok Hlen. pose proof (zlen_nonneg text). pose proof (zlen_nonneg (waiting m)). pose proof (waiting_length m).
  unfold put_out. destruct (Z.leb_spec (zlen (waiting m) + zlen text) cap) as [Hfits|Hfull].
  - destruct (keep_waiting (waiting m ++ text) m) as [Hk Hkn]; [rewrite zlen_app; lia|].
    do 2 eexists. split; [reflexivity|]. rewrite Hkn, Hk, zlen_app. split; [lia|]. split; [done|].
    intros ->. apply nil_length_inv. rewrite length_app. unfold zlen in *. lia.
  - destruct (keep_waiting [] (store m 4160 text)) as [Hk Hkn]; [done|]. set (m1 := keep [] (store m 4160 text)) in *.
    exists (waiting m ++ text), m1. rewrite Hkn, Hk, app_nil_r. split_and!; [|change (zlen []) with 0; lia|done|done].
    eapply converse_call; [rewrite answers_write by lia; unfold waiting; by rewrite zlen_load by apply load_le_range|].
    assert (load m1 4160 (zlen text) = text) as Hout.
    { unfold m1, keep. rewrite load_store_le_other, load_store_other by (change (zlen []) with 0; lia). apply load_store_same. }
    change (converse 4096 (Call 64 1 4160 (zlen text) (λ _ _, Back (zlen text))) m1 b = Some (zlen text, text, m1, b)).
    etransitivity; [eapply converse_call; [by rewrite answers_write by lia|reflexivity]|by rewrite Hout, app_nil_r].
Qed.

(** The stream, with a buffer of at most 64 bytes. *)
#[refine] Definition buffered (cap : Z) (Hcap : 0 <= cap <= 64) : Stream 4096 := {|
  routine_of := print_text cap;
  library_ok m _ := load_le m 4088 8 <= cap;
  in_library x := 2048 <= x < 8256;
  pending := waiting;
  buffer_size := cap;
  line_buffered := cap = 0;
|}.
Proof.
  - intros m b Hok. by rewrite waiting_length.
  - intros m m' b Hm Hok. assert (load_le m' 4088 8 = load_le m 4088 8) as Hn.
    { unfold load_le. f_equal. apply load_ext. intros i Hi. apply Hm. lia. }
    rewrite Hn. split; [done|]. unfold waiting. rewrite Hn. apply load_ext. intros i Hi. apply Hm. lia.
  - intros text m b _ Hlen Hok. set (m0 := stat_stored m 2048).
    assert (load_le m0 4088 8 = load_le m 4088 8) as Hn by (unfold load_le, m0; by rewrite stat_apart by lia).
    assert (waiting m0 = waiting m) as Hw by (unfold waiting; rewrite Hn; by apply stat_apart).
    destruct (put_out_converses cap text m0 b Hcap) as (out & m' & Hc & Hok' & Htext & Hnone); [by rewrite Hn|done|].
    exists (zlen text), out, m', b. rewrite <-Hw. split; [|by auto].
    eapply (converse_call _ _ _ _ _ _ _ _ _ []); [reflexivity|].
    eapply (converse_call _ _ _ _ _ _ _ _ _ []); [reflexivity|exact Hc].
Defined.

(** Its [printf], on the kernel. *)
Section printf.
Context {S : Type} `{!BlkDev S} `{!Console S} `{!Uninit} `{!Board S} `{!Services S} `{!Build}.
Context (clock : nat → Z) (call_deferred : Z → Z → prog os_state unit) (turns : nat) (fit : hart → Prop).
Context (cap : Z) (Hcap : 0 <= cap <= 64).

Definition buffered_printf : Stdio S := λ text _, on_sys (run_routine clock call_deferred turns (print_text cap text)).

Lemma buffered_runs :
  @StreamRuns S _ _ _ _ _ _ clock call_deferred turns 4096 (buffered cap Hcap) buffered_printf fit.
Proof.
  intros text c _ Hfit. exists (cpu c). split; [done|]. intros n t' Hrun.
  unfold printf, buffered_printf, on_sys, on. change (print_text cap text) with (@routine_of _ (buffered cap Hcap) text).
  by rewrite Hrun.
Qed.
End printf.
