(* ===== verification/RuntimeTheorems.v ===== *)
(** * What the runtime's program does

    [main] of src/runtime.c on the machine: it reports its start, mounts the
    disk, and from then on reports a timeout every time its wait comes back.
    Of the C library it is assumed that its start code makes harmless calls
    (StartCode.v) and that its [printf] is a stream on top of documented calls
    (Stdio.v); that the kernel answers these calls as documented is
    [routine_serves]. *)

From stdpp Require Import functions.
From S2P Require Import Prelude Programs Layout Ecall Memory Machine Heap HeapTheorems LinkerScript Vring QueueState Blk BlkVring Chain VirtioDriver Pci LegacyBus BringUp BlkBoot Ext2 Ext2File Ext2Theorems Invariants Io IoTheorems Board ChainTheorems Randomness MachineWorks DeviceBoot BusScan MachineBoot RefDevice Ramdisk RefChain BootDevice Timer TimerTheorems Syscall SystemInvariant SyscallTheorems SyscallMachine MachineInvariant Trap TrapTheorems Boot BootTheorems StartCode Runtime Stdio BufferedStdio.

Section runtime.
Context {D : Type} `{!Platform D} `{!VirtioBlk D} `{!VirtioChain D} `{QuietRegs0 : !QuietRegs D} `{!Linker} `{!Uninit} `{!Build}.
Context `{!CallConvention} `{!Stdio (machine D)} `{!RuntimeSymbols}.
Context (clock : nat → Z) (call_deferred : Z → Z → prog os_state unit) (turns : nat).
Hypothesis deferred_quiet : ∀ f c, upholds os_ok (call_deferred f c) any.
Context (B : Z → Prop) (room : Z).
Implicit Types c : core (machine D).
Implicit Types t : system (machine D).

Abbreviation dispatch := (system_call_dispatcher (S := machine D) clock call_deferred turns).
Abbreviation machine_ok := (machine_ok B room).

(** *** Mounting *)

Lemma machine_mount t :
  machine_ok t → spare_block room (below (io t)) → zlen (_superblock (io t)) = 1024 → 2048 <= zlen (image (below (io t))) →
  let sb := slice (image (below (io t))) 1024 1024 in
  sb.[ext2_superblock, "s_log_block_size"%string] < 21 → sb.[ext2_superblock, "s_blocks_per_group"%string] ≠ 0 →
  ∃ i, mount_hd_s t = (Done 0, set_io i t) ∧ fds i = fds (io t) ∧ image (below i) = image (below (io t)) ∧
    transcript CONSOLE_DRIVER 1 (below i) = transcript CONSOLE_DRIVER 1 (below (io t)).
Proof.
  intros Ht Hspare Hlen Hin sb Hlog Hbpg. pose proof (machine_ok_works _ _ _ Ht) as Hw.
  destruct (spare_malloc room _ 500 Hspare) as [p Hp]; [lia|].
  destruct (works_malloc B room (below (io t)) 500 Hw) as (Hw' & Him & Htr).
  destruct (malloc 500 (below (io t))) as [r b] eqn:Hm. cbn in Hp, Hw', Him, Htr. subst r.
  set (T := Some (transcript CONSOLE_DRIVER 1 b)).
  destruct (@mount_spec _ _ (works_spec B room T) _ (works_console B room T) _ _ (set_below b (io t)))
    as (r & b' & Hrun & Hr & [_ Htr'] & Him').
  - intros s [Hs HT]. exists s. split; [by apply disk_is_up, (works_disk_ready B room)|done].
  - by split.
  - exact Hlen.
  - cbn. rewrite Him. exact Hin.
  - cbn. rewrite Him. exact Hlog.
  - assert (slice (image b) 1024 1024 = sb) as Hsb by (unfold sb; cbn; by rewrite Him).
    cbn in Hrun, Hr, Him', Htr'. cbn in Hsb. rewrite Hsb in Hr, Hrun.
    rewrite (proj2 (Z.eqb_neq _ _) Hbpg) in Hr. subst r.
    eexists. unfold mount_hd_s. split.
    + erewrite bind_done by (unfold kernel, on_io, on, lift, kernel_malloc, machine_services; rewrite Hm; reflexivity).
      unfold on_io, on. cbn [io set_io]. rewrite Hrun. reflexivity.
    + cbn. rewrite Htr', Htr, Him', Him. done.
Qed.

(** *** Between two calls

    The system is in order, the processor can be interrupted, no timer is
    wanted, descriptor 1 is the console, and [lines] is what the console has
    read so far. *)
Record serving (d : io_descriptor) (img lines : list byte) c : Prop := {
  srv_system : machine_ok (sys c);
  srv_cpu : interruptible (cpu c);
  srv_idle : idle (os (sys c));
  srv_stdout : stdout_open (io (sys c)) d;
  srv_image : image (below (io (sys c))) = img;
  srv_lines : transcript CONSOLE_DRIVER 1 (below (io (sys c))) = lines;
}.

(** A step that leaves the descriptors alone. *)
Lemma serving_step d img lines lines' c c' :
  serving d img lines c → program_step B room clock call_deferred turns (sys c) (sys c') → interruptible (cpu c') →
  idle (os (sys c')) → fds (io (sys c')) = fds (io (sys c)) → image (below (io (sys c'))) = img →
  transcript CONSOLE_DRIVER 1 (below (io (sys c'))) = lines' → serving d img lines' c'.
Proof using deferred_quiet QuietRegs0.
  intros [Hok _ _ [Hslot Hopen] _ _] Hstep Hcpu Hidle Hfds Him Htr.
  split; try done; [by eapply program_step_ok|]. split; [by rewrite Hfds|done].
Qed.

(** A call to a handler of the table is a step. *)
Lemma call_step t a7 a0 a1 a2 (h : syscall_handler) r t' :
  syscall_handlers t = handler_table → 0 <= a7 < 279 → Forall u64_arg [a0; a1; a2] → handler_of (Z.to_nat a7) = h →
  match h with write_s_h => a2 <= room | get_random_s_h => False | _ => True end →
  run_handler clock call_deferred turns h a0 a1 a2 0 0 0 t = (r, t') →
  program_step B room clock call_deferred turns t t'.
Proof.
  intros Ht H7 Hargs Hh Hsmall Hrun. apply program_calls.
  refine (step_call _ _ _ _ _ 8 0 0 0 a7 a0 a1 a2 0 0 0 _ _ _).
  - change (Forall u64_arg ([a0; a1; a2] ++ [0; 0; 0])). apply Forall_app_2; [done|]. repeat constructor; unfold u64_arg; lia.
  - rewrite Hh. by destruct h.
  - by rewrite dispatch_handler, Hh, Hrun.
Qed.

(** *** Output *)

Definition brk_of t : Z := brk (current (os t)).

(** What stays as it is during output. *)
Definition same_but_output c c' : Prop :=
  readings (os (sys c')) = readings (os (sys c)) ∧ _superblock (io (sys c')) = _superblock (io (sys c)) ∧
  (spare_block room (below (io (sys c))) → spare_block room (below (io (sys c')))).

Lemma same_but_output_trans c c' c'' : same_but_output c c' → same_but_output c' c'' → same_but_output c c''.
Proof. intros (? & ? & ?) (? & ? & ?). split_and!; [congruence..|auto]. Qed.

Hypothesis Hroom : 1024 <= room < 2 ^ 31.

Lemma write_serves d img lines buf size c :
  u64_arg buf → 0 <= size <= room → serving d img lines c →
  ∃ b, let t' := set_io (set_below b (io (sys c))) (sys c) in
    dispatch 8 0 0 0 64 1 buf size 0 0 0 (sys c) = (Done size, t') ∧
    serving d img (lines ++ load (user (sys c)) buf size) (set_sys t' c) ∧ same_but_output c (set_sys t' c).
Proof using deferred_quiet QuietRegs0 Hroom.
  intros Hbuf Hsz Hs. pose proof Hs as [Hok Hcpu Hidle Hd Him Htr].
  pose proof (machine_ok_works _ _ _ Hok) as Hworks. pose proof (sys_table _ Hok) as Ht.
  assert (side_works room CONSOLE_DRIVER 1 (below (io (sys c)))) as Hside
    by (destruct Hworks as (? & ? & ? & ? & ? & ? & ?); by eapply machine_up_works).
  destruct (stdout_call clock call_deferred turns room d (sys c) 8 0 0 0 buf size 0 0 0 Ht Hd Hside) as (b & Hrun & Hput & _); [lia..|].
  destruct (works_transmit B room _ (load (user (sys c)) buf size) Hworks) as (b' & Hput' & _ & Himb & Htrb & Hspb & Hheap & Hmem);
    [rewrite zlen_load; lia|].
  rewrite Hput in Hput'. injection Hput' as <-.
  exists b. cbn zeta. split; [exact Hrun|]. split; [|split; [done|split; [done|]]].
  - apply (serving_step d img lines _ c); try done; [|by rewrite <-Him|by rewrite <-Htr].
    apply (call_step (sys c) 64 1 buf size write_s_h (Done size)); try done; [|lia|].
    + repeat constructor; unfold u64_arg in *; lia.
    + rewrite dispatch_handler in Hrun by done. exact Hrun.
  - intros Hspare. destruct (works_heap_ok _ _ _ Hworks) as [Hlaid Hapart].
    apply (spare_kept room (below (io (sys c)))); try done.
    intros a Ha Hst. apply Hmem; [unfold storage_apart; lia|lia].
Qed.

(** A call that stays above the descriptors. *)
Lemma plain_call_serves d img lines c a7 a0 a1 a2 h r t' :
  serving d img lines c → 0 <= a7 < 279 → handler_of (Z.to_nat a7) = h → h ≠ write_s_h → h ≠ get_random_s_h →
  Forall u64_arg [a0; a1; a2] →
  run_handler clock call_deferred turns h a0 a1 a2 0 0 0 (sys c) = (Done r, t') →
  io t' = io (sys c) → readings (os t') = readings (os (sys c)) → idle (os t') →
  dispatch 8 0 0 0 a7 a0 a1 a2 0 0 0 (sys c) = (Done r, t') ∧
  serving d img (lines ++ []) (set_sys t' c) ∧ same_but_output c (set_sys t' c).
Proof using deferred_quiet QuietRegs0.
  intros Hs H7 Hh Hw Hg Hargs Hrun Hio Hr Hi. pose proof Hs as [Hok Hcpu _ _ Him Htr]. pose proof (sys_table _ Hok) as Ht.
  split; [by rewrite dispatch_handler, Hh|]. rewrite app_nil_r.
  split; [|unfold same_but_output; cbn [sys set_sys]; by rewrite Hio].
  apply (serving_step d img lines _ c); cbn [sys cpu set_sys]; rewrite ?Hio; try done.
  apply (call_step (sys c) a7 a0 a1 a2 h (Done r)); try done. by destruct h.
Qed.

Lemma set_brk_answers a (o : os_state) :
  let b := if a =? 0 then brk (current o) else a in
  ∃ o', set_brk_s a o = (Done b, o') ∧ brk (current o') = b ∧ readings o' = readings o ∧ (idle o → idle o').
Proof. unfold set_brk_s, idle. run. destruct (a =? 0); by eexists. Qed.

(** The kernel answers the calls of stdio as [answers] says. *)
Lemma answers_serve d img lines c a7 a0 a1 a2 r out m b :
  serving d img lines c → answers room a7 a0 a1 a2 (user (sys c)) (brk_of (sys c)) = Some (r, out, m, b) →
  ∃ t', dispatch 8 0 0 0 a7 a0 a1 a2 0 0 0 (sys c) = (Done r, t') ∧ serving d img (lines ++ out) (set_sys t' c) ∧
    same_but_output c (set_sys t' c) ∧ user t' = m ∧ brk_of t' = b.
Proof using deferred_quiet QuietRegs0 Hroom.
  intros Hs Hans. unfold answers in Hans. destruct (negb _) eqn:Hargs in Hans; [done|].
  apply negb_false_iff in Hargs. cbn [forallb] in Hargs.
  assert (Forall u64_arg [a0; a1; a2]) as Hu by (repeat constructor; unfold u64_arg; lia).
  assert (u64_arg a1 ∧ 0 <= a2) as [Hbuf Hsz] by (unfold u64_arg; lia).
  destruct ((a7 =? 64) && (a0 =? 1) && (a2 <=? room)) eqn:E.
  { assert (a7 = 64 ∧ a0 = 1 ∧ a2 <= room) as (-> & -> & Hle) by lia. injection Hans as <- <- <- <-.
    destruct (write_serves d img lines a1 a2 c Hbuf ltac:(lia) Hs) as (b & Hrun & Hs' & Hsame). by eexists. }
  clear E. pose proof (srv_idle _ _ _ _ Hs) as Hi. destruct (Z.eqb_spec a7 214) as [->|_]; [|destruct (Z.eqb_spec a7 80) as [->|_];
    [|destruct (Z.eqb_spec a7 29) as [->|_]; [|done]]]; injection Hans as <- <- <- <-.
  - destruct (set_brk_answers a0 (os (sys c))) as (o & Hrun & Hb & Hr & Hi').
    destruct (plain_call_serves d img lines c 214 a0 a1 a2 set_brk_s_h (if a0 =? 0 then brk_of (sys c) else a0)
      (set_os o (sys c))) as (Hdis & Hs' & Hsame); try done; [|by auto|by eexists].
    cbn [run_handler]. unfold on_os, on. by rewrite Hrun.
  - destruct (plain_call_serves d img lines c 80 a0 a1 a2 fstat_s_h 0
      (set_user (stat_stored (user (sys c)) a1) (sys c))) as (Hrun & Hs' & Hsame); try done. by eexists.
  - destruct (plain_call_serves d img lines c 29 a0 a1 a2 ioctl_s_h 0 (sys c)) as (Hrun & Hs' & Hsame); try done. by eexists.
Qed.

(** The refinement: what a routine does in conversation with the documented
    calls it does on the kernel, and what it writes is on the console. *)
Lemma routine_serves d img lines p c n out m b :
  serving d img lines c → converse room p (user (sys c)) (brk_of (sys c)) = Some (n, out, m, b) →
  ∃ t', run_routine clock call_deferred turns p (sys c) = (Done n, t') ∧ serving d img (lines ++ out) (set_sys t' c) ∧
    same_but_output c (set_sys t' c) ∧ user t' = m ∧ brk_of t' = b.
Proof using deferred_quiet QuietRegs0 Hroom.
  revert lines c n out m b. induction p as [n'|f next IH|a7 a0 a1 a2 next IH]; intros lines c n out m b Hs Hc; cbn [converse] in Hc.
  - injection Hc as <- <- <- <-. exists (sys c). rewrite app_nil_r. destruct c. by split_and!.
  - destruct (IH (f (user (sys c))) lines (set_sys (set_user (f (user (sys c))) (sys c)) c) n out m b)
      as (t' & Hrun & Hrest); [|exact Hc|by exists t'].
    apply (serving_step d img lines _ c); try done; try apply Hs. by eapply program_computes.
  - destruct (answers _ _ _ _ _ _ _) as [[[[r out1] m1] b1]|] eqn:Hans; [|done]. cbn in Hc.
    destruct (answers_serve d img lines c _ _ _ _ _ _ _ _ Hs Hans) as (t1 & Hrun1 & Hs1 & Hsame1 & Hm1 & Hb1).
    destruct (converse room (next r m1) m1 b1) as [[[[n2 out2] m2] b2]|] eqn:Hc2; [|done]. injection Hc as <- <- <- <-.
    rewrite <-Hb1 in Hc2. rewrite <-Hm1 in Hc2 at 2.
    destruct (IH r m1 _ _ _ _ _ _ Hs1 Hc2) as (t2 & Hrun2 & Hs2 & Hsame2 & Hrest). exists t2.
    split; [|split; [by rewrite app_assoc|split; [by eapply same_but_output_trans|done]]].
    cbn [run_routine]. run_with Hrun1.
    change (run_routine clock call_deferred turns (next r (user t1)) t1 = (Done n2, t2)). rewrite Hm1. exact Hrun2.
Qed.

(** *** Waiting *)

Context (gap : Z).
Hypothesis clock_advances : ∀ n, clock n < clock (Datatypes.S n) <= clock n + gap.
Hypothesis enough_turns : 80000002 <= Z.of_nat turns.

Definition now c : Z := clock (readings (os (sys c))).

(** How much of the clock one wait takes at most: the timeout, what [demand_s]
    adds to it, and a few looks. *)
Definition turn_ticks : Z := 80000000 + 4 * gap.

Lemma wait_serves d img lines c :
  serving d img lines c → 0 <= now c → now c + 50000000 < 2 ^ 52 →
  ∃ c', wait_for_event clock call_deferred turns at_wait_for_event 50000000 at_evt c = (Done WAIT_TIMEOUT, c') ∧
    serving d img lines c' ∧ user (sys c') = user (sys c) ∧ brk_of (sys c') = brk_of (sys c) ∧
    now c + 80000000 < now c' <= now c + turn_ticks.
Proof using deferred_quiet QuietRegs0 clock_advances enough_turns.
  intros Hs Hnow Hmax. pose proof symbols_in_memory as (He & Hwt & _). pose proof (sys_table _ (srv_system _ _ _ _ Hs)) as Ht.
  destruct (demand_idle clock call_deferred (λ n, proj1 (clock_advances n)) gap turns 50000000 at_evt (os (sys c)))
    as (o & Hrun & Hc & Hd & Hb); try done; [intros n; apply clock_advances|apply Hs|].
  assert (∀ a2 a3 a4 a5, run_handler clock call_deferred turns demand_s_h 50000000 at_evt a2 a3 a4 a5 (sys c)
    = (Done WAIT_TIMEOUT, set_os o (sys c))) as Hh
    by (intros; cbn [run_handler]; unfold on_os, on; by rewrite Hrun).
  destruct (scall_spec clock call_deferred turns c at_wait_for_event 209 50000000 at_evt WAIT_TIMEOUT (set_os o (sys c)))
    as (h & Hcall & _ & _ & Hcpu); try done; [apply Hs|unfold in_u64; lia|].
  eexists. split; [exact Hcall|]. split; [|split; [done|split; [unfold brk_of; cbn; by rewrite Hc|unfold now, turn_ticks; cbn; lia]]].
  apply (serving_step d img lines lines c); try done; try apply Hs.
  - apply (call_step (sys c) 209 50000000 at_evt 0 demand_s_h (Done WAIT_TIMEOUT)); try done.
    repeat constructor; unfold u64_arg; lia.
  - apply Hcpu. by vm_compute.
  - unfold idle. cbn. rewrite Hc, Hd. apply Hs.
Qed.

(** What [main] needs of the volume and of the kernel when it mounts. *)
Record mountable c : Prop := {
  mnt_block : spare_block room (below (io (sys c)));
  mnt_size : zlen (_superblock (io (sys c))) = 1024 ∧ 2048 <= zlen (image (below (io (sys c))));
  mnt_groups : let sb := slice (image (below (io (sys c)))) 1024 1024 in
    sb.[ext2_superblock, "s_log_block_size"%string] < 21 ∧ sb.[ext2_superblock, "s_blocks_per_group"%string] ≠ 0;
}.

Lemma mount_serves d img lines c :
  serving d img lines c → mountable c →
  ∃ c', mount_hd clock call_deferred turns at_mount_hd c = (Done 0, c') ∧ serving d img lines c' ∧
    user (sys c') = user (sys c) ∧ os (sys c') = os (sys c).
Proof using deferred_quiet QuietRegs0.
  intros Hs [Hblk [Hlen Hin] [Hlog Hbpg]]. pose proof symbols_in_memory as (_ & _ & Hm).
  pose proof (sys_table _ (srv_system _ _ _ _ Hs)) as Ht.
  destruct (machine_mount (sys c)) as (i & Hrun & Hfds & Him & Htr); try done; [apply Hs|].
  destruct (scall_spec clock call_deferred turns c at_mount_hd 210 0 0 0 (set_io i (sys c))) as (h & Hcall & _ & _ & Hcpu);
    try done; [apply Hs|].
  eexists. split; [exact Hcall|]. split; [|by split]. apply (serving_step d img lines lines c); try done; try apply Hs.
  - apply (call_step (sys c) 210 0 0 0 mount_hd_s_h (Done 0)); try done. repeat constructor; unfold u64_arg; lia.
  - by apply Hcpu.
  - exact (eq_trans Him (srv_image _ _ _ _ Hs)).
  - exact (eq_trans Htr (srv_lines _ _ _ _ Hs)).
Qed.

(** *** The program *)

Section program.
Context `{!Stream room} `{!StreamRuns (S := machine D) clock call_deferred turns room interruptible}.
Hypothesis evt_apart : ∀ x, at_evt <= x < at_evt + 8 → ¬ in_library x.

Definition start_line : list byte := line "Starting up the runtime".
Definition timeout_line : list byte := line "There was a timeout!".

(** The program has printed [text]: the console has read it, but for what
    waits in the buffer of the library. *)
Definition printing d img text c : Prop :=
  (∃ out, serving d img out c ∧ out ++ pending (user (sys c)) = text) ∧
  library_ok (user (sys c)) (brk_of (sys c)) ∧ (line_buffered → pending (user (sys c)) = []).

Lemma printing_kept d img text c c' :
  printing d img text c → (∀ out, serving d img out c → serving d img out c') →
  (∀ x, in_library x → user (sys c') !! x = user (sys c) !! x) → brk_of (sys c') = brk_of (sys c) →
  printing d img text c'.
Proof.
  intros ((out & Hs & Htext) & Hlib & Hline) Hserve Hu Hb.
  destruct (library_own _ _ _ Hu Hlib) as [Hlib' Hp]. unfold printing. rewrite Hb, Hp. split; [by exists out; auto|done].
Qed.

Lemma printf_prints d img before text c :
  Byte.x25 ∉ text → zlen text <= room → last text = Some newline → printing d img before c →
  ∃ n c', printf text [] c = (Done n, c') ∧ printing d img (before ++ text) c' ∧ same_but_output c c'.
Proof using deferred_quiet QuietRegs0 Hroom StreamRuns0.
  intros Htext Hlen Hlast ((before_out & Hs & <-) & Hlib & Hline).
  destruct (printf_text text _ _ Htext Hlen Hlib) as (n & out & m & b & Hconv & Hlib' & Hpend & Hline').
  destruct (routine_serves d img before_out _ c _ _ _ _ Hs Hconv) as (t' & Hrun & Hs' & Hsame & Hm & Hb).
  destruct (printf_runs clock call_deferred turns text c Htext (srv_cpu _ _ _ _ Hs)) as (h' & Hh' & Hprintf).
  exists n, (Core h' t'). split; [by apply Hprintf|]. split; [|exact Hsame].
  unfold printing. cbn [sys]. rewrite Hm, Hb. split; [|by auto]. exists (before_out ++ out).
  split; [destruct Hs'; by split|]. by rewrite <-!app_assoc, Hpend.
Qed.

Lemma event_loop_prints d img fuel text c :
  printing d img text c → 0 <= now c → now c + Z.of_nat fuel * turn_ticks < 2 ^ 52 →
  ∃ c', event_loop clock call_deferred turns fuel c = (Stop Hang, c') ∧
    printing d img (text ++ concat (replicate fuel timeout_line)) c' ∧
    now c + Z.of_nat fuel * 80000000 <= now c'.
Proof using deferred_quiet QuietRegs0 Hroom clock_advances enough_turns StreamRuns0.
  revert text c. induction fuel as [|fuel IH]; intros text c Hp Hnow Hmax.
  { exists c. cbn. rewrite app_nil_r. split; [done|]. split; [done|lia]. }
  assert (0 <= gap) by (destruct (clock_advances 0); lia). unfold turn_ticks in *.
  pose proof Hp as ((out & Hs & Htext) & Hlib & Hline).
  destruct (wait_serves d img out c Hs Hnow) as (c1 & Hwait & Hs1 & Hu1 & Hb1 & Hnow1); [lia|]. unfold turn_ticks in *.
  assert (printing d img text c1) as Hp1 by (unfold printing; rewrite Hu1, Hb1; by split; [exists out|]).
  destruct (printf_prints d img text timeout_line c1) as (n & c2 & Hprint & Hp2 & Hr & _);
    [by apply (bool_decide_unpack _); vm_compute|change (zlen timeout_line) with 21; lia|done|done|].
  assert (now c2 = now c1) as Hnow2 by (unfold now; by rewrite Hr).
  destruct (IH _ _ Hp2) as (c3 & Hrun & Hp3 & Hnow3); [lia|lia|]. exists c3. split; [|split; [|lia]].
  - cbn [event_loop]. run_with Hwait. change (WAIT_TIMEOUT =? WAIT_TIMEOUT) with true. cbv iota.
    rewrite bind_assoc. run_with Hprint. exact Hrun.
  - cbn [replicate concat]. by rewrite app_assoc.
Qed.

(** The start line, and the disk mounted. *)
Lemma main_starts d img fuel c :
  printing d img [] c → mountable c →
  ∃ c', main clock call_deferred turns fuel c = event_loop clock call_deferred turns fuel c' ∧
    printing d img start_line c' ∧ now c' = now c.
Proof using deferred_quiet QuietRegs0 Hroom StreamRuns0 evt_apart.
  intros Hp [Hblk [Hlen Hin] Hgr]. unfold main.
  set (c0 := set_sys (store_field event at_evt "id" 0 (sys c)).2 c).
  assert (on_sys (store_field event at_evt "id" 0) c = (Done tt, c0)) as Hevt by done. run_with Hevt.
  assert (printing d img [] c0) as Hp0.
  { apply (printing_kept _ _ _ c); try done.
    - intros out Hs. apply (serving_step d img out _ c); try done; try apply Hs. by eapply program_computes.
    - intros x Hx. cbn. apply lookup_store_other. rewrite zlen_le_split. specialize (evt_apart x).
      change (offsetof event "id") with 0. change (Z.of_nat (Z.to_nat (fieldsize event "id"))) with 8.
      destruct (decide (at_evt <= x < at_evt + 8)); [by destruct evt_apart|lia]. }
  destruct (printf_prints d img [] start_line c0) as (n & c1 & Hprint & Hp1 & Hr & Hsb & Hblk1);
    [by apply (bool_decide_unpack _); vm_compute|change (zlen start_line) with 24; lia|done|done|].
  run_with Hprint. pose proof Hp as ((out0 & Hs0 & _) & _). pose proof Hp1 as ((out & Hs1 & Htext) & Hlib & Hline).
  pose proof (eq_trans (srv_image _ _ _ _ Hs0) (eq_sym (srv_image _ _ _ _ Hs1))) as Him.
  destruct (mount_serves d img out c1 Hs1) as (c2 & Hmnt & Hs2 & Hu2 & Ho2).
  { split; [by apply Hblk1| |]; rewrite <-Him; [|done]. split; [by rewrite Hsb|done]. }
  run_with Hmnt. exists c2. split; [done|]. split; [|unfold now; by rewrite Ho2, Hr].
  unfold printing, brk_of. rewrite Hu2, Ho2. by split; [exists out|].
Qed.
End program.
End runtime.

(** ** From reset to the first lines and on *)

Section booted.
Context {D : Type} `{!Platform D} `{!VirtioBlk D} `{!VirtioChain D} `{!LegacyBus D} `{!Linker} `{!StaleVring}.
Context `{!Uninit} `{!Build} `{!BootSymbols} `{!CalleeSaved} `{!CallConvention} `{!Stdio (machine D)} `{!RuntimeSymbols}.
Context (clock : nat → Z) (call_deferred : Z → Z → prog os_state unit) (turns : nat) (room gap : Z).
Context `{!Stream room} `{!StreamRuns (S := machine D) clock call_deferred turns room interruptible}.

(** The core [c] is at [main]: since the boot has ended in [t] the start code
    of the C library has run, which leaves the library in order and nothing in
    the buffer of the standard output. *)
Record at_main (t : system (machine D)) (c : core (machine D)) : Prop := {
  main_cpu : interruptible (cpu c);
  main_started : rtc (start_step clock call_deferred turns room) t (sys c);
  main_library : library_ok (user (sys c)) (brk_of (sys c)) ∧ pending (user (sys c)) = [];
}.

(** C2.  From reset to the output of the program.  On any good board the boot
    ends with [_start] about to run in user mode.  The C library's start code
    then computes and makes any of the calls it needs ([start_step]: the break,
    randomness, the clock, the state of its descriptors, ...), and comes to
    [main].  From there the program reports its start, mounts the disk, and
    reports a timeout in every turn of its loop; what it has printed is the
    line of the start and one line for each turn.  Of the C library's [printf]
    it is assumed that it is a stream ([Stream], [StreamRuns]): through the
    documented calls it puts out the characters in order, some of them later.
    So after any number of turns the console has read all of the text but what
    is still in the buffer of the library, which is bounded, and all of it when
    the library buffers lines.  The program is still in its loop, the disk is
    as it was before the boot, and the system is in order.  (The disk holds a
    superblock whose block size and blocks per group can be computed with; the
    variable [evt] is not in the objects of the library.  The clock stays below 2^52; a turn
    takes between 8*10^7 ticks and that and four looks.) *)
Theorem demandos_reports_timeouts fuel s :
  (∀ f c, upholds os_ok (call_deferred f c) any) → (∀ n, clock n < clock (S n) <= clock n + gap) →
  80000002 <= Z.of_nat turns → linked room → room < 2 ^ 31 →
  (∀ x, at_evt <= x < at_evt + 8 → ¬ in_library x) →
  left_by_firmware s → idle (os (kernel_of s)) →
  let img := image (machine_of s) in let sb := slice img 1024 1024 in
  2048 <= zlen img → sb.[ext2_superblock, "s_log_block_size"%string] < 21 → sb.[ext2_superblock, "s_blocks_per_group"%string] ≠ 0 →
  let start := clock (readings (os (kernel_of s))) in
  0 <= start → start + Z.of_nat fuel * turn_ticks gap < 2 ^ 52 →
  ∃ r s', _boot s = (Done r, s') ∧ pc r = at_start ∧ user_mode r = true ∧
    ∀ c, at_main (program_state r) c →
    ∃ c', main clock call_deferred turns fuel c = (Stop Hang, c') ∧
      let out := transcript CONSOLE_DRIVER 1 (below (io (sys c'))) in
      out ++ pending (user (sys c')) = start_line ++ concat (replicate fuel timeout_line) ∧
      zlen (pending (user (sys c'))) <= buffer_size ∧
      (line_buffered → out = start_line ++ concat (replicate fuel timeout_line)) ∧
      image (below (io (sys c'))) = img ∧ machine_ok off_storage room (sys c') ∧
      start + Z.of_nat fuel * 80000000 <= clock (readings (os (sys c'))).
Proof.
  intros Hdef Hclock Hturns Hlink Hroom Hevt Hfw Hidle img sb Hin Hlog Hbpg start Hstart Hmax.
  destruct (boot_runs room Hlink s Hfw)
    as (r & s' & m & b & drv & Hrun & Hst & Hok & _ & Hsp & Hfd & Him & Htr & _ & _ & _ & Hos & Hlen & Hblk & [Hhs Hhe] & _).
  exists r, s'. split; [exact Hrun|]. destruct (start_pc _ Hst) as [Hpc Hmode]. split; [exact Hpc|]. split; [exact Hmode|].
  intros c [Hcpu Hsteps [Hlib Hpend]].
  pose proof (link_stack _ Hlink). pose proof (link_storage _ Hlink). pose proof (link_room _ Hlink) as [Hr1024 _].
  assert (machine_ok off_heap room (program_state r)) as Hok'.
  { apply (machine_ok_mono seed_place); [|by intros ? []|exact Hok].
    intros x Hx. split; [by apply (seed_off_storage room Hlink)|left; rewrite Hx; lia]. }
  destruct (set_brk_answers _brk_start (os (kernel_of s))) as (o & Hbrk & _ & Hr & Hi).
  rewrite Hbrk in Hos. cbn [snd] in Hos.
  pose proof (start_steps_rest clock call_deferred turns Hdef room _ _ Hok' Hhs Hhe ltac:(lia) Hsteps) as Hrest.
  pose proof (resting_spare room _ _ Hhs Hhe Hrest Hblk) as Hblk'.
  destruct Hrest as [Hokc [Hfds Hsb] Himc Htrc [Hrc Hic] _ _ _]. rewrite Hos, Hr in Hrc. rewrite Hos in Hic.
  set (d := IoDescriptor true 0 0 (Some stdout_write_handler_f) None None).
  assert (printing off_heap room d img [] c) as Hp.
  { split; [|by split]. exists []. split; [|by rewrite Hpend]. split; try done; [by auto| |by rewrite Himc|by rewrite Htrc].
    split; [by rewrite Hfds|done]. }
  destruct (main_starts clock call_deferred turns Hdef off_heap room ltac:(lia) Hevt d img fuel c Hp)
    as (c1 & Hmain & Hp1 & Hnow1).
  { split; rewrite ?Hsb, ?Himc, ?Him; done. }
  assert (now clock c1 = start) as Hstart1 by (rewrite Hnow1; unfold now; by rewrite Hrc).
  destruct (event_loop_prints clock call_deferred turns Hdef off_heap room ltac:(lia) gap Hclock Hturns d img fuel _ c1 Hp1)
    as (c' & Hloop & ((out & Hs & Htext) & Hlibc & Hline) & Hnow); [lia|lia|].
  exists c'. rewrite Hmain. split; [exact Hloop|]. rewrite (srv_lines _ _ _ _ _ _ Hs). cbn zeta. rewrite Hstart1 in Hnow.
  split_and!; try done.
  - by eapply pending_fits.
  - intros Hl. by rewrite <-Htext, (Hline Hl), app_nil_r.
  - apply Hs.
  - apply (machine_ok_mono off_heap); [by intros ? []|done|apply Hs].
Qed.
End booted.

(** ** A concrete run

    The library of BufferedStdio.v, without a buffer and with one of 64
    bytes; a disk with nothing on it but the number of blocks in a group.
    The start code asks for twenty random bytes and empties the buffer of the
    library; then the program does five turns. *)
#[export, refine] Instance runtime_symbols : RuntimeSymbols :=
  {| at_evt := 16384; at_wait_for_event := 65536; at_mount_hd := 65600 |}.
Proof. lia. Defined.

Definition grouped_disk : list byte := put_le (zeros 2048) (1024 + 32) 4 8192.

Definition sample_printf {D} `{!Platform D} `{!Uninit} `{!Build} : Z → Stdio (machine D) :=
  buffered_printf slow_clock no_deferred (Z.to_nat 80000002).

Definition sample_start {D} `{!Platform D} `{!Uninit} `{!Build} (t : system (machine D)) : core (machine D) :=
  let t := (system_call_dispatcher slow_clock no_deferred (Z.to_nat 80000002) 8 0 0 0 278 64 20 0 0 0 0 t).2 in
  Core (cpu (sample_core 0)) (set_user (store_le (user t) 4088 8 0) t).

Lemma sample_at_main (r : running) cap (Hcap : 0 <= cap <= 64) :
  @at_main _ _ _ _ _ slow_clock no_deferred (Z.to_nat 80000002) 4096 (buffered cap Hcap) (program_state r)
    (sample_start (program_state r)).
Proof.
  assert (load_le (user (sys (sample_start (program_state r)))) 4088 8 = 0) as Hn
    by (cbn; by rewrite load_le_store_le_same).
  split.
  - apply sample_interruptible. split; lia.
  - eapply rtc_l; [|eapply rtc_once, start_computes; reflexivity].
    eapply (start_call _ _ _ _ _ _ 8 0 0 0 278 64 20 0 0 0 0); [lia| | |lia|reflexivity].
    + change (get_random_s_h ∈ start_calls). unfold start_calls. rewrite !elem_of_cons. auto 10.
    + repeat constructor; unfold u64_arg; lia.
  - cbn [library_ok pending buffered]. unfold waiting. rewrite Hn. split; [lia|done].
Qed.

Lemma demandos_reports_timeouts_witness :
  ∃ r s', _boot (firmware_state grouped_disk []) = (Done r, s') ∧
    let text := start_line ++ concat (replicate 5 timeout_line) in
    let run cap := main (Stdio0 := sample_printf cap) slow_clock no_deferred (Z.to_nat 80000002) 5 (sample_start (program_state r)) in
    (∃ c', run 0 = (Stop Hang, c') ∧ transcript CONSOLE_DRIVER 1 (below (io (sys c'))) = text) ∧
    ∃ c' rest, run 64 = (Stop Hang, c') ∧ transcript CONSOLE_DRIVER 1 (below (io (sys c'))) ++ rest = text ∧ zlen rest <= 64.
Proof.
  assert (∀ cap (Hcap : 0 <= cap <= 64), ∃ r s', _boot (firmware_state grouped_disk []) = (Done r, s') ∧
    ∃ c' rest, main (Stdio0 := sample_printf cap) slow_clock no_deferred (Z.to_nat 80000002) 5 (sample_start (program_state r))
        = (Stop Hang, c') ∧
      let out := transcript CONSOLE_DRIVER 1 (below (io (sys c'))) in
      out ++ rest = start_line ++ concat (replicate 5 timeout_line) ∧ zlen rest <= cap ∧
      (cap = 0 → out = start_line ++ concat (replicate 5 timeout_line))) as Hrun.
  { intros cap Hcap. pose (lib := buffered cap Hcap). pose (print := sample_printf (D := board) cap).
    pose proof (buffered_runs (S := machine board) slow_clock no_deferred (Z.to_nat 80000002) interruptible cap Hcap) as Hprint.
    destruct (demandos_reports_timeouts (Stdio0 := print) (Stream0 := lib) (StreamRuns0 := Hprint)
      slow_clock no_deferred (Z.to_nat 80000002) 4096 700 5 (firmware_state grouped_disk []))
      as (r & s' & Hrun & _ & _ & Hmain).
    - apply no_deferred_quiet.
    - intros n. unfold slow_clock. lia.
    - lia.
    - exact sample_linked.
    - reflexivity.
    - intros x Hx. cbn in *. lia.
    - apply firmware_ready; vm_compute; congruence.
    - split; reflexivity.
    - vm_compute. congruence.
    - vm_compute. reflexivity.
    - vm_compute. congruence.
    - vm_compute. congruence.
    - vm_compute. reflexivity.
    - destruct (Hmain _ (sample_at_main r cap Hcap)) as (c' & Hc & Htext & Hrest & Hline & _).
      exists r, s'. split; [exact Hrun|]. exists c', (waiting (user (sys c'))). split; [exact Hc|]. split; [exact Htext|by split]. }
  destruct (Hrun 0 ltac:(lia)) as (r & s' & Hboot & c0 & rest0 & Hmain0 & _ & _ & Hout0).
  destruct (Hrun 64 ltac:(lia)) as (r' & s'' & Hboot' & Hmain'). rewrite Hboot in Hboot'. injection Hboot' as <- <-.
  destruct Hmain' as (c1 & rest & Hmain1 & Htext & Hlen & _).
  exists r, s'. split; [exact Hboot|]. split; [exists c0; split; [exact Hmain0|by apply Hout0]|].
  exists c1, rest. split; [exact Hmain1|]. split; [exact Htext|exact Hlen].
Defined.
